(* ===== verification/_CoqProject ===== *)
-Q . S2P
Prelude.v
Bytes.v
Sha256.v
GoSort.v
GoJson.v
GoText.v
Decimals.v
Kube.v
Fixtures.v
Normalize.v
NormalizeV2.v
Hash.v
Surface.v
Identity.v
Registry.v
Verify.v
Domains.v
Golden.v
Signer.v
Client.v
Abi.v
Validate.v
WorkQueue.v
Publisher.v
PublisherSteps.v
Controller.v
VerifyCmd.v
EndToEnd.v
System.v
Cmd.v
VerifyMain.v
Deployed.v
Fleet.v
Recovery.v
PublisherV2.v
PublisherV2Inv.v
PublisherV2Turn.v
PublisherV2World.v
Shutdown.v
PublisherV2Live.v
NodeV2.v
LifetimeV2.v
SystemV2.v
OnceV2.v
NonceV2.v
