(* ===== verification/Prelude.v ===== *)
(** * proof-of-deploy: a verification library

    ** The program

    proof-of-deploy attests Kubernetes Deployments.  An operator watches Deployments
    ([internal/controller]); when a rollout has converged it hashes a normalized view
    of the object ([internal/attest]) and hands a job to a publisher
    ([internal/publisher]), which signs the version-bound digest with an AWS KMS key
    ([internal/signer]) and writes the attestation to a registry contract
    ([contracts/]) through a chain client ([internal/chain]).  Anyone can run
    [pod-verify] ([cmd/verify]): it recomputes the hash of the live object with the same
    code and compares it, the signer's fingerprint and the signature with the record.
    The v2 protocol widens the hashed surface, binds the cluster and the object's UID in
    an envelope, and has its own contract, client, startup validation and publisher.

    ** The files

    Foundations
    - [Prelude]: errors, results, slices and maps of Go; tactics; list lemmas.
    - [Bytes]: bytes, fixed-width integers, [[32]byte], big-endian and hex encodings.
    - [Sha256]: [sha256.Sum256], executable, checked on the FIPS vectors.
    - [GoSort]: [sort.Slice] and [sort.Strings] through the class [Sorter]: any
      permutation that is sorted.  Nothing depends on which one.
    - [GoJson]: [json.Marshal], with its escaping, and its injectivity by a parser.
    - [GoText], [Decimals]: white space; decimal notation of exact values.
    - [WorkQueue]: the rate-limiting queue of client-go as interfaces with laws: the calls
      ([QueueOps]), an open queue ([WorkQueue]), in which an item may be ready and wait out
      a back-off at once, and one that is shut down ([ClosedQueue]).

    Attestation (internal/attest)
    - [Kube]: the Kubernetes types that are read; their JSON encoders and Quantity are
      the class [Upstream], which includes the laws [DecLaws] of decimal text, with a
      concrete instance.  [Fixtures]: the test Deployments.
    - [Normalize], [NormalizeV2]: normalize.go, types.go, normalize_v2.go, types_v2.go.
    - [Hash]: hash.go and version.go; [Surface]: what each version tells apart, as a setoid.
      [Identity]: identity.go and envelope.go.
    - [Verify]: verify.go, over the class [Crypto].  [Domains]: what is hashed for which
      purpose.
    - [Golden]: the repository's golden hashes, recomputed by evaluation.

    Chain, signer, publishers, programs
    - [Registry]: the two contracts, modules [RegistryV1] and [RegistryV2].
    - [Signer]: kms.go, and the interface [AttestSigner] the publishers rely on.
    - [Client]: client.go and client_v2.go over go-ethereum ([Backend], [EthLib]).
      [Abi]: the ABI constants.  [Validate]: validate.go, registry_v2_runtime.go.
    - [Publisher]: publisher.go, whole turns; [PublisherSteps] the worker cut at every
      call it makes, and the outbox it implements.  [Controller]:
      deployment_controller.go.
    - [PublisherV2]: publisher_v2.go; [PublisherV2Inv] its invariants over runs,
      [PublisherV2Turn] single turns and concrete runs, [PublisherV2World] the rule for
      invariants of the world and the log, [PublisherV2Live] termination and progress.
      [Shutdown]: what happens to both publishers once their context is cancelled.
    - [VerifyCmd]: cmd/verify/main.go, runVerify and what it calls; [VerifyMain] its
      main: flags, printed reports and exit status, over the class [Cobra].
    - [Cmd]: cmd/main.go and buildinfo.go.

    Compositions
    - [EndToEnd]: one v1 publication and one verification.
    - [System]: the v1 system as one transition system: the reconciler and the calls of
      the worker in any order, a node that mines late, out of order, repeatedly or never,
      and other accounts.  [Deployed]: the processes of the two programs around it, from
      the operator's main to the verifier's exit status.  [Fleet]: any number of operator
      processes that start, stop and die at any moment; [Recovery]: what a restart brings
      back.
    - [NodeV2]: the contract of the publisher's [ChainV2] interface over a node that runs
      the v2 registry ([HonestChain]), discharged by the v2 client over any such backend
      ([HonestNode]).  [LifetimeV2]: one process of the v2 publisher after another, dying
      anywhere, also inside a turn.  [SystemV2]: such a life against that contract.
    - [OnceV2]: what a chain promises of transactions ([HonestReceipts], and [ReceiptNode]
      for backends), and how often a revision is attested; a node with account nonces
      that keeps every interface.  [NonceV2]: a transaction whose nonce is gone.

    ** How the code is represented

    A Go function keeps its name; a method takes its receiver as an argument.  A function
    returning [(T, error)] returns [result T]; an [error] keeps its format string,
    arguments and wrapped error, so error branches are told apart.  Nil and empty slices
    and maps are distinct wherever encoding/json tells them apart.  Integers are [Z] with
    the wrap-around ([uint16], [uint32], [uint64]) where the code converts or counts.
    Remote services (KMS, RPC nodes, the API server) are parameters acting on an
    arbitrary world state and may answer anything; laws of libraries are the fields of
    the classes [Sorter], [Upstream] (with [DecLaws]), [MapRange], [WorkQueue],
    [ClosedQueue] and [ShutDown], each with a concrete instance on which the theorems are
    instantiated.  No law is assumed of SHA-256 or ECDSA: a hash theorem concludes "equal, or these two explicit byte
    strings collide", and signature theorems speak of the verification function itself.
    The v2 publisher's worker is interleaved with enqueues at every external call
    ([concurrent]); a ghost log of the calls, in which an [Enqueue] also shows the number
    of the revision it started, carries its theorems.  The v1 worker is a step relation
    between calls ([PublisherSteps.advance]), of which a turn of [Publisher.processNext]
    is the uninterrupted case.  [q_Get] answers [None] when nothing is left: the worker
    would wait there, or return once the queue is shut down.

    ** What the theorems show

    - Hashing: the canonical bytes of v1 and v2 are equal exactly for Deployments equal
      on the protocol's surface ([v1_equiv], [v2_equiv]), for every sort algorithm; the
      config hash, signing digest, envelope digest, workload id and incarnation bind
      what they encode; the bytes hashed for its eight purposes are disjoint; quantities
      are compared as exact numbers; v2 tells apart whatever v1 does, but for the replica count; the surfaces are
      equivalences, on which hash and verdict are functions.
    - Registry: the storage is a function of the call history (the last accepted call
      per workload); only the publisher changes it; the v2 event log rebuilds it.
    - Signer: it is built exactly on acceptable keys, and what it returns verifies under
      the key it advertises.
    - Client, Abi, Validate: constant, contract and client agree by name, position and
      type; outcomes report only what was observed; validation accepts exactly the
      pinned bytecode with the configured publisher spliced in.
    - Publishers: the v1 worker refines a set of requests under every interleaving, and no
      job or revision is lost; at most one transaction of a revision is outstanding until
      a revert, and one that can no longer be mined is kept for ever; confirmation needs
      evidence; only verified signatures over the right envelope are handed to the chain.
      When failures and requests are finite in number both worker loops stop with
      everything published or confirmed; told to stop, they stop within a bound the queue
      gives, whatever the services answer.
    - Reconciler: exact branches; the jobs are the changes of the observed hashes.
    - Verifier and operator: PASS is exact, detects tampering, never downgrades, and
      depends on the live object through its surface only; the operator runs only on
      checked parts; an honest publication passes verification; exit status, printed
      verdict and outcome agree.
    - Systems: v1, a PASS, and exit status 0 of the verifier's process, is about a converged
      Deployment that some replica of the operator read, and what a replica reads becomes
      verifiable even if it dies once it published, and what a crash lost comes back with a
      restart; v2, across crashes and restarts, whatever the contract holds was asked for,
      at most once per request that started the revision, what the publisher counts as
      confirmed is in the contract's log, and what is asked for is accepted by the
      contract.

    ** Bounds

    Recursion is structural except where fuel is the length of the input ([blank_bytes],
    with a lemma that it is enough), the scale of a decimal ([strip_zeros]) or the number
    of blocks ([Sha256.blocks]).  The worker loops ([Publisher.Start],
    [PublisherV2.Start]) run on fuel; their theorems give the amount that is enough,
    read off the state: the entries of the queue ([load], at most two per item) plus the
    failures still to come, in v2 twice those.
    Liveness is relative to a budget that bounds failures and later requests, and to
    versions that do not truncate to 0, which the clients refuse and [Enqueue] does not.
    For v2 the budget also bounds failed sends of a transaction already prepared, which
    excludes that its nonce is used by another ([NonceV2] shows what happens then).  A
    process is assumed not to wrap its 64-bit revision counter ([demand], [n_enq],
    [in_bounds]).

    ** Not modelled

    Argument parsing inside flag and cobra, kubeconfig parsing, logging (with
    [WorkloadIdentityV2.String], which only logs use), closing of connections, HTTP and
    TLS, timeouts and back-off durations, the election of a leader (the v1 theorems
    hold for replicas that all work at once; v2 processes follow one another), reorgs, and
    the YAML, CI and Hardhat parts of the repository.  The repository has no adapter from
    the v2 client to the v2 publisher yet; [NodeV2.over_client] is the field-by-field
    one. *)

From Stdlib Require Export ZArith Lia Bool Permutation Sorted.
From stdpp Require Export base decidable option list gmap strings.

#[global] Set Default Goal Selector "!".
#[export] Set Warnings "-clear-no-such-hyp".

(** ** Errors and results

    A Go function returning [(T, error)] is a function into [result T].  An
    [error] is either a sentinel made by [errors.New] or the value made by
    [fmt.Errorf], which keeps its format string, its printed arguments and the
    error wrapped with [%w], if any. *)
#[warnings="-register-all"]
Inductive fmt_arg :=
  | ArgS (s : string)
  | ArgZ (z : Z)
  | ArgB (b : list Byte.byte)
  | ArgE (e : error)
with error :=
  | errors_New (msg : string)
  | fmt_Errorf (format : string) (args : list fmt_arg) (wrapped : option error).

Inductive result (A : Type) :=
  | Ok (a : A)
  | Err (e : error).
Arguments Ok {A} a.
Arguments Err {A} e.

(** [errors.Is]: does the chain of wrapped errors contain this sentinel? *)
Fixpoint errors_Is (e : error) (msg : string) : bool :=
  match e with
  | errors_New m => bool_decide (m = msg)
  | fmt_Errorf _ _ (Some w) => errors_Is w msg
  | fmt_Errorf _ _ None => false
  end.

Declare Scope go_scope.
Delimit Scope go_scope with go.
Open Scope go_scope.

(** [x, err := c; if err != nil { return err }; k] *)
Notation "x <-? c ;; k" :=
  (match c with Ok x => k | Err e => Err e end)
  (at level 100, c at next level, right associativity) : go_scope.

Definition is_ok {A} (r : result A) : bool :=
  match r with Ok _ => true | Err _ => false end.

(** ** Slices and maps

    A Go slice or map is either [nil] or present; [encoding/json] and
    [nonNilSlice] tell the two apart, so the model does. *)
Definition slice (A : Type) := option (list A).
Definition elems {A} (s : slice A) : list A := default [] s.

Abbreviation strmap := (gmap string string).
Definition gomap := option strmap.
Definition entries (m : gomap) : strmap := default ∅ m.

(** [append([]T(nil), xs...)]: still nil when there is nothing to append. *)
Definition append_nil {A} (xs : list A) : slice A :=
  match xs with [] => None | _ => Some xs end.

(** ** Automation *)

Create HintDb go.

(** Split a hypothesis [result = Ok _] or [= Err _] along the matches that
    produced it. *)
Ltac destruct_result :=
  repeat match goal with
  | H : context [match ?x with _ => _ end] |- _ =>
      let E := fresh "E" in destruct x eqn:E; simplify_eq
  end.

(** Case analysis on every test in the goal. *)
Ltac cases :=
  repeat match goal with
  | |- context [match ?x with _ => _ end] =>
      let E := fresh "E" in destruct x eqn:E; simplify_eq
  end.

(** ** Lists *)

Lemma app_eq_length {A} (a b c d : list A) :
  length a = length c → a ++ b = c ++ d → a = c ∧ b = d.
Proof.
  revert c. induction a as [|x a IH]; intros [|y c] Hl H; simplify_eq/=; auto.
  destruct (IH c) as [-> ->]; auto.
Qed.

Lemma app_eq_length_r {A} (a b c d : list A) :
  length b = length d → a ++ b = c ++ d → a = c ∧ b = d.
Proof.
  intros Hl H. apply app_eq_length; [|done].
  apply (f_equal length) in H. rewrite !length_app in H. lia.
Qed.

Lemma map_inj_Forall {A B} (f : A → B) (P : A → Prop) (l l' : list A) :
  (∀ x y, P x → P y → f x = f y → x = y) →
  Forall P l → Forall P l' → map f l = map f l' → l = l'.
Proof.
  intros Hf Hl. revert l'. induction Hl as [|x l Hx Hl IH]; intros [|y l'] Hl' H;
    simplify_eq/=; [done|].
  apply Forall_cons in Hl' as [Hy Hl']. f_equal; auto.
Qed.

Lemma map_inj {A B} (f : A → B) (l l' : list A) :
  Inj (=) (=) f → map f l = map f l' → l = l'.
Proof.
  intros Hf. apply (map_inj_Forall f (λ _, True)); [|by apply Forall_true..].
  intros x y _ _. apply Hf.
Qed.

(** Run a fallible function over a list, stopping at the first error. *)
Fixpoint mapR {A B} (f : A → result B) (l : list A) : result (list B) :=
  match l with
  | [] => Ok []
  | a :: l => b <-? f a;; bs <-? mapR f l;; Ok (b :: bs)
  end.

Lemma mapR_Ok {A B} (f : A → result B) l bs :
  mapR f l = Ok bs ↔ Forall2 (λ a b, f a = Ok b) l bs.
Proof.
  split.
  - revert bs. induction l as [|a l IH]; intros bs H; simplify_eq/=; [constructor|].
    destruct_result. constructor; auto.
  - induction 1 as [|a b l bs Ha _ IH]; simpl; [done|]. by rewrite Ha, IH.
Qed.

Lemma mapR_ext {A B} (f : A → result B) l l' :
  Forall2 (λ a b, f a = f b) l l' → mapR f l = mapR f l'.
Proof. induction 1 as [|a b l l' Ha _ IH]; simpl; [done|]. by rewrite Ha, IH. Qed.

Lemma mapR_inj {A B} (f : A → result B) l l' bs :
  mapR f l = Ok bs → mapR f l' = Ok bs → Forall2 (λ a b, f a = f b) l l'.
Proof.
  rewrite !mapR_Ok. intros H. revert l'.
  induction H as [|a b l bs Ha _ IH]; intros l' H'; inv H'; constructor; auto. congruence.
Qed.

#[export] Instance Ok_inj A : Inj (=) (=) (@Ok A).
Proof. intros a b H. by simplify_eq. Qed.

Lemma Forall2_map {A B C D} (P : C → D → Prop) (f : A → C) (g : B → D) l l' :
  Forall2 P (map f l) (map g l') ↔ Forall2 (λ x y, P (f x) (g y)) l l'.
Proof. apply Forall2_fmap. Qed.

Lemma bind_Ok {A B} (r : result A) (f : A → B) b :
  (a <-? r;; Ok (f a)) = Ok b ↔ ∃ a, r = Ok a ∧ b = f a.
Proof.
  destruct r as [x|e]; split; [intros [= <-]; eauto|by intros (a & [= ->] & ->)|done|].
  by intros (a & ? & _).
Qed.

(** [len(s) == 0] *)
Definition is_nil {A} (l : list A) : bool := match l with [] => true | _ => false end.

Lemma is_nil_spec {A} (l : list A) : reflect (l = []) (is_nil l).
Proof. destruct l; by constructor. Qed.

(** ** Loops

    [for next() {}]: run until the step says stop, or the fuel is used up. *)
Fixpoint loop {A} (next : A → option A) (fuel : nat) (a : A) : A :=
  match fuel with
  | O => a
  | S fuel' => match next a with Some a' => loop next fuel' a' | None => a end
  end.

(** A loop whose step decreases a measure stops by itself within that many turns, and
    ends in a state that satisfies the invariant. *)
Lemma loop_stops {A} (next : A → option A) (I : A → Prop) (measure : A → nat) fuel a :
  (∀ a a', I a → next a = Some a' → I a' ∧ (measure a' < measure a)%nat) →
  I a → (measure a ≤ fuel)%nat →
  I (loop next fuel a) ∧ next (loop next fuel a) = None.
Proof.
  intros Hstep. revert a. induction fuel as [|fuel IH]; intros a Ha Hm; simpl.
  - split; [done|]. destruct (next a) as [a'|] eqn:E; [|done].
    destruct (Hstep a a' Ha E). lia.
  - destruct (next a) as [a'|] eqn:E; [|by rewrite E].
    destruct (Hstep a a' Ha E). apply IH; [done|lia].
Qed.

(** A list without repetitions whose elements each own one of another list is no longer. *)
Lemma length_le_inj {A B} (R : A → B → Prop) (l : list A) (l' : list B) :
  NoDup l → (∀ x, x ∈ l → ∃ y, y ∈ l' ∧ R x y) → (∀ x x' y, R x y → R x' y → x = x') →
  (length l ≤ length l')%nat.
Proof.
  intros Hnd. revert l'. induction Hnd as [|x l Hx _ IH]; intros l' HR Hinj; simpl; [lia|].
  destruct (HR x) as (y & (l1 & l2 & ->)%list_elem_of_split & Hy); [by left|].
  rewrite length_app. simpl. rewrite Nat.add_succ_r, <- length_app. apply le_n_S, IH; [|done].
  intros x' Hx'. destruct (HR x') as (y' & Hin & Hy'); [by right|]. exists y'. split; [|done].
  rewrite !elem_of_app, elem_of_cons in *. destruct Hin as [|[->|]]; auto.
  destruct Hx. by rewrite (Hinj x x' y).
Qed.

Lemma filter_fmap {A B} (f : A → B) (P : B → Prop) `{∀ y, Decision (P y)} (l : list A) :
  filter P (f <$> l) = f <$> filter (λ x, P (f x)) l.
Proof.
  induction l as [|x l IH]; [done|]. rewrite fmap_cons, !filter_cons, IH.
  by destruct (decide _).
Qed.

Lemma NoDup_filter_fst {A B} (P : A * B → Prop) `{∀ p, Decision (P p)} l :
  NoDup l.*1 → NoDup (filter P l).*1.
Proof.
  intros Hl. induction l as [|p l IH]; [done|]. rewrite fmap_cons in Hl. apply NoDup_cons in Hl as [Hp Hl]. 
  rewrite filter_cons. destruct (decide (P p)); [|auto]. rewrite fmap_cons. constructor; [|auto].
  intros (q & E & [_ Hq]%list_elem_of_filter)%list_elem_of_fmap.
  apply Hp, list_elem_of_fmap. by exists q.
Qed.

Lemma NoDup_fst_inj {A B} (l : list (A * B)) x a b :
  NoDup l.*1 → (x, a) ∈ l → (x, b) ∈ l → a = b.
Proof.
  induction l as [|p l IH]; [by intros _ ?%not_elem_of_nil|].
  rewrite fmap_cons. intros [Hp Hl]%NoDup_cons. rewrite !elem_of_cons.
  intros [<-|Ha] [E|Hb]; [congruence|..|by auto].
  - destruct Hp. apply list_elem_of_fmap. by exists (x, b).
  - subst p. destruct Hp. apply list_elem_of_fmap. by exists (x, a).
Qed.

(** Running on after the loop has stopped changes nothing. *)
Lemma loop_stable {A} (next : A → option A) fuel fuel' a :
  next (loop next fuel a) = None → (fuel ≤ fuel')%nat → loop next fuel' a = loop next fuel a.
Proof.
  revert fuel' a. induction fuel as [|fuel IH]; intros [|fuel'] a Hn Hf; simpl in *.
  - done.
  - by rewrite Hn.
  - lia.
  - destruct (next a); [apply IH; [done|lia]|done].
Qed.

(** The members of a list of lists, and the same with the position of their list. *)
Lemma elem_of_concat {A} (x : A) (ls : list (list A)) : x ∈ concat ls ↔ ∃ l, l ∈ ls ∧ x ∈ l.
Proof.
  rewrite list_elem_of_In, in_concat.
  split; intros (l & H1 & H2); exists l; [by rewrite !list_elem_of_In|by rewrite <- !list_elem_of_In].
Qed.

Definition indexed {A} (ls : list (list A)) : list (nat * A) :=
  concat (imap (λ i l, (i,.) <$> l) ls).

Lemma elem_of_indexed {A} (ls : list (list A)) i l x :
  ls !! i = Some l → x ∈ l → (i, x) ∈ indexed ls.
Proof.
  intros Hl Hx. apply elem_of_concat. exists ((i,.) <$> l). split.
  - apply list_elem_of_lookup. exists i. by rewrite list_lookup_imap, Hl.
  - by apply list_elem_of_fmap_2.
Qed.

Lemma length_indexed {A} (ls : list (list A)) : length (indexed ls) = length (concat ls).
Proof.
  unfold indexed. assert (Hg : ∀ f : nat → nat,
    length (concat (imap (λ i l, (f i,.) <$> l) ls)) = length (concat ls)); [|apply (Hg id)].
  induction ls as [|l ls IH]; intros f; [done|].
  rewrite imap_cons. simpl. rewrite !length_app, length_fmap. f_equal. apply (IH (f ∘ S)).
Qed.

Lemma omap_concat {A B} (f : A → option B) (ls : list (list A)) :
  omap f (concat ls) = concat (map (omap f) ls).
Proof. induction ls as [|l ls IH]; [done|]. simpl. by rewrite omap_app, IH. Qed.
