(* ===== verification/Bytes.v ===== *)
(** * Bytes, fixed-width integers and hexadecimal

    Go's [[]byte], [[32]byte] and string conversions, the big-endian appends of
    [encoding/binary] and the lower-case rendering of [encoding/hex]. *)

From S2P Require Import Prelude.
From Stdlib Require Import Strings.Byte Strings.Ascii Eqdep_dec.

Abbreviation byte := Byte.byte.
Abbreviation bytes := (list Byte.byte).

Open Scope Z_scope.

(** ** One byte *)

#[export] Instance byte_eq_dec : EqDecision byte := Byte.byte_eq_dec.

Definition byte_Z (b : byte) : Z := Z.of_N (Byte.to_N b).

(** The conversion [byte(z)]: the low eight bits. *)
Definition Z_byte (z : Z) : byte :=
  match Byte.of_N (Z.to_N (z mod 256)) with Some b => b | None => x00 end.

Lemma byte_Z_range b : 0 ≤ byte_Z b < 256.
Proof. unfold byte_Z. pose proof (Byte.to_N_bounded b). lia. Qed.

Lemma byte_Z_of z : byte_Z (Z_byte z) = z mod 256.
Proof.
  unfold byte_Z, Z_byte. pose proof (Z.mod_pos_bound z 256 eq_refl) as Hz.
  destruct (Byte.of_N (Z.to_N (z mod 256))) as [b|] eqn:E.
  - apply Byte.to_of_N in E. rewrite E. lia.
  - apply Byte.of_N_None_iff in E. lia.
Qed.

#[export] Instance byte_Z_inj : Inj (=) (=) byte_Z.
Proof.
  intros a b H. unfold byte_Z in H. apply N2Z.inj in H.
  apply (f_equal Byte.of_N) in H. rewrite !Byte.of_to_N in H. congruence.
Qed.

Lemma Z_byte_of b : Z_byte (byte_Z b) = b.
Proof.
  apply (inj byte_Z). rewrite byte_Z_of. apply Z.mod_small, byte_Z_range.
Qed.

#[export] Instance byte_countable : Countable byte.
Proof.
  refine (inj_countable' Byte.to_N (λ n, default x00 (Byte.of_N n)) _).
  intros b. by rewrite Byte.of_to_N.
Defined.

(** ** Strings as bytes: [[]byte(s)] *)

Definition bytes_of (s : string) : bytes := String.list_byte_of_string s.

#[export] Instance bytes_of_inj : Inj (=) (=) bytes_of.
Proof.
  intros a b H. apply (f_equal String.string_of_list_byte) in H.
  unfold bytes_of in H. by rewrite !String.string_of_list_byte_of_string in H.
Qed.

Lemma bytes_of_app s t : bytes_of (s +:+ t) = (bytes_of s ++ bytes_of t)%list.
Proof.
  induction s as [|c s IH]; [done|].
  change (bytes_of (String c s +:+ t)) with (Ascii.byte_of_ascii c :: bytes_of (s +:+ t)).
  by rewrite IH.
Qed.

Definition len (s : string) : Z := Z.of_nat (length (bytes_of s)).

Lemma bytes_of_nil s : bytes_of s = [] ↔ s = EmptyString.
Proof. split; [|by intros ->]. intros H. by apply (inj bytes_of). Qed.

(** ** Unsigned integers, and the big-endian appends of encoding/binary *)

Definition uint8 (z : Z) : Z := z mod 2 ^ 8.
Definition uint16 (z : Z) : Z := z mod 2 ^ 16.
Definition uint32 (z : Z) : Z := z mod 2 ^ 32.
Definition uint64 (z : Z) : Z := z mod 2 ^ 64.

Fixpoint be_bytes (n : nat) (z : Z) : bytes :=
  match n with
  | O => []
  | S n' => Z_byte (Z.shiftr z (8 * Z.of_nat n')) :: be_bytes n' z
  end.

Definition be_Z (l : bytes) : Z :=
  fold_left (λ acc b, acc * 256 + byte_Z b) l 0.

Definition AppendUint16 (dst : bytes) (v : Z) : bytes := dst ++ be_bytes 2 v.
Definition AppendUint32 (dst : bytes) (v : Z) : bytes := dst ++ be_bytes 4 v.

Lemma length_be_bytes n z : length (be_bytes n z) = n.
Proof. induction n; simpl; auto. Qed.

Lemma be_Z_acc l acc :
  fold_left (λ acc b, acc * 256 + byte_Z b) l acc =
  acc * 2 ^ (8 * Z.of_nat (length l)) + be_Z l.
Proof.
  unfold be_Z. revert acc. induction l as [|b l IH]; intros acc.
  - simpl. rewrite Z.mul_1_r. lia.
  - cbn [fold_left length]. rewrite IH, (IH (0 * 256 + byte_Z b)).
    rewrite Nat2Z.inj_succ, Z.mul_succ_r, Z.pow_add_r by lia.
    change (2 ^ 8) with 256. ring.
Qed.

Lemma be_Z_bytes n z : be_Z (be_bytes n z) = z mod 2 ^ (8 * Z.of_nat n).
Proof.
  induction n as [|n IH]; [by rewrite Z.mod_1_r|].
  cbn [be_bytes]. unfold be_Z. cbn [fold_left]. rewrite be_Z_acc, IH.
  rewrite length_be_bytes, byte_Z_of, Z.shiftr_div_pow2 by lia.
  rewrite Nat2Z.inj_succ, Z.mul_succ_r, Z.pow_add_r by lia.
  change (2 ^ 8) with 256. rewrite Z.rem_mul_r by lia. ring.
Qed.

Lemma be_bytes_inj n a b :
  0 ≤ a < 2 ^ (8 * Z.of_nat n) → 0 ≤ b < 2 ^ (8 * Z.of_nat n) →
  be_bytes n a = be_bytes n b → a = b.
Proof.
  intros Ha Hb H. apply (f_equal be_Z) in H.
  rewrite !be_Z_bytes, !Z.mod_small in H by done. done.
Qed.

(** ** Fixed 32-byte arrays *)

Record bytes32 := Bytes32 {
  b32 : bytes;
  b32_len : Nat.eqb (length b32) 32 = true
}.

Lemma bytes32_eq (a b : bytes32) : b32 a = b32 b → a = b.
Proof.
  destruct a as [a Ha], b as [b Hb]. simpl. intros ->. f_equal.
  apply UIP_dec, Bool.bool_dec.
Qed.

Lemma length_b32 (a : bytes32) : length (b32 a) = 32%nat.
Proof. apply Nat.eqb_eq, b32_len. Qed.

(** [[32]byte{}] *)
Definition zero32 : bytes32 := Bytes32 (replicate 32 x00) eq_refl.

(** View a list of 32 bytes as an array; other lengths give the zero array,
    which no caller relies on (see [b32_mk32]). *)
Definition mk32 (l : bytes) : bytes32 :=
  match Nat.eqb (length l) 32 as b return (Nat.eqb (length l) 32 = b → bytes32) with
  | true => λ e, Bytes32 l e
  | false => λ _, zero32
  end eq_refl.

Lemma b32_mk32 l : length l = 32%nat → b32 (mk32 l) = l.
Proof.
  intros Hl. unfold mk32. generalize (eq_refl (Nat.eqb (length l) 32)).
  generalize (Nat.eqb (length l) 32) at 2 3. intros [] e; [done|].
  rewrite Hl in e. done.
Qed.

#[export] Instance bytes32_eq_dec : EqDecision bytes32.
Proof.
  intros a b. destruct (decide (b32 a = b32 b)) as [e|n].
  - left. by apply bytes32_eq.
  - right. congruence.
Defined.

#[export] Instance bytes32_countable : Countable bytes32.
Proof.
  refine (inj_countable' b32 mk32 _). intros a. apply bytes32_eq, b32_mk32, length_b32.
Defined.

(** ** Hexadecimal *)

Definition hex_digit (n : Z) : ascii :=
  ascii_of_N (Z.to_N (if n <? 10 then 48 + n else 87 + n)).

(** [hex.EncodeToString] *)
Fixpoint hex_encode (l : bytes) : string :=
  match l with
  | [] => EmptyString
  | b :: l => String (hex_digit (byte_Z b / 16))
                (String (hex_digit (byte_Z b mod 16)) (hex_encode l))
  end.

Definition hex_value (c : ascii) : option Z :=
  let n := Z.of_N (N_of_ascii c) in
  if (48 <=? n) && (n <=? 57) then Some (n - 48)
  else if (97 <=? n) && (n <=? 102) then Some (n - 87)
  else if (65 <=? n) && (n <=? 70) then Some (n - 55)
  else None.

(** [hex.DecodeString]: [None] on an odd length or a non-hex digit. *)
Fixpoint hex_decode (s : string) : option bytes :=
  match s with
  | EmptyString => Some []
  | String _ EmptyString => None
  | String c (String d s) =>
      match hex_value c, hex_value d, hex_decode s with
      | Some h, Some l, Some r => Some (Z_byte (h * 16 + l) :: r)
      | _, _, _ => None
      end
  end.

Lemma hex_value_digit n : 0 ≤ n < 16 → hex_value (hex_digit n) = Some n.
Proof.
  intros Hn.
  assert (Forall (λ n, hex_value (hex_digit n) = Some n) (seqZ 0 16)) as H
    by (apply (bool_decide_unpack _); vm_compute; exact I).
  rewrite Forall_forall in H. apply H, elem_of_seqZ. lia.
Qed.

Lemma hex_decode_encode l : hex_decode (hex_encode l) = Some l.
Proof.
  induction l as [|b l IH]; [done|]. cbn [hex_encode hex_decode].
  pose proof (byte_Z_range b) as Hb.
  rewrite !hex_value_digit, IH.
  - do 2 f_equal. rewrite Z.mul_comm, <- Z.div_mod by lia. apply Z_byte_of.
  - apply Z.mod_pos_bound; lia.
  - split; [apply Z.div_pos; lia|apply Z.div_lt_upper_bound; lia].
Qed.

#[export] Instance hex_encode_inj : Inj (=) (=) hex_encode.
Proof.
  intros a b H. apply (f_equal hex_decode) in H. rewrite !hex_decode_encode in H.
  congruence.
Qed.

(** A hexadecimal literal of 32 bytes. *)
Definition hex32 (s : string) : bytes32 := mk32 (default [] (hex_decode s)).

#[export] Hint Resolve byte_Z_range length_b32 length_be_bytes : go.
