(* ===== verification/Sha256.v ===== *)
(** * SHA-256

    [crypto/sha256.Sum256] of the Go standard library, i.e. FIPS 180-4, as an
    executable function on byte lists.  The round constants are not transcribed:
    they are recomputed from their definition (the fractional parts of the cube
    and square roots of the first primes). *)

From S2P Require Import Prelude Bytes.

Open Scope Z_scope.

Module Sha256.

(** ** 32-bit words *)

Definition ones32 : Z := 4294967295.

(** [uint32], as a mask. *)
Definition word (x : Z) : Z := Z.land x ones32.

Lemma word_uint32 x : word x = uint32 x.
Proof. apply (Z.land_ones x 32). lia. Qed.

Definition word_add (a b : Z) : Z := word (a + b).
Definition rotr (n x : Z) : Z := Z.lor (Z.shiftr x n) (word (Z.shiftl x (32 - n))).
Definition word_not (x : Z) : Z := Z.lxor x ones32.

Local Infix "⊞" := word_add (at level 50, left associativity).

Definition choose (x y z : Z) : Z := Z.lxor (Z.land x y) (Z.land (word_not x) z).
Definition majority (x y z : Z) : Z :=
  Z.lxor (Z.lxor (Z.land x y) (Z.land x z)) (Z.land y z).
Definition xor3 (a b c : Z) : Z := Z.lxor (Z.lxor a b) c.
Definition big_sigma0 (x : Z) : Z := xor3 (rotr 2 x) (rotr 13 x) (rotr 22 x).
Definition big_sigma1 (x : Z) : Z := xor3 (rotr 6 x) (rotr 11 x) (rotr 25 x).
Definition small_sigma0 (x : Z) : Z := xor3 (rotr 7 x) (rotr 18 x) (Z.shiftr x 3).
Definition small_sigma1 (x : Z) : Z := xor3 (rotr 17 x) (rotr 19 x) (Z.shiftr x 10).

(** ** The constants, from their definition *)

Definition is_prime (n : Z) : bool :=
  (1 <? n) && forallb (λ d, negb (n mod d =? 0)) (seqZ 2 (Z.sqrt n - 1)).

Definition primes (n : nat) : list Z := take n (List.filter is_prime (seqZ 2 400)).

(** Bit by bit integer cube root. *)
Fixpoint cbrt_bits (n : nat) (acc x : Z) : Z :=
  match n with
  | O => acc
  | S n' =>
      let c := acc + 2 ^ Z.of_nat n' in
      cbrt_bits n' (if c * c * c <=? x then c else acc) x
  end.

Definition round_constants : list Z := Eval vm_compute in
  map (λ p, uint32 (cbrt_bits 40 0 (p * 2 ^ 96))) (primes 64).

Definition initial_words : list Z := Eval vm_compute in
  map (λ p, uint32 (Z.sqrt (p * 2 ^ 64))) (primes 8).

(** ** Padding and parsing *)

Definition pad (msg : bytes) : bytes :=
  let n := Z.of_nat (length msg) in
  msg ++ [Z_byte 128] ++ replicate (Z.to_nat ((55 - n) mod 64)) (Z_byte 0)
      ++ be_bytes 8 (8 * n).

Fixpoint to_words (l : bytes) : list Z :=
  match l with
  | a :: b :: c :: d :: l => be_Z [a; b; c; d] :: to_words l
  | _ => []
  end.

(** ** The compression function *)

(** The message schedule, from a sliding window of the last sixteen words. *)
Fixpoint schedule (n : nat) (w : list Z) : list Z :=
  match n, w with
  | S n', w0 :: w' =>
      let next := small_sigma1 (nth 14 w 0) ⊞ nth 9 w 0 ⊞ small_sigma0 (nth 1 w 0) ⊞ w0 in
      w0 :: schedule n' (w' ++ [next])
  | _, _ => []
  end.

Record regs := Regs { ra : Z; rb : Z; rc : Z; rd : Z; re : Z; rf : Z; rg : Z; rh : Z }.

Definition round (r : regs) (kw : Z * Z) : regs :=
  let t1 := rh r ⊞ big_sigma1 (re r) ⊞ choose (re r) (rf r) (rg r) ⊞ kw.1 ⊞ kw.2 in
  let t2 := big_sigma0 (ra r) ⊞ majority (ra r) (rb r) (rc r) in
  Regs (t1 ⊞ t2) (ra r) (rb r) (rc r) (rd r ⊞ t1) (re r) (rf r) (rg r).

Definition add_regs (r s : regs) : regs :=
  Regs (ra r ⊞ ra s) (rb r ⊞ rb s) (rc r ⊞ rc s) (rd r ⊞ rd s)
       (re r ⊞ re s) (rf r ⊞ rf s) (rg r ⊞ rg s) (rh r ⊞ rh s).

Definition block (r : regs) (w : list Z) : regs :=
  add_regs r (fold_left round (zip round_constants (schedule 64 w)) r).

Fixpoint blocks (n : nat) (r : regs) (ws : list Z) : regs :=
  match n with
  | O => r
  | S n' => blocks n' (block r (take 16 ws)) (drop 16 ws)
  end.

Definition init_regs : regs :=
  match initial_words with
  | [a; b; c; d; e; f; g; h] => Regs a b c d e f g h
  | _ => Regs 0 0 0 0 0 0 0 0
  end.

Definition digest_bytes (r : regs) : bytes :=
  concat (map (be_bytes 4) [ra r; rb r; rc r; rd r; re r; rf r; rg r; rh r]).

(** [sha256.Sum256] *)
Definition Sum256 (msg : bytes) : bytes32 :=
  let ws := to_words (pad msg) in
  mk32 (digest_bytes (blocks (length ws / 16) init_regs ws)).

(** ** Shape *)

Lemma length_digest_bytes r : length (digest_bytes r) = 32%nat.
Proof. done. Qed.

(** The view of the digest as an array never falls back to the default. *)
Lemma b32_Sum256 msg :
  b32 (Sum256 msg) =
  digest_bytes (blocks (length (to_words (pad msg)) / 16) init_regs (to_words (pad msg))).
Proof. apply b32_mk32, length_digest_bytes. Qed.

(** The padded message is a whole number of 64-byte blocks. *)
Lemma length_pad msg : Z.of_nat (length (pad msg)) mod 64 = 0.
Proof.
  unfold pad. rewrite !length_app, length_replicate, length_be_bytes.
  cbn [length]. pose proof (Z.mod_pos_bound (55 - Z.of_nat (length msg)) 64 eq_refl).
  rewrite !Nat2Z.inj_add, Z2Nat.id by lia.
  change (Z.of_nat 1) with 1; change (Z.of_nat 8) with 8.
  pose proof (Z.div_mod (55 - Z.of_nat (length msg)) 64 ltac:(lia)) as H1.
  apply Z.mod_divide; [lia|].
  exists (1 - (55 - Z.of_nat (length msg)) / 64). lia.
Qed.

(** ** Known answers of FIPS 180-4 *)

Example sum256_empty : hex_encode (b32 (Sum256 [])) =
  "e3b0c44298fc1c149afbf4c8996fb92427ae41e4649b934ca495991b7852b855"%string.
Proof. vm_compute. reflexivity. Qed.

Example sum256_abc : hex_encode (b32 (Sum256 (bytes_of "abc"))) =
  "ba7816bf8f01cfea414140de5dae2223b00361a396177a9cb410ff61f20015ad"%string.
Proof. vm_compute. reflexivity. Qed.

Example sum256_two_blocks :
  hex_encode (b32 (Sum256
    (bytes_of "abcdbcdecdefdefgefghfghighijhijkijkljklmklmnlmnomnopnopq"))) =
  "248d6a61d20638b8e5c026930c3e6039a33ce45964ff2167f6ecedd419db06c1"%string.
Proof. vm_compute. reflexivity. Qed.

End Sha256.

Abbreviation Sum256 := Sha256.Sum256.
Arguments Sha256.Sum256 : simpl never.
#[global] Opaque Sha256.Sum256.
