(* ===== verification/GoSort.v ===== *)
(** * Ordering and sorting

    Go's [<] on strings, lexicographic comparison of slices, and the contract of
    [sort.Slice] and [sort.Strings]: the result is a permutation of the input in
    which no element is less than an earlier one.  The order of elements the
    comparison does not tell apart is unspecified, so the components are proved
    against the class [Sorter]; the instance is the insertion sort the Go
    runtime uses for short slices. *)

From S2P Require Import Prelude Bytes.
From stdpp Require Import sorting.

Open Scope Z_scope.

(** ** Comparison functions *)

Class StrictWeak {A} (less : A → A → bool) := {
  sw_irrefl : ∀ a, less a a = false;
  sw_trans : ∀ a b c, less a b = true → less b c = true → less a c = true;
  sw_incomp : ∀ a b c, less a b = false → less b c = false → less a c = false
}.

Class StrictTotal {A} (less : A → A → bool) := {
  st_irrefl : ∀ a, less a a = false;
  st_trans : ∀ a b c, less a b = true → less b c = true → less a c = true;
  st_total : ∀ a b, less a b = false → less b a = false → a = b
}.

#[export] Instance total_weak {A} (less : A → A → bool) :
  StrictTotal less → StrictWeak less.
Proof.
  intros H. split; [apply st_irrefl|apply st_trans|].
  intros a b c Hab Hbc. destruct (less a c) eqn:Hac; [|done].
  destruct (less c b) eqn:Hcb; [by rewrite (st_trans a c b) in Hab|].
  rewrite (st_total b c) in Hab by done. congruence.
Qed.

(** Sorting on a projection. *)
Lemma proj_weak {A B} (f : A → B) (less : B → B → bool) :
  StrictTotal less → StrictWeak (λ a b, less (f a) (f b)).
Proof.
  intros H%total_weak. split; intros; [apply sw_irrefl| |];
    [by eapply sw_trans|by eapply sw_incomp].
Qed.

(** ** Lexicographic order *)

Fixpoint lex_lt {A} `{EqDecision A} (lt : A → A → bool) (a b : list A) : bool :=
  match a, b with
  | _, [] => false
  | [], _ :: _ => true
  | x :: a, y :: b => if decide (x = y) then lex_lt lt a b else lt x y
  end.

#[export] Instance lex_lt_total {A} `{EqDecision A} (lt : A → A → bool) :
  StrictTotal lt → StrictTotal (lex_lt lt).
Proof.
  intros Hlt. split.
  - induction a; simpl; [done|]. by rewrite decide_True.
  - induction a as [|x a IH]; intros [|y b] [|z c]; simpl; try done.
    destruct (decide (x = y)) as [->|Hxy]; intros H1.
    { destruct (decide (y = z)); eauto. }
    destruct (decide (y = z)) as [<-|Hyz]; intros H2.
    { by rewrite decide_False. }
    rewrite decide_False; [by eapply st_trans|].
    intros ->. pose proof (st_trans _ _ _ H1 H2) as H. by rewrite st_irrefl in H.
  - induction a as [|x a IH]; intros [|y b]; simpl; try done.
    destruct (decide (x = y)) as [->|Hxy]; intros H1 H2.
    + rewrite decide_True in H2 by done. f_equal; auto.
    + rewrite decide_False in H2 by done. exfalso. apply Hxy, st_total; auto.
Qed.

Definition byte_lt (a b : byte) : bool := byte_Z a <? byte_Z b.

#[export] Instance byte_lt_total : StrictTotal byte_lt.
Proof.
  unfold byte_lt. split; intros *; rewrite ?Z.ltb_lt, ?Z.ltb_ge.
  - lia.
  - lia.
  - intros. apply (inj byte_Z). lia.
Qed.

(** [s < t] on strings: bytewise. *)
Definition str_lt (s t : string) : bool := lex_lt byte_lt (bytes_of s) (bytes_of t).

#[export] Instance str_lt_total : StrictTotal str_lt.
Proof.
  unfold str_lt. split; intros *.
  - apply st_irrefl.
  - apply st_trans.
  - intros H1 H2. apply (inj bytes_of). by apply (st_total (less := lex_lt byte_lt)).
Qed.

(** ** Sorting *)

Definition ordered {A} (less : A → A → bool) : list A → Prop :=
  StronglySorted (λ a b, less b a = false).

Class Sorter := {
  sort_slice : ∀ {A}, (A → A → bool) → list A → list A;
  sort_perm : ∀ {A} (less : A → A → bool) l, sort_slice less l ≡ₚ l;
  sort_ordered : ∀ {A} (less : A → A → bool) l,
    StrictWeak less → ordered less (sort_slice less l)
}.

(** [sort.Strings] *)
Definition sort_strings `{Sorter} (l : list string) : list string := sort_slice str_lt l.

(** Where the comparison separates all elements there is only one sorted
    permutation, whatever the algorithm. *)
Lemma ordered_unique {A} (less : A → A → bool) l l' :
  (∀ a b, a ∈ l → b ∈ l → less a b = false → less b a = false → a = b) →
  ordered less l → ordered less l' → l ≡ₚ l' → l = l'.
Proof.
  intros Hanti H1 H2 Hp. eapply StronglySorted_unique_strong; [|done..].
  intros a b Ha Hb Hab Hba. apply Hanti; auto. by rewrite Hp.
Qed.

Lemma sort_unique (S1 S2 : Sorter) {A} (less : A → A → bool) l l' :
  StrictWeak less →
  (∀ a b, a ∈ l → b ∈ l → less a b = false → less b a = false → a = b) →
  l ≡ₚ l' → @sort_slice S1 A less l = @sort_slice S2 A less l'.
Proof.
  intros Hw Hanti Hp. apply (ordered_unique less).
  - intros a b. rewrite !sort_perm. apply Hanti.
  - by apply sort_ordered.
  - by apply sort_ordered.
  - by rewrite !sort_perm.
Qed.

Lemma sort_total (S1 S2 : Sorter) {A} (less : A → A → bool) l l' :
  StrictTotal less → l ≡ₚ l' → @sort_slice S1 A less l = @sort_slice S2 A less l'.
Proof.
  intros Ht Hp. apply sort_unique; [apply _| |done].
  intros a b _ _ H1 H2. by apply st_total.
Qed.

(** Sorting on a key that no two elements share. *)
Lemma sort_by_key (S1 S2 : Sorter) {A} (key : A → string) l l' :
  NoDup (map key l) → l ≡ₚ l' →
  @sort_slice S1 A (λ a b, str_lt (key a) (key b)) l =
  @sort_slice S2 A (λ a b, str_lt (key a) (key b)) l'.
Proof.
  intros Hnd Hp. apply sort_unique; [by apply proj_weak, str_lt_total| |done].
  intros a b Ha Hb H1 H2.
  pose proof (st_total _ _ H1 H2) as Hk.
  apply list_elem_of_lookup in Ha as [i Hi], Hb as [j Hj].
  assert (i = j) as ->; [|congruence].
  eapply NoDup_lookup; [exact Hnd| |]; rewrite list_lookup_fmap.
  - by rewrite Hi.
  - by rewrite Hj, Hk.
Qed.

(** ** Insertion sort *)

Section InsertionSort.
Context {A : Type} (less : A → A → bool).

Fixpoint insert_sorted (x : A) (l : list A) : list A :=
  match l with
  | [] => [x]
  | y :: l' => if less y x then y :: insert_sorted x l' else x :: y :: l'
  end.

Definition insertion_sort (l : list A) : list A := foldr insert_sorted [] l.

Lemma insert_sorted_perm x l : insert_sorted x l ≡ₚ x :: l.
Proof.
  induction l as [|y l IH]; simpl; [done|]. destruct (less y x); [|done].
  rewrite IH. constructor.
Qed.

Lemma insertion_sort_perm l : insertion_sort l ≡ₚ l.
Proof. induction l as [|x l IH]; simpl; [done|]. by rewrite insert_sorted_perm, IH. Qed.

Lemma insert_sorted_ordered x l :
  StrictWeak less → ordered less l → ordered less (insert_sorted x l).
Proof.
  intros Hw. induction 1 as [|y l Hl IH Hy]; simpl.
  - repeat constructor.
  - destruct (less y x) eqn:E.
    + constructor; [done|]. rewrite insert_sorted_perm. constructor; [|done].
      destruct (less x y) eqn:E'; [|done].
      rewrite <- (sw_irrefl (less := less) y). symmetry. by apply (sw_trans y x y).
    + constructor; [by constructor|]. constructor; [done|].
      eapply Forall_impl; [exact Hy|]. intros z Hz. simpl in Hz.
      by apply (sw_incomp z y x).
Qed.

Lemma insertion_sort_ordered l : StrictWeak less → ordered less (insertion_sort l).
Proof.
  intros Hw. induction l as [|x l IH]; simpl; [constructor|].
  by apply insert_sorted_ordered.
Qed.
End InsertionSort.

Module Insertion.

#[export] Instance insertion_sorter : Sorter := {|
  sort_slice := @insertion_sort;
  sort_perm := @insertion_sort_perm;
  sort_ordered := @insertion_sort_ordered
|}.

End Insertion.
