(* ===== verification/GoJson.v ===== *)
(** * encoding/json

    The part of Go's [encoding/json] the hash protocol relies on: compact output,
    struct fields in declaration order, map keys sorted bytewise, HTML-safe string
    escaping, and the replacement of invalid UTF-8.  The main result is that the
    encoding is injective on values whose strings are valid UTF-8
    ([marshal_inj]). *)

From S2P Require Import Prelude Bytes GoSort.
From Stdlib Require Import Strings.Byte DecimalString DecimalZ.

Open Scope Z_scope.

(** What is handed to the encoder: structs and maps are both objects, with the
    fields already in the order they are written. *)
#[warnings="-register-all"]
Inductive json :=
  | JNull
  | JBool (b : bool)
  | JInt (z : Z)
  | JStr (s : string)
  | JArr (l : list json)
  | JObj (fs : list (string * json)).

(** ** String escaping *)

(** The bytes the encoder treats specially. *)
Abbreviation dquote := Byte.x22.
Abbreviation backslash := Byte.x5c.

Section Escape.

(** What [utf8.DecodeRune] accepts as the start of a valid sequence of two,
    three or four bytes. *)
Definition in_range (lo hi : Z) (b : byte) : bool := (lo <=? byte_Z b) && (byte_Z b <=? hi).
Definition cont (b : byte) : bool := in_range 128 191 b.

Definition rune2 (b1 b2 : byte) : bool := in_range 194 223 b1 && cont b2.

Definition rune3 (b1 b2 b3 : byte) : bool :=
  (if byte_Z b1 =? 224 then in_range 160 191 b2
   else if byte_Z b1 =? 237 then in_range 128 159 b2
   else in_range 225 239 b1 && cont b2) && cont b3.

Definition rune4 (b1 b2 b3 b4 : byte) : bool :=
  (if byte_Z b1 =? 240 then in_range 144 191 b2
   else if byte_Z b1 =? 244 then in_range 128 143 b2
   else in_range 241 243 b1 && cont b2) && cont b3 && cont b4.

Definition hexb (n : Z) : byte := Ascii.byte_of_ascii (hex_digit n).

(** One ASCII byte of [appendString] with HTML escaping on. *)
Definition escape_ascii (b : byte) : bytes :=
  match b with
  | dquote | backslash => [backslash; b]
  | x08 => bytes_of "\b"
  | x0c => bytes_of "\f"
  | x0a => bytes_of "\n"
  | x0d => bytes_of "\r"
  | x09 => bytes_of "\t"
  | _ =>
      if (byte_Z b <? 32) || bool_decide (b ∈ bytes_of "<>&")
      then bytes_of "\u00" ++ [hexb (byte_Z b / 16); hexb (byte_Z b mod 16)]
      else [b]
  end.

Definition invalid_rune : bytes := bytes_of "\ufffd".

(** U+2028 and U+2029 are written as escapes; other runes are copied. *)
Definition escape3 (b1 b2 b3 : byte) : bytes :=
  if bool_decide ([b1; b2; b3] = [xe2; x80; xa8]) then bytes_of "\u2028"
  else if bool_decide ([b1; b2; b3] = [xe2; x80; xa9]) then bytes_of "\u2029"
  else [b1; b2; b3].

(** The loop of [appendString]. *)
Fixpoint escape (l : bytes) : bytes :=
  match l with
  | [] => []
  | b1 :: l1 =>
      if byte_Z b1 <? 128 then escape_ascii b1 ++ escape l1
      else match l1 with
      | [] => invalid_rune ++ escape l1
      | b2 :: l2 =>
          if rune2 b1 b2 then [b1; b2] ++ escape l2
          else match l2 with
          | [] => invalid_rune ++ escape l1
          | b3 :: l3 =>
              if rune3 b1 b2 b3 then escape3 b1 b2 b3 ++ escape l3
              else match l3 with
              | [] => invalid_rune ++ escape l1
              | b4 :: l4 =>
                  if rune4 b1 b2 b3 b4 then [b1; b2; b3; b4] ++ escape l4
                  else invalid_rune ++ escape l1
              end
          end
      end
  end.

Definition quote (s : string) : bytes := [dquote] ++ escape (bytes_of s) ++ [dquote].

(** [utf8.Valid] *)
Fixpoint valid_bytes (l : bytes) : bool :=
  match l with
  | [] => true
  | b1 :: l1 =>
      if byte_Z b1 <? 128 then valid_bytes l1
      else match l1 with
      | [] => false
      | b2 :: l2 =>
          if rune2 b1 b2 then valid_bytes l2
          else match l2 with
          | [] => false
          | b3 :: l3 =>
              if rune3 b1 b2 b3 then valid_bytes l3
              else match l3 with
              | [] => false
              | b4 :: l4 => rune4 b1 b2 b3 b4 && valid_bytes l4
              end
          end
      end
  end.

Definition utf8_ok (s : string) : bool := valid_bytes (bytes_of s).

(** *** Reading an escaped string back *)

Definition unescape_char (c : byte) : byte :=
  match c with
  | x62 (* b *) => x08 | x66 (* f *) => x0c | x6e (* n *) => x0a
  | x72 (* r *) => x0d | x74 (* t *) => x09
  | c => c
  end.

Definition unescape_u (h1 h2 h3 h4 : byte) : bytes :=
  if bool_decide ([h1; h2; h3; h4] = bytes_of "2028") then [xe2; x80; xa8]
  else if bool_decide ([h1; h2; h3; h4] = bytes_of "2029") then [xe2; x80; xa9]
  else match hex_value (Ascii.ascii_of_byte h3), hex_value (Ascii.ascii_of_byte h4) with
       | Some a, Some b => [Z_byte (a * 16 + b)]
       | _, _ => []
       end.

Definition prepend (p : bytes) (r : option (bytes * bytes)) : option (bytes * bytes) :=
  match r with Some (s, rest) => Some (p ++ s, rest) | None => None end.

(** Reads up to the closing quote: the string and what follows it. *)
Fixpoint unquote (l : bytes) : option (bytes * bytes) :=
  match l with
  | [] => None
  | dquote :: l1 => Some ([], l1)
  | backslash :: l1 =>
      match l1 with
      | x75 (* u *) :: h1 :: h2 :: h3 :: h4 :: l2 => prepend (unescape_u h1 h2 h3 h4) (unquote l2)
      | c :: l2 => prepend [unescape_char c] (unquote l2)
      | [] => None
      end
  | c :: l1 => prepend [c] (unquote l1)
  end.

Lemma unquote_ascii b l :
  byte_Z b < 128 → unquote (escape_ascii b ++ l) = prepend [b] (unquote l).
Proof.
  intros Hb. apply Z.ltb_lt in Hb. revert Hb. destruct b; vm_compute (byte_Z _);
    intros Hb; try discriminate Hb; reflexivity.
Qed.

Lemma unquote_copy b l : 128 ≤ byte_Z b → unquote (b :: l) = prepend [b] (unquote l).
Proof.
  intros Hb. apply Z.leb_le in Hb. revert Hb. destruct b; vm_compute (byte_Z _);
    intros Hb; try discriminate Hb; reflexivity.
Qed.

Lemma prepend_app p q r : prepend p (prepend q r) = prepend (p ++ q) r.
Proof. destruct r as [[s rest]|]; simpl; [|done]. by rewrite (assoc_L (++)). Qed.

Lemma in_range_ge lo hi b : in_range lo hi b = true → lo ≤ byte_Z b ≤ hi.
Proof. unfold in_range. rewrite andb_true_iff, !Z.leb_le. lia. Qed.

Lemma rune2_high b1 b2 :
  rune2 b1 b2 = true → 128 ≤ byte_Z b1 ∧ 128 ≤ byte_Z b2.
Proof.
  unfold rune2, cont. rewrite andb_true_iff. intros [H1%in_range_ge H2%in_range_ge]. lia.
Qed.

Lemma rune3_high b1 b2 b3 :
  rune3 b1 b2 b3 = true → 128 ≤ byte_Z b1 ∧ 128 ≤ byte_Z b2 ∧ 128 ≤ byte_Z b3.
Proof.
  unfold rune3, cont. rewrite andb_true_iff. intros [H H3%in_range_ge].
  destruct (Z.eqb_spec (byte_Z b1) 224); [apply in_range_ge in H; lia|].
  destruct (Z.eqb_spec (byte_Z b1) 237); [apply in_range_ge in H; lia|].
  apply andb_true_iff in H as [H1%in_range_ge H2%in_range_ge]. lia.
Qed.

Lemma rune4_high b1 b2 b3 b4 :
  rune4 b1 b2 b3 b4 = true →
  128 ≤ byte_Z b1 ∧ 128 ≤ byte_Z b2 ∧ 128 ≤ byte_Z b3 ∧ 128 ≤ byte_Z b4.
Proof.
  unfold rune4, cont. rewrite !andb_true_iff. intros [[H H3%in_range_ge] H4%in_range_ge].
  destruct (Z.eqb_spec (byte_Z b1) 240); [apply in_range_ge in H; lia|].
  destruct (Z.eqb_spec (byte_Z b1) 244); [apply in_range_ge in H; lia|].
  apply andb_true_iff in H as [H1%in_range_ge H2%in_range_ge]. lia.
Qed.

Lemma unquote_escape3 b1 b2 b3 l :
  rune3 b1 b2 b3 = true →
  unquote (escape3 b1 b2 b3 ++ l) = prepend [b1; b2; b3] (unquote l).
Proof.
  intros (H1 & H2 & H3)%rune3_high. unfold escape3.
  case_bool_decide; [by simplify_eq|]. case_bool_decide; [by simplify_eq|].
  cbn [app]. by rewrite !unquote_copy, !prepend_app.
Qed.

(** Escaping loses nothing: the string and the position after its closing quote
    are both recovered. *)
Lemma unquote_escape n l r :
  (length l ≤ n)%nat → valid_bytes l = true →
  unquote (escape l ++ dquote :: r) = Some (l, r).
Proof.
  revert l. induction n as [|n IH]; intros [|b1 l1] Hn Hv; try done; simpl in Hn; [lia|].
  cbn [escape valid_bytes] in *.
  destruct (Z.ltb_spec (byte_Z b1) 128) as [Hb|Hb].
  { rewrite <- (assoc_L (++)), unquote_ascii, IH by (done || lia). done. }
  destruct l1 as [|b2 l2]; [done|]. destruct (rune2 b1 b2) eqn:R2.
  { apply rune2_high in R2 as [H1 H2]. cbn [app].
    rewrite !unquote_copy, IH by (done || simpl in Hn; lia). done. }
  destruct l2 as [|b3 l3]; [done|]. destruct (rune3 b1 b2 b3) eqn:R3.
  { rewrite <- (assoc_L (++)), unquote_escape3, IH by (done || simpl in Hn; lia). done. }
  destruct l3 as [|b4 l4]; [done|]. apply andb_true_iff in Hv as [R4 Hv]. rewrite R4.
  apply rune4_high in R4 as (H1 & H2 & H3 & H4). cbn [app].
  rewrite !unquote_copy, IH by (done || simpl in Hn; lia). done.
Qed.
End Escape.

Lemma quote_prefix s t r r' :
  utf8_ok s = true → utf8_ok t = true → quote s ++ r = quote t ++ r' → s = t ∧ r = r'.
Proof.
  unfold quote, utf8_ok. intros Hs Ht H. cbn [app] in H. simplify_eq H. clear H. intros H.
  rewrite <- !(assoc_L (++)) in H. cbn [app] in H. apply (f_equal unquote) in H.
  erewrite !unquote_escape in H by done. by simplify_eq.
Qed.

(** ** Values *)

(** [strconv.AppendInt] in base ten *)
Definition itoa (z : Z) : string := NilZero.string_of_int (Z.to_int z).

Section Marshal.
(** [json.Marshal].  Array and object encoders write a comma before every
    element but the first. *)
Fixpoint marshal (v : json) : bytes :=
  match v with
  | JNull => bytes_of "null"
  | JBool true => bytes_of "true"
  | JBool false => bytes_of "false"
  | JInt z => bytes_of (itoa z)
  | JStr s => quote s
  | JArr l =>
      let fix loop (first : bool) (l : list json) : bytes :=
        match l with
        | [] => []
        | v :: l => (if first then [] else bytes_of ",") ++ marshal v ++ loop false l
        end in
      bytes_of "[" ++ loop true l ++ bytes_of "]"
  | JObj fs =>
      let fix loop (first : bool) (fs : list (string * json)) : bytes :=
        match fs with
        | [] => []
        | (k, v) :: fs =>
            (if first then [] else bytes_of ",") ++ quote k ++ bytes_of ":" ++ marshal v
              ++ loop false fs
        end in
      bytes_of "{" ++ loop true fs ++ bytes_of "}"
  end.

Fixpoint arr_loop (first : bool) (l : list json) : bytes :=
  match l with
  | [] => []
  | v :: l => (if first then [] else bytes_of ",") ++ marshal v ++ arr_loop false l
  end.

Fixpoint obj_loop (first : bool) (fs : list (string * json)) : bytes :=
  match fs with
  | [] => []
  | (k, v) :: fs =>
      (if first then [] else bytes_of ",") ++ quote k ++ bytes_of ":" ++ marshal v
        ++ obj_loop false fs
  end.

Lemma marshal_arr l : marshal (JArr l) = bytes_of "[" ++ arr_loop true l ++ bytes_of "]".
Proof. reflexivity. Qed.

Lemma marshal_obj fs : marshal (JObj fs) = bytes_of "{" ++ obj_loop true fs ++ bytes_of "}".
Proof. reflexivity. Qed.

(** Every string in the value, keys included, is valid UTF-8. *)
Fixpoint json_ok (v : json) : bool :=
  match v with
  | JStr s => utf8_ok s
  | JArr l => forallb json_ok l
  | JObj fs => forallb (λ '(k, v), utf8_ok k && json_ok v) fs
  | _ => true
  end.
End Marshal.

Section JsonInd.
Variable P : json → Prop.
Hypothesis Hnull : P JNull.
Hypothesis Hbool : ∀ b, P (JBool b).
Hypothesis Hint : ∀ z, P (JInt z).
Hypothesis Hstr : ∀ s, P (JStr s).
Hypothesis Harr : ∀ l, Forall P l → P (JArr l).
Hypothesis Hobj : ∀ fs, Forall (λ kv, P kv.2) fs → P (JObj fs).

Fixpoint json_ind' (v : json) : P v :=
  match v with
  | JNull => Hnull
  | JBool b => Hbool b
  | JInt z => Hint z
  | JStr s => Hstr s
  | JArr l =>
      Harr l ((fix go l : Forall P l :=
        match l with
        | [] => Forall_nil_2 _
        | v :: l => Forall_cons_2 _ _ _ (json_ind' v) (go l)
        end) l)
  | JObj fs =>
      Hobj fs ((fix go fs : Forall (λ kv, P kv.2) fs :=
        match fs with
        | [] => Forall_nil_2 _
        | kv :: fs => Forall_cons_2 _ _ _ (json_ind' kv.2) (go fs)
        end) fs)
  end.
End JsonInd.

(** ** Injectivity *)

(** The bytes a number may be made of; what follows a value is never one. *)
Definition num_byte (b : byte) : bool := in_range 48 57 b || bool_decide (b = x2d).

Definition delimited (r : bytes) : Prop :=
  match r with [] => True | b :: _ => num_byte b = false end.

Lemma itoa_num z : Forall (λ b, num_byte b = true) (bytes_of (itoa z)).
Proof.
  unfold itoa, NilZero.string_of_int.
  assert (∀ d, Forall (λ b, num_byte b = true) (bytes_of (NilEmpty.string_of_uint d))) as Hu.
  { induction d; simpl; constructor; auto. }
  destruct (Z.to_int z) as [d|d]; simpl; [|constructor; [done|]];
    unfold NilZero.string_of_uint; destruct d; try apply Hu; repeat constructor.
Qed.


#[export] Instance itoa_inj : Inj (=) (=) itoa.
Proof.
  intros z z' H. unfold itoa in H. apply (f_equal NilZero.int_of_string) in H.
  assert (∀ z, NilZero.int_of_string (NilZero.string_of_int (Z.to_int z)) = Some (Z.to_int z))
    as Hz.
  { intros x. apply NilZero.isi; intros E; pose proof (DecimalZ.of_to x) as Hx;
      rewrite E in Hx; vm_compute in Hx; subst x; discriminate E. }
  rewrite !Hz in H. injection H as H. apply (f_equal Z.of_int) in H.
  by rewrite !DecimalZ.of_to in H.
Qed.

Lemma itoa_nonempty z : bytes_of (itoa z) ≠ [].
Proof.
  unfold itoa. destruct (Z.to_int z) as [d|d]; [destruct d|]; done.
Qed.

(** A maximal run of bytes of one class is determined by what follows it. *)
Lemma span_unique (P : byte → bool) l l' r r' :
  Forall (λ b, P b = true) l → Forall (λ b, P b = true) l' →
  match r with [] => True | b :: _ => P b = false end →
  match r' with [] => True | b :: _ => P b = false end →
  l ++ r = l' ++ r' → l = l' ∧ r = r'.
Proof.
  intros Hl. revert l'. induction Hl as [|b l Hb Hl IH]; intros l' Hl' Hr Hr' H.
  - destruct Hl' as [|b' l' Hb' Hl']; [done|]. simpl in H. subst r. congruence.
  - destruct Hl' as [|b' l' Hb' Hl'].
    + simpl in H. subst r'. congruence.
    + simplify_eq/=. destruct (IH l') as [-> ->]; auto.
Qed.

(** The first byte tells the constructors apart. *)
Definition head_class (v : json) : Z :=
  match v with
  | JNull => 0 | JBool true => 1 | JBool false => 2 | JInt _ => 3
  | JStr _ => 4 | JArr _ => 5 | JObj _ => 6
  end.

Definition byte_class (b : byte) : Z :=
  match b with
  | x6e => 0 | x74 => 1 | x66 => 2 | x22 => 4 | x5b => 5 | x7b => 6
  | b => if num_byte b then 3 else 7
  end.

Lemma num_byte_class b : num_byte b = true → byte_class b = 3.
Proof. destruct b; (reflexivity || discriminate). Qed.

Lemma marshal_head v : ∃ b l, marshal v = b :: l ∧ byte_class b = head_class v.
Proof.
  destruct v as [|[]|z|s|l|fs]; try (by eexists _, _).
  pose proof (itoa_num z) as Hn. pose proof (itoa_nonempty z) as Hne. cbn [marshal].
  destruct Hn as [|b l Hb _]; [done|]. eexists _, _. split; [done|].
  by apply num_byte_class.
Qed.

Lemma marshal_head_eq v v' r r' :
  marshal v ++ r = marshal v' ++ r' → head_class v = head_class v'.
Proof.
  destruct (marshal_head v) as (b & l & -> & Hb), (marshal_head v') as (b' & l' & -> & Hb').
  intros H. simplify_eq/=. congruence.
Qed.

Definition prefix_free (v : json) : Prop :=
  ∀ v' r r', json_ok v = true → json_ok v' = true → delimited r → delimited r' →
    marshal v ++ r = marshal v' ++ r' → v = v' ∧ r = r'.

Lemma arr_loop_delimited l r : delimited (arr_loop false l ++ bytes_of "]" ++ r).
Proof. by destruct l. Qed.

Lemma obj_loop_delimited fs r : delimited (obj_loop false fs ++ bytes_of "}" ++ r).
Proof. by destruct fs as [|[k v] fs]. Qed.

Lemma arr_loop_end first v l r r' :
  ¬ (bytes_of "]" ++ r = arr_loop first (v :: l) ++ bytes_of "]" ++ r').
Proof.
  destruct (marshal_head v) as (b & m & E & Hc). cbn [arr_loop]. rewrite E.
  destruct first; [|done]. intros H. simplify_eq/=. by destruct v as [|[]| | | |].
Qed.

Lemma arr_loop_inj first l l' r r' :
  Forall prefix_free l → forallb json_ok l = true → forallb json_ok l' = true →
  arr_loop first l ++ bytes_of "]" ++ r = arr_loop first l' ++ bytes_of "]" ++ r' →
  l = l' ∧ r = r'.
Proof.
  intros Hl. revert first l'. induction Hl as [|v l Hv Hl IH]; intros first [|v' l'] Ok Ok' H.
  - by simplify_eq/=.
  - by apply arr_loop_end in H.
  - symmetry in H. by apply arr_loop_end in H.
  - cbn [forallb] in Ok, Ok'. apply andb_true_iff in Ok as [Ov Ol], Ok' as [Ov' Ol'].
    cbn [arr_loop] in H. rewrite <- !(assoc_L (++)) in H. apply app_inv_head in H.
    apply Hv in H as [-> H]; [|auto using arr_loop_delimited..].
    apply IH in H as [-> ->]; auto.
Qed.

Lemma obj_loop_inj first fs fs' r r' :
  Forall (λ kv, prefix_free kv.2) fs →
  json_ok (JObj fs) = true → json_ok (JObj fs') = true →
  obj_loop first fs ++ bytes_of "}" ++ r = obj_loop first fs' ++ bytes_of "}" ++ r' →
  fs = fs' ∧ r = r'.
Proof.
  intros Hl. revert first fs'. cbn [json_ok].
  induction Hl as [|[k v] fs Hv Hl IH]; intros first [|[k' v'] fs'] Ok Ok' H.
  - by simplify_eq/=.
  - by destruct first.
  - by destruct first.
  - cbn [forallb] in Ok, Ok'. rewrite !andb_true_iff in Ok, Ok'.
    destruct Ok as [[Ok Ov] Ol], Ok' as [[Ok' Ov'] Ol']. simpl in Hv.
    cbn [obj_loop] in H. rewrite <- !(assoc_L (++)) in H. apply app_inv_head in H.
    apply quote_prefix in H as [-> H]; [|done..]. apply app_inv_head in H.
    apply Hv in H as [-> H]; [|auto using obj_loop_delimited..].
    apply IH in H as [-> ->]; auto.
Qed.

Lemma marshal_prefix_free v : prefix_free v.
Proof.
  induction v as [|b|z|s|l IH|fs IH] using json_ind'; intros v' r r' Ok Ok' Hr Hr' H;
    pose proof (marshal_head_eq _ _ _ _ H) as Hh;
    destruct v' as [|[]|z'|s'|l'|fs']; try done; try (by destruct b).
  - by apply app_inv_head in H.
  - destruct b; [|done]. by apply app_inv_head in H.
  - destruct b; [done|]. by apply app_inv_head in H.
  - apply (span_unique num_byte) in H as [H ->]; [|apply itoa_num|apply itoa_num|done|done].
    by apply (inj bytes_of), (inj itoa) in H as ->.
  - by apply quote_prefix in H as [-> ->].
  - rewrite !marshal_arr, <- !(assoc_L (++)) in H. apply app_inv_head in H.
    by apply arr_loop_inj in H as [-> ->].
  - rewrite !marshal_obj, <- !(assoc_L (++)) in H. apply app_inv_head in H.
    by apply obj_loop_inj in H as [-> ->].
Qed.

(** Two well-formed values with the same encoding are the same value. *)
Lemma marshal_inj v v' :
  json_ok v = true → json_ok v' = true → marshal v = marshal v' → v = v'.
Proof.
  intros Ok Ok' H. eapply (marshal_prefix_free v v' [] []); [done..|].
  by rewrite !app_nil_r.
Qed.

#[global] Arguments marshal : simpl never.

(** ** Encoding slices, maps and pointers

    A nil slice, map or pointer is [null]; a map is an object whose keys are
    sorted. *)

Definition key_lt {A} (a b : string * A) : bool := str_lt a.1 b.1.

Definition sorted_pairs (m : strmap) : list (string * string) :=
  insertion_sort key_lt (map_to_list m).

Definition json_map (m : gomap) : json :=
  match m with
  | None => JNull
  | Some m => JObj (map (λ kv, (kv.1, JStr kv.2)) (sorted_pairs m))
  end.

Definition json_slice {A} (f : A → json) (s : slice A) : json :=
  match s with None => JNull | Some l => JArr (map f l) end.

Definition json_ptr {A} (f : A → json) (p : option A) : json :=
  match p with None => JNull | Some a => f a end.

#[export] Instance json_map_inj : Inj (=) (=) json_map.
Proof.
  intros [m|] [m'|] H; simplify_eq/=; [|done]. f_equal.
  rename select (map _ _ = map _ _) into E.
  apply map_inj in E; [|intros [] [] ?; by simplify_eq/=].
  assert (map_to_list m ≡ₚ map_to_list m') as Hp.
  { unfold sorted_pairs in E.
    by rewrite <- (insertion_sort_perm key_lt (map_to_list m)), E, insertion_sort_perm. }
  rewrite <- (list_to_map_to_list m), <- (list_to_map_to_list m').
  apply list_to_map_proper; [apply NoDup_fst_map_to_list|done].
Qed.

Lemma json_slice_inj {A} (f : A → json) `{!Inj (=) (=) f} : Inj (=) (=) (json_slice f).
Proof.
  intros [l|] [l'|] H; try done. injection H as H. f_equal. by eapply map_inj.
Qed.
#[export] Hint Extern 1 (Inj _ _ (json_slice _)) => apply json_slice_inj : typeclass_instances.

#[export] Instance JStr_inj : Inj (=) (=) JStr.
Proof. intros a b H. by simplify_eq. Qed.
