(* ===== verification/GoText.v ===== *)
(** * Go string helpers

    [strings.TrimSpace], [strings.TrimPrefix] and the parsing helpers of strconv the
    program uses. *)

From S2P Require Import Prelude Bytes GoJson.
From Stdlib Require Import Strings.Byte.

Open Scope Z_scope.

(** The UTF-8 encodings of the runes of [unicode.IsSpace], longest first: how many
    bytes of leading white space does the input start with? *)
Definition space_width (l : bytes) : nat :=
  match l with
  | b :: l' =>
      if in_range 9 13 b || bool_decide (b = x20) then 1
      else
        match b, l' with
        | xc2, (x85 | xa0) :: _ => 2
        | xe1, x9a :: x80 :: _ => 3
        | xe2, x80 :: c :: _ =>
            if in_range 128 138 c || bool_decide (c = xa8) || bool_decide (c = xa9) ||
               bool_decide (c = xaf) then 3 else 0
        | xe2, x81 :: x9f :: _ => 3
        | xe3, x80 :: x80 :: _ => 3
        | _, _ => 0
        end
  | [] => 0
  end%nat.

(** [strings.TrimSpace s == ""]: the string is white space throughout. *)
Fixpoint blank_bytes (fuel : nat) (l : bytes) : bool :=
  match l, fuel with
  | [], _ => true
  | _, O => false
  | _, S fuel' =>
      match space_width l with
      | O => false
      | n => blank_bytes fuel' (drop n l)
      end
  end.

Definition blank (s : string) : bool :=
  blank_bytes (length (bytes_of s)) (bytes_of s).

Lemma blank_empty : blank EmptyString = true.
Proof. reflexivity. Qed.

(** The fuel is enough: each step consumes at least one byte. *)
Lemma blank_bytes_fuel l n :
  (length l ≤ n)%nat → blank_bytes n l = blank_bytes (length l) l.
Proof.
  remember (length l) as k eqn:Ek. assert (Hk : (length l ≤ k)%nat) by lia. clear Ek.
  revert k n l Hk. cut (∀ k n l, (length l ≤ k)%nat → (length l ≤ n)%nat →
    blank_bytes n l = blank_bytes k l).
  { intros Hc k n l Hk Hn. apply Hc; lia. }
  intros k. induction k as [|k IH]; intros n l Hk Hn.
  - destruct l; [by destruct n|simpl in Hk; lia].
  - destruct n as [|n]; [destruct l; [done|simpl in Hn; lia]|].
    destruct l as [|b l]; [done|]. cbn [blank_bytes].
    destruct (space_width (b :: l)) as [|w]; [done|].
    apply IH; rewrite length_drop; simpl in *; lia.
Qed.
