(* ===== verification/Decimals.v ===== *)
(** * Exact decimals

    A [gopkg.in/inf.v0] decimal is an unscaled integer and a scale and denotes
    [unscaled * 10^-scale].  Different pairs may denote the same number; this file
    has the equality of the numbers, the normal form reached by stripping trailing
    zeros, and plain decimal notation as a concrete printer. *)

From S2P Require Import Prelude Bytes GoSort GoJson.
From Stdlib Require Import DecimalString DecimalZ DecimalN.

Open Scope Z_scope.


(** [d] and [d'], pairs of unscaled value and scale, denote the same number. *)
Definition dec_eq (d d' : Z * Z) : Prop :=
  let m := Z.max d.2 d'.2 in d.1 * 10 ^ (m - d.2) = d'.1 * 10 ^ (m - d'.2).

(** The scale pushed up to zero when it is negative. *)
Definition int_form (d : Z * Z) : Z * Z :=
  if d.2 <=? 0 then (d.1 * 10 ^ (- d.2), 0) else d.

(** What the loop leaves: a whole number, or no trailing zero. *)
Definition stripped (d : Z * Z) : Prop := d.2 ≤ 0 ∨ d.1 = 0 ∨ Z.rem d.1 10 ≠ 0.

Lemma dec_eq_refl d : dec_eq d d.
Proof. done. Qed.

Lemma dec_eq_sym d d' : dec_eq d d' → dec_eq d' d.
Proof. unfold dec_eq. by rewrite (Z.max_comm d'.2). Qed.

(** The comparison may be made at any common scale. *)
Lemma dec_eq_at m d d' :
  d.2 ≤ m → d'.2 ≤ m →
  dec_eq d d' ↔ d.1 * 10 ^ (m - d.2) = d'.1 * 10 ^ (m - d'.2).
Proof.
  intros H H'. unfold dec_eq. set (n := Z.max d.2 d'.2).
  replace (m - d.2) with ((n - d.2) + (m - n)) by lia.
  replace (m - d'.2) with ((n - d'.2) + (m - n)) by lia.
  rewrite !Z.pow_add_r, !Z.mul_assoc by lia. split; [by intros ->|].
  intros E. apply Z.mul_cancel_r in E; [done|]. apply Z.pow_nonzero; lia.
Qed.

Lemma dec_eq_trans a b c : dec_eq a b → dec_eq b c → dec_eq a c.
Proof.
  set (m := Z.max a.2 (Z.max b.2 c.2)).
  rewrite !(dec_eq_at m) by lia. congruence.
Qed.

Lemma int_form_eq d : dec_eq (int_form d) d.
Proof.
  unfold int_form. destruct (Z.leb_spec d.2 0) as [Hs|]; [|apply dec_eq_refl].
  rewrite (dec_eq_at 0) by (simpl; lia). simpl. rewrite (Z.sub_0_l d.2). lia.
Qed.

Lemma multiple_of_ten u k : 0 < k → Z.rem (u * 10 ^ k) 10 = 0.
Proof.
  intros Hk. replace k with (Z.succ (k - 1)) by lia. rewrite Z.pow_succ_r by lia.
  replace (u * (10 * 10 ^ (k - 1))) with (u * 10 ^ (k - 1) * 10) by ring.
  apply Z.rem_mul. lia.
Qed.

(** One representation per value: two non-zero stripped decimals of equal value
    have the same integer form. *)
Lemma int_form_unique d d' :
  stripped d → stripped d' → d.1 ≠ 0 → d'.1 ≠ 0 → dec_eq d d' → int_form d = int_form d'.
Proof.
  destruct d as [u s], d' as [u' s']. unfold stripped, int_form, dec_eq. simpl.
  intros H H' Hu Hu' E.
  destruct (Z.leb_spec s 0) as [Hs|Hs], (Z.leb_spec s' 0) as [Hs'|Hs'].
  - f_equal. apply (dec_eq_at 0 (u, s) (u', s')) in E; simpl in *; [|lia..].
    by rewrite !Z.sub_0_l in E.
  - rewrite Z.max_r, Z.sub_diag, Z.mul_1_r in E by lia. destruct H' as [?|[?|[]]]; [lia..|].
    rewrite <- E. apply multiple_of_ten. lia.
  - rewrite Z.max_l, Z.sub_diag, Z.mul_1_r in E by lia. destruct H as [?|[?|[]]]; [lia..|].
    rewrite E. apply multiple_of_ten. lia.
  - destruct (Z.lt_trichotomy s s') as [Hlt|[<-|Hlt]].
    + rewrite Z.max_r, Z.sub_diag, Z.mul_1_r in E by lia. destruct H' as [?|[?|[]]]; [lia..|].
      rewrite <- E. apply multiple_of_ten. lia.
    + rewrite Z.max_id, Z.sub_diag, !Z.mul_1_r in E. by subst.
    + rewrite Z.max_l, Z.sub_diag, Z.mul_1_r in E by lia. destruct H as [?|[?|[]]]; [lia..|].
      rewrite E. apply multiple_of_ten. lia.
Qed.

Lemma dec_eq_zero d d' : dec_eq d d' → d.1 = 0 → d'.1 = 0.
Proof.
  unfold dec_eq. intros E H. rewrite H, Z.mul_0_l in E.
  symmetry in E. apply Z.mul_eq_0 in E as [|E]; [done|].
  exfalso. revert E. apply Z.pow_nonzero; lia.
Qed.

(** ** Printing *)

(** What the program relies on in [inf.Dec.String]: a non-positive scale prints
    the integer, zero prints as "0", and the text determines the number. *)
Class DecLaws (dec_string : Z → Z → string) := {
  dec_string_int : ∀ u k, 0 ≤ k → dec_string u (- k) = dec_string (u * 10 ^ k) 0;
  dec_string_zero : dec_string 0 0 = "0"%string;
  dec_string_value : ∀ u s u' s', dec_string u s = dec_string u' s' → dec_eq (u, s) (u', s')
}.

(** Plain notation: the digits of the unscaled value with a point [s] digits from
    the right, padded with zeros on the left. *)
Definition plain_digits (u s : Z) : bytes :=
  let d := bytes_of (itoa (Z.abs u)) in
  replicate (Z.to_nat (s + 1) - length d) Byte.x30 ++ d.

Definition plain_decimal (u s : Z) : string :=
  if s <=? 0 then itoa (u * 10 ^ (- s))
  else
    let d := plain_digits u s in
    let n := (length d - Z.to_nat s)%nat in
    String.string_of_list_byte
      ((if u <? 0 then [Byte.x2d] else []) ++ take n d ++ [Byte.x2e] ++ drop n d).

Definition digit_byte (b : byte) : bool := in_range 48 57 b.

(** The number a run of digits denotes, leading zeros included. *)
Definition digits_value (l : bytes) : option Z :=
  option_map Z.of_uint (NilEmpty.uint_of_string (String.string_of_list_byte l)).

Lemma itoa_abs u : itoa (Z.abs u) = NilZero.string_of_uint (N.to_uint (Z.abs_N u)).
Proof. by destruct u. Qed.

Lemma digits_value_itoa u : digits_value (bytes_of (itoa (Z.abs u))) = Some (Z.abs u).
Proof.
  unfold digits_value, bytes_of.
  rewrite String.string_of_list_byte_of_string, itoa_abs. unfold NilZero.string_of_uint.
  pose proof (DecimalN.Unsigned.of_to (Z.abs_N u)) as Hof. unfold N.of_uint in Hof.
  destruct (N.to_uint (Z.abs_N u)) eqn:E.
  { change (0%N = Z.abs_N u) in Hof. change (Some 0 = Some (Z.abs u)). f_equal. lia. }
  all: rewrite NilEmpty.usu; cbn [option_map]; unfold Z.of_uint; rewrite Hof; f_equal; lia.
Qed.

Lemma digits_value_zeros n l z :
  digits_value l = Some z → digits_value (replicate n Byte.x30 ++ l) = Some z.
Proof.
  intros H. induction n as [|n IH]; [done|]. revert IH. unfold digits_value.
  cbn [replicate app]. generalize (replicate n Byte.x30 ++ l). intros m.
  change (NilEmpty.uint_of_string (String.string_of_list_byte (Byte.x30 :: m)))
    with (option_map Decimal.D0 (NilEmpty.uint_of_string (String.string_of_list_byte m))).
  by destruct (NilEmpty.uint_of_string _).
Qed.

Lemma itoa_digits u : Forall (λ b, digit_byte b = true) (bytes_of (itoa (Z.abs u))).
Proof.
  assert (∀ d, Forall (λ b, digit_byte b = true) (bytes_of (NilEmpty.string_of_uint d))) as Hu.
  { induction d; simpl; constructor; auto. }
  rewrite itoa_abs. unfold NilZero.string_of_uint.
  destruct (N.to_uint _); try apply Hu; repeat constructor.
Qed.

Lemma plain_digits_digits u s : Forall (λ b, digit_byte b = true) (plain_digits u s).
Proof. apply Forall_app. split; [by apply Forall_replicate|apply itoa_digits]. Qed.

Lemma length_plain_digits u s : 0 < s → (Z.to_nat s < length (plain_digits u s))%nat.
Proof. intros Hs. unfold plain_digits. rewrite length_app, length_replicate. lia. Qed.

Lemma plain_digits_inj u u' s :
  plain_digits u s = plain_digits u' s → Z.abs u = Z.abs u'.
Proof.
  intros H. apply (f_equal digits_value) in H. unfold plain_digits in H.
  rewrite !(digits_value_zeros _ _ _ (digits_value_itoa _)) in H. congruence.
Qed.

Lemma plain_decimal_bytes u s :
  0 < s → ∃ a b, plain_digits u s = a ++ b ∧ a ≠ [] ∧ length b = Z.to_nat s ∧
    Forall (λ b, digit_byte b = true) a ∧
    bytes_of (plain_decimal u s) = (if u <? 0 then [Byte.x2d] else []) ++ a ++ Byte.x2e :: b.
Proof.
  intros Hs. pose proof (length_plain_digits u s Hs) as Hl.
  pose proof (plain_digits_digits u s) as Hd.
  set (n := (length (plain_digits u s) - Z.to_nat s)%nat).
  exists (take n (plain_digits u s)), (drop n (plain_digits u s)). split_and!.
  - by rewrite take_drop.
  - intros E%(f_equal length). rewrite length_take in E. simpl in E. lia.
  - rewrite length_drop. lia.
  - by apply Forall_take.
  - unfold plain_decimal, bytes_of. destruct (Z.leb_spec s 0); [lia|].
    by rewrite String.list_byte_of_string_of_list_byte.
Qed.

Lemma plain_decimal_no_point u s u' s' :
  s ≤ 0 → 0 < s' → plain_decimal u s ≠ plain_decimal u' s'.
Proof.
  intros Hs Hs' H. apply (f_equal bytes_of) in H.
  destruct (plain_decimal_bytes u' s' Hs') as (a & b & _ & _ & _ & _ & E).
  rewrite E in H. clear E. unfold plain_decimal in H.
  destruct (Z.leb_spec s 0); [|lia]. pose proof (itoa_num (u * 10 ^ (- s))) as Hn.
  rewrite H, !Forall_app, Forall_cons in Hn. destruct Hn as (_ & _ & Hp & _). done.
Qed.

(** Plain notation satisfies the laws. *)
#[export] Instance plain_decimal_laws : DecLaws plain_decimal.
Proof.
  split.
  - intros u k Hk. unfold plain_decimal. destruct (Z.leb_spec (- k) 0); [|lia].
    by rewrite Z.opp_involutive, Z.mul_1_r.
  - done.
  - intros u s u' s' H.
    destruct (Z.le_gt_cases s 0) as [Hs|Hs], (Z.le_gt_cases s' 0) as [Hs'|Hs'].
    + apply (dec_eq_at 0); [done..|]. rewrite !Z.sub_0_l. simpl.
      unfold plain_decimal in H. rewrite !(proj2 (Z.leb_le _ _)) in H by done.
      by apply (inj itoa) in H.
    + by apply plain_decimal_no_point in H.
    + symmetry in H. by apply plain_decimal_no_point in H.
    + destruct (plain_decimal_bytes u s Hs) as (a & b & D & Ha & Hb & Fa & E).
      destruct (plain_decimal_bytes u' s' Hs') as (a' & b' & D' & Ha' & Hb' & Fa' & E').
      apply (f_equal bytes_of) in H. rewrite E, E' in H.
      assert ((u <? 0) = (u' <? 0) ∧ a ++ Byte.x2e :: b = a' ++ Byte.x2e :: b') as [Hsg H'].
      { destruct Fa as [|x a Fx Fa], Fa' as [|x' a' Fx' Fa']; try done.
        destruct (u <? 0), (u' <? 0); cbn [app] in H.
        - injection H as -> H. split; [done|]. by rewrite <- !app_comm_cons, H.
        - by injection H as <- _.
        - by injection H as -> _.
        - split; [done|exact H]. }
      apply (span_unique digit_byte) in H' as [-> [= ->]]; [|done..].
      assert (s = s') as <- by lia.
      assert (u = u') as ->; [|apply dec_eq_refl].
      assert (Z.abs u = Z.abs u') by (apply (plain_digits_inj u u' s); congruence).
      destruct (Z.ltb_spec u 0), (Z.ltb_spec u' 0); simplify_eq/=; lia.
Qed.
