(* ===== verification/Kube.v ===== *)
(** * The Kubernetes objects the program reads

    The types come from k8s.io/api and k8s.io/apimachinery.  A record here has
    the fields this repository reads, and those its documentation says are
    excluded from the hash (environment variable values, annotations, status).
    Deeply nested upstream types, which the v2 surface embeds without looking
    inside, are parameters of the class [Upstream] together with their JSON
    encoding; so are [resource.Quantity] and the decimal type it converts to, with the
    laws [DecLaws] of its text. *)

From S2P Require Import Prelude Bytes GoJson Decimals.

Open Scope Z_scope.

(** The upstream types NormalizedPodSpec and NormalizedContainerV2 embed. *)
Inductive ktype :=
  | LocalObjectReference | PodSecurityContext | Volume | PodResourceClaim | HostAlias
  | PodDNSConfig | Affinity | Toleration | TopologySpreadConstraint | PodSchedulingGate
  | PodOS | EnvFromSource | ContainerPort | VolumeMount | VolumeDevice | SecurityContext
  | Probe | Lifecycle | EnvVarSource.

Class Upstream := {
  kval : ktype → Type;
  (** What [json.Marshal] produces for a value of the type; a custom marshaller
      may fail. *)
  kjson : ∀ t, kval t → result json;
  Quantity : Type;
  (** [q.AsDec()], as its [UnscaledBig()] and [Scale()]. *)
  AsDec : Quantity → Z * Z;
  (** [inf.NewDecBig(unscaled, scale).String()] *)
  dec_string : Z → Z → string;
  (** What inf documents of that text. *)
  upstream_decimals :: DecLaws dec_string
}.

Section Objects.
Context `{Upstream}.

Record EnvVar := {
  ev_Name : string;
  ev_Value : string;
  ev_ValueFrom : option (kval EnvVarSource)
}.

Abbreviation ResourceList := (option (gmap string Quantity)).

Record ResourceRequirements := {
  rr_Requests : ResourceList;
  rr_Limits : ResourceList
}.

Record Container := {
  c_Name : string;
  c_Image : string;
  c_Command : slice string;
  c_Args : slice string;
  c_WorkingDir : string;
  c_Env : slice EnvVar;
  c_EnvFrom : slice (kval EnvFromSource);
  c_Ports : slice (kval ContainerPort);
  c_ImagePullPolicy : string;
  c_Resources : ResourceRequirements;
  c_VolumeMounts : slice (kval VolumeMount);
  c_VolumeDevices : slice (kval VolumeDevice);
  c_SecurityContext : option (kval SecurityContext);
  c_LivenessProbe : option (kval Probe);
  c_ReadinessProbe : option (kval Probe);
  c_StartupProbe : option (kval Probe);
  c_Lifecycle : option (kval Lifecycle);
  c_RestartPolicy : option string
}.

Record LabelSelectorRequirement := {
  lsr_Key : string;
  lsr_Operator : string;
  lsr_Values : slice string
}.

Record LabelSelector := {
  ls_MatchLabels : gomap;
  ls_MatchExpressions : slice LabelSelectorRequirement
}.

Record PodSpec := {
  ps_InitContainers : slice Container;
  ps_Containers : slice Container;
  ps_ServiceAccountName : string;
  ps_AutomountServiceAccountToken : option bool;
  ps_ImagePullSecrets : slice (kval LocalObjectReference);
  ps_HostNetwork : bool;
  ps_HostPID : bool;
  ps_HostIPC : bool;
  ps_HostUsers : option bool;
  ps_RuntimeClassName : option string;
  ps_SecurityContext : option (kval PodSecurityContext);
  ps_ShareProcessNamespace : option bool;
  ps_Volumes : slice (kval Volume);
  ps_ResourceClaims : slice (kval PodResourceClaim);
  ps_HostAliases : slice (kval HostAlias);
  ps_DNSPolicy : string;
  ps_DNSConfig : option (kval PodDNSConfig);
  ps_Hostname : string;
  ps_Subdomain : string;
  ps_SetHostnameAsFQDN : option bool;
  ps_EnableServiceLinks : option bool;
  ps_NodeSelector : gomap;
  ps_NodeName : string;
  ps_SchedulerName : string;
  ps_Affinity : option (kval Affinity);
  ps_Tolerations : slice (kval Toleration);
  ps_TopologySpreadConstraints : slice (kval TopologySpreadConstraint);
  ps_PriorityClassName : string;
  ps_PreemptionPolicy : option string;
  ps_SchedulingGates : slice (kval PodSchedulingGate);
  ps_OS : option (kval PodOS)
}.

Record DeploymentStatus := {
  s_ObservedGeneration : Z;
  s_Replicas : Z;
  s_UpdatedReplicas : Z;
  s_ReadyReplicas : Z;
  s_AvailableReplicas : Z
}.

Record Deployment := {
  d_Namespace : string;
  d_Name : string;
  d_UID : string;
  d_Generation : Z;
  d_Labels : gomap;
  d_Annotations : gomap;
  d_Replicas : option Z;
  d_Selector : option LabelSelector;
  d_TemplateLabels : gomap;
  d_TemplateSpec : PodSpec;
  d_Status : DeploymentStatus
}.
End Objects.

(** ** A concrete instance, for evaluation

    Every embedded value is its own JSON encoding, and a quantity is the pair of
    its unscaled value and scale. *)

Module Concrete.

#[export] Instance concrete_upstream : Upstream := {|
  kval := λ _, json;
  kjson := λ _ v, Ok v;
  Quantity := Z * Z;
  AsDec := λ q, q;
  dec_string := plain_decimal;
  upstream_decimals := plain_decimal_laws
|}.

End Concrete.
