(* ===== verification/Normalize.v ===== *)
(** * The v1 hash surface (internal/attest/types.go, normalize.go)

    [Normalize] projects an observed Deployment onto the documented subset that
    participates in the v1 config hash.  The component is parametric in the
    upstream types and in the sorting algorithm behind [sort.Slice]. *)

From S2P Require Import Prelude Bytes GoSort GoJson Decimals Kube.

Open Scope Z_scope.

(** ** types.go *)

Record NormalizedSelectorReq := {
  nsr_Key : string;
  nsr_Operator : string;
  nsr_Values : slice string
}.

Record NormalizedSelector := {
  ns_MatchLabels : gomap;
  ns_MatchExpressions : slice NormalizedSelectorReq
}.

Record NormalizedResources := {
  nr_Requests : gomap;
  nr_Limits : gomap
}.

Record NormalizedContainer := {
  nc_Name : string;
  nc_Image : string;
  nc_EnvNames : slice string;
  nc_Resources : NormalizedResources
}.

Record NormalizedDeployment := {
  nd_Namespace : string;
  nd_Name : string;
  nd_Labels : gomap;
  nd_Replicas : Z;
  nd_Selector : NormalizedSelector;
  nd_PodTemplateLabels : gomap;
  nd_Containers : slice NormalizedContainer
}.

(** The struct tags: field names and their order on the wire. *)
Definition json_selector_req (r : NormalizedSelectorReq) : json :=
  JObj [("key", JStr (nsr_Key r)); ("operator", JStr (nsr_Operator r));
        ("values", json_slice JStr (nsr_Values r))].

Definition json_selector (s : NormalizedSelector) : json :=
  JObj [("matchLabels", json_map (ns_MatchLabels s));
        ("matchExpressions", json_slice json_selector_req (ns_MatchExpressions s))].

Definition json_resources (r : NormalizedResources) : json :=
  JObj [("requests", json_map (nr_Requests r)); ("limits", json_map (nr_Limits r))].

Definition json_container (c : NormalizedContainer) : json :=
  JObj [("name", JStr (nc_Name c)); ("image", JStr (nc_Image c));
        ("envNames", json_slice JStr (nc_EnvNames c));
        ("resources", json_resources (nc_Resources c))].

Definition json_deployment (d : NormalizedDeployment) : json :=
  JObj [("namespace", JStr (nd_Namespace d)); ("name", JStr (nd_Name d));
        ("labels", json_map (nd_Labels d)); ("replicas", JInt (nd_Replicas d));
        ("selector", json_selector (nd_Selector d));
        ("podTemplateLabels", json_map (nd_PodTemplateLabels d));
        ("containers", json_slice json_container (nd_Containers d))].

(** ** normalize.go *)

Definition defaultReplicas : Z := 1.

Definition generatedLabelKeys : list string :=
  ["pod-template-hash"; "controller-revision-hash"; "pod-template-generation";
   "statefulset.kubernetes.io/pod-name"; "apps.kubernetes.io/pod-index";
   "batch.kubernetes.io/job-completion-index"].

Definition isGeneratedLabel (key : string) : bool := bool_decide (key ∈ generatedLabelKeys).

(** The loop over the input map; the result is never nil. *)
Definition filterLabels (labels : gomap) : gomap :=
  Some (map_fold (λ k v out, if isGeneratedLabel k then out else <[k:=v]> out) ∅
          (entries labels)).

(** Compare element by element up to the shorter length, then by length. *)
Fixpoint lessStrings (a b : list string) : bool :=
  match a, b with
  | x :: a', y :: b' => if negb (bool_decide (x = y)) then str_lt x y else lessStrings a' b'
  | _, _ => Nat.ltb (length a) (length b)
  end.

(** The comparison handed to [sort.Slice] by [normalizeSelector]. *)
Definition selectorReqLess (a b : NormalizedSelectorReq) : bool :=
  if negb (bool_decide (nsr_Key a = nsr_Key b)) then str_lt (nsr_Key a) (nsr_Key b)
  else if negb (bool_decide (nsr_Operator a = nsr_Operator b))
       then str_lt (nsr_Operator a) (nsr_Operator b)
  else lessStrings (elems (nsr_Values a)) (elems (nsr_Values b)).

(** One turn of the loop of [canonicalQuantity], with truncated division as in
    [big.Int.QuoRem]. *)
Fixpoint strip_zeros (fuel : nat) (unscaled scale : Z) : Z * Z :=
  match fuel with
  | O => (unscaled, scale)
  | S fuel' =>
      if (0 <? scale) && negb (unscaled =? 0) then
        let quo := Z.quot unscaled 10 in
        let rem := Z.rem unscaled 10 in
        if negb (rem =? 0) then (unscaled, scale)
        else strip_zeros fuel' quo (scale - 1)
      else (unscaled, scale)
  end.

Section Normalize.
Context `{Upstream, Sorter}.

Definition canonicalQuantity (q : Quantity) : string :=
  let '(unscaled, scale) := AsDec q in
  let '(unscaled, scale) := strip_zeros (Z.to_nat scale) unscaled scale in
  if unscaled =? 0 then "0" else dec_string unscaled scale.

Definition quantityMap (rl : option (gmap string Quantity)) : gomap :=
  Some (map_fold (λ name q out, <[name:=canonicalQuantity q]> out) ∅ (default ∅ rl)).

Definition normalizeResources (r : ResourceRequirements) : NormalizedResources :=
  {| nr_Requests := quantityMap (rr_Requests r); nr_Limits := quantityMap (rr_Limits r) |}.

Definition envNames (env : slice EnvVar) : slice string :=
  Some (sort_strings (map ev_Name (elems env))).

Definition normalizeContainer (c : Container) : NormalizedContainer :=
  {| nc_Name := c_Name c; nc_Image := c_Image c; nc_EnvNames := envNames (c_Env c);
     nc_Resources := normalizeResources (c_Resources c) |}.

Definition normalizeContainers (cs : slice Container) : slice NormalizedContainer :=
  Some (sort_slice (λ a b, str_lt (nc_Name a) (nc_Name b))
          (map normalizeContainer (elems cs))).

Definition normalizeSelectorReq (req : LabelSelectorRequirement) : NormalizedSelectorReq :=
  let values := append_nil (elems (lsr_Values req)) in
  let values := option_map sort_strings values in
  {| nsr_Key := lsr_Key req; nsr_Operator := lsr_Operator req; nsr_Values := values |}.

Definition normalizeSelector (sel : option LabelSelector) : NormalizedSelector :=
  match sel with
  | None => {| ns_MatchLabels := Some ∅; ns_MatchExpressions := Some [] |}
  | Some sel =>
      {| ns_MatchLabels :=
           Some (map_fold (λ k v out, <[k:=v]> out) ∅ (entries (ls_MatchLabels sel)));
         ns_MatchExpressions :=
           Some (sort_slice selectorReqLess
                   (map normalizeSelectorReq (elems (ls_MatchExpressions sel)))) |}
  end.

Definition Normalize (d : Deployment) : NormalizedDeployment :=
  let replicas := match d_Replicas d with Some r => r | None => defaultReplicas end in
  {| nd_Namespace := d_Namespace d;
     nd_Name := d_Name d;
     nd_Labels := filterLabels (d_Labels d);
     nd_Replicas := replicas;
     nd_Selector := normalizeSelector (d_Selector d);
     nd_PodTemplateLabels := filterLabels (d_TemplateLabels d);
     nd_Containers := normalizeContainers (ps_Containers (d_TemplateSpec d)) |}.
End Normalize.

(** ** Maps built by a loop over a map *)

Lemma copy_map (m : strmap) : map_fold (λ k v out, <[k:=v]> out) ∅ m = m.
Proof.
  apply (map_fold_weak_ind (λ r m, r = m)); [done|]. by intros k v m' r _ ->.
Qed.

Lemma filterLabels_lookup labels k :
  entries (filterLabels labels) !! k =
  if isGeneratedLabel k then None else entries labels !! k.
Proof.
  unfold filterLabels. simpl.
  apply (map_fold_weak_ind (λ (r m : strmap),
    r !! k = if isGeneratedLabel k then None else m !! k)).
  - rewrite !lookup_empty. by destruct (isGeneratedLabel k).
  - intros i x m r _ IH. destruct (decide (i = k)) as [->|Hne].
    + destruct (isGeneratedLabel k); [done|]. by rewrite !lookup_insert_eq.
    + destruct (isGeneratedLabel i); rewrite !lookup_insert_ne by done; done.
Qed.

Lemma filterLabels_eq l l' :
  filterLabels l = filterLabels l' ↔
  ∀ k, isGeneratedLabel k = false → entries l !! k = entries l' !! k.
Proof.
  split.
  - intros H k Hk. apply (f_equal (λ m, entries m !! k)) in H.
    by rewrite !filterLabels_lookup, Hk in H.
  - intros H. unfold filterLabels. f_equal. apply map_eq. intros k.
    pose proof (filterLabels_lookup l k) as E1. pose proof (filterLabels_lookup l' k) as E2.
    simpl in E1, E2. rewrite E1, E2. destruct (isGeneratedLabel k) eqn:Hk; auto.
Qed.

(** ** The selector order *)

Lemma lessStrings_lex a b : lessStrings a b = lex_lt str_lt a b.
Proof.
  revert b. induction a as [|x a IH]; intros [|y b]; try done.
  cbn [lessStrings lex_lt]. case_bool_decide as E; simpl.
  - by rewrite IH, decide_True.
  - by rewrite decide_False.
Qed.

(** Key, operator and values, in the order they are compared. *)
Definition req_key (r : NormalizedSelectorReq) : list string :=
  nsr_Key r :: nsr_Operator r :: elems (nsr_Values r).

Lemma selectorReqLess_lex a b :
  selectorReqLess a b = lex_lt str_lt (req_key a) (req_key b).
Proof.
  unfold selectorReqLess, req_key. cbn [lex_lt].
  case_bool_decide as E1; simpl; [rewrite decide_True by done|by rewrite decide_False].
  case_bool_decide as E2; simpl; [rewrite decide_True by done|by rewrite decide_False].
  apply lessStrings_lex.
Qed.

#[export] Instance selectorReqLess_weak : StrictWeak selectorReqLess.
Proof.
  destruct (proj_weak req_key (lex_lt str_lt) _) as [H1 H2 H3].
  split; intros *; rewrite ?selectorReqLess_lex; [apply H1|apply H2|apply H3].
Qed.

(** Requirements as [normalizeSelector] builds them: values nil or non-empty. *)
Definition values_nf (r : NormalizedSelectorReq) : Prop := nsr_Values r ≠ Some [].

Lemma req_key_inj a b : values_nf a → values_nf b → req_key a = req_key b → a = b.
Proof.
  destruct a as [k o [v|]], b as [k' o' [v'|]]; unfold values_nf, req_key; simpl;
    intros Ha Hb H; simplify_eq/=; try done.
Qed.

(** ** The loop of [canonicalQuantity] *)

Lemma rem10 u : Z.rem u 10 = 0 → Z.quot u 10 * 10 = u.
Proof. intros H. pose proof (Z.quot_rem' u 10). lia. Qed.

Lemma strip_zeros_stripped fuel u s :
  (Z.to_nat s ≤ fuel)%nat → stripped (strip_zeros fuel u s).
Proof.
  revert u s. induction fuel as [|n IH]; intros u s Hf; simpl.
  - left. simpl. lia.
  - destruct (Z.ltb_spec 0 s) as [Hs|Hs], (Z.eqb_spec u 0) as [->|Hu]; simpl;
      try (unfold stripped; simpl; lia).
    destruct (Z.eqb_spec (Z.rem u 10) 0) as [Hr|Hr]; simpl;
      [apply IH; lia|unfold stripped; simpl; auto].
Qed.

Lemma strip_zeros_eq fuel u s : dec_eq (strip_zeros fuel u s) (u, s).
Proof.
  revert u s. induction fuel as [|n IH]; intros u s; simpl; [apply dec_eq_refl|].
  destruct (_ && _); [|apply dec_eq_refl].
  destruct (Z.eqb_spec (Z.rem u 10) 0) as [Hr%rem10|]; simpl; [|apply dec_eq_refl].
  eapply dec_eq_trans; [apply IH|]. rewrite (dec_eq_at s) by (simpl; lia). simpl.
  rewrite Z.sub_diag. replace (s - (s - 1)) with 1 by lia. lia.
Qed.

(** ** Quantities by value *)

Section CanonicalQuantity.
Context `{Upstream}.

Lemma canonicalQuantity_stripped q :
  ∃ d, stripped d ∧ dec_eq d (AsDec q) ∧
       canonicalQuantity q = if d.1 =? 0 then "0"%string else dec_string d.1 d.2.
Proof.
  unfold canonicalQuantity. destruct (AsDec q) as [u s].
  exists (strip_zeros (Z.to_nat s) u s). split_and!.
  - by apply strip_zeros_stripped.
  - apply strip_zeros_eq.
  - by destruct (strip_zeros _ _ _).
Qed.

Lemma dec_string_int_form d : dec_string (int_form d).1 (int_form d).2 = dec_string d.1 d.2.
Proof.
  unfold int_form. destruct (Z.leb_spec d.2 0); [|done]. simpl.
  rewrite <- dec_string_int by lia. by rewrite Z.opp_involutive.
Qed.

(** Rendered alike exactly when equal as numbers. *)
Lemma canonicalQuantity_eq (a b : Quantity) :
  canonicalQuantity a = canonicalQuantity b ↔ dec_eq (AsDec a) (AsDec b).
Proof.
  destruct (canonicalQuantity_stripped a) as (d & Hs & He & ->).
  destruct (canonicalQuantity_stripped b) as (d' & Hs' & He' & ->). split; intros E.
  - eapply dec_eq_trans; [by apply dec_eq_sym|]. eapply dec_eq_trans; [|exact He'].
    rewrite <- dec_string_zero in E.
    destruct (Z.eqb_spec d.1 0) as [Hz|Hz], (Z.eqb_spec d'.1 0) as [Hz'|Hz'].
    + unfold dec_eq. by rewrite Hz, Hz', !Z.mul_0_l.
    + apply dec_string_value in E. by apply dec_eq_zero in E.
    + apply dec_string_value, dec_eq_sym in E. by apply dec_eq_zero in E.
    + apply dec_string_value in E. by rewrite <- !surjective_pairing in E.
  - assert (Hd : dec_eq d d').
    { eapply dec_eq_trans; [exact He|]. eapply dec_eq_trans; [exact E|].
      by apply dec_eq_sym. }
    destruct (Z.eqb_spec d.1 0) as [Hz|Hz], (Z.eqb_spec d'.1 0) as [Hz'|Hz']; [done|..].
    + by apply (dec_eq_zero _ _ Hd) in Hz.
    + by apply dec_eq_sym, dec_eq_zero in Hd.
    + by rewrite <- (dec_string_int_form d), <- (dec_string_int_form d'), (int_form_unique d d').
Qed.
End CanonicalQuantity.

(** ** What v1 can and cannot tell apart *)

(** Equal lists up to reordering and [R] on the elements. *)
Definition perm_upto {A} (R : A → A → Prop) (l l' : list A) : Prop :=
  ∃ m, Forall2 R l m ∧ m ≡ₚ l'.

Lemma perm_upto_map {A B} (f : A → B) (R : A → A → Prop) l l' :
  (∀ a a', R a a' ↔ f a = f a') → perm_upto R l l' ↔ map f l ≡ₚ map f l'.
Proof.
  intros HR. split.
  - intros (m & Hm & Hp). rewrite <- Hp.
    assert (map f l = map f m) as ->; [|done]. clear Hp.
    induction Hm as [|a a' l m Ha _ IH]; simpl; [done|]. f_equal; [by apply HR|auto].
  - intros H. destruct (Permutation_map_inv _ _ H) as (m & Hm & Hp).
    exists m. split; [|by symmetry]. clear H Hp. revert m Hm.
    induction l as [|a l IH]; intros [|a' m] Hm; simplify_eq/=; constructor; auto.
    by apply HR.
Qed.

Section Surface.
Context `{Upstream}.

Definition req_equiv (a b : LabelSelectorRequirement) : Prop :=
  lsr_Key a = lsr_Key b ∧ lsr_Operator a = lsr_Operator b ∧
  elems (lsr_Values a) ≡ₚ elems (lsr_Values b).

(** A missing selector is an empty one; the order of requirements and of their
    values is irrelevant. *)
Definition selector_equiv (s s' : option LabelSelector) : Prop :=
  let labels s := match s with Some s => entries (ls_MatchLabels s) | None => ∅ end in
  let reqs s := match s with Some s => elems (ls_MatchExpressions s) | None => [] end in
  labels s = labels s' ∧ perm_upto req_equiv (reqs s) (reqs s').

(** The same resources are declared, each with the same number: [unscaled * 10^-scale]
    is compared exactly, whatever the two spellings. *)
Definition quantities_equiv (m m' : option (gmap string Quantity)) : Prop :=
  ∀ k, option_Forall2 (λ q q', dec_eq (AsDec q) (AsDec q')) (default ∅ m !! k)
         (default ∅ m' !! k).

Definition resources_equiv (r r' : ResourceRequirements) : Prop :=
  quantities_equiv (rr_Requests r) (rr_Requests r') ∧
  quantities_equiv (rr_Limits r) (rr_Limits r').

Definition container_equiv (c c' : Container) : Prop :=
  c_Name c = c_Name c' ∧ c_Image c = c_Image c' ∧
  map ev_Name (elems (c_Env c)) ≡ₚ map ev_Name (elems (c_Env c')) ∧
  resources_equiv (c_Resources c) (c_Resources c').

(** The labels controllers write on the objects they create. *)
Definition written_by_controllers : list string :=
  ["apps.kubernetes.io/pod-index"; "batch.kubernetes.io/job-completion-index";
   "controller-revision-hash"; "pod-template-generation"; "pod-template-hash";
   "statefulset.kubernetes.io/pod-name"].

Definition labels_equiv (l l' : gomap) : Prop :=
  ∀ k, k ∉ written_by_controllers → entries l !! k = entries l' !! k.

(** A missing replica count is one replica. *)
Definition replicas_of (d : Deployment) : Z := default 1 (d_Replicas d).

(** The v1 surface: everything else about a Deployment is invisible. *)
Definition v1_equiv (d d' : Deployment) : Prop :=
  d_Namespace d = d_Namespace d' ∧ d_Name d = d_Name d' ∧
  labels_equiv (d_Labels d) (d_Labels d') ∧
  replicas_of d = replicas_of d' ∧
  selector_equiv (d_Selector d) (d_Selector d') ∧
  labels_equiv (d_TemplateLabels d) (d_TemplateLabels d') ∧
  perm_upto container_equiv (elems (ps_Containers (d_TemplateSpec d)))
    (elems (ps_Containers (d_TemplateSpec d'))).

Definition distinct_container_names (d : Deployment) : Prop :=
  NoDup (map c_Name (elems (ps_Containers (d_TemplateSpec d)))).

#[export] Instance distinct_container_names_dec d : Decision (distinct_container_names d).
Proof. unfold distinct_container_names. apply _. Defined.

Context (S1 S2 : Sorter).

Lemma sort_strings_eq l l' :
  @sort_strings S1 l = @sort_strings S2 l' ↔ l ≡ₚ l'.
Proof.
  unfold sort_strings. split.
  - intros E. by rewrite <- (@sort_perm S1 _ str_lt l), E, sort_perm.
  - intros Hp. by apply sort_total; [apply _|].
Qed.

Lemma quantityMap_lookup m k :
  entries (quantityMap m) !! k = canonicalQuantity <$> default ∅ m !! k.
Proof.
  unfold quantityMap. simpl. generalize (default ∅ m). clear m. intros m.
  apply (map_fold_weak_ind (λ (r : strmap) (m : gmap string Quantity),
    r !! k = canonicalQuantity <$> m !! k)); [done|].
  intros i x m' r _ IH. rewrite !lookup_insert. by case_decide.
Qed.

Lemma quantities_equiv_refl m : quantities_equiv m m.
Proof. intros k. destruct (default ∅ m !! k); constructor. apply dec_eq_refl. Qed.

Lemma container_equiv_refl c : container_equiv c c.
Proof. repeat split; try done; apply quantities_equiv_refl. Qed.

Lemma canonicalQuantity_option (o o' : option Quantity) :
  canonicalQuantity <$> o = canonicalQuantity <$> o' ↔
  option_Forall2 (λ q q', dec_eq (AsDec q) (AsDec q')) o o'.
Proof.
  split.
  - destruct o, o'; intros [=]; constructor; by apply canonicalQuantity_eq.
  - intros [q q' E|]; [|done]. simpl. f_equal. by apply canonicalQuantity_eq.
Qed.

Lemma quantityMap_eq m m' : quantityMap m = quantityMap m' ↔ quantities_equiv m m'.
Proof.
  unfold quantities_equiv. setoid_rewrite <- canonicalQuantity_option. split.
  - intros E k. by rewrite <- !quantityMap_lookup, E.
  - intros Hq. unfold quantityMap. f_equal. apply map_eq. intros k.
    pose proof (quantityMap_lookup m k) as E1. pose proof (quantityMap_lookup m' k) as E2.
    simpl in E1, E2. by rewrite E1, E2.
Qed.

Lemma isGeneratedLabel_written k : isGeneratedLabel k = false ↔ k ∉ written_by_controllers.
Proof. unfold isGeneratedLabel. rewrite bool_decide_eq_false. set_solver. Qed.

Lemma filterLabels_equiv l l' : filterLabels l = filterLabels l' ↔ labels_equiv l l'.
Proof.
  rewrite filterLabels_eq. unfold labels_equiv. by setoid_rewrite isGeneratedLabel_written.
Qed.

Lemma normalizeContainer_eq c c' :
  @normalizeContainer _ S1 c = @normalizeContainer _ S2 c' ↔ container_equiv c c'.
Proof.
  unfold container_equiv, resources_equiv.
  rewrite <- !quantityMap_eq, <- sort_strings_eq.
  unfold normalizeContainer, envNames, normalizeResources. split.
  - intros E. simplify_eq. unfold quantityMap. split_and!; congruence.
  - intros (E1 & E2 & E3 & E4 & E5). by rewrite E1, E2, E3, E4, E5.
Qed.

Lemma normalizeSelectorReq_eq r r' :
  @normalizeSelectorReq S1 r = @normalizeSelectorReq S2 r' ↔ req_equiv r r'.
Proof.
  unfold req_equiv. rewrite <- sort_strings_eq. unfold normalizeSelectorReq.
  set (v := elems (lsr_Values r)). set (v' := elems (lsr_Values r')). split.
  - intros E. simplify_eq. split_and!; [done..|].
    destruct v, v'; simplify_eq/=; [apply sort_strings_eq; done|done].
  - intros (-> & -> & E). f_equal. apply sort_strings_eq in E as E'.
    destruct v, v'; simpl; [done|by apply Permutation_nil_cons in E'| |by f_equal].
    by symmetry in E'; apply Permutation_nil_cons in E'.
Qed.

Lemma sorted_eq {A} (less : A → A → bool) l l' :
  StrictWeak less →
  (∀ a b, a ∈ l → b ∈ l → less a b = false → less b a = false → a = b) →
  @sort_slice S1 A less l = @sort_slice S2 A less l' ↔ l ≡ₚ l'.
Proof.
  intros Hw Hanti. split.
  - intros E. by rewrite <- (@sort_perm S1 _ less l), E, sort_perm.
  - by apply sort_unique.
Qed.
End Surface.

Section SurfaceExact.
Context `{Upstream} (S1 S2 : Sorter).

Definition sel_labels (s : option LabelSelector) : strmap :=
  match s with Some s => entries (ls_MatchLabels s) | None => ∅ end.
Definition sel_reqs (s : option LabelSelector) : list LabelSelectorRequirement :=
  match s with Some s => elems (ls_MatchExpressions s) | None => [] end.

Lemma normalizeSelector_form (S : Sorter) s :
  normalizeSelector s =
  {| ns_MatchLabels := Some (sel_labels s);
     ns_MatchExpressions :=
       Some (sort_slice selectorReqLess (map normalizeSelectorReq (sel_reqs s))) |}.
Proof.
  destruct s as [s|]; simpl; [by rewrite copy_map|]. do 2 f_equal.
  symmetry. apply Permutation_nil. symmetry. apply sort_perm.
Qed.

Lemma normalizeSelectorReq_indep r :
  @normalizeSelectorReq S2 r = @normalizeSelectorReq S1 r.
Proof. by apply normalizeSelectorReq_eq. Qed.

Lemma normalizeContainer_indep c :
  @normalizeContainer _ S2 c = @normalizeContainer _ S1 c.
Proof. by apply normalizeContainer_eq, container_equiv_refl. Qed.

Lemma normalizeSelectorReq_nf (S : Sorter) r : values_nf (normalizeSelectorReq r).
Proof.
  unfold values_nf, normalizeSelectorReq. simpl.
  destruct (elems (lsr_Values r)) as [|x l]; simpl; [done|]. intros [= E].
  assert (sort_strings (x :: l) ≡ₚ x :: l) as Hp by apply sort_perm.
  rewrite E in Hp. by apply Permutation_nil_cons in Hp.
Qed.

Lemma reqs_antisym (S : Sorter) l a b :
  a ∈ map normalizeSelectorReq l → b ∈ map normalizeSelectorReq l →
  selectorReqLess a b = false → selectorReqLess b a = false → a = b.
Proof.
  intros (r & -> & _)%list_elem_of_fmap (r' & -> & _)%list_elem_of_fmap.
  rewrite !selectorReqLess_lex. intros H1 H2.
  apply req_key_inj; [apply normalizeSelectorReq_nf..|by apply st_total].
Qed.

Lemma normalizeSelector_eq s s' :
  @normalizeSelector S1 s = @normalizeSelector S2 s' ↔ selector_equiv s s'.
Proof.
  rewrite !normalizeSelector_form.
  rewrite (map_ext (@normalizeSelectorReq S2) (@normalizeSelectorReq S1))
    by apply normalizeSelectorReq_indep.
  unfold selector_equiv. change (perm_upto _ _ _) with
    (perm_upto req_equiv (sel_reqs s) (sel_reqs s')).
  rewrite (perm_upto_map (@normalizeSelectorReq S1))
    by (intros; symmetry; apply normalizeSelectorReq_eq).
  rewrite <- (sorted_eq S1 S2 selectorReqLess) by apply _ || apply reqs_antisym.
  split; [intros E; by simplify_eq|]. intros [E1 E2]. by rewrite E2; f_equal; f_equal.
Qed.

Lemma names_antisym cs a b :
  NoDup (map c_Name cs) →
  a ∈ map (@normalizeContainer _ S1) cs → b ∈ map (@normalizeContainer _ S1) cs →
  str_lt (nc_Name a) (nc_Name b) = false → str_lt (nc_Name b) (nc_Name a) = false → a = b.
Proof.
  intros Hnd (c & -> & [i Hi]%list_elem_of_lookup)%list_elem_of_fmap
    (c' & -> & [j Hj]%list_elem_of_lookup)%list_elem_of_fmap H1 H2.
  pose proof (st_total _ _ H1 H2) as E. simpl in E.
  assert (i = j) as ->; [|congruence].
  apply (NoDup_lookup (map c_Name cs) _ _ (c_Name c)); [done|..];
    rewrite list_lookup_fmap; [by rewrite Hi|by rewrite Hj, E].
Qed.

Lemma normalizeContainers_eq cs cs' :
  NoDup (map c_Name (elems cs)) →
  @normalizeContainers _ S1 cs = @normalizeContainers _ S2 cs' ↔
  perm_upto container_equiv (elems cs) (elems cs').
Proof.
  intros Hnd. unfold normalizeContainers.
  rewrite (map_ext (@normalizeContainer _ S2) (@normalizeContainer _ S1))
    by apply normalizeContainer_indep.
  rewrite (perm_upto_map (@normalizeContainer _ S1))
    by (intros; symmetry; apply normalizeContainer_eq).
  rewrite <- (sorted_eq S1 S2 (λ a b, str_lt (nc_Name a) (nc_Name b))).
  - split; [intros E; by simplify_eq|by intros ->].
  - by apply proj_weak, str_lt_total.
  - intros a b. by apply names_antisym.
Qed.

Lemma Normalize_eq d d' :
  distinct_container_names d → @Normalize _ S1 d = @Normalize _ S2 d' ↔ v1_equiv d d'.
Proof.
  intros Hnd. unfold v1_equiv. rewrite <- !filterLabels_equiv, <- normalizeSelector_eq, <- normalizeContainers_eq by done.
  unfold Normalize. change (match d_Replicas ?d with Some r => r | None => _ end)
    with (replicas_of d). split.
  - intros E.
    exact (conj (f_equal nd_Namespace E) (conj (f_equal nd_Name E)
      (conj (f_equal nd_Labels E) (conj (f_equal nd_Replicas E)
      (conj (f_equal nd_Selector E) (conj (f_equal nd_PodTemplateLabels E)
      (f_equal nd_Containers E))))))).
  - intros (-> & -> & -> & -> & -> & -> & ->). done.
Qed.
End SurfaceExact.

Section QuantityExact.
Context `{Upstream}.

(** C27: two quantities are rendered alike exactly when they are the same number,
    whatever spelling they were declared with; the canonical string is the exact
    value and never a rounded one. *)
Theorem canonicalQuantity_exact (a b : Quantity) :
  canonicalQuantity a = canonicalQuantity b ↔ dec_eq (AsDec a) (AsDec b).
Proof. apply canonicalQuantity_eq. Qed.
End QuantityExact.

Module QuantityWitness.
Import Concrete.

(** The spellings "1", "1000m" and "1e0" of one CPU, and 999m. *)
Lemma canonicalQuantity_exact_witness :
  canonicalQuantity (1000, 3) = canonicalQuantity (1, 0) ∧
  canonicalQuantity (999, 3) ≠ canonicalQuantity (1, 0).
Proof.
  split; [|intros E; revert E];
    rewrite (@canonicalQuantity_exact concrete_upstream);
    [reflexivity|discriminate].
Defined.
End QuantityWitness.
