(* ===== verification/NormalizeV2.v ===== *)
(** * The v2 hash surface (internal/attest/types_v2.go, normalize_v2.go)

    [NormalizeV2] projects a Deployment onto what it executes and is permitted to
    do, preserving declared list order.  Embedded upstream types keep their own
    JSON encoding ([kjson]). *)

From S2P Require Import Prelude Bytes GoSort GoJson Decimals Kube Normalize.

Open Scope Z_scope.

(** ** Encoders that may fail *)

Definition j_slice {A} (f : A → result json) (s : slice A) : result json :=
  match s with
  | None => Ok JNull
  | Some l => js <-? mapR f l;; Ok (JArr js)
  end.

Definition j_ptr {A} (f : A → result json) (p : option A) : result json :=
  match p with None => Ok JNull | Some a => f a end.

(** A struct: its fields in declaration order. *)
Definition j_struct (fs : list (string * result json)) : result json :=
  kvs <-? mapR (λ f, v <-? f.2;; Ok (f.1, v)) fs;; Ok (JObj kvs).

Section TypesV2.
Context `{Upstream}.

(** ** types_v2.go *)

Record NormalizedEnvRef := {
  ner_Name : string;
  ner_Literal : bool;
  ner_ValueFrom : option (kval EnvVarSource)
}.

Record NormalizedContainerV2 := {
  nc2_Name : string;
  nc2_Image : string;
  nc2_Command : slice string;
  nc2_Args : slice string;
  nc2_WorkingDir : string;
  nc2_Env : slice NormalizedEnvRef;
  nc2_EnvFrom : slice (kval EnvFromSource);
  nc2_Ports : slice (kval ContainerPort);
  nc2_ImagePullPolicy : string;
  nc2_Resources : NormalizedResources;
  nc2_VolumeMounts : slice (kval VolumeMount);
  nc2_VolumeDevices : slice (kval VolumeDevice);
  nc2_SecurityContext : option (kval SecurityContext);
  nc2_LivenessProbe : option (kval Probe);
  nc2_ReadinessProbe : option (kval Probe);
  nc2_StartupProbe : option (kval Probe);
  nc2_Lifecycle : option (kval Lifecycle);
  nc2_RestartPolicy : option string
}.

Record NormalizedPodSpec := {
  np_InitContainers : slice NormalizedContainerV2;
  np_Containers : slice NormalizedContainerV2;
  np_ServiceAccountName : string;
  np_AutomountServiceAccountToken : option bool;
  np_ImagePullSecrets : slice (kval LocalObjectReference);
  np_HostNetwork : bool;
  np_HostPID : bool;
  np_HostIPC : bool;
  np_HostUsers : option bool;
  np_RuntimeClassName : option string;
  np_SecurityContext : option (kval PodSecurityContext);
  np_ShareProcessNamespace : option bool;
  np_Volumes : slice (kval Volume);
  np_ResourceClaims : slice (kval PodResourceClaim);
  np_HostAliases : slice (kval HostAlias);
  np_DNSPolicy : string;
  np_DNSConfig : option (kval PodDNSConfig);
  np_Hostname : string;
  np_Subdomain : string;
  np_SetHostnameAsFQDN : option bool;
  np_EnableServiceLinks : option bool;
  np_NodeSelector : gomap;
  np_NodeName : string;
  np_SchedulerName : string;
  np_Affinity : option (kval Affinity);
  np_Tolerations : slice (kval Toleration);
  np_TopologySpreadConstraints : slice (kval TopologySpreadConstraint);
  np_PriorityClassName : string;
  np_PreemptionPolicy : option string;
  np_SchedulingGates : slice (kval PodSchedulingGate);
  np_OS : option (kval PodOS)
}.

Record NormalizedDeploymentV2 := {
  nd2_Namespace : string;
  nd2_Name : string;
  nd2_Labels : gomap;
  nd2_Selector : NormalizedSelector;
  nd2_PodTemplateLabels : gomap;
  nd2_Pod : NormalizedPodSpec
}.

(** *** The struct tags *)

Definition json_env_ref (e : NormalizedEnvRef) : result json :=
  j_struct [("name", Ok (JStr (ner_Name e))); ("literal", Ok (JBool (ner_Literal e)));
            ("valueFrom", j_ptr (kjson _) (ner_ValueFrom e))].

Definition json_container_v2 (c : NormalizedContainerV2) : result json :=
  j_struct
    [("name", Ok (JStr (nc2_Name c))); ("image", Ok (JStr (nc2_Image c)));
     ("command", Ok (json_slice JStr (nc2_Command c)));
     ("args", Ok (json_slice JStr (nc2_Args c)));
     ("workingDir", Ok (JStr (nc2_WorkingDir c)));
     ("env", j_slice json_env_ref (nc2_Env c));
     ("envFrom", j_slice (kjson _) (nc2_EnvFrom c));
     ("ports", j_slice (kjson _) (nc2_Ports c));
     ("imagePullPolicy", Ok (JStr (nc2_ImagePullPolicy c)));
     ("resources", Ok (json_resources (nc2_Resources c)));
     ("volumeMounts", j_slice (kjson _) (nc2_VolumeMounts c));
     ("volumeDevices", j_slice (kjson _) (nc2_VolumeDevices c));
     ("securityContext", j_ptr (kjson _) (nc2_SecurityContext c));
     ("livenessProbe", j_ptr (kjson _) (nc2_LivenessProbe c));
     ("readinessProbe", j_ptr (kjson _) (nc2_ReadinessProbe c));
     ("startupProbe", j_ptr (kjson _) (nc2_StartupProbe c));
     ("lifecycle", j_ptr (kjson _) (nc2_Lifecycle c));
     ("restartPolicy", Ok (json_ptr JStr (nc2_RestartPolicy c)))].

Definition json_pod_spec (p : NormalizedPodSpec) : result json :=
  j_struct
    [("initContainers", j_slice json_container_v2 (np_InitContainers p));
     ("containers", j_slice json_container_v2 (np_Containers p));
     ("serviceAccountName", Ok (JStr (np_ServiceAccountName p)));
     ("automountServiceAccountToken", Ok (json_ptr JBool (np_AutomountServiceAccountToken p)));
     ("imagePullSecrets", j_slice (kjson _) (np_ImagePullSecrets p));
     ("hostNetwork", Ok (JBool (np_HostNetwork p)));
     ("hostPID", Ok (JBool (np_HostPID p)));
     ("hostIPC", Ok (JBool (np_HostIPC p)));
     ("hostUsers", Ok (json_ptr JBool (np_HostUsers p)));
     ("runtimeClassName", Ok (json_ptr JStr (np_RuntimeClassName p)));
     ("securityContext", j_ptr (kjson _) (np_SecurityContext p));
     ("shareProcessNamespace", Ok (json_ptr JBool (np_ShareProcessNamespace p)));
     ("volumes", j_slice (kjson _) (np_Volumes p));
     ("resourceClaims", j_slice (kjson _) (np_ResourceClaims p));
     ("hostAliases", j_slice (kjson _) (np_HostAliases p));
     ("dnsPolicy", Ok (JStr (np_DNSPolicy p)));
     ("dnsConfig", j_ptr (kjson _) (np_DNSConfig p));
     ("hostname", Ok (JStr (np_Hostname p)));
     ("subdomain", Ok (JStr (np_Subdomain p)));
     ("setHostnameAsFQDN", Ok (json_ptr JBool (np_SetHostnameAsFQDN p)));
     ("enableServiceLinks", Ok (json_ptr JBool (np_EnableServiceLinks p)));
     ("nodeSelector", Ok (json_map (np_NodeSelector p)));
     ("nodeName", Ok (JStr (np_NodeName p)));
     ("schedulerName", Ok (JStr (np_SchedulerName p)));
     ("affinity", j_ptr (kjson _) (np_Affinity p));
     ("tolerations", j_slice (kjson _) (np_Tolerations p));
     ("topologySpreadConstraints", j_slice (kjson _) (np_TopologySpreadConstraints p));
     ("priorityClassName", Ok (JStr (np_PriorityClassName p)));
     ("preemptionPolicy", Ok (json_ptr JStr (np_PreemptionPolicy p)));
     ("schedulingGates", j_slice (kjson _) (np_SchedulingGates p));
     ("os", j_ptr (kjson _) (np_OS p))].

Definition json_deployment_v2 (d : NormalizedDeploymentV2) : result json :=
  j_struct
    [("namespace", Ok (JStr (nd2_Namespace d))); ("name", Ok (JStr (nd2_Name d)));
     ("labels", Ok (json_map (nd2_Labels d)));
     ("selector", Ok (json_selector (nd2_Selector d)));
     ("podTemplateLabels", Ok (json_map (nd2_PodTemplateLabels d)));
     ("pod", json_pod_spec (nd2_Pod d))].
End TypesV2.

(** ** normalize_v2.go *)

Definition nonNilSlice {A} (s : slice A) : slice A :=
  match s with None => Some [] | Some l => Some l end.

Definition nonNilMap (m : gomap) : gomap :=
  match m with None => Some ∅ | Some m => Some m end.

Section NormalizeV2.
Context `{Upstream, Sorter}.

Definition normalizeEnvRef (e : EnvVar) : NormalizedEnvRef :=
  {| ner_Name := ev_Name e;
     ner_Literal := match ev_ValueFrom e with None => true | Some _ => false end;
     ner_ValueFrom := ev_ValueFrom e |}.

Definition normalizeEnvRefs (env : slice EnvVar) : slice NormalizedEnvRef :=
  Some (map normalizeEnvRef (elems env)).

Definition normalizeContainerV2 (c : Container) : NormalizedContainerV2 :=
  {| nc2_Name := c_Name c;
     nc2_Image := c_Image c;
     nc2_Command := nonNilSlice (c_Command c);
     nc2_Args := nonNilSlice (c_Args c);
     nc2_WorkingDir := c_WorkingDir c;
     nc2_Env := normalizeEnvRefs (c_Env c);
     nc2_EnvFrom := nonNilSlice (c_EnvFrom c);
     nc2_Ports := nonNilSlice (c_Ports c);
     nc2_ImagePullPolicy := c_ImagePullPolicy c;
     nc2_Resources := normalizeResources (c_Resources c);
     nc2_VolumeMounts := nonNilSlice (c_VolumeMounts c);
     nc2_VolumeDevices := nonNilSlice (c_VolumeDevices c);
     nc2_SecurityContext := c_SecurityContext c;
     nc2_LivenessProbe := c_LivenessProbe c;
     nc2_ReadinessProbe := c_ReadinessProbe c;
     nc2_StartupProbe := c_StartupProbe c;
     nc2_Lifecycle := c_Lifecycle c;
     nc2_RestartPolicy := c_RestartPolicy c |}.

Definition normalizeContainersV2 (cs : slice Container) : slice NormalizedContainerV2 :=
  Some (map normalizeContainerV2 (elems cs)).

Definition normalizePodSpec (spec : PodSpec) : NormalizedPodSpec :=
  {| np_InitContainers := normalizeContainersV2 (ps_InitContainers spec);
     np_Containers := normalizeContainersV2 (ps_Containers spec);
     np_ServiceAccountName := ps_ServiceAccountName spec;
     np_AutomountServiceAccountToken := ps_AutomountServiceAccountToken spec;
     np_ImagePullSecrets := nonNilSlice (ps_ImagePullSecrets spec);
     np_HostNetwork := ps_HostNetwork spec;
     np_HostPID := ps_HostPID spec;
     np_HostIPC := ps_HostIPC spec;
     np_HostUsers := ps_HostUsers spec;
     np_RuntimeClassName := ps_RuntimeClassName spec;
     np_SecurityContext := ps_SecurityContext spec;
     np_ShareProcessNamespace := ps_ShareProcessNamespace spec;
     np_Volumes := nonNilSlice (ps_Volumes spec);
     np_ResourceClaims := nonNilSlice (ps_ResourceClaims spec);
     np_HostAliases := nonNilSlice (ps_HostAliases spec);
     np_DNSPolicy := ps_DNSPolicy spec;
     np_DNSConfig := ps_DNSConfig spec;
     np_Hostname := ps_Hostname spec;
     np_Subdomain := ps_Subdomain spec;
     np_SetHostnameAsFQDN := ps_SetHostnameAsFQDN spec;
     np_EnableServiceLinks := ps_EnableServiceLinks spec;
     np_NodeSelector := nonNilMap (ps_NodeSelector spec);
     np_NodeName := ps_NodeName spec;
     np_SchedulerName := ps_SchedulerName spec;
     np_Affinity := ps_Affinity spec;
     np_Tolerations := nonNilSlice (ps_Tolerations spec);
     np_TopologySpreadConstraints := nonNilSlice (ps_TopologySpreadConstraints spec);
     np_PriorityClassName := ps_PriorityClassName spec;
     np_PreemptionPolicy := ps_PreemptionPolicy spec;
     np_SchedulingGates := nonNilSlice (ps_SchedulingGates spec);
     np_OS := ps_OS spec |}.

Definition NormalizeV2 (d : Deployment) : NormalizedDeploymentV2 :=
  {| nd2_Namespace := d_Namespace d;
     nd2_Name := d_Name d;
     nd2_Labels := filterLabels (d_Labels d);
     nd2_Selector := normalizeSelector (d_Selector d);
     nd2_PodTemplateLabels := filterLabels (d_TemplateLabels d);
     nd2_Pod := normalizePodSpec (d_TemplateSpec d) |}.
End NormalizeV2.


Create HintDb agree discriminated.
Create HintDb enc discriminated.

(** ** What v2 can tell apart *)

(** Both encodings succeed, with the same value. *)
Definition agree (r r' : result json) : Prop := ∃ v, r = Ok v ∧ r' = Ok v.

Lemma agree_Ok a b : agree (Ok a) (Ok b) ↔ a = b.
Proof. split; [by intros (v & [= ->] & [= ->])|by intros ->; exists b]. Qed.

(** The fields of two structs encode alike, one by one. *)
Fixpoint agree_fields (fs fs' : list (string * result json)) : Prop :=
  match fs, fs' with
  | [], [] => True
  | f :: fs, f' :: fs' => agree f.2 f'.2 ∧ agree_fields fs fs'
  | _, _ => False
  end.

Lemma agree_struct fs fs' :
  agree (j_struct fs) (j_struct fs') → agree_fields fs fs'.
Proof.
  unfold j_struct. set (enc := λ f : string * result json, v <-? f.2;; Ok (f.1, v)).
  intros (j & H & H'). destruct (mapR enc fs) as [l|] eqn:E; [|done]. injection H as <-.
  destruct (mapR enc fs') as [l'|] eqn:E'; [|done]. injection H' as ->.
  apply mapR_Ok in E, E'. revert fs' E'.
  induction E as [|f kv fs l Hf _ IH]; intros fs' H'; inv H'; [done|]. split; [|auto].
  rename select (enc _ = Ok _) into Hf'. subst enc. simpl in *.
  destruct (f.2) as [v|], (x.2) as [v'|]; simplify_eq. by exists v'.
Qed.

Lemma agree_slice {A} (f : A → result json) l l' :
  agree (j_slice f (Some l)) (j_slice f (Some l')) →
  Forall2 (λ a b, agree (f a) (f b)) l l'.
Proof.
  unfold j_slice. intros (j & H & H').
  destruct (mapR f l) as [js|] eqn:E; [|done]. injection H as <-.
  destruct (mapR f l') as [js'|] eqn:E'; [|done]. injection H' as ->.
  apply mapR_Ok in E, E'. revert l' E'.
  induction E as [|a j l js Ha _ IH]; intros l' H'; inv H'; constructor; [|auto].
  by exists j.
Qed.

Lemma j_struct_ext fs fs' :
  Forall2 (λ f f', f.1 = f'.1 ∧ f.2 = f'.2) fs fs' → j_struct fs = j_struct fs'.
Proof.
  intros Hf. unfold j_struct. erewrite mapR_ext; [done|].
  eapply Forall2_impl; [exact Hf|]. by intros [k v] [k' v'] [[= ->] [= ->]].
Qed.

Lemma j_slice_ext {A} (f : A → result json) l l' :
  Forall2 (λ a b, f a = f b) l l' → j_slice f (Some l) = j_slice f (Some l').
Proof. intros Hf. unfold j_slice. by rewrite (mapR_ext _ _ _ Hf). Qed.

Lemma nonNilSlice_elems {A} (s : slice A) : nonNilSlice s = Some (elems s).
Proof. by destruct s. Qed.

Lemma nonNilMap_entries m : nonNilMap m = Some (entries m).
Proof. by destruct m. Qed.

#[export] Instance json_resources_inj : Inj (=) (=) json_resources.
Proof.
  intros [r l] [r' l'] [= H1%(inj json_map) H2%(inj json_map)]. by subst.
Qed.

#[export] Instance json_selector_req_inj : Inj (=) (=) json_selector_req.
Proof.
  intros [k o v] [k' o' v'] [= -> -> H%(json_slice_inj JStr)]. by subst.
Qed.

#[export] Instance json_selector_inj : Inj (=) (=) json_selector.
Proof.
  intros [m e] [m' e'] [= H1%(inj json_map) H2%(json_slice_inj json_selector_req)]. by subst.
Qed.

#[export] Instance json_ptr_str_inj : Inj (=) (=) (json_ptr JStr).
Proof. intros [a|] [b|] H; by simplify_eq/=. Qed.

#[export] Instance json_ptr_bool_inj : Inj (=) (=) (json_ptr JBool).
Proof. intros [a|] [b|] H; by simplify_eq/=. Qed.

#[local] Arguments j_slice : simpl never.
#[local] Arguments json_selector : simpl never.
#[local] Arguments json_map : simpl never.
#[local] Arguments json_pod_spec : simpl never.
#[local] Arguments normalizeSelector : simpl never.

Section SurfaceV2.
Context `{Upstream}.

(** Embedded slices are compared element by element through their encoding, and
    nil is empty. *)
Definition kslice_equiv {t} (s s' : slice (kval t)) : Prop :=
  Forall2 (λ a b, kjson t a = kjson t b) (elems s) (elems s').

Definition kptr_equiv {t} (p p' : option (kval t)) : Prop :=
  j_ptr (kjson t) p = j_ptr (kjson t) p'.

Definition env_ref_equiv (e e' : EnvVar) : Prop :=
  ev_Name e = ev_Name e' ∧
  (ev_ValueFrom e = None ↔ ev_ValueFrom e' = None) ∧
  kptr_equiv (ev_ValueFrom e) (ev_ValueFrom e').

Definition container_equiv_v2 (c c' : Container) : Prop :=
  c_Name c = c_Name c' ∧ c_Image c = c_Image c' ∧
  elems (c_Command c) = elems (c_Command c') ∧ elems (c_Args c) = elems (c_Args c') ∧
  c_WorkingDir c = c_WorkingDir c' ∧
  Forall2 env_ref_equiv (elems (c_Env c)) (elems (c_Env c')) ∧
  kslice_equiv (c_EnvFrom c) (c_EnvFrom c') ∧ kslice_equiv (c_Ports c) (c_Ports c') ∧
  c_ImagePullPolicy c = c_ImagePullPolicy c' ∧
  resources_equiv (c_Resources c) (c_Resources c') ∧
  kslice_equiv (c_VolumeMounts c) (c_VolumeMounts c') ∧
  kslice_equiv (c_VolumeDevices c) (c_VolumeDevices c') ∧
  kptr_equiv (c_SecurityContext c) (c_SecurityContext c') ∧
  kptr_equiv (c_LivenessProbe c) (c_LivenessProbe c') ∧
  kptr_equiv (c_ReadinessProbe c) (c_ReadinessProbe c') ∧
  kptr_equiv (c_StartupProbe c) (c_StartupProbe c') ∧
  kptr_equiv (c_Lifecycle c) (c_Lifecycle c') ∧
  c_RestartPolicy c = c_RestartPolicy c'.

Definition pod_equiv (p p' : PodSpec) : Prop :=
  Forall2 container_equiv_v2 (elems (ps_InitContainers p)) (elems (ps_InitContainers p')) ∧
  Forall2 container_equiv_v2 (elems (ps_Containers p)) (elems (ps_Containers p')) ∧
  ps_ServiceAccountName p = ps_ServiceAccountName p' ∧
  ps_AutomountServiceAccountToken p = ps_AutomountServiceAccountToken p' ∧
  kslice_equiv (ps_ImagePullSecrets p) (ps_ImagePullSecrets p') ∧
  ps_HostNetwork p = ps_HostNetwork p' ∧ ps_HostPID p = ps_HostPID p' ∧
  ps_HostIPC p = ps_HostIPC p' ∧ ps_HostUsers p = ps_HostUsers p' ∧
  ps_RuntimeClassName p = ps_RuntimeClassName p' ∧
  kptr_equiv (ps_SecurityContext p) (ps_SecurityContext p') ∧
  ps_ShareProcessNamespace p = ps_ShareProcessNamespace p' ∧
  kslice_equiv (ps_Volumes p) (ps_Volumes p') ∧
  kslice_equiv (ps_ResourceClaims p) (ps_ResourceClaims p') ∧
  kslice_equiv (ps_HostAliases p) (ps_HostAliases p') ∧
  ps_DNSPolicy p = ps_DNSPolicy p' ∧ kptr_equiv (ps_DNSConfig p) (ps_DNSConfig p') ∧
  ps_Hostname p = ps_Hostname p' ∧ ps_Subdomain p = ps_Subdomain p' ∧
  ps_SetHostnameAsFQDN p = ps_SetHostnameAsFQDN p' ∧
  ps_EnableServiceLinks p = ps_EnableServiceLinks p' ∧
  entries (ps_NodeSelector p) = entries (ps_NodeSelector p') ∧
  ps_NodeName p = ps_NodeName p' ∧ ps_SchedulerName p = ps_SchedulerName p' ∧
  kptr_equiv (ps_Affinity p) (ps_Affinity p') ∧
  kslice_equiv (ps_Tolerations p) (ps_Tolerations p') ∧
  kslice_equiv (ps_TopologySpreadConstraints p) (ps_TopologySpreadConstraints p') ∧
  ps_PriorityClassName p = ps_PriorityClassName p' ∧
  ps_PreemptionPolicy p = ps_PreemptionPolicy p' ∧
  kslice_equiv (ps_SchedulingGates p) (ps_SchedulingGates p') ∧
  kptr_equiv (ps_OS p) (ps_OS p').

(** The v2 surface.  Replicas, annotations, status and environment variable
    values do not occur. *)
Definition v2_equiv (d d' : Deployment) : Prop :=
  d_Namespace d = d_Namespace d' ∧ d_Name d = d_Name d' ∧
  labels_equiv (d_Labels d) (d_Labels d') ∧
  selector_equiv (d_Selector d) (d_Selector d') ∧
  labels_equiv (d_TemplateLabels d) (d_TemplateLabels d') ∧
  pod_equiv (d_TemplateSpec d) (d_TemplateSpec d').

(** *** From encodings to fields *)

Lemma agree_str a b : agree (Ok (JStr a)) (Ok (JStr b)) → a = b.
Proof. by intros [= ->]%agree_Ok. Qed.

Lemma agree_bool a b : agree (Ok (JBool a)) (Ok (JBool b)) → a = b.
Proof. by intros [= ->]%agree_Ok. Qed.

Lemma agree_inj {A} (f : A → json) `{!Inj (=) (=) f} a b :
  agree (Ok (f a)) (Ok (f b)) → a = b.
Proof. by intros ->%agree_Ok%(inj f). Qed.

Lemma agree_ptr_str a b : agree (Ok (json_ptr JStr a)) (Ok (json_ptr JStr b)) → a = b.
Proof. apply (agree_inj (json_ptr JStr)). Qed.

Lemma agree_ptr_bool a b : agree (Ok (json_ptr JBool a)) (Ok (json_ptr JBool b)) → a = b.
Proof. apply (agree_inj (json_ptr JBool)). Qed.

Lemma agree_strs s s' :
  agree (Ok (json_slice JStr (nonNilSlice s))) (Ok (json_slice JStr (nonNilSlice s'))) →
  elems s = elems s'.
Proof. rewrite !nonNilSlice_elems. by intros [= ->]%agree_Ok%(json_slice_inj JStr). Qed.

Lemma agree_map m m' :
  agree (Ok (json_map (nonNilMap m))) (Ok (json_map (nonNilMap m'))) → entries m = entries m'.
Proof. rewrite !nonNilMap_entries. by intros [= ->]%agree_Ok%(inj json_map). Qed.

Lemma agree_kslice t (s s' : slice (kval t)) :
  agree (j_slice (kjson t) (nonNilSlice s)) (j_slice (kjson t) (nonNilSlice s')) →
  kslice_equiv s s'.
Proof.
  rewrite !nonNilSlice_elems. intros Hs%agree_slice. eapply Forall2_impl; [exact Hs|].
  intros a b (v & -> & ->). done.
Qed.

Lemma agree_kptr t (p p' : option (kval t)) :
  agree (j_ptr (kjson t) p) (j_ptr (kjson t) p') → kptr_equiv p p'.
Proof. unfold kptr_equiv. by intros (v & -> & ->). Qed.

Lemma agree_resources r r' :
  agree (Ok (json_resources (normalizeResources r)))
    (Ok (json_resources (normalizeResources r'))) → resources_equiv r r'.
Proof.
  intros Hr%agree_Ok%(inj json_resources).
  split; apply quantityMap_eq; [exact (f_equal nr_Requests Hr)|exact (f_equal nr_Limits Hr)].
Qed.

Lemma agree_labels l l' :
  agree (Ok (json_map (filterLabels l))) (Ok (json_map (filterLabels l'))) → labels_equiv l l'.
Proof. intros Hl%agree_Ok%(inj json_map). exact (proj1 (filterLabels_equiv l l') Hl). Qed.

Lemma agree_env s s' :
  agree (j_slice json_env_ref (normalizeEnvRefs s)) (j_slice json_env_ref (normalizeEnvRefs s'))
  → Forall2 env_ref_equiv (elems s) (elems s').
Proof.
  intros Hs%agree_slice. rewrite Forall2_map in Hs. eapply Forall2_impl; [exact Hs|].
  intros e e' He%agree_struct. simpl in He.
  destruct He as (Hn%agree_str & Hl%agree_bool & Hv%agree_kptr & _).
  split_and!; [done| |done]. by destruct (ev_ValueFrom e), (ev_ValueFrom e').
Qed.

#[local] Hint Resolve agree_str agree_bool agree_strs agree_map agree_kslice agree_kptr
  agree_resources agree_labels agree_env agree_ptr_str agree_ptr_bool : agree.

Lemma agree_container c c' :
  agree (json_container_v2 (normalizeContainerV2 c))
    (json_container_v2 (normalizeContainerV2 c')) → container_equiv_v2 c c'.
Proof.
  intros Hc%agree_struct. simpl in Hc.
  decompose [and] Hc. unfold container_equiv_v2. split_and!; auto with agree.
Qed.

Lemma agree_containers s s' :
  agree (j_slice json_container_v2 (normalizeContainersV2 s))
    (j_slice json_container_v2 (normalizeContainersV2 s')) →
  Forall2 container_equiv_v2 (elems s) (elems s').
Proof.
  intros Hs%agree_slice. rewrite Forall2_map in Hs. eapply Forall2_impl; [exact Hs|].
  apply agree_container.
Qed.

#[local] Hint Resolve agree_containers : agree.

Lemma agree_pod p p' :
  agree (json_pod_spec (normalizePodSpec p)) (json_pod_spec (normalizePodSpec p')) →
  pod_equiv p p'.
Proof.
  intros Hc%agree_struct. simpl in Hc.
  decompose [and] Hc. unfold pod_equiv. split_and!; auto with agree.
Qed.

Lemma agree_deployment (S1 S2 : Sorter) d d' :
  agree (json_deployment_v2 (@NormalizeV2 _ S1 d)) (json_deployment_v2 (@NormalizeV2 _ S2 d'))
  → v2_equiv d d'.
Proof.
  intros Hc%agree_struct. simpl in Hc.
  destruct Hc as (H1 & H2 & H3 & H4%agree_Ok%(inj json_selector) & H5 & H6%agree_pod & _).
  apply normalizeSelector_eq in H4. unfold v2_equiv. split_and!; auto with agree.
Qed.

(** *** From fields to encodings *)

Lemma enc_kslice t (s s' : slice (kval t)) :
  kslice_equiv s s' →
  j_slice (kjson t) (nonNilSlice s) = j_slice (kjson t) (nonNilSlice s').
Proof. rewrite !nonNilSlice_elems. apply j_slice_ext. Qed.

Lemma enc_strs s s' :
  elems s = elems s' →
  Ok (json_slice JStr (nonNilSlice s)) = Ok (json_slice JStr (nonNilSlice s')).
Proof. rewrite !nonNilSlice_elems. by intros ->. Qed.

Lemma enc_map m m' :
  entries m = entries m' → Ok (json_map (nonNilMap m)) = Ok (json_map (nonNilMap m')).
Proof. rewrite !nonNilMap_entries. by intros ->. Qed.

Lemma enc_resources r r' :
  resources_equiv r r' →
  Ok (json_resources (normalizeResources r)) = Ok (json_resources (normalizeResources r')).
Proof.
  unfold normalizeResources. by intros [->%quantityMap_eq ->%quantityMap_eq].
Qed.

Lemma enc_labels l l' :
  labels_equiv l l' → Ok (json_map (filterLabels l)) = Ok (json_map (filterLabels l')).
Proof. intros Hl. by rewrite (proj2 (filterLabels_equiv l l') Hl). Qed.

Lemma enc_env s s' :
  Forall2 env_ref_equiv (elems s) (elems s') →
  j_slice json_env_ref (normalizeEnvRefs s) = j_slice json_env_ref (normalizeEnvRefs s').
Proof.
  intros Hs. apply j_slice_ext, Forall2_map. eapply Forall2_impl; [exact Hs|].
  intros e e' (Hn & Hv & Hk). apply j_struct_ext. simpl.
  repeat constructor; simpl; [by rewrite Hn| |exact Hk].
  destruct (ev_ValueFrom e), (ev_ValueFrom e'); try done;
    [by pose proof (proj2 Hv eq_refl)|by pose proof (proj1 Hv eq_refl)].
Qed.

Lemma enc_eq {A} (f : A → json) a b : a = b → Ok (f a) = Ok (f b).
Proof. by intros ->. Qed.

#[local] Hint Resolve enc_strs enc_map enc_kslice enc_resources enc_labels enc_env : enc.

#[local] Ltac encode_fields :=
  apply j_struct_ext; simpl;
  repeat (constructor; [split; [reflexivity|simpl; first [assumption|solve [auto with enc]|by apply enc_eq]]|]); constructor.

Lemma enc_container c c' :
  container_equiv_v2 c c' →
  json_container_v2 (normalizeContainerV2 c) = json_container_v2 (normalizeContainerV2 c').
Proof. unfold container_equiv_v2. intros Hc. decompose [and] Hc. encode_fields. Qed.

Lemma enc_containers s s' :
  Forall2 container_equiv_v2 (elems s) (elems s') →
  j_slice json_container_v2 (normalizeContainersV2 s) =
  j_slice json_container_v2 (normalizeContainersV2 s').
Proof.
  intros Hs. apply j_slice_ext, Forall2_map. eapply Forall2_impl; [exact Hs|].
  apply enc_container.
Qed.

#[local] Hint Resolve enc_containers : enc.

Lemma enc_pod p p' :
  pod_equiv p p' → json_pod_spec (normalizePodSpec p) = json_pod_spec (normalizePodSpec p').
Proof. unfold pod_equiv. intros Hc. decompose [and] Hc. encode_fields. Qed.

#[local] Hint Resolve enc_pod : enc.

Lemma enc_deployment (S1 S2 : Sorter) d d' :
  v2_equiv d d' →
  json_deployment_v2 (@NormalizeV2 _ S1 d) = json_deployment_v2 (@NormalizeV2 _ S2 d').
Proof.
  intros (? & ? & ? & Hs & ? & ?). apply normalizeSelector_eq with (S1 := S1) (S2 := S2) in Hs.
  encode_fields.
Qed.
End SurfaceV2.
