(* ===== verification/Hash.v ===== *)
(** * Config hashes (internal/attest/hash.go, normalize_v2.go, version.go)

    [CanonicalJSON] and [ConfigHash] for both hash protocols, the dispatch on the
    protocol version, and what a hash commits to: two Deployments have the same
    canonical bytes exactly when they agree on the surface of the protocol, so a
    shared hash means agreement on the surface or an explicit SHA-256 collision
    between two given encodings. *)

From S2P Require Import Prelude Bytes Sha256 GoSort GoJson Decimals Kube Fixtures.
From S2P Require Import Normalize NormalizeV2.

Open Scope Z_scope.

(** ** hash.go *)

(** [json.Marshal] of a struct of strings, integers, maps and slices. *)
Definition CanonicalJSON (nd : NormalizedDeployment) : result bytes :=
  Ok (marshal (json_deployment nd)).

Definition ConfigHash (nd : NormalizedDeployment) : result bytes32 :=
  b <-? CanonicalJSON nd;; Ok (Sum256 b).

Definition MustHex (h : bytes32) : string := hex_encode (b32 h).

Definition DeploymentID (namespace name : string) : bytes32 :=
  Sum256 (bytes_of (namespace +:+ "/" +:+ name)).

(** ** normalize_v2.go *)

Section HashV2.
Context `{Upstream}.

(** [json.Marshal] fails when the marshaller of an embedded type does. *)
Definition CanonicalJSONV2 (nd : NormalizedDeploymentV2) : result bytes :=
  v <-? json_deployment_v2 nd;; Ok (marshal v).

Definition ConfigHashV2 (nd : NormalizedDeploymentV2) : result bytes32 :=
  b <-? CanonicalJSONV2 nd;; Ok (Sum256 b).
End HashV2.

(** ** version.go *)

(** A [Version] is a uint16. *)
Definition Version := Z.
Definition VersionUnknown : Version := 0.
Definition V1 : Version := 1.
Definition V2 : Version := 2.
Definition CurrentVersion : Version := V1.

Definition ErrUnknownVersion (v : Version) : error :=
  fmt_Errorf "attest: unsupported hash protocol version %d (this build implements v%d and v%d)"
    [ArgZ v; ArgZ V1; ArgZ V2] None.

Definition Version_String (v : Version) : string :=
  if v =? VersionUnknown then "unknown" else "v" +:+ itoa v.

Definition Supported (v : Version) : bool := (v =? V1) || (v =? V2).

Definition IsWeakSurface (v : Version) : bool := v =? V1.

Section Dispatch.
Context `{Upstream, Sorter}.

Definition ConfigHashForVersion (v : Version) (d : Deployment) : result bytes32 :=
  if v =? V1 then ConfigHash (Normalize d)
  else if v =? V2 then ConfigHashV2 (NormalizeV2 d)
  else Err (ErrUnknownVersion v).
End Dispatch.

(** A Go string constant may hold a NUL; a Rocq string literal may not. *)
Definition nul_terminated (s : string) : bytes := bytes_of s ++ [Byte.x00].

Definition signingDomain : bytes := nul_terminated "proof-of-deploy/attestation".

Definition version_preimage (v : Version) (configHash : bytes32) : bytes :=
  AppendUint16 signingDomain (uint16 v) ++ b32 configHash.

Definition SigningDigest (v : Version) (configHash : bytes32) : bytes32 :=
  Sum256 (version_preimage v configHash).

(** ** A collision, as a statement about two given byte strings *)
Definition collision (b b' : bytes) : Prop := b ≠ b' ∧ Sum256 b = Sum256 b'.

Lemma Sum256_binds b b' : Sum256 b = Sum256 b' → b = b' ∨ collision b b'.
Proof. intros E. destruct (decide (b = b')); [by left|by right]. Qed.

Lemma version_preimage_inj v v' h h' :
  0 ≤ v < 2 ^ 16 → 0 ≤ v' < 2 ^ 16 →
  version_preimage v h = version_preimage v' h' → v = v' ∧ h = h'.
Proof.
  unfold version_preimage, AppendUint16, uint16. intros Hv Hv' E.
  apply app_eq_length_r in E as [E ->%bytes32_eq]; [|by rewrite !length_b32].
  apply app_eq_length in E as [_ E]; [|done].
  rewrite !Z.mod_small in E by lia. apply be_bytes_inj in E; [done|lia..].
Qed.

(** ** The v1 surface *)

(** Every string the v1 surface covers is valid UTF-8, as the API server demands. *)
Definition v1_text_ok `{Upstream, Sorter} (d : Deployment) : bool :=
  json_ok (json_deployment (Normalize d)).

#[export] Instance json_container_inj : Inj (=) (=) json_container.
Proof.
  intros [n i e r] [n' i' e' r'] [= -> -> He%(json_slice_inj JStr) Hq Hl].
  assert (Hr : json_resources r = json_resources r') by (unfold json_resources; congruence).
  apply (inj json_resources) in Hr. by subst.
Qed.

#[export] Instance json_deployment_inj : Inj (=) (=) json_deployment.
Proof.
  intros d d' E. unfold json_deployment in E. injection E as E1 E2 E3 E4 E5 E5' E6 E7.
  assert (Hs : json_selector (nd_Selector d) = json_selector (nd_Selector d'))
    by (unfold json_selector; congruence).
  apply (inj json_map) in E3, E6. apply (json_slice_inj json_container) in E7.
  apply (inj json_selector) in Hs. destruct d, d'; simpl in *; by subst.
Qed.

Section SurfaceV1.
Context `{Upstream} (S1 S2 : Sorter).

Lemma v1_canonical_eq d d' :
  @v1_text_ok _ S1 d = true → @v1_text_ok _ S2 d' = true → distinct_container_names d →
  CanonicalJSON (@Normalize _ S1 d) = CanonicalJSON (@Normalize _ S2 d') ↔ v1_equiv d d'.
Proof.
  intros Hd Hd' Hn. rewrite <- (Normalize_eq S1 S2) by done. split; [|by intros ->].
  intros E%(inj Ok)%marshal_inj%(inj json_deployment); done.
Qed.

(** C1: under protocol v1 two Deployments whose text is valid UTF-8, the first with
    distinct container names, have the same canonical JSON exactly when they agree on
    the v1 surface: namespace, name, labels other than the six that controllers write,
    replicas (nil read as 1), selector, pod template labels, and the containers as a set
    of (name, image, env names as a multiset, resources compared as exact numbers
    unscaled * 10^-scale).  Declaration order, env values, annotations and every other
    field are invisible, and nothing on the surface can change without changing the
    bytes, whichever unstable sort [sort.Slice] happens to be. *)
Theorem v1_bytes_exact d d' :
  @v1_text_ok _ S1 d = true → @v1_text_ok _ S2 d' = true → distinct_container_names d →
  CanonicalJSON (@Normalize _ S1 d) = CanonicalJSON (@Normalize _ S2 d') ↔ v1_equiv d d'.
Proof. apply v1_canonical_eq. Qed.
End SurfaceV1.

(** ** The v2 surface *)

Definition v2_text_ok `{Upstream, Sorter} (d : Deployment) : bool :=
  match json_deployment_v2 (NormalizeV2 d) with Ok v => json_ok v | Err _ => true end.

Section SurfaceV2.
Context `{Upstream} (S1 S2 : Sorter).

Lemma v2_canonical_eq d d' b :
  @v2_text_ok _ S1 d = true → @v2_text_ok _ S2 d' = true →
  CanonicalJSONV2 (@NormalizeV2 _ S1 d) = Ok b →
  CanonicalJSONV2 (@NormalizeV2 _ S2 d') = Ok b ↔ v2_equiv d d'.
Proof.
  unfold v2_text_ok, CanonicalJSONV2. intros Hd Hd' Hb. split.
  - intros Hb'. destruct (json_deployment_v2 (@NormalizeV2 _ S1 d)) as [j|] eqn:Ej; [|done].
    destruct (json_deployment_v2 (@NormalizeV2 _ S2 d')) as [j'|] eqn:Ej'; [|done].
    apply (agree_deployment S1 S2). exists j. split; [done|]. rewrite Ej'. f_equal.
    apply marshal_inj; [done..|congruence].
  - intros E%(enc_deployment S1 S2). by rewrite <- E.
Qed.

(** C2: under protocol v2, where the canonical encoding of a Deployment exists, another
    Deployment (the text of both valid UTF-8, as the API server demands) has the same encoding exactly when the two agree on the
    whole v2 surface: every field of the pod template that decides what runs and
    with which privileges (init containers, commands, mounts, security contexts,
    service account, host namespaces, ...) in declared order.  Replicas, env
    values, annotations and status are invisible. *)
Theorem v2_bytes_exact d d' b :
  @v2_text_ok _ S1 d = true → @v2_text_ok _ S2 d' = true →
  CanonicalJSONV2 (@NormalizeV2 _ S1 d) = Ok b →
  CanonicalJSONV2 (@NormalizeV2 _ S2 d') = Ok b ↔ v2_equiv d d'.
Proof. apply v2_canonical_eq. Qed.
End SurfaceV2.

(** ** What a hash commits to *)

Section Binding.
Context `{Upstream} (S1 S2 : Sorter).

Definition surface_equiv (v : Version) (d d' : Deployment) : Prop :=
  if v =? V1 then v1_equiv d d' else v2_equiv d d'.

(** The bytes hashed under a version. *)
Definition canonical_bytes (S : Sorter) (v : Version) (d : Deployment) : result bytes :=
  if v =? V1 then CanonicalJSON (@Normalize _ S d)
  else if v =? V2 then CanonicalJSONV2 (@NormalizeV2 _ S d)
  else Err (ErrUnknownVersion v).

Definition text_ok (S : Sorter) (v : Version) (d : Deployment) : bool :=
  if v =? V1 then @v1_text_ok _ S d else @v2_text_ok _ S d.

(** What v1 needs beyond valid text: its containers are sorted by name. *)
Definition hashable (S : Sorter) (v : Version) (d : Deployment) : Prop :=
  text_ok S v d = true ∧ (v = V1 → distinct_container_names d).

Lemma ConfigHashForVersion_bytes (S : Sorter) v d h :
  ConfigHashForVersion v d = Ok h ↔
  ∃ b, canonical_bytes S v d = Ok b ∧ h = Sum256 b.
Proof.
  unfold ConfigHashForVersion, canonical_bytes, ConfigHash, ConfigHashV2.
  destruct (v =? V1); [|destruct (v =? V2)].
  - apply bind_Ok.
  - apply bind_Ok.
  - split; [done|by intros (b & ? & _)].
Qed.

Lemma canonical_bytes_eq v d d' b b' :
  hashable S1 v d → hashable S2 v d' →
  canonical_bytes S1 v d = Ok b → canonical_bytes S2 v d' = Ok b' →
  b = b' ↔ surface_equiv v d d'.
Proof.
  unfold canonical_bytes, hashable, text_ok, surface_equiv. intros [Ht Hn] [Ht' _] Hb Hb'.
  destruct (Z.eqb_spec v V1) as [->|]; [|destruct (v =? V2); [|done]].
  - rewrite <- (v1_canonical_eq S1 S2) by auto. rewrite Hb, Hb'. split; congruence.
  - rewrite <- (v2_canonical_eq S1 S2 d d' b) by done. rewrite Hb'. split; congruence.
Qed.

Lemma hash_binding v d d' h :
  hashable S1 v d → hashable S2 v d' →
  @ConfigHashForVersion _ S1 v d = Ok h → @ConfigHashForVersion _ S2 v d' = Ok h →
  surface_equiv v d d' ∨
  ∃ b b', canonical_bytes S1 v d = Ok b ∧ canonical_bytes S2 v d' = Ok b' ∧ collision b b'.
Proof.
  intros Hd Hd' (b & Hb & ->)%ConfigHashForVersion_bytes
    (b' & Hb' & E)%ConfigHashForVersion_bytes.
  destruct (Sum256_binds _ _ E) as [E'|C]; [left|right; by eauto 10].
  by apply (canonical_bytes_eq v d d' b b').
Qed.

(** C17: a config hash binds its surface: if two Deployments hash to the same value
    under one protocol version, then they agree on that version's surface, or
    their two canonical encodings are an explicit SHA-256 collision.  This is what
    lets a verifier conclude anything about a live Deployment from a hash. *)
Theorem ConfigHashForVersion_binding v d d' h :
  hashable S1 v d → hashable S2 v d' →
  @ConfigHashForVersion _ S1 v d = Ok h → @ConfigHashForVersion _ S2 v d' = Ok h →
  surface_equiv v d d' ∨
  ∃ b b', canonical_bytes S1 v d = Ok b ∧ canonical_bytes S2 v d' = Ok b' ∧ collision b b'.
Proof. apply hash_binding. Qed.

Lemma hash_complete v d d' h :
  hashable S1 v d → hashable S2 v d' →
  surface_equiv v d d' → @ConfigHashForVersion _ S1 v d = Ok h →
  @ConfigHashForVersion _ S2 v d' = Ok h.
Proof.
  intros [_ Hn] _. rewrite !ConfigHashForVersion_bytes.
  unfold canonical_bytes, surface_equiv, CanonicalJSON, CanonicalJSONV2.
  destruct (Z.eqb_spec v V1) as [->|]; [|destruct (v =? V2); [|done]].
  - intros E (b & Hb & ->). apply (Normalize_eq S1 S2) in E; [|auto]. rewrite <- E. eauto.
  - intros E%(enc_deployment S1 S2). rewrite <- E. eauto.
Qed.

(** ** The v2 surface covers v1's *)

Lemma container_v2_v1 c c' : container_equiv_v2 c c' → container_equiv c c'.
Proof.
  intros (Hn & Hi & _ & _ & _ & He & _ & _ & _ & Hr & _). split_and!; [done|done| |done].
  enough (map ev_Name (elems (c_Env c)) = map ev_Name (elems (c_Env c'))) as ->; [done|].
  induction He as [|e e' l l' (E & _) _ IH]; simpl; congruence.
Qed.

Lemma v2_covers_v1 d d' :
  v2_equiv d d' → replicas_of d = replicas_of d' → v1_equiv d d'.
Proof.
  intros (Hns & Hnm & Hl & Hs & Ht & (_ & Hc & _)) Hr. split_and!; try done.
  exists (elems (ps_Containers (d_TemplateSpec d'))). split; [|done].
  eapply Forall2_impl; [exact Hc|]. apply container_v2_v1.
Qed.

(** C38: moving from v1 to v2 gives nothing up but the replica count: two Deployments with
    the same v2 hash and the same number of replicas (nil read as 1) also have the same
    v1 hash, whatever else they differ in, or their v2 encodings collide; so whatever the
    weak protocol tells apart, the strong one does too. *)
Theorem v2_match_is_v1_match d d' h :
  hashable S1 V1 d → hashable S2 V1 d' → hashable S1 V2 d → hashable S2 V2 d' →
  replicas_of d = replicas_of d' →
  @ConfigHashForVersion _ S1 V2 d = Ok h → @ConfigHashForVersion _ S2 V2 d' = Ok h →
  (∃ h1, @ConfigHashForVersion _ S1 V1 d = Ok h1 ∧ @ConfigHashForVersion _ S2 V1 d' = Ok h1) ∨
  ∃ b b', canonical_bytes S1 V2 d = Ok b ∧ canonical_bytes S2 V2 d' = Ok b' ∧ collision b b'.
Proof.
  intros H1 H1' H2 H2' Hr Hh Hh'.
  destruct (hash_binding V2 d d' h H2 H2' Hh Hh') as [E|C]; [left|by right].
  assert (Hok : is_ok (@ConfigHashForVersion _ S1 V1 d) = true) by done.
  destruct (@ConfigHashForVersion _ S1 V1 d) as [h1|] eqn:E1; [|done]. exists h1.
  split; [done|]. eapply (hash_complete V1 d d'); [done..| |exact E1].
  by apply v2_covers_v1.
Qed.
End Binding.

(** A protocol version this build does not implement is rejected, and never hashed
    under another version's rules; the two implemented versions are the only ones
    that dispatch to a normalizer, and v1 always produces a hash. *)
Theorem ConfigHashForVersion_dispatch `{Upstream, Sorter} v d :
  (Supported v = false → ConfigHashForVersion v d = Err (ErrUnknownVersion v)) ∧
  (v = V1 → ConfigHashForVersion v d = ConfigHash (Normalize d) ∧
            is_ok (ConfigHashForVersion v d) = true) ∧
  (v = V2 → ConfigHashForVersion v d = ConfigHashV2 (NormalizeV2 d)).
Proof.
  unfold ConfigHashForVersion, Supported. split_and!; [|by intros ->..].
  by destruct (v =? V1), (v =? V2).
Qed.

(** A v1 signing digest binds the protocol version and the config hash: equal
    digests mean an equal version and an equal hash, or a collision of the two
    60-byte preimages.  Relabelling a record with another version, to steer a
    verifier onto a weaker surface, changes what must have been signed. *)
Theorem SigningDigest_binding v v' h h' :
  0 ≤ v < 2 ^ 16 → 0 ≤ v' < 2 ^ 16 →
  SigningDigest v h = SigningDigest v' h' →
  (v = v' ∧ h = h') ∨ collision (version_preimage v h) (version_preimage v' h').
Proof.
  intros Hv Hv' [E|C]%Sum256_binds; [left|by right]. by apply version_preimage_inj.
Qed.

(** ** DeploymentID *)

Definition slash_free (s : string) : Prop :=
  Forall (λ b, negb (bool_decide (b = Byte.x2f)) = true) (bytes_of s).

Lemma deployment_key_inj ns n ns' n' :
  slash_free ns → slash_free ns' →
  bytes_of (ns +:+ "/" +:+ n) = bytes_of (ns' +:+ "/" +:+ n') → ns = ns' ∧ n = n'.
Proof.
  intros Hs Hs'. rewrite !bytes_of_app. intros E.
  apply (span_unique (λ b, negb (bool_decide (b = Byte.x2f)))) in E as [E1 E2]; [|done..].
  injection E2 as E2. by apply (inj bytes_of) in E1, E2.
Qed.

(** The v1 on-chain key identifies the namespace/name pair: with no slash in the
    namespaces (Kubernetes forbids it), equal keys mean the same pair or a
    collision of the two texts. *)
Theorem DeploymentID_binding ns n ns' n' :
  slash_free ns → slash_free ns' → DeploymentID ns n = DeploymentID ns' n' →
  (ns = ns' ∧ n = n') ∨
  collision (bytes_of (ns +:+ "/" +:+ n)) (bytes_of (ns' +:+ "/" +:+ n')).
Proof.
  intros Hs Hs' [E|C]%Sum256_binds; [left|by right]. by apply deployment_key_inj.
Qed.

(** ** The theorems at the fixtures *)

Module HashWitness.
Import Concrete Insertion Fixtures.

Lemma distinct_names (d : Deployment) :
  bool_decide (distinct_container_names d) = true → distinct_container_names d.
Proof. apply bool_decide_eq_true_1. Defined.

(** 01-baseline against 03-declaration-order. *)
Lemma v1_bytes_exact_witness : v1_equiv baseline declaration_order.
Proof.
  apply (v1_bytes_exact insertion_sorter insertion_sorter);
    [vm_compute; reflexivity..|apply distinct_names; vm_compute; reflexivity
    |vm_compute; reflexivity].
Defined.

(** The tampered workload of 09 is not the benign one of 08 under v2. *)
Lemma v2_bytes_exact_witness : ¬ v2_equiv benign tampered.
Proof.
  intros E.
  destruct (CanonicalJSONV2 (NormalizeV2 benign)) as [b|] eqn:Eb; [|by vm_compute in Eb].
  apply (v2_bytes_exact insertion_sorter insertion_sorter benign tampered b) in E;
    [|vm_compute; reflexivity..|exact Eb].
  rewrite <- E in Eb. by vm_compute in Eb.
Defined.

Lemma hashable_v1 (d : Deployment) :
  v1_text_ok d && bool_decide (distinct_container_names d) = true →
  hashable insertion_sorter V1 d.
Proof. intros [Ht Hn%bool_decide_eq_true_1]%andb_prop. by split. Defined.

(** 08 and 09 share a v1 hash, so they agree on the v1 surface (or collide). *)
Lemma ConfigHashForVersion_binding_witness :
  surface_equiv V1 benign tampered ∨
  ∃ b b', canonical_bytes insertion_sorter V1 benign = Ok b ∧
          canonical_bytes insertion_sorter V1 tampered = Ok b' ∧ collision b b'.
Proof.
  destruct (ConfigHashForVersion V1 benign) as [h|] eqn:Eh; [|by vm_compute in Eh].
  apply (ConfigHashForVersion_binding insertion_sorter insertion_sorter V1 benign tampered h).
  - apply hashable_v1. vm_compute. reflexivity.
  - apply hashable_v1. vm_compute. reflexivity.
  - exact Eh.
  - rewrite <- Eh. vm_compute. reflexivity.
Defined.

Lemma ConfigHashForVersion_dispatch_witness :
  ConfigHashForVersion 3 baseline = Err (ErrUnknownVersion 3) ∧
  is_ok (ConfigHashForVersion V1 baseline) = true.
Proof.
  split; [apply (ConfigHashForVersion_dispatch 3 baseline)|
          apply (ConfigHashForVersion_dispatch V1 baseline)]; reflexivity.
Defined.

Lemma SigningDigest_binding_witness :
  SigningDigest V1 zero32 = SigningDigest V1 zero32 ∧
  ((V1 = V1 ∧ zero32 = zero32) ∨
   collision (version_preimage V1 zero32) (version_preimage V1 zero32)).
Proof. split; [done|]. apply SigningDigest_binding; [lia || (unfold V1; lia)..|done]. Defined.

Lemma slash_free_check s :
  forallb (λ b, negb (bool_decide (b = Byte.x2f))) (bytes_of s) = true → slash_free s.
Proof. intros H. apply Forall_forall. intros b Hb. eapply forallb_forall in H; [exact H|by apply list_elem_of_In]. Defined.

Lemma DeploymentID_binding_witness :
  ("payments" = "payments" ∧ "api" = "api")%string ∨
  collision (bytes_of "payments/api") (bytes_of "payments/api").
Proof.
  apply (DeploymentID_binding "payments" "api" "payments" "api");
    [apply slash_free_check; reflexivity..|done].
Defined.

(** The hypothesis is needed: a slash in the namespace makes the key ambiguous. *)
Example DeploymentID_ambiguous : DeploymentID "a/b" "c" = DeploymentID "a" "b/c".
Proof. reflexivity. Qed.
End HashWitness.

Module SurfacesWitness.
Import Concrete Insertion Fixtures HashWitness.

(** The minimal fixture with its default replica count spelled out and annotated. *)
Definition minimal_explicit : Deployment :=
  {| d_Namespace := d_Namespace minimal; d_Name := d_Name minimal; d_UID := d_UID minimal;
     d_Generation := d_Generation minimal; d_Labels := d_Labels minimal;
     d_Annotations := labels [("note", "2"); ("owner", "ops")]%string; d_Replicas := Some 1;
     d_Selector := d_Selector minimal; d_TemplateLabels := d_TemplateLabels minimal;
     d_TemplateSpec := d_TemplateSpec minimal; d_Status := d_Status minimal |}.

Lemma minimal_same_v2 :
  CanonicalJSONV2 (NormalizeV2 minimal_explicit) = CanonicalJSONV2 (NormalizeV2 minimal).
Proof. vm_compute. reflexivity. Qed.

Lemma hashable_v2 (d : Deployment) : v2_text_ok d = true → hashable insertion_sorter V2 d.
Proof. by split. Defined.

Lemma v2_match_is_v1_match_witness :
  (∃ h1, ConfigHashForVersion V1 minimal = Ok h1 ∧ ConfigHashForVersion V1 minimal_explicit = Ok h1) ∨
  ∃ b b', canonical_bytes insertion_sorter V2 minimal = Ok b ∧
          canonical_bytes insertion_sorter V2 minimal_explicit = Ok b' ∧ collision b b'.
Proof.
  destruct (CanonicalJSONV2 (NormalizeV2 minimal)) as [b|] eqn:Eb; [|by vm_compute in Eb].
  apply (v2_match_is_v1_match insertion_sorter insertion_sorter minimal minimal_explicit (Sum256 b)).
  - apply hashable_v1. vm_compute. reflexivity.
  - apply hashable_v1. vm_compute. reflexivity.
  - apply hashable_v2. vm_compute. reflexivity.
  - apply hashable_v2. vm_compute. reflexivity.
  - reflexivity.
  - apply ConfigHashForVersion_bytes. by exists b.
  - apply ConfigHashForVersion_bytes. exists b. split; [|done]. 
    change (CanonicalJSONV2 (NormalizeV2 minimal_explicit) = Ok b). by rewrite minimal_same_v2.
Defined.

(** It is strictly stronger: v2 tells 08 from 09, v1 does not; and of the replica count
    only v1 speaks. *)
Example v2_strictly_stronger :
  CanonicalJSON (Normalize benign) = CanonicalJSON (Normalize tampered) ∧
  CanonicalJSONV2 (NormalizeV2 benign) ≠ CanonicalJSONV2 (NormalizeV2 tampered).
Proof. split; [vm_compute; reflexivity|]. by vm_compute. Qed.

Definition minimal_scaled : Deployment :=
  {| d_Namespace := d_Namespace minimal; d_Name := d_Name minimal; d_UID := d_UID minimal;
     d_Generation := d_Generation minimal; d_Labels := d_Labels minimal;
     d_Annotations := d_Annotations minimal; d_Replicas := Some 7;
     d_Selector := d_Selector minimal; d_TemplateLabels := d_TemplateLabels minimal;
     d_TemplateSpec := d_TemplateSpec minimal; d_Status := d_Status minimal |}.

Example v2_ignores_replicas :
  CanonicalJSONV2 (NormalizeV2 minimal) = CanonicalJSONV2 (NormalizeV2 minimal_scaled) ∧
  CanonicalJSON (Normalize minimal) ≠ CanonicalJSON (Normalize minimal_scaled).
Proof. split; [vm_compute; reflexivity|]. by vm_compute. Qed.
End SurfacesWitness.
