(* ===== verification/Surface.v ===== *)
(** * The protocols' surfaces as equivalences

    What v1 and v2 do not tell apart is an equivalence relation, so equal surfaces may
    be rewritten: a setoid on Deployments, on which the canonical bytes and the config
    hash are proper functions. *)

From S2P Require Import Prelude Bytes Sha256 GoSort GoJson Decimals Kube Fixtures.
From S2P Require Import Normalize NormalizeV2 Hash.

#[export] Instance perm_upto_equivalence {A} (R : A → A → Prop) :
  Equivalence R → Equivalence (perm_upto R).
Proof.
  intros HR. split.
  - intros l. by exists l.
  - intros l l' (m & Hm & Hp). symmetry in Hm.
    destruct (Permutation_Forall2 Hp Hm) as (k & Hk & Hf). by exists k.
  - intros l1 l2 l3 (m & Hm & Hp) (m' & Hm' & Hp'). symmetry in Hp, Hm'.
    destruct (Permutation_Forall2 Hp (symmetry Hm')) as (k & Hk & Hf).
    exists k. split; [by etrans|]. by rewrite <- Hk.
Qed.

Lemma kernel_equivalence {A B} (f : A → B) : Equivalence (λ a b, f a = f b).
Proof. split; [done|by intros x y|intros x y z; congruence]. Qed.

(** Relations that are conjunctions of equivalences. *)
Ltac equivalence_by_fields :=
  split;
  [ intros x; split_and!; reflexivity
  | intros x y; intros; destruct_and?; split_and!; by symmetry
  | intros x y z; intros; destruct_and?; split_and!; by etrans ].

Section V1.
Context `{Upstream}.

#[export] Instance req_equiv_equivalence : Equivalence req_equiv.
Proof. unfold req_equiv. equivalence_by_fields. Qed.

#[export] Instance selector_equiv_equivalence : Equivalence selector_equiv.
Proof. unfold selector_equiv. equivalence_by_fields. Qed.

#[export] Instance quantities_equiv_equivalence : Equivalence quantities_equiv.
Proof.
  split.
  - intros x. apply quantities_equiv_refl.
  - intros x y E k. destruct (E k); constructor. by apply dec_eq_sym.
  - intros x y z E1 E2 k. specialize (E2 k). destruct (E1 k); inversion_clear E2; constructor.
    by eapply dec_eq_trans.
Qed.

#[export] Instance resources_equiv_equivalence : Equivalence resources_equiv.
Proof. unfold resources_equiv. equivalence_by_fields. Qed.

#[export] Instance container_equiv_equivalence : Equivalence container_equiv.
Proof. unfold container_equiv. equivalence_by_fields. Qed.

#[export] Instance labels_equiv_equivalence : Equivalence labels_equiv.
Proof.
  unfold labels_equiv. split; [done|intros x y E k Hk; by rewrite E|].
  intros x y z E1 E2 k Hk. by rewrite E1, E2.
Qed.

#[export] Instance v1_equiv_equivalence : Equivalence v1_equiv.
Proof. unfold v1_equiv. equivalence_by_fields. Qed.
End V1.

Section V2.
Context `{Upstream}.

#[export] Instance kslice_equiv_equivalence t : Equivalence (@kslice_equiv _ t).
Proof.
  pose proof (kernel_equivalence (kjson t)). unfold kslice_equiv.
  split; [by intros x|by intros x y|intros x y z E1 E2; by etrans].
Qed.

#[export] Instance kptr_equiv_equivalence t : Equivalence (@kptr_equiv _ t).
Proof. unfold kptr_equiv. split; [done|by intros x y|intros x y z; congruence]. Qed.

#[export] Instance env_ref_equiv_equivalence : Equivalence env_ref_equiv.
Proof. unfold env_ref_equiv. equivalence_by_fields. Qed.

#[export] Instance container_equiv_v2_equivalence : Equivalence container_equiv_v2.
Proof. unfold container_equiv_v2. equivalence_by_fields. Qed.

#[export] Instance pod_equiv_equivalence : Equivalence pod_equiv.
Proof. unfold pod_equiv. equivalence_by_fields. Qed.

#[export] Instance v2_equiv_equivalence : Equivalence v2_equiv.
Proof. unfold v2_equiv. equivalence_by_fields. Qed.

#[export] Instance surface_equiv_equivalence v : Equivalence (surface_equiv v).
Proof. unfold surface_equiv. destruct (v =? V1)%Z; apply _. Qed.
End V2.

(** ** Proper functions *)

Section Proper.
Context `{Upstream}.

#[export] Instance replicas_of_proper : Proper (v1_equiv ==> eq) replicas_of.
Proof. by intros d d' (_ & _ & _ & E & _). Qed.

Lemma perm_upto_names l l' : perm_upto container_equiv l l' → map c_Name l ≡ₚ map c_Name l'.
Proof.
  intros (m & Hm & <-). apply reflexive_eq.
  induction Hm as [|c c' l m (E & _) _ IH]; simpl; congruence.
Qed.

#[export] Instance distinct_container_names_proper :
  Proper (v1_equiv ==> iff) distinct_container_names.
Proof.
  intros d d' (_ & _ & _ & _ & _ & _ & E%perm_upto_names).
  unfold distinct_container_names. by rewrite E.
Qed.

(** The Deployments whose v1 bytes do not depend on the sort algorithm. *)
Definition sortable (v : Version) (d : Deployment) : Prop := v = V1 → distinct_container_names d.

Lemma sortable_proper v d d' : surface_equiv v d d' → sortable v d ↔ sortable v d'.
Proof.
  unfold surface_equiv, sortable. destruct (Z.eqb_spec v V1) as [->|Hn]; [|tauto].
  by intros ->.
Qed.

(** Equal surfaces have the same canonical bytes and the same hash, whichever sorts the
    two sides use, errors included. *)
Lemma canonical_bytes_proper (S1 S2 : Sorter) v d d' :
  sortable v d → surface_equiv v d d' → canonical_bytes S1 v d = canonical_bytes S2 v d'.
Proof.
  unfold sortable, surface_equiv, canonical_bytes, CanonicalJSON, CanonicalJSONV2.
  destruct (Z.eqb_spec v V1) as [->|]; [|destruct (v =? V2)%Z; [|done]].
  - intros Hn E. f_equal. apply (Normalize_eq S1 S2) in E; [by rewrite E|auto].
  - intros _ E%(enc_deployment S1 S2). by rewrite E.
Qed.

#[export] Instance canonical_bytes_setoid (S : Sorter) v :
  Proper ((λ d d', sortable v d ∧ surface_equiv v d d') ==> eq) (canonical_bytes S v).
Proof. intros d d' [Hs E]. by apply canonical_bytes_proper. Qed.

#[export] Instance config_hash_setoid (S : Sorter) v :
  Proper ((λ d d', sortable v d ∧ surface_equiv v d d') ==> eq) (@ConfigHashForVersion _ S v).
Proof.
  intros d d' E. unfold ConfigHashForVersion, ConfigHash, ConfigHashV2.
  pose proof (canonical_bytes_setoid S v d d' E) as Hb. unfold canonical_bytes in Hb.
  destruct (v =? V1)%Z; [by rewrite Hb|]. destruct (v =? V2)%Z; [by rewrite Hb|done].
Qed.
End Proper.
