(* ===== verification/Identity.v ===== *)
(** * Workload identity and signing envelope (internal/attest/identity.go, envelope.go)

    The length-prefixed encodings of protocol v2 and their injectivity: no two
    valid identities share an encoding and no two envelopes share a signing
    preimage, so a signature can be moved to another workload, incarnation, version
    or config hash only over an explicit SHA-256 collision. *)

From S2P Require Import Prelude Bytes Sha256 GoSort GoJson Hash.

Open Scope Z_scope.

(** ** Ranging over a map literal

    Go fixes no order for [range] over a map, so [Validate] is read under every
    order: an instance is one choice. *)
Class MapRange := {
  map_range : list (string * string) → list (string * string);
  map_range_perm l : map_range l ≡ₚ l
}.

(** ** identity.go *)

Record WorkloadIdentityV2 := {
  ClusterID : string;
  APIVersion : string;
  Kind : string;
  Namespace : string;
  Name : string
}.

#[export] Instance WorkloadIdentityV2_eq_dec : EqDecision WorkloadIdentityV2.
Proof. solve_decision. Defined.

Definition ErrEmptyClusterID : error :=
  errors_New "attest: ClusterID is required; an empty cluster identity reintroduces the v1 cross-cluster collision".

Definition ErrEmptyIdentity : error :=
  errors_New "attest: identity fields must be non-empty".

Definition maxFieldLen : Z := Z.shiftl 1 16.

(** A loop that returns the first error its body returns. *)
Fixpoint range_check (body : string * string → option error) (l : list (string * string)) :
    option error :=
  match l with
  | [] => None
  | kv :: l => match body kv with Some e => Some e | None => range_check body l end
  end.

Definition check_empty : string * string → option error := λ '(name, v),
  if bool_decide (v = EmptyString)
  then Some (fmt_Errorf "%w: %s" [ArgS name] (Some ErrEmptyIdentity)) else None.

Definition check_length : string * string → option error := λ '(name, v),
  if maxFieldLen <? len v
  then Some (fmt_Errorf "attest: %s exceeds %d bytes" [ArgS name; ArgZ maxFieldLen] None)
  else None.

Section Identity.
Context `{MapRange}.

Definition Validate (w : WorkloadIdentityV2) : result unit :=
  if bool_decide (ClusterID w = EmptyString) then Err ErrEmptyClusterID
  else
    match range_check check_empty
      (map_range [("APIVersion", APIVersion w); ("Kind", Kind w);
                  ("Namespace", Namespace w); ("Name", Name w)]) with
    | Some e => Err e
    | None =>
        match range_check check_length
          (map_range [("ClusterID", ClusterID w); ("APIVersion", APIVersion w);
                      ("Kind", Kind w); ("Namespace", Namespace w); ("Name", Name w)]) with
        | Some e => Err e
        | None => Ok tt
        end
    end.

Definition appendLengthPrefixed (dst : bytes) (s : string) : bytes :=
  AppendUint32 dst (uint32 (len s)) ++ bytes_of s.

Definition identityDomain : bytes := nul_terminated "proof-of-deploy/workload-identity/v2".

Definition Encode (w : WorkloadIdentityV2) : result bytes :=
  _ <-? Validate w;;
  let buf := [] ++ identityDomain in
  let buf := appendLengthPrefixed buf (ClusterID w) in
  let buf := appendLengthPrefixed buf (APIVersion w) in
  let buf := appendLengthPrefixed buf (Kind w) in
  let buf := appendLengthPrefixed buf (Namespace w) in
  let buf := appendLengthPrefixed buf (Name w) in
  Ok buf.

Definition WorkloadID (w : WorkloadIdentityV2) : result bytes32 :=
  enc <-? Encode w;; Ok (Sum256 enc).
End Identity.

(** ** envelope.go *)

Record EnvelopeV2 := {
  e_Version : Version;
  e_Identity : WorkloadIdentityV2;
  e_UID : string;
  e_ConfigHash : bytes32
}.

Definition envelopeDomain : bytes := nul_terminated "proof-of-deploy/attestation/v2".
Definition incarnationDomain : bytes := nul_terminated "proof-of-deploy/incarnation/v2".

Definition incarnation_preimage (uid : string) : bytes := incarnationDomain ++ bytes_of uid.

Definition Incarnation (e : EnvelopeV2) : bytes32 :=
  if bool_decide (e_UID e = EmptyString) then zero32
  else Sum256 (incarnation_preimage (e_UID e)).

Section Envelope.
Context `{MapRange}.

Definition SigningPreimage (e : EnvelopeV2) : result bytes :=
  idEnc <-? Encode (e_Identity e);;
  let buf := [] ++ envelopeDomain in
  let buf := AppendUint16 buf (uint16 (e_Version e)) in
  let buf := AppendUint32 buf (uint32 (Z.of_nat (length idEnc))) in
  let buf := buf ++ idEnc in
  let buf := appendLengthPrefixed buf (e_UID e) in
  let buf := buf ++ b32 (e_ConfigHash e) in
  Ok buf.

Definition EnvelopeSigningDigest (e : EnvelopeV2) : result bytes32 :=
  pre <-? SigningPreimage e;; Ok (Sum256 pre).
End Envelope.

(** ** Validation *)

Lemma range_check_None body l :
  range_check body l = None ↔ Forall (λ kv, body kv = None) l.
Proof.
  induction l as [|kv l IH]; simpl; [by split|]. rewrite Forall_cons, <- IH.
  destruct (body kv); split; [done|by intros []|done|by intros []].
Qed.

Lemma range_check_Some body l e :
  range_check body l = Some e → ∃ kv, kv ∈ l ∧ body kv = Some e.
Proof.
  induction l as [|kv l IH]; simpl; [done|]. destruct (body kv) eqn:E.
  - intros [= ->]. exists kv. split; [left|done].
  - intros (kv' & ? & ?)%IH. exists kv'. split; [by right|done].
Qed.

Definition id_fields (w : WorkloadIdentityV2) : list string :=
  [ClusterID w; APIVersion w; Kind w; Namespace w; Name w].

Definition valid_identity (w : WorkloadIdentityV2) : Prop :=
  Forall (λ v, v ≠ EmptyString ∧ len v ≤ maxFieldLen) (id_fields w).

#[export] Instance valid_identity_dec w : Decision (valid_identity w).
Proof. unfold valid_identity. apply _. Defined.

Lemma check_empty_None kv : check_empty kv = None ↔ kv.2 ≠ EmptyString.
Proof. destruct kv as [k v]. simpl. case_bool_decide; split; done. Qed.

Lemma check_length_None kv : check_length kv = None ↔ len kv.2 ≤ maxFieldLen.
Proof. destruct kv as [k v]. simpl. destruct (Z.ltb_spec maxFieldLen (len v)); split; done || lia. Qed.

Section ValidateSpec.
Context `{MapRange}.

Lemma range_check_perm body l :
  range_check body (map_range l) = None ↔ Forall (λ kv, body kv = None) l.
Proof. rewrite range_check_None. by rewrite map_range_perm. Qed.

Lemma Validate_Ok w : Validate w = Ok tt ↔ valid_identity w.
Proof.
  unfold Validate, valid_identity, id_fields. rewrite !Forall_cons, Forall_nil.
  case_bool_decide as Hc; [split; [done|tauto]|].
  destruct (range_check check_empty _) as [e|] eqn:E.
  - split; [done|]. intros Hw. destruct (Some_ne_None e). rewrite <- E.
    apply range_check_perm. rewrite !Forall_cons, !check_empty_None, Forall_nil. simpl. tauto.
  - apply range_check_perm in E. rewrite !Forall_cons, !check_empty_None in E. simpl in E.
    destruct (range_check check_length _) as [e|] eqn:F.
    + split; [done|]. intros Hw. destruct (Some_ne_None e). rewrite <- F.
      apply range_check_perm. rewrite !Forall_cons, !check_length_None, Forall_nil. simpl. tauto.
    + apply range_check_perm in F. rewrite !Forall_cons, !check_length_None in F. simpl in F.
      tauto.
Qed.

(** The error says which rule was broken. *)
Definition validate_error (w : WorkloadIdentityV2) (e : error) : Prop :=
  (ClusterID w = EmptyString ∧ e = ErrEmptyClusterID) ∨
  (ClusterID w ≠ EmptyString ∧ ∃ name v,
     (name, v) ∈ [("APIVersion", APIVersion w); ("Kind", Kind w);
                  ("Namespace", Namespace w); ("Name", Name w)]%string ∧ v = EmptyString ∧
     e = fmt_Errorf "%w: %s" [ArgS name] (Some ErrEmptyIdentity)) ∨
  (Forall (λ v, v ≠ EmptyString) (id_fields w) ∧ ∃ name v,
     (name, v) ∈ [("ClusterID", ClusterID w); ("APIVersion", APIVersion w); ("Kind", Kind w);
                  ("Namespace", Namespace w); ("Name", Name w)]%string ∧ maxFieldLen < len v ∧
     e = fmt_Errorf "attest: %s exceeds %d bytes" [ArgS name; ArgZ maxFieldLen] None).

Lemma Validate_Err w e : Validate w = Err e → validate_error w e.
Proof.
  unfold Validate, validate_error. case_bool_decide as Hc; [by intros [= <-]; left|].
  destruct (range_check check_empty _) as [e1|] eqn:E1; [intros [= ->]; right; left|].
  - apply range_check_Some in E1 as ([name v] & Hin & Hb). rewrite map_range_perm in Hin.
    simpl in Hb. case_bool_decide; simplify_eq. eauto 10.
  - apply range_check_perm in E1. rewrite !Forall_cons, !check_empty_None in E1. simpl in E1.
    destruct (range_check check_length _) as [e2|] eqn:E2; [intros [= ->]; right; right|done].
    split; [unfold id_fields; rewrite !Forall_cons, Forall_nil; tauto|].
    apply range_check_Some in E2 as ([name v] & Hin & Hb). rewrite map_range_perm in Hin.
    simpl in Hb. destruct (Z.ltb_spec maxFieldLen (len v)); simplify_eq. eauto 10.
Qed.

(** An identity is accepted exactly when all five fields are non-empty and none
    is longer than 65536 bytes, under every map iteration order; a rejection always
    names a rule that was really broken, an empty ClusterID first. *)
Theorem Validate_exact w :
  (Validate w = Ok tt ↔ valid_identity w) ∧
  (∀ e, Validate w = Err e → validate_error w e ∧ ¬ valid_identity w).
Proof.
  split; [apply Validate_Ok|]. intros e He. split; [by apply Validate_Err|].
  rewrite <- Validate_Ok. congruence.
Qed.
End ValidateSpec.

(** ** Length-prefixed fields *)

Definition field (s : string) : bytes := be_bytes 4 (uint32 (len s)) ++ bytes_of s.

Lemma field_app dst s : appendLengthPrefixed dst s = dst ++ field s.
Proof. unfold appendLengthPrefixed, AppendUint32, field. by rewrite app_assoc. Qed.

Lemma len_nonneg s : 0 ≤ len s.
Proof. unfold len. lia. Qed.

Lemma field_inj s s' r r' :
  len s ≤ maxFieldLen → len s' ≤ maxFieldLen →
  field s ++ r = field s' ++ r' → s = s' ∧ r = r'.
Proof.
  unfold field, maxFieldLen. change (Z.shiftl 1 16) with 65536. intros Hs Hs' E. rewrite <- !app_assoc in E.
  pose proof (len_nonneg s). pose proof (len_nonneg s').
  apply app_eq_length in E as [El E]; [|by rewrite !length_be_bytes].
  unfold uint32 in El. rewrite !Z.mod_small in El by lia.
  apply be_bytes_inj in El; [|lia..].
  apply app_eq_length in E as [E ->]; [|unfold len in El; lia].
  by apply (inj bytes_of) in E.
Qed.

Definition identity_bytes (w : WorkloadIdentityV2) : bytes :=
  identityDomain ++ field (ClusterID w) ++ field (APIVersion w) ++ field (Kind w) ++
  field (Namespace w) ++ field (Name w).

Lemma Encode_Ok `{MapRange} w b :
  Encode w = Ok b ↔ valid_identity w ∧ b = identity_bytes w.
Proof.
  unfold Encode, identity_bytes. rewrite !field_app, <- Validate_Ok.
  change ([] ++ identityDomain) with identityDomain. rewrite <- !app_assoc.
  destruct (Validate w) as [[]|]; split; [by intros [= <-]|by intros [_ ->]|done|by intros []].
Qed.

Lemma identity_bytes_inj w w' :
  valid_identity w → valid_identity w' → identity_bytes w = identity_bytes w' → w = w'.
Proof.
  unfold valid_identity, identity_bytes, id_fields. rewrite !Forall_cons.
  intros H H' E. apply app_inv_head in E.
  do 4 (apply field_inj in E as [? E]; [|tauto..]).
  rewrite <- (app_nil_r (field (Name w))), <- (app_nil_r (field (Name w'))) in E.
  apply field_inj in E as [? _]; [|tauto..].
  destruct w, w'; simpl in *; by subst.
Qed.

Lemma WorkloadID_inj (R1 R2 : MapRange) w w' i :
  @WorkloadID R1 w = Ok i → @WorkloadID R2 w' = Ok i →
  w = w' ∨ ∃ b b', @Encode R1 w = Ok b ∧ @Encode R2 w' = Ok b' ∧ collision b b'.
Proof.
  unfold WorkloadID. rewrite !bind_Ok. intros (b & Hb & ->) (b' & Hb' & E).
  destruct (Sum256_binds _ _ E) as [->|C]; [left|right; eauto 10].
  apply Encode_Ok in Hb as [Hw ->], Hb' as [Hw' E']. by apply identity_bytes_inj.
Qed.

(** C18: the identity encoding is injective: two identities with the same encoding are
    the same five fields, so no choice of names (slashes included) can make one
    workload occupy another's on-chain slot; equal WorkloadIDs mean equal identities
    or a collision of the two encodings. *)
Theorem WorkloadID_binding (R1 R2 : MapRange) w w' i :
  @WorkloadID R1 w = Ok i → @WorkloadID R2 w' = Ok i →
  w = w' ∨ ∃ b b', @Encode R1 w = Ok b ∧ @Encode R2 w' = Ok b' ∧ collision b b'.
Proof. apply WorkloadID_inj. Qed.

(** ** The envelope *)

Definition version_ok (v : Version) : Prop := 0 ≤ v < 2 ^ 16.

Definition envelope_bytes (e : EnvelopeV2) : bytes :=
  envelopeDomain ++ be_bytes 2 (uint16 (e_Version e)) ++
  be_bytes 4 (uint32 (Z.of_nat (length (identity_bytes (e_Identity e))))) ++
  identity_bytes (e_Identity e) ++ be_bytes 4 (uint32 (len (e_UID e))) ++
  bytes_of (e_UID e) ++ b32 (e_ConfigHash e).

Lemma SigningPreimage_Ok `{MapRange} e b :
  SigningPreimage e = Ok b ↔ valid_identity (e_Identity e) ∧ b = envelope_bytes e.
Proof.
  unfold SigningPreimage, envelope_bytes.
  destruct (Encode (e_Identity e)) as [enc|er] eqn:E.
  - apply Encode_Ok in E as [Hv ->]. unfold AppendUint16, AppendUint32. rewrite field_app.
    unfold field. change ([] ++ envelopeDomain) with envelopeDomain. rewrite <- !app_assoc.
    split; [by intros [= <-]|by intros [_ ->]].
  - split; [done|]. intros [Hv _].
    assert (Ho : Encode (e_Identity e) = Ok (identity_bytes (e_Identity e)));
      [by apply Encode_Ok|congruence].
Qed.

Lemma field_length s : length (field s) = (4 + length (bytes_of s))%nat.
Proof. unfold field. by rewrite length_app, length_be_bytes. Qed.

Lemma valid_identity_length w :
  valid_identity w → Z.of_nat (length (identity_bytes w)) < 2 ^ 32.
Proof.
  unfold valid_identity, id_fields, identity_bytes, len, maxFieldLen.
  change (Z.shiftl 1 16) with 65536. rewrite !Forall_cons. intros Hw.
  rewrite !length_app, !field_length. change (length identityDomain) with 37%nat. lia.
Qed.

(** The UID sits between two parts of known width, so even a UID too long for its
    length prefix cannot be confused with another. *)
Lemma envelope_bytes_inj e e' :
  valid_identity (e_Identity e) → valid_identity (e_Identity e') →
  version_ok (e_Version e) → version_ok (e_Version e') →
  envelope_bytes e = envelope_bytes e' → e = e'.
Proof.
  unfold envelope_bytes, version_ok, uint16. intros Hi Hi' Hv Hv' E. apply app_inv_head in E.
  apply app_eq_length in E as [Ev E]; [|by rewrite !length_be_bytes].
  rewrite !Z.mod_small in Ev by lia. apply be_bytes_inj in Ev; [|lia..].
  apply app_eq_length in E as [El E]; [|by rewrite !length_be_bytes].
  pose proof (valid_identity_length _ Hi). pose proof (valid_identity_length _ Hi').
  unfold uint32 in El. rewrite !Z.mod_small in El by lia.
  apply be_bytes_inj in El; [|lia..].
  apply app_eq_length in E as [Ei E]; [|lia].
  apply app_eq_length in E as [_ E]; [|by rewrite !length_be_bytes].
  apply app_eq_length_r in E as [Eu Ec]; [|by rewrite !length_b32].
  apply identity_bytes_inj in Ei; [|done..]. apply (inj bytes_of) in Eu.
  apply bytes32_eq in Ec. destruct e, e'; simpl in *; by subst.
Qed.

(** C19: a v2 signature binds the whole envelope: equal signing digests mean the same
    protocol version, workload identity, UID and config hash, or a collision of the
    two preimages.  A publisher account cannot pair a signature with another
    incarnation or cluster. *)
Theorem envelope_digest_binding (R1 R2 : MapRange) e e' h :
  version_ok (e_Version e) → version_ok (e_Version e') →
  @EnvelopeSigningDigest R1 e = Ok h → @EnvelopeSigningDigest R2 e' = Ok h →
  e = e' ∨ ∃ b b', @SigningPreimage R1 e = Ok b ∧ @SigningPreimage R2 e' = Ok b' ∧ collision b b'.
Proof.
  unfold EnvelopeSigningDigest. rewrite !bind_Ok. intros Hv Hv' (b & Hb & ->) (b' & Hb' & E).
  destruct (Sum256_binds _ _ E) as [->|C]; [left|right; eauto 10].
  apply SigningPreimage_Ok in Hb as [Hi ->], Hb' as [Hi' E']. by apply envelope_bytes_inj.
Qed.

Lemma envelope_digest_Ok `{MapRange} e :
  (∃ h, EnvelopeSigningDigest e = Ok h) ↔ valid_identity (e_Identity e).
Proof.
  unfold EnvelopeSigningDigest. setoid_rewrite bind_Ok. setoid_rewrite SigningPreimage_Ok.
  split; [by intros (h & b & [Hv _] & _)|]. intros Hv. by exists (Sum256 (envelope_bytes e)), (envelope_bytes e).
Qed.

(** The incarnation is zero only for an empty UID, and otherwise names one UID:
    any confusion is an explicit SHA-256 collision or an explicit preimage of the
    zero digest. *)
Theorem Incarnation_binding e e' :
  Incarnation e = Incarnation e' →
  e_UID e = e_UID e' ∨
  collision (incarnation_preimage (e_UID e)) (incarnation_preimage (e_UID e')) ∨
  ∃ uid, uid ∈ [e_UID e; e_UID e'] ∧ Sum256 (incarnation_preimage uid) = zero32.
Proof.
  unfold Incarnation.
  case_bool_decide as Hu; case_bool_decide as Hu'; intros E.
  - left. congruence.
  - right. right. exists (e_UID e'). split; [right; left|done].
  - right. right. exists (e_UID e). split; [left|done].
  - destruct (Sum256_binds _ _ E) as [E'|C]; [left|by right; left].
    apply app_inv_head in E'. by apply (inj bytes_of).
Qed.

(** ** The theorems at the published reference vector *)

Module MapOrder.

(** Two iteration orders. *)
#[export] Instance source_order : MapRange := {| map_range l := l; map_range_perm l := reflexivity l |}.

Definition reverse_order : MapRange :=
  {| map_range l := reverse l; map_range_perm := reverse_Permutation |}.
End MapOrder.

Module IdentityWitness.
Import MapOrder.

Definition payments_api (cluster : string) : WorkloadIdentityV2 :=
  {| ClusterID := cluster; APIVersion := "apps/v1"; Kind := "Deployment";
     Namespace := "payments"; Name := "api" |}.

Definition reference_identity := payments_api "prod-eu-west-1".

Definition reference_envelope : EnvelopeV2 :=
  {| e_Version := V1; e_Identity := reference_identity;
     e_UID := "1d1e2f3a-0000-0000-0000-000000000000";
     e_ConfigHash :=
       hex32 "89ab57526b689c52761431af4bc5451933c1947b74e0db262438ad1881c17a77" |}.

(** A missing namespace is reported as such. *)
Lemma Validate_exact_witness :
  valid_identity reference_identity ∧
  ¬ valid_identity {| ClusterID := "c"; APIVersion := "apps/v1"; Kind := "Deployment";
                      Namespace := EmptyString; Name := "api" |}.
Proof.
  split; [apply (proj1 (Validate_exact reference_identity)); vm_compute; reflexivity|].
  apply (proj2 (Validate_exact (H := source_order) _)
    (fmt_Errorf "%w: %s" [ArgS "Namespace"] (Some ErrEmptyIdentity))).
  vm_compute. reflexivity.
Defined.

(** One identity read under two iteration orders. *)
Lemma WorkloadID_binding_witness :
  reference_identity = reference_identity ∨
  ∃ b b', @Encode source_order reference_identity = Ok b ∧
          @Encode reverse_order reference_identity = Ok b' ∧ collision b b'.
Proof.
  eapply (WorkloadID_binding source_order reverse_order); vm_compute; reflexivity.
Defined.

Lemma envelope_digest_binding_witness :
  reference_envelope = reference_envelope ∨
  ∃ b b', @SigningPreimage source_order reference_envelope = Ok b ∧
          @SigningPreimage reverse_order reference_envelope = Ok b' ∧ collision b b'.
Proof.
  eapply (envelope_digest_binding source_order reverse_order);
    [split; [discriminate|reflexivity]..|vm_compute; reflexivity|vm_compute; reflexivity].
Defined.

Lemma Incarnation_binding_witness :
  e_UID reference_envelope = e_UID reference_envelope ∨
  collision (incarnation_preimage (e_UID reference_envelope))
    (incarnation_preimage (e_UID reference_envelope)) ∨
  ∃ uid, uid ∈ [e_UID reference_envelope; e_UID reference_envelope] ∧
    Sum256 (incarnation_preimage uid) = zero32.
Proof. apply (Incarnation_binding reference_envelope reference_envelope). reflexivity. Defined.

(** The ambiguity of v1 is gone. *)
Example workload_id_unambiguous :
  let id ns name := {| ClusterID := "c"; APIVersion := "apps/v1"; Kind := "Deployment";
                       Namespace := ns; Name := name |} in
  WorkloadID (id "a/b" "c")%string ≠ WorkloadID (id "a" "b/c")%string.
Proof. vm_compute. discriminate. Qed.
End IdentityWitness.
