(* ===== verification/Registry.v ===== *)
(** * The on-chain registries (contracts/AttestationRegistry.sol, AttestationRegistryV2.sol)

    Each contract is a state machine over its [latest] mapping: [publish] under its
    guards and [getLatest] with its return tuple in declaration order.  The abstract
    contract of a registry is the history of its calls: the latest record of a
    workload is the last call that passed the guards. *)

From S2P Require Import Prelude Bytes.

Open Scope Z_scope.

(** ** ABI values and calls *)

Inductive abi_value :=
  | ABytes32 (b : bytes32)
  | ABytes (b : bytes)
  | AUint64 (z : Z)
  | AUint16 (z : Z)
  | ABool (b : bool)
  | AAddress (a : bytes).

(** What a call reverts with. *)
Inductive revert :=
  | NotPublisher
  | InvalidHashVersion
  | EmptySignature
  | Require (reason : string).

(** The parts of a transaction the contract reads. *)
Record msg := { msg_sender : bytes; block_timestamp : Z }.

Definition zero_address : bytes := replicate 20 Byte.x00.

(** ** AttestationRegistry *)

Module RegistryV1.

Record Attestation := {
  configHash : bytes32;
  signature : bytes;
  signerFingerprint : bytes32;
  blockTimestamp : Z;
  hashVersion : Z;
  exists_ : bool
}.

(** An unset mapping entry reads as zeroes. *)
Definition empty_attestation : Attestation :=
  {| configHash := zero32; signature := []; signerFingerprint := zero32;
     blockTimestamp := 0; hashVersion := 0; exists_ := false |}.

Record state := { publisher : bytes; latest : gmap bytes32 Attestation }.

Definition constructor (_publisher : bytes) : state + revert :=
  if bool_decide (_publisher = zero_address) then inr (Require "publisher is zero address")
  else inl {| publisher := _publisher; latest := ∅ |}.

Record call := {
  deploymentId : bytes32;
  a_hashVersion : Z;
  a_configHash : bytes32;
  a_signature : bytes;
  a_signerFingerprint : bytes32
}.

Definition publish (m : msg) (c : call) (s : state) : state + revert :=
  if bool_decide (msg_sender m ≠ publisher s) then inr NotPublisher
  else if a_hashVersion c =? 0 then inr InvalidHashVersion
  else
    let ts := uint64 (block_timestamp m) in
    inl {| publisher := publisher s;
           latest := <[deploymentId c :=
             {| configHash := a_configHash c; signature := a_signature c;
                signerFingerprint := a_signerFingerprint c; blockTimestamp := ts;
                hashVersion := a_hashVersion c; exists_ := true |}]> (latest s) |}.

Definition read (s : state) (id : bytes32) : Attestation :=
  default empty_attestation (latest s !! id).

Definition getLatest (s : state) (id : bytes32) : list abi_value :=
  let a := read s id in
  [ABytes32 (configHash a); ABytes (signature a); ABytes32 (signerFingerprint a);
   AUint64 (blockTimestamp a); AUint16 (hashVersion a); ABool (exists_ a)].

Record AttestationPublished := {
  ev_deploymentId : bytes32;
  ev_hashVersion : Z;
  ev_configHash : bytes32;
  ev_signerFingerprint : bytes32;
  ev_blockTimestamp : Z
}.

Definition emitted (m : msg) (c : call) (s : state) : list AttestationPublished :=
  match publish m c s with
  | inl _ =>
      let ts := uint64 (block_timestamp m) in
      [{| ev_deploymentId := deploymentId c; ev_hashVersion := a_hashVersion c;
          ev_configHash := a_configHash c; ev_signerFingerprint := a_signerFingerprint c;
          ev_blockTimestamp := ts |}]
  | inr _ => []
  end.
End RegistryV1.

(** ** AttestationRegistryV2 *)

Module RegistryV2.

Record Attestation := {
  configHash : bytes32;
  signerFingerprint : bytes32;
  incarnation : bytes32;
  signature : bytes;
  blockTimestamp : Z;
  hashVersion : Z;
  exists_ : bool
}.

Definition empty_attestation : Attestation :=
  {| configHash := zero32; signerFingerprint := zero32; incarnation := zero32;
     signature := []; blockTimestamp := 0; hashVersion := 0; exists_ := false |}.

Record state := { publisher : bytes; latest : gmap bytes32 Attestation }.

Definition constructor (_publisher : bytes) : state + revert :=
  if bool_decide (_publisher = zero_address) then inr (Require "publisher is zero address")
  else inl {| publisher := _publisher; latest := ∅ |}.

Record call := {
  workloadId : bytes32;
  a_hashVersion : Z;
  a_configHash : bytes32;
  a_incarnation : bytes32;
  a_signature : bytes;
  a_signerFingerprint : bytes32
}.

Definition record_of (m : msg) (c : call) : Attestation :=
  {| configHash := a_configHash c; signerFingerprint := a_signerFingerprint c;
     incarnation := a_incarnation c; signature := a_signature c;
     blockTimestamp := uint64 (block_timestamp m); hashVersion := a_hashVersion c;
     exists_ := true |}.

Definition publish (m : msg) (c : call) (s : state) : state + revert :=
  if bool_decide (msg_sender m ≠ publisher s) then inr NotPublisher
  else if a_hashVersion c =? 0 then inr InvalidHashVersion
  else if Z.of_nat (length (a_signature c)) =? 0 then inr EmptySignature
  else inl {| publisher := publisher s;
              latest := <[workloadId c := record_of m c]> (latest s) |}.

Definition read (s : state) (id : bytes32) : Attestation :=
  default empty_attestation (latest s !! id).

Definition getLatest (s : state) (id : bytes32) : list abi_value :=
  let a := read s id in
  [ABytes32 (configHash a); ABytes (signature a); ABytes32 (signerFingerprint a);
   ABytes32 (incarnation a); AUint64 (blockTimestamp a); AUint16 (hashVersion a);
   ABool (exists_ a)].

(** *** Histories

    A reverted call leaves the state as it was. *)
Definition exec (s : state) (mc : msg * call) : state :=
  match publish mc.1 mc.2 s with inl s' => s' | inr _ => s end.

Definition run (s : state) (h : list (msg * call)) : state := foldl exec s h.

(** The abstract registry: a history, read backwards. *)
Definition accepted (p : bytes) (mc : msg * call) : bool :=
  bool_decide (msg_sender mc.1 = p) && negb (a_hashVersion mc.2 =? 0) &&
  negb (Z.of_nat (length (a_signature mc.2)) =? 0).

Definition last_accepted (p : bytes) (id : bytes32) (h : list (msg * call)) :
    option (msg * call) :=
  last (filter (λ mc, accepted p mc = true ∧ workloadId mc.2 = id) h).

(** *** The event log *)

Record AttestationPublished := {
  ev_workloadId : bytes32;
  ev_hashVersion : Z;
  ev_configHash : bytes32;
  ev_incarnation : bytes32;
  ev_signerFingerprint : bytes32;
  ev_signature : bytes;
  ev_blockTimestamp : Z
}.

(** What [publish] emits: nothing when it reverts. *)
Definition emitted (m : msg) (c : call) (s : state) : list AttestationPublished :=
  match publish m c s with
  | inl _ =>
      let ts := uint64 (block_timestamp m) in
      [{| ev_workloadId := workloadId c; ev_hashVersion := a_hashVersion c;
          ev_configHash := a_configHash c; ev_incarnation := a_incarnation c;
          ev_signerFingerprint := a_signerFingerprint c; ev_signature := a_signature c;
          ev_blockTimestamp := ts |}]
  | inr _ => []
  end.

Fixpoint logs (s : state) (h : list (msg * call)) : list AttestationPublished :=
  match h with
  | [] => []
  | mc :: h => emitted mc.1 mc.2 s ++ logs (exec s mc) h
  end.

(** The record an off-chain verifier rebuilds from an event. *)
Definition record_from (e : AttestationPublished) : Attestation :=
  {| configHash := ev_configHash e; signerFingerprint := ev_signerFingerprint e;
     incarnation := ev_incarnation e; signature := ev_signature e;
     blockTimestamp := ev_blockTimestamp e; hashVersion := ev_hashVersion e; exists_ := true |}.

Definition last_event (id : bytes32) (l : list AttestationPublished) :
    option AttestationPublished :=
  last (filter (λ e, ev_workloadId e = id) l).
End RegistryV2.

#[export] Instance call_eq_dec : EqDecision RegistryV2.call.
Proof. solve_decision. Defined.

(** ** The v2 registry implements its history *)

Module RegistryV2Facts.
Import RegistryV2.

Lemma exec_spec s mc :
  exec s mc =
  if accepted (publisher s) mc
  then {| publisher := publisher s;
          latest := <[workloadId mc.2 := record_of mc.1 mc.2]> (latest s) |}
  else s.
Proof.
  unfold exec, publish, accepted. rewrite bool_decide_not.
  destruct (bool_decide _), (_ =? 0); try done. by destruct (_ =? 0).
Qed.

Lemma run_publisher s h : publisher (run s h) = publisher s.
Proof.
  unfold run. revert s. induction h as [|mc h IH]; intros s; simpl; [done|].
  rewrite IH, exec_spec. by destruct (accepted _ _).
Qed.

Lemma read_exec s mc id :
  read (exec s mc) id =
  if decide (accepted (publisher s) mc = true ∧ workloadId mc.2 = id)
  then record_of mc.1 mc.2 else read s id.
Proof.
  rewrite exec_spec. unfold read. destruct (accepted _ _); simpl.
  - destruct (decide (workloadId mc.2 = id)) as [<-|Hne].
    + rewrite lookup_insert_eq. by rewrite decide_True.
    + rewrite lookup_insert_ne by done. by rewrite decide_False by (by intros [_ ?]).
  - done.
Qed.

Lemma read_run s h id :
  read (run s h) id =
  match last_accepted (publisher s) id h with
  | Some mc => record_of mc.1 mc.2
  | None => read s id
  end.
Proof.
  unfold last_accepted. induction h as [|mc h IH] using rev_ind; [done|].
  unfold run in *. rewrite foldl_snoc, read_exec, filter_app.
  fold (run s h). rewrite run_publisher.
  cbn [filter list_filter]. case_decide as Hd.
  - by rewrite last_snoc.
  - rewrite app_nil_r. apply IH.
Qed.

(** C20: the v2 registry refines its history: after any sequence of calls by any
    accounts, [getLatest] of a workload replies with the config hash, signature,
    fingerprint, incarnation, block time (as a uint64) and version of the last call that
    came from the publisher with a non-zero version and a non-empty signature, and with
    true; and with all zeroes and false if there was none; nothing else anyone does
    changes it. *)
Theorem registry_v2_refines_history p s h id :
  constructor p = inl s →
  getLatest (run s h) id =
  match last_accepted p id h with
  | Some (m, c) =>
      [ABytes32 (a_configHash c); ABytes (a_signature c); ABytes32 (a_signerFingerprint c);
       ABytes32 (a_incarnation c); AUint64 (uint64 (block_timestamp m));
       AUint16 (a_hashVersion c); ABool true]
  | None =>
      [ABytes32 zero32; ABytes []; ABytes32 zero32; ABytes32 zero32; AUint64 0; AUint16 0;
       ABool false]
  end.
Proof.
  unfold constructor. case_bool_decide; [done|]. intros [= <-].
  unfold getLatest. rewrite read_run. simpl. by destruct (last_accepted p id h) as [[m c]|].
Qed.

(** *** The log holds what the storage forgets *)

Definition event_of (mc : msg * call) : AttestationPublished :=
  {| ev_workloadId := workloadId mc.2; ev_hashVersion := a_hashVersion mc.2;
     ev_configHash := a_configHash mc.2; ev_incarnation := a_incarnation mc.2;
     ev_signerFingerprint := a_signerFingerprint mc.2; ev_signature := a_signature mc.2;
     ev_blockTimestamp := uint64 (block_timestamp mc.1) |}.

Lemma record_from_event mc : record_from (event_of mc) = record_of mc.1 mc.2.
Proof. done. Qed.

Lemma emitted_spec s mc :
  emitted mc.1 mc.2 s = if accepted (publisher s) mc then [event_of mc] else [].
Proof.
  unfold emitted, publish, accepted. rewrite bool_decide_not.
  destruct (bool_decide _), (_ =? 0); try done. by destruct (_ =? 0).
Qed.

Lemma logs_accepted s h :
  logs s h = event_of <$> filter (λ mc, accepted (publisher s) mc = true) h.
Proof.
  revert s. induction h as [|mc h IH]; intros s; [done|]. cbn [logs].
  rewrite emitted_spec, IH. pose proof (run_publisher s [mc]) as Hp. unfold run in Hp.
  cbn [foldl] in Hp. rewrite Hp. cbn [filter list_filter].
  destruct (accepted (publisher s) mc) eqn:E.
  - by rewrite decide_True by done.
  - by rewrite decide_False by done.
Qed.

Lemma last_event_accepted p id h :
  last_event id (event_of <$> filter (λ mc, accepted p mc = true) h) =
  event_of <$> last_accepted p id h.
Proof.
  unfold last_event, last_accepted. rewrite <- fmap_last. f_equal.
  induction h as [|mc h IH]; [done|]. rewrite !filter_cons.
  destruct (decide (accepted p mc = true)) as [Ha|Ha].
  - rewrite fmap_cons, filter_cons, IH. simpl.
    destruct (decide (workloadId mc.2 = id)) as [Hi|Hi].
    + by rewrite decide_True by done.
    + by rewrite decide_False by naive_solver.
  - rewrite IH. by rewrite decide_False by naive_solver.
Qed.

(** C21: the event log is complete: every accepted call and no reverted one leaves one
    event, in order, and the record of a workload can be rebuilt field by field,
    signature included, from its last event alone; so an overwritten attestation is
    still verifiable from the log. *)
Theorem registry_v2_log_complete p s h id :
  constructor p = inl s →
  logs s h = event_of <$> filter (λ mc, accepted p mc = true) h ∧
  read (run s h) id =
  match last_event id (logs s h) with
  | Some e => record_from e
  | None => empty_attestation
  end.
Proof.
  unfold constructor. case_bool_decide; [done|]. intros [= <-].
  rewrite read_run, logs_accepted, last_event_accepted. simpl.
  by destruct (last_accepted p id h).
Qed.

(** A record a client can trust the shape of. *)
Definition record_wf (a : Attestation) : Prop :=
  (exists_ a = true ↔ hashVersion a ≠ 0) ∧
  (exists_ a = true → signature a ≠ []) ∧
  (exists_ a = false → a = empty_attestation).

Definition registry_wf (s : state) : Prop := ∀ id, record_wf (read s id).

Lemma last_accepted_ok p id h mc :
  last_accepted p id h = Some mc →
  accepted p mc = true ∧ workloadId mc.2 = id ∧ mc ∈ h.
Proof.
  unfold last_accepted. intros Hl. apply last_Some_elem_of, list_elem_of_filter in Hl.
  tauto.
Qed.

Lemma record_of_wf p mc : accepted p mc = true → record_wf (record_of mc.1 mc.2).
Proof.
  unfold accepted. intros [[_ Hv]%andb_prop Hs]%andb_prop.
  apply negb_true_iff in Hv, Hs. apply Z.eqb_neq in Hv, Hs.
  split_and!; simpl; [done|intros _ E; by rewrite E in Hs|done].
Qed.

(** In every reachable state of the v2 registry a record exists exactly when its
    version is non-zero, an existing record has a signature, and an absent one reads
    as all zeroes; so version 0 in a reply always means that nothing was published. *)
Theorem registry_v2_wf p s h :
  constructor p = inl s → registry_wf (run s h).
Proof.
  unfold constructor. case_bool_decide; [done|]. intros [= <-] id. rewrite read_run. simpl.
  destruct (last_accepted p id h) as [mc|] eqn:E.
  - apply last_accepted_ok in E as [E _]. by eapply record_of_wf.
  - by split_and!.
Qed.

Definition alice : bytes := replicate 20 Byte.x01.
Definition mallory : bytes := replicate 20 Byte.x02.

Definition sample_call (v : Z) (h : bytes32) : call :=
  {| workloadId := zero32; a_hashVersion := v; a_configHash := h; a_incarnation := zero32;
     a_signature := [Byte.x30]; a_signerFingerprint := zero32 |}.

(** Alice publishes; Mallory's later call and a version-0 call change nothing. *)
Definition sample_history : list (msg * call) :=
  let m a t := {| msg_sender := a; block_timestamp := t |} in
  [(m alice 10, sample_call 2 zero32);
   (m mallory 11, sample_call 2 (mk32 (replicate 32 Byte.xff)));
   (m alice 12, sample_call 0 (mk32 (replicate 32 Byte.xff)))].

Lemma registry_v2_refines_history_witness :
  getLatest (run {| publisher := alice; latest := ∅ |} sample_history) zero32 =
  [ABytes32 zero32; ABytes [Byte.x30]; ABytes32 zero32; ABytes32 zero32; AUint64 10;
   AUint16 2; ABool true].
Proof.
  rewrite (registry_v2_refines_history alice); vm_compute; reflexivity.
Defined.

Lemma registry_v2_log_complete_witness :
  read (run {| publisher := alice; latest := ∅ |} sample_history) zero32 =
  record_from (event_of ({| msg_sender := alice; block_timestamp := 10 |}, sample_call 2 zero32)).
Proof.
  destruct (registry_v2_log_complete alice {| publisher := alice; latest := ∅ |} sample_history
    zero32) as [_ E]; [vm_compute; reflexivity|]. rewrite E. vm_compute. reflexivity.
Defined.

Lemma registry_v2_wf_witness :
  registry_wf (run {| publisher := alice; latest := ∅ |} sample_history).
Proof. apply (registry_v2_wf alice). vm_compute. reflexivity. Defined.
End RegistryV2Facts.

(** ** The v1 registry *)

Module RegistryV1Facts.
Import RegistryV1.

(** A call takes effect exactly when the publisher makes it with a non-zero version,
    and then only on its own key. *)
Lemma publish_effect m c s s' :
  publish m c s = inl s' ↔
  msg_sender m = publisher s ∧ a_hashVersion c ≠ 0 ∧
  s' = {| publisher := publisher s;
          latest := <[deploymentId c :=
            {| configHash := a_configHash c; signature := a_signature c;
               signerFingerprint := a_signerFingerprint c;
               blockTimestamp := uint64 (block_timestamp m);
               hashVersion := a_hashVersion c; exists_ := true |}]> (latest s) |}.
Proof.
  unfold publish. case_bool_decide as Hs; [split; [done|tauto]|].
  destruct (Z.eqb_spec (a_hashVersion c) 0) as [Hv|Hv];
    [split; [done|tauto]|].
  split; [intros [= <-]; done|by intros (_ & _ & ->)].
Qed.

Inductive reachable (p : bytes) : state → Prop :=
  | reach_init s : constructor p = inl s → reachable p s
  | reach_publish m c s s' : reachable p s → publish m c s = inl s' → reachable p s'.

(** In every reachable state of the v1 registry, a record exists exactly when its
    version is non-zero, and the publisher is the one the contract was built with,
    never the zero address. *)
Theorem registry_v1_invariant p s :
  reachable p s →
  publisher s = p ∧ p ≠ zero_address ∧
  ∀ id, exists_ (read s id) = true ↔ hashVersion (read s id) ≠ 0.
Proof.
  induction 1 as [s Hc|m c s s' _ (Hp & Hz & IH) Hpub].
  - unfold constructor in Hc. case_bool_decide; simplify_eq. split_and!; [done..|].
    intros id. unfold read. simpl. rewrite lookup_empty. split; done.
  - apply publish_effect in Hpub as (_ & Hv & ->). split_and!; [done..|]. intros id.
    unfold read. simpl. destruct (decide (deploymentId c = id)) as [->|Hne].
    + rewrite lookup_insert_eq. simpl. split; done.
    + rewrite lookup_insert_ne by done. apply IH.
Qed.

Definition sample_state : state :=
  {| publisher := RegistryV2Facts.alice; latest := ∅ |}.

Lemma registry_v1_invariant_witness : publisher sample_state = RegistryV2Facts.alice.
Proof.
  apply (registry_v1_invariant RegistryV2Facts.alice sample_state).
  apply reach_init. vm_compute. reflexivity.
Defined.
(** The v1 log cannot replace the storage: the event carries no signature, so two
    publications that differ in it leave the same log. *)
Example v1_log_omits_signature :
  let c sig := {| deploymentId := zero32; a_hashVersion := 1; a_configHash := zero32;
                  a_signature := sig; a_signerFingerprint := zero32 |} in
  let m := {| msg_sender := [Byte.x01]; block_timestamp := 10 |} in
  let s := {| publisher := [Byte.x01]; latest := ∅ |} in
  emitted m (c [Byte.x01]) s = emitted m (c [Byte.x02]) s ∧
  publish m (c [Byte.x01]) s ≠ publish m (c [Byte.x02]) s.
Proof. vm_compute. split; [reflexivity|discriminate]. Qed.
End RegistryV1Facts.
