(* ===== verification/Verify.v ===== *)
(** * Public keys and signatures (internal/attest/verify.go)

    ECDSA and X.509 are libraries: [Crypto] names the functions the code calls.  No
    law is assumed of them. *)

From S2P Require Import Prelude Bytes Sha256 Hash.

Open Scope Z_scope.

(** What [x509.ParsePKIXPublicKey] may return: a key of one of its types. *)
Inductive any_key (K : Type) :=
  | EcdsaKey (k : K)
  | OtherKey.
Arguments EcdsaKey {K} k.
Arguments OtherKey {K}.

Class Crypto := {
  PublicKey : Type;
  ParsePKIXPublicKey : bytes → result (any_key PublicKey);
  VerifyASN1 : PublicKey → bytes → bytes → bool;
  curve_name : PublicKey → string
}.

Definition ErrNotECDSA : error := errors_New "attest: public key is not an ECDSA key".

Section Verify.
Context `{Crypto}.

Definition ParsePublicKeyDER (der : bytes) : result PublicKey :=
  pub <-? ParsePKIXPublicKey der;;
  match pub with
  | EcdsaKey ec => Ok ec
  | OtherKey => Err ErrNotECDSA
  end.

Definition VerifyConfigHashSignature (pub : PublicKey) (configHash : bytes32)
    (derSig : bytes) : bool :=
  VerifyASN1 pub (b32 configHash) derSig.
End Verify.

Definition PublicKeyFingerprintBytes (der : bytes) : bytes32 := Sum256 der.

Definition PublicKeyFingerprint (der : bytes) : string :=
  let h := PublicKeyFingerprintBytes der in hex_encode (b32 h).

(** The printed fingerprint determines the key: equal fingerprints mean the same
    DER bytes or a collision of the two encodings, through hex as on chain. *)
Theorem fingerprint_binding der der' :
  PublicKeyFingerprint der = PublicKeyFingerprint der' →
  PublicKeyFingerprintBytes der = PublicKeyFingerprintBytes der' ∧
  (der = der' ∨ collision der der').
Proof.
  unfold PublicKeyFingerprint. intros E%(inj hex_encode)%bytes32_eq.
  split; [done|]. by apply Sum256_binds.
Qed.

(** ** A concrete key type, for evaluation

    A key is a name, its DER form is a tag followed by the name, and a signature is
    the name followed by the digest. *)
Module ToyCrypto.

#[export] Instance toy_crypto : Crypto := {|
  PublicKey := bytes;
  ParsePKIXPublicKey der :=
    match der with
    | Byte.x01 :: k => Ok (EcdsaKey k)
    | Byte.x02 :: _ => Ok OtherKey
    | _ => Err (errors_New "x509: malformed key")
    end;
  VerifyASN1 k digest sig := bool_decide (sig = k ++ digest);
  curve_name _ := "P-256"
|}.

Definition toy_der (k : bytes) : bytes := Byte.x01 :: k.
Definition toy_sign (k : bytes) (digest : bytes32) : bytes := k ++ b32 digest.

Lemma fingerprint_binding_witness :
  PublicKeyFingerprintBytes (toy_der []) = PublicKeyFingerprintBytes (toy_der []).
Proof. apply (fingerprint_binding (toy_der []) (toy_der [])). reflexivity. Defined.
End ToyCrypto.
