(* ===== verification/Domains.v ===== *)
(** * Domain separation (internal/attest)

    The eight purposes for which internal/attest computes a SHA-256, each with the bytes
    that are hashed and the code's own function that hashes them, and the theorem that
    no two purposes ever hash the same bytes. *)

From S2P Require Import Prelude Bytes Sha256 GoSort GoJson Kube Fixtures Normalize NormalizeV2.
From S2P Require Import Hash Identity Verify.

Open Scope Z_scope.

(** Kubernetes names: lower case letters, digits, hyphens and dots. *)
Definition dns_byte (b : byte) : bool :=
  in_range 97 122 b || in_range 48 57 b || bool_decide (b = Byte.x2d) || bool_decide (b = Byte.x2e).

Definition dns_name (s : string) : Prop := forallb dns_byte (bytes_of s) = true.

(** A DER-encoded SubjectPublicKeyInfo is a SEQUENCE that holds an OBJECT IDENTIFIER
    (RFC 5480); no more of its form is needed. *)
Definition der_public_key (der : bytes) : Prop := head der = Some Byte.x30 ∧ Byte.x06 ∈ der.

Inductive purpose :=
  | ConfigV1 | ConfigV2 | RecordSignatureV1 | DeploymentKeyV1
  | WorkloadKey | IncarnationTag | EnvelopeSignature | KeyFingerprint.

Section Digests.
Context `{Upstream, Sorter, MapRange}.

(** [digest p b h]: for the purpose [p] the code hashes the bytes [b], and the result of
    its function is [h]. *)
Inductive digest : purpose → bytes → bytes32 → Prop :=
  | dg_config_v1 d b h :
      v1_text_ok d = true → CanonicalJSON (Normalize d) = Ok b →
      ConfigHashForVersion V1 d = Ok h → digest ConfigV1 b h
  | dg_config_v2 d b h :
      v2_text_ok d = true → CanonicalJSONV2 (NormalizeV2 d) = Ok b →
      ConfigHashForVersion V2 d = Ok h → digest ConfigV2 b h
  | dg_record v c :
      digest RecordSignatureV1
        (bytes_of "proof-of-deploy/attestation" ++ [Byte.x00] ++ be_bytes 2 (uint16 v) ++ b32 c)
        (SigningDigest v c)
  | dg_deployment ns name :
      dns_name ns → dns_name name →
      digest DeploymentKeyV1 (bytes_of (ns +:+ "/" +:+ name)) (DeploymentID ns name)
  | dg_workload w b h :
      Encode w = Ok b → WorkloadID w = Ok h → digest WorkloadKey b h
  | dg_incarnation e :
      e_UID e ≠ EmptyString →
      digest IncarnationTag
        (bytes_of "proof-of-deploy/incarnation/v2" ++ [Byte.x00] ++ bytes_of (e_UID e))
        (Incarnation e)
  | dg_envelope e b h :
      SigningPreimage e = Ok b → EnvelopeSigningDigest e = Ok h → digest EnvelopeSignature b h
  | dg_fingerprint der :
      der_public_key der → digest KeyFingerprint der (PublicKeyFingerprintBytes der).

Lemma digest_is_hash p b h : digest p b h → h = Sum256 b.
Proof.
  intros [d b' h' _ E Eh|d b' h' _ E Eh|v c|ns name _ _|w b' h' E Eh|e Hu|e b' h' E Eh|der _];
    try reflexivity.
  - revert Eh. unfold ConfigHashForVersion, ConfigHash. simpl (V1 =? V1). cbv iota.
    rewrite E. by intros [= <-].
  - revert Eh. unfold ConfigHashForVersion, ConfigHashV2. change (V2 =? V1) with false.
    change (V2 =? V2) with true. cbv iota. rewrite E. by intros [= <-].
  - revert Eh. unfold WorkloadID. rewrite E. by intros [= <-].
  - unfold Incarnation. by rewrite bool_decide_false.
  - revert Eh. unfold EnvelopeSigningDigest. rewrite E. by intros [= <-].
Qed.
End Digests.

(** ** Telling the inputs apart *)

Definition purpose_tag (p : purpose) : Z :=
  match p with
  | ConfigV1 | ConfigV2 => 0
  | DeploymentKeyV1 => 1
  | RecordSignatureV1 => 2
  | WorkloadKey => 3
  | IncarnationTag => 4
  | EnvelopeSignature => 5
  | KeyFingerprint => 6
  end.

(** Enough of an input to recognise its purpose, but for the two versions of a config. *)
Definition domain_tag (b : bytes) : Z :=
  if bool_decide (take 1 b = bytes_of "{") then 0
  else if forallb (λ c, dns_byte c || bool_decide (c = Byte.x2f)) b then 1
  else if bool_decide (take 28 b = signingDomain) then 2
  else if bool_decide (take 17 b = bytes_of "proof-of-deploy/w") then 3
  else if bool_decide (take 17 b = bytes_of "proof-of-deploy/i") then 4
  else if bool_decide (take 17 b = bytes_of "proof-of-deploy/a") then 5
  else 6.

Lemma dns_names_tag ns name :
  dns_name ns → dns_name name → domain_tag (bytes_of (ns +:+ "/" +:+ name)) = 1.
Proof.
  intros Hns Hn. unfold domain_tag. rewrite !bytes_of_app.
  rewrite bool_decide_false.
  - assert (Hw : ∀ s, dns_name s →
      forallb (λ c, dns_byte c || bool_decide (c = Byte.x2f)) (bytes_of s) = true).
    { intros s Hs. apply forallb_forall. intros c Hc.
      unfold dns_name in Hs. rewrite forallb_forall in Hs. by rewrite (Hs c Hc). }
    by rewrite !forallb_app, (Hw ns Hns), (Hw name Hn).
  - unfold dns_name in Hns. destruct (bytes_of ns) as [|c l]; [discriminate|].
    intros E. change ([c] = [Byte.x7b]) in E. by injection E as ->.
Qed.

Lemma der_tag der : der_public_key der → domain_tag der = 6.
Proof.
  intros [Hh H6]. destruct der as [|c l]; [done|]. injection Hh as ->. unfold domain_tag.
  rewrite bool_decide_false by discriminate.
  destruct (forallb _ _) eqn:Hf; [|by rewrite !bool_decide_false by discriminate].
  rewrite forallb_forall in Hf. by apply list_elem_of_In, Hf in H6.
Qed.

Section Separation.
Context `{Upstream, Sorter, MapRange}.

Lemma digest_tag p b h : digest p b h → domain_tag b = purpose_tag p.
Proof.
  intros [d b' h' _ E _|d b' h' _ E _|v c|ns name Hns Hn|w b' h' E _|e _|e b' h' E _|der Hd].
  - by injection E as <-.
  - revert E. unfold CanonicalJSONV2, json_deployment_v2, j_struct. cbn [mapR].
    destruct (json_pod_spec _); [|done]. by intros [= <-].
  - reflexivity.
  - by apply dns_names_tag.
  - by apply Encode_Ok in E as [_ ->].
  - reflexivity.
  - by apply SigningPreimage_Ok in E as [_ ->].
  - by apply der_tag.
Qed.

(** The two canonical forms have different fields. *)
Lemma config_versions_differ b h h' : digest ConfigV1 b h → ¬ digest ConfigV2 b h'.
Proof.
  intros Hd1 Hd2. inversion Hd1 as [d ? ? Ht E _| | | | | | |]. inversion Hd2 as [|d' ? ? Ht' E' _| | | | | |].
  subst. unfold v2_text_ok in Ht'. unfold CanonicalJSONV2 in E'. injection E as E.
  destruct (json_deployment_v2 (NormalizeV2 d')) as [v|] eqn:Ev; [|done]. injection E' as E'.
  rewrite <- E' in E. apply marshal_inj in E; [|done..]. revert Ev. rewrite <- E.
  unfold json_deployment_v2, j_struct. cbn [mapR]. by destruct (json_pod_spec _).
Qed.
End Separation.

Section DomainSeparation.
Context `{Upstream, Sorter, MapRange}.

(** C39: domain separation: the bytes hashed for two different purposes never coincide:
    v1 config, v2 config, v1 record signature, v1 deployment key, workload id,
    incarnation, v2 envelope signature, key fingerprint; so the digest the code computes
    for one purpose equals one for another only over an explicit SHA-256 collision.
    Assumed of the inputs: valid UTF-8 in a Deployment, Kubernetes characters in the
    names of a v1 key, a DER public key in a fingerprint, and a UID in an incarnation
    (without one the code returns zeroes and hashes nothing). *)
Theorem domain_separation p p' b b' h h' :
  digest p b h → digest p' b' h' → p ≠ p' →
  b ≠ b' ∧ (h = h' → collision b b').
Proof.
  intros Hb Hb' Hp.
  assert (Hne : b ≠ b').
  { intros <-. pose proof (digest_tag _ _ _ Hb) as Ht. rewrite (digest_tag _ _ _ Hb') in Ht.
    destruct p, p'; try discriminate; try done; by eapply config_versions_differ. }
  split; [done|]. apply digest_is_hash in Hb as ->, Hb' as ->. by intros E.
Qed.
End DomainSeparation.

Module DomainsWitness.
Import Concrete Insertion Fixtures MapOrder IdentityWitness.

(** The reference envelope: what is signed, and what its incarnation is the hash of. *)
Lemma domain_separation_witness :
  ∃ b, SigningPreimage reference_envelope = Ok b ∧
    bytes_of "proof-of-deploy/incarnation/v2" ++ [Byte.x00] ++
      bytes_of (e_UID reference_envelope) ≠ b.
Proof.
  destruct (SigningPreimage reference_envelope) as [b|] eqn:Eb; [|by vm_compute in Eb].
  exists b. split; [done|].
  refine (proj1 (domain_separation IncarnationTag EnvelopeSignature _ b
    (Incarnation reference_envelope) (Sum256 b) _ _ _)).
  - by apply dg_incarnation.
  - apply (dg_envelope reference_envelope); [exact Eb|].
    unfold EnvelopeSigningDigest. by rewrite Eb.
  - discriminate.
Defined.

(** Every purpose but the fingerprint has an input here. *)
Example purposes_inhabited :
  dns_name "payments" ∧ dns_name "api" ∧ v1_text_ok baseline = true ∧ v2_text_ok baseline = true.
Proof. by vm_compute. Qed.
End DomainsWitness.
