(* ===== verification/Golden.v ===== *)
(** * The golden vectors of the repository, recomputed

    internal/attest/testdata/*/hashes.txt, hashes_v2.txt, _envelope_v2/reference.txt and
    _signature/fingerprint.txt: the model reproduces, by evaluation, every value the Go
    tests freeze for the fixtures, so the definitions of the other files compute the
    program's bytes and not an abstraction of them. *)

From S2P Require Import Prelude Bytes Sha256 GoSort GoJson Kube Fixtures.
From S2P Require Import Normalize NormalizeV2 Hash Identity Verify.

Module Golden.
Import Concrete Insertion Fixtures IdentityWitness MapOrder.

Definition hex_hash (r : result bytes32) : string :=
  match r with Ok h => hex_encode (b32 h) | Err _ => "error" end.

Definition v1 (d : Deployment) : string := hex_hash (ConfigHashForVersion V1 d).
Definition v2 (d : Deployment) : string := hex_hash (ConfigHashForVersion V2 d).

(** hashes.txt *)
Example golden_v1 :
  map v1 [baseline; minimal; declaration_order; generated_labels; excluded_metadata;
          selector_expressions; quantity_forms; benign; tampered] =
  ["45915b35a6a49f8157650779fc424d1d3368bf03deb9cd00406abbc6a9fd70b2";
   "6853cb654f65c362319f99562a6fe08233ff890cb732f6511a8828e499862eb9";
   "45915b35a6a49f8157650779fc424d1d3368bf03deb9cd00406abbc6a9fd70b2";
   "45915b35a6a49f8157650779fc424d1d3368bf03deb9cd00406abbc6a9fd70b2";
   "45915b35a6a49f8157650779fc424d1d3368bf03deb9cd00406abbc6a9fd70b2";
   "42645cd7147d16502663a4165242650297f7fcc7e6b532ad0a0340f16646aa5f";
   "d1b65140b66a6823b6e0246196258d15cdc169b50055aa026ab1355714ff78f3";
   "89ab57526b689c52761431af4bc5451933c1947b74e0db262438ad1881c17a77";
   "89ab57526b689c52761431af4bc5451933c1947b74e0db262438ad1881c17a77"]%string.
Proof. vm_compute. reflexivity. Qed.

(** hashes_v2.txt *)
Example golden_v2 :
  map v2 [baseline; minimal; declaration_order; generated_labels; excluded_metadata;
          selector_expressions; quantity_forms; benign; tampered] =
  ["e481b399a295b0a66681d15156bb6c251de14275f558e5b4cc0b3d18ab68b368";
   "a783f91bbb2f1a67aadedc9e28a05d671f97f570b19edd74541d6e1415cdacd3";
   "2b747ba51a06b868200bfba947a80884d2bb9a0ecfce00053a117a33ddf74a55";
   "e481b399a295b0a66681d15156bb6c251de14275f558e5b4cc0b3d18ab68b368";
   "e481b399a295b0a66681d15156bb6c251de14275f558e5b4cc0b3d18ab68b368";
   "42f34de7680f2daf3e0d05424bbf0dc83dae0fd8f0c8767810822810026f31ff";
   "367b5de73c7de9715e2349987a06acfa1c5519d4630e19c13f1d7b6f8d13d27d";
   "d78404296c295424bb1a6848cf014a07ab1924c10b4a158b3cd50334f04250a1";
   "7b3d8b95b5f74fd1a49cbe6ab738594d553496a54f2aecf027a2d3b19c0514ce"]%string.
Proof. vm_compute. reflexivity. Qed.

(** deploymentID lines of hashes.txt *)
Example golden_ids :
  map (λ d, hex_encode (b32 (DeploymentID (d_Namespace d) (d_Name d))))
    [baseline; minimal; benign] =
  ["81c382dc1f407346caec873d415b18440f81bf22dc07fd5bf17bde4f6245045a";
   "6e92696bb4f37f70b1e64ace34344be5d5d7dfd704fda7414d2ea762de8ecfb7";
   "a4612639bb369403bf4caab63171bb955c6256d5c8ac95c9846dc0d6af3f7dc4"]%string.
Proof. vm_compute. reflexivity. Qed.

(** _envelope_v2/reference.txt *)
Example golden_envelope :
  (match Encode reference_identity with Ok b => hex_encode b | Err _ => "error" end,
   hex_hash (WorkloadID reference_identity), hex_encode (b32 (Incarnation reference_envelope)),
   hex_hash (EnvelopeSigningDigest reference_envelope)) =
  ("70726f6f662d6f662d6465706c6f792f776f726b6c6f61642d6964656e746974792f7632000000000e70726f642d65752d776573742d3100000007617070732f76310000000a4465706c6f796d656e74000000087061796d656e747300000003617069",
   "1834e3d7e0a197bdac5ff04cb96bced44c67fd5bcf5bea729c1dfb9933790236",
   "ab8c6f7113b2a8565611f8fdd493b319a271284e5937dc606a41027bddd077b6",
   "68564b657a593e1eded2c19a2ddbac034a1920dc28c56e9cc23a298f42203d1d")%string.
Proof. vm_compute. reflexivity. Qed.
(** _signature/public-key.der and fingerprint.txt *)
Definition test_key_der : string :=
  "3059301306072a8648ce3d020106082a8648ce3d030107034200041f51cf8e0323ceae88167905618fa2b0744b1e6d26c93599885e2d410600d2ef73a87434ff9b2a19cd2583c8554a730653dab7456bb71f3503c242c9b1498cdd".

Example golden_fingerprint :
  (der ← hex_decode test_key_der; Some (PublicKeyFingerprint der)) =
  Some "1cd55b56b3789242e19d24b8cf2ccd2b8f71950997c184ae7824166327dd0869"%string.
Proof. vm_compute. reflexivity. Qed.
End Golden.
