(* ===== verification/Signer.v ===== *)
(** * The KMS signer (internal/signer/kms.go)

    [newWithClient] checks every property of the key it is given, [SignDigest] every
    property of the answer.  KMS is a service: its two calls are functions of an
    arbitrary service state, so each answer may differ from the last.  [AttestSigner]
    is the promise the publishers use: what the signer returns verifies under the
    public key it advertises. *)

From S2P Require Import Prelude Bytes Sha256 GoText Hash Verify.

Open Scope Z_scope.

(** ** The KMS client *)

Record GetPublicKeyOutput := {
  gpk_KeyId : option string;
  gpk_KeyUsage : string;
  gpk_KeySpec : string;
  gpk_SigningAlgorithms : list string;
  gpk_PublicKey : bytes
}.

Record SignInput := {
  si_KeyId : string;
  si_Message : bytes;
  si_MessageType : string;
  si_SigningAlgorithm : string
}.

Record SignOutput := {
  so_KeyId : option string;
  so_Signature : bytes;
  so_SigningAlgorithm : string
}.

(** [kmsAPI]; a nil response is [None]. *)
Record kmsAPI (W : Type) := {
  kms_Sign : SignInput → W → result (option SignOutput) * W;
  kms_GetPublicKey : string → W → result (option GetPublicKeyOutput) * W
}.
Arguments kms_Sign {W} _ _ _.
Arguments kms_GetPublicKey {W} _ _ _.

Definition KeyUsageTypeSignVerify : string := "SIGN_VERIFY".
Definition KeySpecEccNistP256 : string := "ECC_NIST_P256".
Definition signingAlgorithm : string := "ECDSA_SHA_256".
Definition MessageTypeDigest : string := "DIGEST".

Section Signer.
Context `{Crypto} {W : Type}.

Record KMSSigner := {
  client : kmsAPI W;
  keyID : string;
  configuredKeyID : string;
  pubDER : bytes;
  pub : PublicKey
}.

Definition canonical_id (keyID : string) (out : GetPublicKeyOutput) : string :=
  match gpk_KeyId out with
  | Some k => if bool_decide (k ≠ EmptyString) then k else keyID
  | None => keyID
  end.

(** The checks on the answer of [GetPublicKey], in order. *)
Definition check_key (client : kmsAPI W) (keyID : string) (out : GetPublicKeyOutput) :
    result KMSSigner :=
  if bool_decide (gpk_KeyUsage out ≠ KeyUsageTypeSignVerify) then
    Err (fmt_Errorf "signer: key %q has usage %s, want %s"
           [ArgS keyID; ArgS (gpk_KeyUsage out); ArgS KeyUsageTypeSignVerify] None)
  else if bool_decide (gpk_KeySpec out ≠ KeySpecEccNistP256) then
    Err (fmt_Errorf "signer: key %q has spec %s, want %s"
           [ArgS keyID; ArgS (gpk_KeySpec out); ArgS KeySpecEccNistP256] None)
  else if negb (bool_decide (signingAlgorithm ∈ gpk_SigningAlgorithms out)) then
    Err (fmt_Errorf "signer: key %q does not offer %s (offers %v)"
           ([ArgS keyID; ArgS signingAlgorithm] ++ map ArgS (gpk_SigningAlgorithms out)) None)
  else if is_nil (gpk_PublicKey out) then
    Err (fmt_Errorf "signer: KMS returned an empty public key for %q" [ArgS keyID] None)
  else
    let pubDER := gpk_PublicKey out in
    match ParsePublicKeyDER pubDER with
    | Err err =>
        Err (fmt_Errorf "signer: key %q returned an unparseable public key: %w"
               [ArgS keyID] (Some err))
    | Ok pub =>
        if bool_decide (curve_name pub ≠ "P-256"%string) then
          Err (fmt_Errorf "signer: key %q reports spec %s but its public key is on curve %s"
                 [ArgS keyID; ArgS (gpk_KeySpec out); ArgS (curve_name pub)] None)
        else
          Ok {| client := client; keyID := canonical_id keyID out; configuredKeyID := keyID;
                pubDER := pubDER; pub := pub |}
    end.

Definition newWithClient (client : kmsAPI W) (keyID : string) (w : W) : result KMSSigner * W :=
  if blank keyID then (Err (fmt_Errorf "signer: key id is empty" [] None), w)
  else
    let '(r, w) := kms_GetPublicKey client keyID w in
    match r with
    | Err err => (Err (fmt_Errorf "signer: get public key for %q: %w" [ArgS keyID] (Some err)), w)
    | Ok None => (Err (fmt_Errorf "signer: KMS returned no response for %q" [ArgS keyID] None), w)
    | Ok (Some out) => (check_key client keyID out, w)
    end.

(** The AWS configuration, loaded, is a client. *)
Definition NewKMSSigner (LoadDefaultConfig : result (kmsAPI W)) (keyID : string) (w : W) :
    result KMSSigner * W :=
  match LoadDefaultConfig with
  | Err err => (Err (fmt_Errorf "signer: load AWS config: %w" [] (Some err)), w)
  | Ok client => newWithClient client keyID w
  end.

Definition PublicKeyDER (s : KMSSigner) : bytes := pubDER s.

Definition sign_input (s : KMSSigner) (digest : bytes32) : SignInput :=
  {| si_KeyId := keyID s; si_Message := b32 digest; si_MessageType := MessageTypeDigest;
     si_SigningAlgorithm := signingAlgorithm |}.

(** The checks on the answer of [Sign], in order. *)
Definition check_signature (s : KMSSigner) (digest : bytes32) (out : SignOutput) :
    result bytes :=
  if is_nil (so_Signature out) then
    Err (fmt_Errorf "signer: KMS returned an empty signature" [] None)
  else if bool_decide (so_SigningAlgorithm out ≠ signingAlgorithm) then
    Err (fmt_Errorf "signer: KMS signed with %s, expected %s"
           [ArgS (so_SigningAlgorithm out); ArgS signingAlgorithm] None)
  else
    match so_KeyId out with
    | Some k =>
        if bool_decide (k ≠ keyID s) then
          Err (fmt_Errorf "signer: KMS signed with key %q, expected %q"
                 [ArgS k; ArgS (keyID s)] None)
        else
          if negb (VerifyConfigHashSignature (pub s) digest (so_Signature out)) then
            Err (fmt_Errorf "signer: KMS returned a signature that does not verify against the cached public key" [] None)
          else Ok (so_Signature out)
    | None =>
        if negb (VerifyConfigHashSignature (pub s) digest (so_Signature out)) then
          Err (fmt_Errorf "signer: KMS returned a signature that does not verify against the cached public key" [] None)
        else Ok (so_Signature out)
    end.

Definition SignDigest (s : KMSSigner) (digest : bytes32) (w : W) : result bytes * W :=
  let '(r, w) := kms_Sign (client s) (sign_input s digest) w in
  match r with
  | Err err => (Err (fmt_Errorf "signer: KMS sign: %w" [] (Some err)), w)
  | Ok None => (Err (fmt_Errorf "signer: KMS returned no response to sign" [] None), w)
  | Ok (Some out) => (check_signature s digest out, w)
  end.

(** ** What construction establishes *)

Definition key_acceptable (out : GetPublicKeyOutput) (k : PublicKey) : Prop :=
  gpk_KeyUsage out = KeyUsageTypeSignVerify ∧ gpk_KeySpec out = KeySpecEccNistP256 ∧
  signingAlgorithm ∈ gpk_SigningAlgorithms out ∧ gpk_PublicKey out ≠ [] ∧
  ParsePublicKeyDER (gpk_PublicKey out) = Ok k ∧ curve_name k = "P-256"%string.

Lemma check_key_Ok client keyID out s :
  check_key client keyID out = Ok s ↔
  ∃ k, key_acceptable out k ∧
    s = {| client := client; keyID := canonical_id keyID out; configuredKeyID := keyID;
           pubDER := gpk_PublicKey out; pub := k |}.
Proof.
  unfold check_key, key_acceptable.
  case_bool_decide as Hu; [naive_solver|]. case_bool_decide as Hs; [naive_solver|].
  case_bool_decide as Ha; simpl; [|naive_solver].
  destruct (is_nil_spec (gpk_PublicKey out)) as [El|El]; [naive_solver|].
  destruct (ParsePublicKeyDER _) as [k|]; [|naive_solver].
  case_bool_decide as Hc; naive_solver.
Qed.
End Signer.

Section SignerFacts.
Context `{Crypto} {W : Type}.

Lemma newWithClient_Ok (c : kmsAPI W) id w s w' :
  newWithClient c id w = (Ok s, w') →
  blank id = false ∧ ∃ out k, kms_GetPublicKey c id w = (Ok (Some out), w') ∧
    key_acceptable out k ∧ client s = c ∧ configuredKeyID s = id ∧
    keyID s = canonical_id id out ∧ pubDER s = gpk_PublicKey out ∧ pub s = k.
Proof.
  unfold newWithClient. destruct (blank id); [done|].
  destruct (kms_GetPublicKey c id w) as [[[out|]|] w1]; [|done..].
  intros [= E ->]. apply check_key_Ok in E as (k & Hk & ->). split; [done|].
  by exists out, k.
Qed.

(** The signer is built exactly on a P-256 signing key that offers the protocol's
    algorithm and whose own material parses on that curve; its identifier is the
    canonical one KMS returned.  A blank key id is refused without calling KMS. *)
Theorem newWithClient_exact (c : kmsAPI W) id w :
  (blank id = true → (newWithClient c id w).2 = w) ∧
  ((∃ s, (newWithClient c id w).1 = Ok s) ↔
   blank id = false ∧ ∃ out k, (kms_GetPublicKey c id w).1 = Ok (Some out) ∧ key_acceptable out k) ∧
  (∀ s out, (newWithClient c id w).1 = Ok s → (kms_GetPublicKey c id w).1 = Ok (Some out) →
     keyID s = canonical_id id out ∧ PublicKeyDER s = gpk_PublicKey out ∧
     ParsePublicKeyDER (PublicKeyDER s) = Ok (pub s)).
Proof.
  split_and!.
  - unfold newWithClient. by intros ->.
  - split.
    + intros [s E]. destruct (newWithClient c id w) as [r w'] eqn:En. simpl in E. subst r.
      apply newWithClient_Ok in En as (Hb & out & k & Hg & Hk & _). rewrite Hg. eauto.
    + intros (Hb & out & k & Hg & Hk). unfold newWithClient. rewrite Hb.
      destruct (kms_GetPublicKey c id w) as [r w']. simpl in Hg. subst r. simpl.
      eexists. apply check_key_Ok. eauto.
  - intros s out E Hg. destruct (newWithClient c id w) as [r w'] eqn:En. simpl in E. subst r.
    apply newWithClient_Ok in En as (Hb & out' & k & Hg' & (_ & _ & _ & _ & Hp & _) & _ & _ & Hid & Hd & Hk).
    rewrite Hg' in Hg. simplify_eq/=. unfold PublicKeyDER. rewrite Hd. by split_and!.
Qed.

Lemma check_signature_iff (s : @KMSSigner _ W) digest out sig :
  check_signature s digest out = Ok sig ↔
  so_Signature out = sig ∧ sig ≠ [] ∧ so_SigningAlgorithm out = signingAlgorithm ∧
  (∀ k, so_KeyId out = Some k → k = keyID s) ∧
  VerifyConfigHashSignature (pub s) digest sig = true.
Proof.
  unfold check_signature. split.
  - destruct (is_nil_spec (so_Signature out)) as [|Hn]; [done|].
    case_bool_decide as Ha; [done|].
    destruct (so_KeyId out) as [k|]; [case_bool_decide as Hk; [done|]|];
      destruct (VerifyConfigHashSignature _ _ _) eqn:Hv; simpl; intros E; simplify_eq;
      split_and!; try done; intros k' E; by simplify_eq.
  - intros (<- & Hn & Ha & Hk & Hv).
    destruct (is_nil_spec (so_Signature out)) as [|_]; [done|].
    rewrite bool_decide_false by tauto. destruct (so_KeyId out) as [k|]; [|by rewrite Hv].
    rewrite bool_decide_false by (intros Hne; by apply Hne, Hk). by rewrite Hv.
Qed.

Lemma SignDigest_request (s : @KMSSigner _ W) digest w :
  (SignDigest s digest w).2 = (kms_Sign (client s) (sign_input s digest) w).2 ∧
  ∀ sig, (SignDigest s digest w).1 = Ok sig ↔
    ∃ out, (kms_Sign (client s) (sign_input s digest) w).1 = Ok (Some out) ∧
      check_signature s digest out = Ok sig.
Proof.
  unfold SignDigest. destruct (kms_Sign _ _ w) as [[[out|]|] w']; simpl; naive_solver.
Qed.

(** C22: a signer built from a key id calls KMS once per digest, always with the key id
    KMS itself returned for it (the configured one only if KMS returned none or an empty
    one), the digest as the message, MessageType DIGEST and algorithm ECDSA_SHA_256.  It
    returns a signature exactly when KMS's answer holds it, non-empty, labelled with that
    algorithm, not attributed to another key id, and it verifies over exactly the digest
    under the key parsed from the DER the signer advertises, which is the DER KMS
    returned; every other answer is an error. *)
Theorem SignDigest_verified (c : kmsAPI W) id w0 s w1 digest w :
  newWithClient c id w0 = (Ok s, w1) →
  ∃ key cid, kms_GetPublicKey c id w0 = (Ok (Some key), w1) ∧
    cid = match gpk_KeyId key with None | Some EmptyString => id | Some k => k end ∧
    PublicKeyDER s = gpk_PublicKey key ∧
    let answer := kms_Sign c {| si_KeyId := cid; si_Message := b32 digest;
                                si_MessageType := "DIGEST";
                                si_SigningAlgorithm := "ECDSA_SHA_256" |} w in
    (SignDigest s digest w).2 = answer.2 ∧
    ∀ sig, (SignDigest s digest w).1 = Ok sig ↔
      ∃ out, answer.1 = Ok (Some out) ∧
        so_Signature out = sig ∧ sig ≠ [] ∧ so_SigningAlgorithm out = "ECDSA_SHA_256"%string ∧
        (∀ k, so_KeyId out = Some k → k = cid) ∧
        ∃ k, ParsePublicKeyDER (PublicKeyDER s) = Ok k ∧
             VerifyConfigHashSignature k digest sig = true.
Proof.
  intros (_ & out & k & Hg & (_ & _ & _ & _ & Hp & _) & Hc & _ & Hid & Hd & Hk)%newWithClient_Ok.
  exists out, (canonical_id id out). unfold PublicKeyDER. rewrite Hd. split; [done|]. split.
  { unfold canonical_id. destruct (gpk_KeyId out) as [[]|]; reflexivity. }
  split; [done|]. cbn zeta. destruct (SignDigest_request s digest w) as [Hw Hr].
  unfold sign_input in Hw, Hr. rewrite Hc, Hid in Hw, Hr. split; [exact Hw|].
  intros sig. rewrite Hr. setoid_rewrite check_signature_iff. rewrite Hid, Hk, Hp.
  split; [intros (o & ? & ? & ? & ? & ? & ?); exists o; eauto 10|].
  intros (o & ? & ? & ? & ? & ? & k' & [= <-] & ?). by exists o.
Qed.
End SignerFacts.

(** ** The interface the publishers use *)

(** [Signer] of internal/publisher: a signing operation over an arbitrary service
    state, and an advertised key. *)
Record Signer (W : Type) := {
  signer_SignDigest : bytes32 → W → result bytes * W;
  signer_PublicKeyDER : bytes
}.
Arguments signer_SignDigest {W} _ _ _.
Arguments signer_PublicKeyDER {W} _.

(** What a signer promises. *)
Class AttestSigner `{Crypto} {W} (s : Signer W) := {
  signer_parses : is_ok (ParsePublicKeyDER (signer_PublicKeyDER s)) = true;
  signer_verifies k d w sig w' :
    ParsePublicKeyDER (signer_PublicKeyDER s) = Ok k →
    signer_SignDigest s d w = (Ok sig, w') →
    sig ≠ [] ∧ VerifyConfigHashSignature k d sig = true
}.

Definition kms_signer `{Crypto} {W} (s : @KMSSigner _ W) : Signer W :=
  {| signer_SignDigest := SignDigest s; signer_PublicKeyDER := PublicKeyDER s |}.

Lemma kms_signer_attests `{Crypto} {W} (c : kmsAPI W) id w s w' :
  newWithClient c id w = (Ok s, w') → AttestSigner (kms_signer s).
Proof.
  intros (_ & out & k & _ & (_ & _ & _ & _ & Hp & _) & Hc & _ & _ & Hd & Hk)%newWithClient_Ok.
  split; simpl; unfold PublicKeyDER; rewrite Hd, Hp; [done|].
  intros k' d w1 sig w2 [= <-]. unfold SignDigest.
  destruct (kms_Sign _ _ w1) as [[[so|]|] w3]; [|done..]. intros [= E ->].
  apply check_signature_iff in E as (_ & Hn & _ & _ & Hv). by rewrite <- Hk.
Qed.

(** ** A KMS that behaves, and one whose alias moved *)

Module SignerWitness.
Import ToyCrypto.

Definition arn : string := "arn:aws:kms:eu-west-1:1:key/a".

Definition toy_key : bytes := bytes_of "k".

Definition good_output : GetPublicKeyOutput :=
  {| gpk_KeyId := Some arn; gpk_KeyUsage := KeyUsageTypeSignVerify;
     gpk_KeySpec := KeySpecEccNistP256; gpk_SigningAlgorithms := [signingAlgorithm];
     gpk_PublicKey := toy_der toy_key |}.

Definition signature_by (k : bytes) (id : string) (i : SignInput) : SignOutput :=
  {| so_KeyId := Some id; so_Signature := k ++ si_Message i;
     so_SigningAlgorithm := si_SigningAlgorithm i |}.

Definition good_kms : kmsAPI unit :=
  {| kms_Sign i w := (Ok (Some (signature_by toy_key (si_KeyId i) i)), w);
     kms_GetPublicKey _ w := (Ok (Some good_output), w) |}.

(** The alias was repointed after start-up: the service signs with another key. *)
Definition moved_kms : kmsAPI unit :=
  {| kms_Sign i w := (Ok (Some (signature_by (bytes_of "other") (si_KeyId i) i)), w);
     kms_GetPublicKey _ w := (Ok (Some good_output), w) |}.

Definition the_signer (c : kmsAPI unit) : @KMSSigner _ unit :=
  {| client := c; keyID := arn; configuredKeyID := "alias/deploy";
     pubDER := toy_der toy_key; pub := toy_key |}.

Lemma newWithClient_exact_witness :
  ∃ s, (newWithClient good_kms "alias/deploy" ()).1 = Ok s.
Proof.
  apply (newWithClient_exact good_kms "alias/deploy" ()).
  split; [reflexivity|]. exists good_output, toy_key. split; [reflexivity|].
  unfold key_acceptable. repeat split; [set_solver|discriminate].
Defined.

(** The alias is configured; the canonical arn is what KMS is asked to sign with. *)
Lemma SignDigest_verified_witness :
  ∃ out, (kms_Sign good_kms {| si_KeyId := arn; si_Message := b32 zero32;
            si_MessageType := "DIGEST"; si_SigningAlgorithm := "ECDSA_SHA_256" |} ()).1 =
         Ok (Some out) ∧ so_Signature out = toy_sign toy_key zero32.
Proof.
  destruct (SignDigest_verified good_kms "alias/deploy" () (the_signer good_kms) () zero32 ())
    as (key & cid & Hg & Hcid & _ & _ & Hs); [vm_compute; reflexivity|].
  injection Hg as <-. change (cid = arn) in Hcid. subst cid.
  destruct (proj1 (Hs (toy_sign toy_key zero32))) as (out & Ho & Hsig & _);
    [vm_compute; reflexivity|]. by exists out.
Defined.

(** A signature by the wrong key is refused even when it is attributed to ours. *)
Example moved_key_refused : is_ok (SignDigest (the_signer moved_kms) zero32 ()).1 = false.
Proof. vm_compute. reflexivity. Qed.
End SignerWitness.
