(* ===== verification/Client.v ===== *)
(** * The chain clients (internal/chain/client.go, client_v2.go, registry.go, registry_v2.go)

    The typed wrappers around the registries.  go-ethereum is a parameter
    ([Backend], [EthLib]): its calls act on an arbitrary world state.  The decoders
    are checked against the contracts' own return tuples. *)

From S2P Require Import Prelude Bytes GoText Registry.
From Stdlib Require Import Strings.Ascii.

Open Scope Z_scope.

(** ** go-ethereum *)

Record Receipt := { r_Status : Z; r_BlockNumber : Z; r_GasUsed : Z }.

Definition ReceiptStatusSuccessful : Z := 1.

(** A bound contract over a connection.  [Transact] builds and signs a transaction
    and, unless [NoSend] is set, sends it. *)
Record Backend (W Tx : Type) := {
  eth_Transact : bool → string → list abi_value → W → result Tx * W;
  eth_Call : string → list abi_value → W → result (list abi_value) * W;
  eth_SendTransaction : Tx → W → option error * W;
  eth_WaitMined : Tx → W → result Receipt * W;
  eth_Hash : Tx → string
}.
Arguments eth_Transact {W Tx} _ _ _ _ _.
Arguments eth_Call {W Tx} _ _ _ _.
Arguments eth_SendTransaction {W Tx} _ _ _.
Arguments eth_WaitMined {W Tx} _ _ _.
Arguments eth_Hash {W Tx} _ _.

(** Dialing, ABI parsing and key handling. *)
Class EthLib (W Tx : Type) := {
  DialContext : string → result (Backend W Tx);
  abi_JSON : string → result unit;
  HexToAddress : string → bytes;
  ecdsa_PrivateKey : Type;
  HexToECDSA : string → result ecdsa_PrivateKey;
  NewKeyedTransactorWithChainID : ecdsa_PrivateKey → Z → result unit
}.

(** ** Go values behind [interface{}] *)

Definition as_bytes32 (v : abi_value) : option bytes32 :=
  match v with ABytes32 b => Some b | _ => None end.
Definition as_bytes (v : abi_value) : option bytes :=
  match v with ABytes b => Some b | _ => None end.
Definition as_uint64 (v : abi_value) : option Z :=
  match v with AUint64 z => Some z | _ => None end.
Definition as_uint16 (v : abi_value) : option Z :=
  match v with AUint16 z => Some z | _ => None end.
Definition as_bool (v : abi_value) : option bool :=
  match v with ABool b => Some b | _ => None end.

(** [%T] *)
Definition go_type (v : abi_value) : string :=
  match v with
  | ABytes32 _ => "[32]uint8"
  | ABytes _ => "[]uint8"
  | AUint64 _ => "uint64"
  | AUint16 _ => "uint16"
  | ABool _ => "bool"
  | AAddress _ => "common.Address"
  end.

Definition typeErr (field : string) (v : abi_value) : error :=
  fmt_Errorf "chain: unexpected ABI type for %s: %T" [ArgS field; ArgS (go_type v)] None.

Definition assert_type {A} (cast : abi_value → option A) (field : string) (v : abi_value) :
    result A :=
  match cast v with Some a => Ok a | None => Err (typeErr field v) end.

(** ** client.go *)

Record Attestation := {
  ConfigHash : bytes32;
  Signature : bytes;
  SignerFingerprint : bytes32;
  BlockTimestamp : Z;
  HashVersion : Z;
  Exists : bool
}.

Definition decode_attestation (out : list abi_value) : result Attestation :=
  match out with
  | [v0; v1; v2; v3; v4; v5] =>
      configHash <-? assert_type as_bytes32 "configHash" v0;;
      signature <-? assert_type as_bytes "signature" v1;;
      signerFingerprint <-? assert_type as_bytes32 "signerFingerprint" v2;;
      blockTimestamp <-? assert_type as_uint64 "blockTimestamp" v3;;
      hashVersion <-? assert_type as_uint16 "hashVersion" v4;;
      exists_ <-? assert_type as_bool "exists" v5;;
      Ok {| ConfigHash := configHash; Signature := signature;
            SignerFingerprint := signerFingerprint; BlockTimestamp := blockTimestamp;
            HashVersion := hashVersion; Exists := exists_ |}
  | _ => Err (fmt_Errorf "chain: getLatest returned %d values, want 6"
                [ArgZ (Z.of_nat (length out))] None)
  end.

(** ** client_v2.go *)

Record AttestationV2 := {
  ConfigHash2 : bytes32;
  Signature2 : bytes;
  SignerFingerprint2 : bytes32;
  Incarnation2 : bytes32;
  BlockTimestamp2 : Z;
  HashVersion2 : Z;
  Exists2 : bool
}.

Definition decodeAttestationV2 (out : list abi_value) : result AttestationV2 :=
  match out with
  | [v0; v1; v2; v3; v4; v5; v6] =>
      configHash <-? assert_type as_bytes32 "configHash" v0;;
      signature <-? assert_type as_bytes "signature" v1;;
      signerFingerprint <-? assert_type as_bytes32 "signerFingerprint" v2;;
      incarnation <-? assert_type as_bytes32 "incarnation" v3;;
      blockTimestamp <-? assert_type as_uint64 "blockTimestamp" v4;;
      hashVersion <-? assert_type as_uint16 "hashVersion" v5;;
      exists_ <-? assert_type as_bool "exists" v6;;
      Ok {| ConfigHash2 := configHash; Signature2 := signature;
            SignerFingerprint2 := signerFingerprint; Incarnation2 := incarnation;
            BlockTimestamp2 := blockTimestamp; HashVersion2 := hashVersion;
            Exists2 := exists_ |}
  | _ => Err (fmt_Errorf "chain: getLatest returned %d values, want 7"
                [ArgZ (Z.of_nat (length out))] None)
  end.

Inductive SubmitOutcome := SubmitUnknown | SubmitAccepted.

Definition SubmitOutcome_String (o : SubmitOutcome) : string :=
  match o with SubmitAccepted => "accepted" | SubmitUnknown => "unknown" end.

Inductive PublishOutcome := OutcomeUnknown | OutcomeMinedSuccess | OutcomeReverted.

Definition PublishOutcome_String (o : PublishOutcome) : string :=
  match o with
  | OutcomeMinedSuccess => "mined-success"
  | OutcomeReverted => "reverted"
  | OutcomeUnknown => "unknown"
  end.

Record PublishResult := {
  pr_TxHash : string;
  pr_Outcome : PublishOutcome;
  pr_BlockNumber : Z;
  pr_GasUsed : Z
}.

Record SendResult := { sr_Outcome : SubmitOutcome; sr_Cause : option error }.

(** The calldata of [publish]. *)
Definition publish_args_v1 (deploymentID : bytes32) (hashVersion : Z) (configHash : bytes32)
    (signature : bytes) (fingerprint : bytes32) : list abi_value :=
  [ABytes32 deploymentID; AUint16 hashVersion; ABytes32 configHash; ABytes signature;
   ABytes32 fingerprint].

Definition publish_args_v2 (workloadID : bytes32) (hashVersion : Z)
    (configHash incarnation : bytes32) (signature : bytes) (fingerprint : bytes32) :
    list abi_value :=
  [ABytes32 workloadID; AUint16 hashVersion; ABytes32 configHash; ABytes32 incarnation;
   ABytes signature; ABytes32 fingerprint].

Definition ErrReadOnly : error :=
  fmt_Errorf "chain: client is read-only; no signing key configured" [] None.
Definition ErrVersionZero : error :=
  fmt_Errorf "chain: hash version 0 is not a valid protocol version" [] None.

Section Clients.
Context {W Tx : Type}.

(** Both clients hold a bound contract, an optional transactor and an address; the
    connection of a v2 client may be missing. *)
Record Client := {
  contract : Backend W Tx;
  auth : bool;
  address : bytes;
  connected : bool
}.

Definition PublishAttestation (c : Client) (deploymentID : bytes32) (hashVersion : Z)
    (configHash : bytes32) (signature : bytes) (fingerprint : bytes32) (w : W) :
    result string * W :=
  if negb (auth c) then (Err ErrReadOnly, w)
  else if hashVersion =? 0 then (Err ErrVersionZero, w)
  else
    let '(r, w) := eth_Transact (contract c) false "publish"
      (publish_args_v1 deploymentID hashVersion configHash signature fingerprint) w in
    match r with
    | Err err => (Err (fmt_Errorf "chain: publish tx: %w" [] (Some err)), w)
    | Ok tx => (Ok (eth_Hash (contract c) tx), w)
    end.

Definition LatestAttestation (c : Client) (deploymentID : bytes32) (w : W) :
    result Attestation * W :=
  let '(r, w) := eth_Call (contract c) "getLatest" [ABytes32 deploymentID] w in
  match r with
  | Err err => (Err (fmt_Errorf "chain: getLatest: %w" [] (Some err)), w)
  | Ok out => (decode_attestation out, w)
  end.

Definition LatestAttestationV2 (c : Client) (workloadID : bytes32) (w : W) :
    result AttestationV2 * W :=
  let '(r, w) := eth_Call (contract c) "getLatest" [ABytes32 workloadID] w in
  match r with
  | Err err => (Err (fmt_Errorf "chain: getLatest: %w" [] (Some err)), w)
  | Ok out => (decodeAttestationV2 out, w)
  end.

Record PreparedPublish := { pp_TxHash : string; pp_tx : option Tx }.

Definition Prepare (c : Client) (workloadID : bytes32) (hashVersion : Z)
    (configHash incarnation : bytes32) (signature : bytes) (fingerprint : bytes32) (w : W) :
    result PreparedPublish * W :=
  if negb (auth c) then (Err ErrReadOnly, w)
  else if hashVersion =? 0 then (Err ErrVersionZero, w)
  else if is_nil signature then
    (Err (fmt_Errorf "chain: refusing to publish an empty signature" [] None), w)
  else
    let '(r, w) := eth_Transact (contract c) true "publish"
      (publish_args_v2 workloadID hashVersion configHash incarnation signature fingerprint) w in
    match r with
    | Err err => (Err (fmt_Errorf "chain: build publish tx: %w" [] (Some err)), w)
    | Ok tx => (Ok {| pp_TxHash := eth_Hash (contract c) tx; pp_tx := Some tx |}, w)
    end.

(** The transaction of a possibly nil [*PreparedPublish]. *)
Definition prepared_tx (p : option PreparedPublish) : option Tx := p ≫= pp_tx.

Definition Send (c : Client) (p : option PreparedPublish) (w : W) : result SendResult * W :=
  match prepared_tx p with
  | None => (Err (fmt_Errorf "chain: send called with no prepared transaction" [] None), w)
  | Some tx =>
      if negb (connected c) then (Err (fmt_Errorf "chain: client has no connection" [] None), w)
      else
        let '(err, w) := eth_SendTransaction (contract c) tx w in
        match err with
        | Some e => (Ok {| sr_Outcome := SubmitUnknown; sr_Cause := Some e |}, w)
        | None => (Ok {| sr_Outcome := SubmitAccepted; sr_Cause := None |}, w)
        end
  end.

Definition PreparedPublish_Hash (p : option PreparedPublish) : string :=
  match p with None => EmptyString | Some p => pp_TxHash p end.

Definition Wait (c : Client) (p : option PreparedPublish) (w : W) : PublishResult * W :=
  match prepared_tx p with
  | None =>
      ({| pr_TxHash := EmptyString; pr_Outcome := OutcomeUnknown; pr_BlockNumber := 0;
          pr_GasUsed := 0 |}, w)
  | Some tx =>
      let hash := PreparedPublish_Hash p in
      let '(r, w) := eth_WaitMined (contract c) tx w in
      match r with
      | Err _ =>
          ({| pr_TxHash := hash; pr_Outcome := OutcomeUnknown; pr_BlockNumber := 0;
              pr_GasUsed := 0 |}, w)
      | Ok rcpt =>
          ({| pr_TxHash := hash;
              pr_Outcome := if r_Status rcpt =? ReceiptStatusSuccessful
                            then OutcomeMinedSuccess else OutcomeReverted;
              pr_BlockNumber := r_BlockNumber rcpt; pr_GasUsed := r_GasUsed rcpt |}, w)
      end
  end.

Definition PublishAndWait (c : Client) (workloadID : bytes32) (hashVersion : Z)
    (configHash incarnation : bytes32) (signature : bytes) (fingerprint : bytes32) (w : W) :
    result PublishResult * W :=
  let '(r, w) := Prepare c workloadID hashVersion configHash incarnation signature fingerprint w in
  match r with
  | Err err => (Err err, w)
  | Ok p =>
      let '(r, w) := Send c (Some p) w in
      match r with
      | Err err => (Err err, w)
      | Ok sent =>
          match sr_Outcome sent with
          | SubmitUnknown =>
              (Ok {| pr_TxHash := pp_TxHash p; pr_Outcome := OutcomeUnknown;
                     pr_BlockNumber := 0; pr_GasUsed := 0 |}, w)
          | SubmitAccepted => let '(res, w) := Wait c (Some p) w in (Ok res, w)
          end
      end
  end.

(** ** Construction *)

Context `{EthLib W Tx} (RegistryABI RegistryV2ABI : string).

Definition NewReader (rpcURL contractAddr : string) : result Client :=
  match DialContext rpcURL with
  | Err err => Err (fmt_Errorf "chain: dial %q: %w" [ArgS rpcURL] (Some err))
  | Ok ec =>
      match abi_JSON RegistryABI with
      | Err err => Err (fmt_Errorf "chain: parse ABI: %w" [] (Some err))
      | Ok _ => Ok {| contract := ec; auth := false; address := HexToAddress contractAddr;
                      connected := true |}
      end
  end.

Definition trim_0x (s : string) : string :=
  match s with
  | String "0"%char (String "x"%char s') => s'
  | _ => s
  end.

Definition with_key (c : Client) (privHex : string) (chainID : Z) : result Client :=
  match HexToECDSA (trim_0x privHex) with
  | Err err => Err (fmt_Errorf "chain: parse testnet private key: %w" [] (Some err))
  | Ok key =>
      match NewKeyedTransactorWithChainID key chainID with
      | Err err => Err (fmt_Errorf "chain: build transactor: %w" [] (Some err))
      | Ok _ => Ok {| contract := contract c; auth := true; address := address c;
                      connected := connected c |}
      end
  end.

Definition NewWriter (rpcURL contractAddr privHex : string) (chainID : Z) : result Client :=
  c <-? NewReader rpcURL contractAddr;; with_key c privHex chainID.

Definition newClientV2 (backend : Backend W Tx) (addr : bytes) : result Client :=
  match abi_JSON RegistryV2ABI with
  | Err err => Err (fmt_Errorf "chain: parse v2 ABI: %w" [] (Some err))
  | Ok _ => Ok {| contract := backend; auth := false; address := addr; connected := false |}
  end.

Definition NewReaderV2 (rpcURL contractAddr : string) : result Client :=
  match DialContext rpcURL with
  | Err err => Err (fmt_Errorf "chain: dial %q: %w" [ArgS rpcURL] (Some err))
  | Ok ec =>
      c <-? newClientV2 ec (HexToAddress contractAddr);;
      Ok {| contract := contract c; auth := auth c; address := address c; connected := true |}
  end.

Definition NewWriterV2 (rpcURL contractAddr privHex : string) (chainID : Z) : result Client :=
  c <-? NewReaderV2 rpcURL contractAddr;; with_key c privHex chainID.
End Clients.

(** ** Decoding *)

Definition encode_v2 (a : AttestationV2) : list abi_value :=
  [ABytes32 (ConfigHash2 a); ABytes (Signature2 a); ABytes32 (SignerFingerprint2 a);
   ABytes32 (Incarnation2 a); AUint64 (BlockTimestamp2 a); AUint16 (HashVersion2 a);
   ABool (Exists2 a)].

Definition encode_v1 (a : Attestation) : list abi_value :=
  [ABytes32 (ConfigHash a); ABytes (Signature a); ABytes32 (SignerFingerprint a);
   AUint64 (BlockTimestamp a); AUint16 (HashVersion a); ABool (Exists a)].

Lemma assert_type_Ok {A} cast field v (a : A) : assert_type cast field v = Ok a ↔ cast v = Some a.
Proof. unfold assert_type. destruct (cast v); naive_solver. Qed.

Lemma decode_v2_Ok out a : decodeAttestationV2 out = Ok a ↔ out = encode_v2 a.
Proof.
  split; [|by intros ->; destruct a].
  unfold decodeAttestationV2. intros E. do 8 (destruct out as [|? out]; try done).
  repeat match type of E with
  | context [assert_type ?c ?f ?v] => destruct v; simpl in E; try done
  end.
  injection E as <-. done.
Qed.

Lemma decode_v1_Ok out a : decode_attestation out = Ok a ↔ out = encode_v1 a.
Proof.
  split; [|by intros ->; destruct a].
  unfold decode_attestation. intros E. do 7 (destruct out as [|? out]; try done).
  repeat match type of E with
  | context [assert_type ?c ?f ?v] => destruct v; simpl in E; try done
  end.
  injection E as <-. done.
Qed.

(** The client's view of a contract record. *)
Definition of_record (a : RegistryV2.Attestation) : AttestationV2 :=
  {| ConfigHash2 := RegistryV2.configHash a; Signature2 := RegistryV2.signature a;
     SignerFingerprint2 := RegistryV2.signerFingerprint a;
     Incarnation2 := RegistryV2.incarnation a; BlockTimestamp2 := RegistryV2.blockTimestamp a;
     HashVersion2 := RegistryV2.hashVersion a; Exists2 := RegistryV2.exists_ a |}.

Lemma decode_v2_record s id :
  decodeAttestationV2 (RegistryV2.getLatest s id) = Ok (of_record (RegistryV2.read s id)).
Proof. by apply decode_v2_Ok. Qed.

(** Decoding a v2 reply accepts exactly seven values of the declared types in the
    contract's return order, and every other reply is an error; on the contract's own
    reply it yields each field of the stored record under its own name, so no two of
    the four 32-byte words are transposed. *)
Theorem decodeAttestationV2_exact out :
  (∀ a, decodeAttestationV2 out = Ok a ↔ out = encode_v2 a) ∧
  (∀ s id, decodeAttestationV2 (RegistryV2.getLatest s id) = Ok (of_record (RegistryV2.read s id))).
Proof.
  split; [apply decode_v2_Ok|apply decode_v2_record].
Qed.

Definition of_record_v1 (a : RegistryV1.Attestation) : Attestation :=
  {| ConfigHash := RegistryV1.configHash a; Signature := RegistryV1.signature a;
     SignerFingerprint := RegistryV1.signerFingerprint a;
     BlockTimestamp := RegistryV1.blockTimestamp a; HashVersion := RegistryV1.hashVersion a;
     Exists := RegistryV1.exists_ a |}.

Lemma decode_v1_record s id :
  decode_attestation (RegistryV1.getLatest s id) = Ok (of_record_v1 (RegistryV1.read s id)).
Proof. by apply decode_v1_Ok. Qed.

(** ** Publishing *)

Section ClientFacts.
Context {W Tx : Type}.

Lemma Prepare_Ok (c : @Client W Tx) id v h inc sig fp w p w' :
  Prepare c id v h inc sig fp w = (Ok p, w') ↔
  auth c = true ∧ v ≠ 0 ∧ sig ≠ [] ∧ ∃ tx,
    eth_Transact (contract c) true "publish" (publish_args_v2 id v h inc sig fp) w = (Ok tx, w') ∧
    p = {| pp_TxHash := eth_Hash (contract c) tx; pp_tx := Some tx |}.
Proof.
  unfold Prepare. destruct (auth c); simpl; [|naive_solver].
  destruct (Z.eqb_spec v 0); [naive_solver|]. destruct (is_nil_spec sig); [naive_solver|].
  destruct (eth_Transact _ _ _ _ _) as [[tx|] w1]; naive_solver.
Qed.

(** C29: [Prepare] refuses exactly what the contract would refuse for its own reasons.
    With a signer configured and calldata sent by the publisher account: when the v2
    registry would revert, [Prepare] returns an error and makes no call; when it would
    not, [Prepare] succeeds exactly if the library builds the unsent transaction, with
    the arguments in the contract's order, and a failure is the library's own error,
    wrapped.  So calldata is refused without a failing call only if it would revert, and
    a prepared publication can only revert for a reason outside it.  The contract reverts
    exactly for version 0 (first) and for an empty signature, and otherwise stores the
    call's own fields. *)
Theorem Prepare_matches_contract (c : @Client W Tx) id v h inc sig fp w (s : RegistryV2.state) m :
  auth c = true → msg_sender m = RegistryV2.publisher s →
  let call := {| RegistryV2.workloadId := id; RegistryV2.a_hashVersion := v;
                 RegistryV2.a_configHash := h; RegistryV2.a_incarnation := inc;
                 RegistryV2.a_signature := sig; RegistryV2.a_signerFingerprint := fp |} in
  let built := eth_Transact (contract c) true "publish"
                 [ABytes32 id; AUint16 v; ABytes32 h; ABytes32 inc; ABytes sig; ABytes32 fp] w in
  let prepared := Prepare c id v h inc sig fp w in
  (∀ r, RegistryV2.publish m call s = inr r → (∃ e, prepared.1 = Err e) ∧ prepared.2 = w) ∧
  (∀ s', RegistryV2.publish m call s = inl s' →
     prepared.2 = built.2 ∧
     (∀ tx, built.1 = Ok tx → ∃ p, prepared.1 = Ok p ∧ pp_tx p = Some tx ∧
        pp_TxHash p = eth_Hash (contract c) tx) ∧
     (∀ e, built.1 = Err e →
        prepared.1 = Err (fmt_Errorf "chain: build publish tx: %w" [] (Some e)))) ∧
  (∀ r, RegistryV2.publish m call s = inr r ↔
     (v = 0 ∧ r = InvalidHashVersion) ∨ (v ≠ 0 ∧ sig = [] ∧ r = EmptySignature)) ∧
  (∀ s', RegistryV2.publish m call s = inl s' ↔
     v ≠ 0 ∧ sig ≠ [] ∧
     s' = {| RegistryV2.publisher := RegistryV2.publisher s;
             RegistryV2.latest :=
               <[id := {| RegistryV2.configHash := h; RegistryV2.signerFingerprint := fp;
                          RegistryV2.incarnation := inc; RegistryV2.signature := sig;
                          RegistryV2.blockTimestamp := uint64 (block_timestamp m);
                          RegistryV2.hashVersion := v; RegistryV2.exists_ := true |}]>
                 (RegistryV2.latest s) |}).
Proof.
  intros Ha Hm call built prepared.
  assert (Hpub : RegistryV2.publish m call s =
    if v =? 0 then inr InvalidHashVersion else if is_nil sig then inr EmptySignature
    else inl {| RegistryV2.publisher := RegistryV2.publisher s;
                RegistryV2.latest := <[id := RegistryV2.record_of m call]> (RegistryV2.latest s) |}).
  { unfold RegistryV2.publish. rewrite bool_decide_false by tauto. simpl. by destruct sig. }
  rewrite Hpub. unfold prepared, Prepare, RegistryV2.record_of. rewrite Ha. simpl.
  destruct (Z.eqb_spec v 0) as [Hv|Hv]; [naive_solver|].
  destruct (is_nil_spec sig) as [Hs|Hs]; [naive_solver|].
  change (publish_args_v2 id v h inc sig fp) with
    [ABytes32 id; AUint16 v; ABytes32 h; ABytes32 inc; ABytes sig; ABytes32 fp].
  fold built. destruct built as [[tx|e] w1]; naive_solver.
Qed.

(** How a publication may end. *)
Definition ends_as (c : @Client W Tx) (tx : Tx) (w1 : W) (o : PublishOutcome) (w' : W) : Prop :=
  (∃ e, eth_SendTransaction (contract c) tx w1 = (Some e, w') ∧ o = OutcomeUnknown) ∨
  (∃ w2, eth_SendTransaction (contract c) tx w1 = (None, w2) ∧
     ((∃ e, eth_WaitMined (contract c) tx w2 = (Err e, w') ∧ o = OutcomeUnknown) ∨
      (∃ rc, eth_WaitMined (contract c) tx w2 = (Ok rc, w') ∧
             o = if r_Status rc =? ReceiptStatusSuccessful
                 then OutcomeMinedSuccess else OutcomeReverted))).

(** C28: the outcome of a publication through a connected client (as the exported
    constructors build it) is what was observed and nothing more: success needs a receipt with status 1 and a revert a receipt with another status, both for
    the one transaction that was prepared; a lost send or a missing receipt is
    Unknown; and an error is returned only if nothing was handed to the node. *)
Theorem PublishAndWait_outcome (c : @Client W Tx) id v h inc sig fp w res w' :
  connected c = true →
  PublishAndWait c id v h inc sig fp w = (res, w') →
  match res with
  | Ok r => ∃ tx w1, eth_Transact (contract c) true "publish"
                       (publish_args_v2 id v h inc sig fp) w = (Ok tx, w1) ∧
              pr_TxHash r = eth_Hash (contract c) tx ∧ ends_as c tx w1 (pr_Outcome r) w'
  | Err e => Prepare c id v h inc sig fp w = (Err e, w')
  end.
Proof.
  intros Hc. unfold PublishAndWait.
  destruct (Prepare c id v h inc sig fp w) as [[p|e] w1] eqn:Ep; [|by intros [= <- <-]].
  apply Prepare_Ok in Ep as (_ & _ & _ & tx & Ht & ->). unfold Send, Wait, ends_as. simpl.
  rewrite Hc. simpl. destruct (eth_SendTransaction _ tx w1) as [[e|] w2] eqn:Es; simpl.
  - intros [= <- <-]. exists tx, w1. rewrite Es. split_and!; [done..|]. left. eauto.
  - destruct (eth_WaitMined (contract c) tx w2) as [[rc|e] w3] eqn:Ew; intros [= <- <-];
      exists tx, w1; rewrite Es; split_and!; try done; right; exists w2; split; [done| |done|];
      rewrite Ew; simpl; [right|left]; eauto.
Qed.
End ClientFacts.

Module ClientWitness.

(** A node that mines everything. *)
Definition node : Backend nat nat := {|
  eth_Transact _ _ _ w := (Ok w, S w);
  eth_Call _ _ w := (Ok [], w);
  eth_SendTransaction _ w := (None, w);
  eth_WaitMined _ w := (Ok {| r_Status := 1; r_BlockNumber := 7; r_GasUsed := 21000 |}, w);
  eth_Hash _ := "0x1"
|}.

Definition writer : @Client nat nat :=
  {| contract := node; auth := true; address := []; connected := true |}.

Definition registry : RegistryV2.state :=
  {| RegistryV2.publisher := [Byte.x01]; RegistryV2.latest := ∅ |}.

Lemma Prepare_matches_contract_witness :
  (∃ p, (Prepare writer zero32 2 zero32 zero32 [Byte.x30] zero32 0%nat).1 = Ok p ∧
        pp_tx p = Some 0%nat) ∧
  (Prepare writer zero32 2 zero32 zero32 [] zero32 0%nat).2 = 0%nat.
Proof.
  split.
  - destruct (Prepare_matches_contract writer zero32 2 zero32 zero32 [Byte.x30] zero32 0%nat
      registry {| msg_sender := [Byte.x01]; block_timestamp := 1 |}) as (_ & Hok & _ & _);
      [reflexivity..|].
    destruct (Hok _ eq_refl) as (_ & Htx & _). destruct (Htx 0%nat eq_refl) as (p & Hp & Hx & _).
    by exists p.
  - destruct (Prepare_matches_contract writer zero32 2 zero32 zero32 [] zero32 0%nat
      registry {| msg_sender := [Byte.x01]; block_timestamp := 1 |}) as (Hbad & _);
      [reflexivity..|]. by apply (Hbad EmptySignature).
Defined.

Lemma PublishAndWait_outcome_witness :
  ∃ tx w1, eth_Transact node true "publish"
             (publish_args_v2 zero32 2 zero32 zero32 [Byte.x30] zero32) 0%nat = (Ok tx, w1) ∧
    "0x1"%string = eth_Hash node tx ∧ ends_as writer tx w1 OutcomeMinedSuccess 1%nat.
Proof.
  apply (PublishAndWait_outcome writer zero32 2 zero32 zero32 [Byte.x30] zero32 0%nat
    (Ok {| pr_TxHash := "0x1"; pr_Outcome := OutcomeMinedSuccess; pr_BlockNumber := 7;
           pr_GasUsed := 21000 |}) 1%nat); reflexivity.
Defined.
End ClientWitness.
