(* ===== verification/Abi.v ===== *)
(** * The ABI constants (internal/chain/registry.go, registry_v2.go)

    The two JSON constants as data, and their agreement by name, position and type
    with the contracts' calls and return tuples and with what the clients send and
    decode. *)

From S2P Require Import Prelude Bytes Registry Client.

Open Scope Z_scope.

Record abi_param := Param { p_name : string; p_type : string }.

Inductive abi_entry :=
  | AbiFunction (name stateMutability : string) (inputs outputs : list abi_param)
  | AbiEvent (name : string) (anonymous : bool) (inputs : list (abi_param * bool)).

Definition bytes32_ (name : string) : abi_param := Param name "bytes32".
Definition bytes_ (name : string) : abi_param := Param name "bytes".
Definition uint16_ (name : string) : abi_param := Param name "uint16".
Definition uint64_ (name : string) : abi_param := Param name "uint64".
Definition bool_ (name : string) : abi_param := Param name "bool".
Definition address_ (name : string) : abi_param := Param name "address".

Definition RegistryABI : list abi_entry :=
  [AbiFunction "publish" "nonpayable"
     [bytes32_ "deploymentId"; uint16_ "hashVersion"; bytes32_ "configHash";
      bytes_ "signature"; bytes32_ "signerFingerprint"] [];
   AbiFunction "getLatest" "view" [bytes32_ "deploymentId"]
     [bytes32_ "configHash"; bytes_ "signature"; bytes32_ "signerFingerprint";
      uint64_ "blockTimestamp"; uint16_ "hashVersion"; bool_ "exists"];
   AbiEvent "AttestationPublished" false
     [(bytes32_ "deploymentId", true); (uint16_ "hashVersion", true);
      (bytes32_ "configHash", false); (bytes32_ "signerFingerprint", false);
      (uint64_ "blockTimestamp", false)]].

Definition RegistryV2ABI : list abi_entry :=
  [AbiEvent "AttestationPublished" false
     [(bytes32_ "workloadId", true); (uint16_ "hashVersion", true);
      (bytes32_ "configHash", false); (bytes32_ "incarnation", false);
      (bytes32_ "signerFingerprint", false); (bytes_ "signature", false);
      (uint64_ "blockTimestamp", false)];
   AbiFunction "getLatest" "view" [bytes32_ "workloadId"]
     [bytes32_ "configHash"; bytes_ "signature"; bytes32_ "signerFingerprint";
      bytes32_ "incarnation"; uint64_ "blockTimestamp"; uint16_ "hashVersion"; bool_ "exists"];
   AbiFunction "publish" "nonpayable"
     [bytes32_ "workloadId"; uint16_ "hashVersion"; bytes32_ "configHash";
      bytes32_ "incarnation"; bytes_ "signature"; bytes32_ "signerFingerprint"] [];
   AbiFunction "publisher" "view" [] [address_ EmptyString]].

(** The entry a call by name uses. *)
Definition entry_named (f : string) (e : abi_entry) : option (list abi_param * list abi_param) :=
  match e with
  | AbiFunction name _ ins outs => if bool_decide (name = f) then Some (ins, outs) else None
  | AbiEvent _ _ _ => None
  end.

Definition method (abi : list abi_entry) (f : string) : list abi_param * list abi_param :=
  default ([], []) (head (omap (entry_named f) abi)).

(** The ABI type of a value. *)
Definition abi_type (v : abi_value) : string :=
  match v with
  | ABytes32 _ => "bytes32"
  | ABytes _ => "bytes"
  | AUint64 _ => "uint64"
  | AUint16 _ => "uint16"
  | ABool _ => "bool"
  | AAddress _ => "address"
  end.

Definition well_typed (ps : list abi_param) (vs : list abi_value) : Prop :=
  map abi_type vs = map p_type ps.

(** The parameter of the contract's [publish] with this name, and the member of its
    record with this name. *)
Definition arg_v1 (c : RegistryV1.call) (name : string) : option abi_value :=
  match name with
  | "deploymentId" => Some (ABytes32 (RegistryV1.deploymentId c))
  | "hashVersion" => Some (AUint16 (RegistryV1.a_hashVersion c))
  | "configHash" => Some (ABytes32 (RegistryV1.a_configHash c))
  | "signature" => Some (ABytes (RegistryV1.a_signature c))
  | "signerFingerprint" => Some (ABytes32 (RegistryV1.a_signerFingerprint c))
  | _ => None
  end%string.

Definition arg_v2 (c : RegistryV2.call) (name : string) : option abi_value :=
  match name with
  | "workloadId" => Some (ABytes32 (RegistryV2.workloadId c))
  | "hashVersion" => Some (AUint16 (RegistryV2.a_hashVersion c))
  | "configHash" => Some (ABytes32 (RegistryV2.a_configHash c))
  | "incarnation" => Some (ABytes32 (RegistryV2.a_incarnation c))
  | "signature" => Some (ABytes (RegistryV2.a_signature c))
  | "signerFingerprint" => Some (ABytes32 (RegistryV2.a_signerFingerprint c))
  | _ => None
  end%string.

Definition member_v1 (a : RegistryV1.Attestation) (name : string) : option abi_value :=
  match name with
  | "configHash" => Some (ABytes32 (RegistryV1.configHash a))
  | "signature" => Some (ABytes (RegistryV1.signature a))
  | "signerFingerprint" => Some (ABytes32 (RegistryV1.signerFingerprint a))
  | "blockTimestamp" => Some (AUint64 (RegistryV1.blockTimestamp a))
  | "hashVersion" => Some (AUint16 (RegistryV1.hashVersion a))
  | "exists" => Some (ABool (RegistryV1.exists_ a))
  | _ => None
  end%string.

Definition member_v2 (a : RegistryV2.Attestation) (name : string) : option abi_value :=
  match name with
  | "configHash" => Some (ABytes32 (RegistryV2.configHash a))
  | "signature" => Some (ABytes (RegistryV2.signature a))
  | "signerFingerprint" => Some (ABytes32 (RegistryV2.signerFingerprint a))
  | "incarnation" => Some (ABytes32 (RegistryV2.incarnation a))
  | "blockTimestamp" => Some (AUint64 (RegistryV2.blockTimestamp a))
  | "hashVersion" => Some (AUint16 (RegistryV2.hashVersion a))
  | "exists" => Some (ABool (RegistryV2.exists_ a))
  | _ => None
  end%string.

Definition by_name (f : string → option abi_value) (ps : list abi_param) :
    list (option abi_value) :=
  map (f ∘ p_name) ps.

(** Well-typed replies are the decodable ones. *)
Lemma decodable_v2 out :
  is_ok (decodeAttestationV2 out) = true ↔ well_typed (method RegistryV2ABI "getLatest").2 out.
Proof.
  split.
  - destruct (decodeAttestationV2 out) as [a|] eqn:E; [|done]. intros _.
    apply decode_v2_Ok in E as ->. done.
  - intros E. change (map abi_type out = ["bytes32"; "bytes"; "bytes32"; "bytes32"; "uint64";
      "uint16"; "bool"]%string) in E.
    do 7 (destruct out as [|[] out]; simplify_eq/=). destruct out; [done|discriminate E].
Qed.

Lemma decodable_v1 out :
  is_ok (decode_attestation out) = true ↔ well_typed (method RegistryABI "getLatest").2 out.
Proof.
  split.
  - destruct (decode_attestation out) as [a|] eqn:E; [|done]. intros _.
    apply decode_v1_Ok in E as ->. done.
  - intros E. change (map abi_type out = ["bytes32"; "bytes"; "bytes32"; "uint64"; "uint16";
      "bool"]%string) in E.
    do 6 (destruct out as [|[] out]; simplify_eq/=). destruct out; [done|discriminate E].
Qed.

(** C31: the v2 ABI constant, the contract and the client agree by name, position and
    type: the client sends the contract's parameters in the order the constant
    declares, the contract's reply is its record's members in the declared order, and
    the decoder accepts exactly the replies of the declared types, giving back the
    record. *)
Theorem abi_v2_agrees :
  (∀ c, map Some (publish_args_v2 (RegistryV2.workloadId c) (RegistryV2.a_hashVersion c)
          (RegistryV2.a_configHash c) (RegistryV2.a_incarnation c) (RegistryV2.a_signature c)
          (RegistryV2.a_signerFingerprint c)) =
        by_name (arg_v2 c) (method RegistryV2ABI "publish").1) ∧
  (∀ id v h inc sig fp,
     well_typed (method RegistryV2ABI "publish").1 (publish_args_v2 id v h inc sig fp)) ∧
  (∀ s id, map Some (RegistryV2.getLatest s id) =
     by_name (member_v2 (RegistryV2.read s id)) (method RegistryV2ABI "getLatest").2) ∧
  (∀ out, is_ok (decodeAttestationV2 out) = true ↔
     well_typed (method RegistryV2ABI "getLatest").2 out) ∧
  (∀ s id, decodeAttestationV2 (RegistryV2.getLatest s id) = Ok (of_record (RegistryV2.read s id))).
Proof.
  split_and!; [done..|exact decodable_v2|]. intros s id. by apply decode_v2_Ok.
Qed.

(** The same for v1. *)
Lemma abi_v1_agrees :
  (∀ c, map Some (publish_args_v1 (RegistryV1.deploymentId c) (RegistryV1.a_hashVersion c)
          (RegistryV1.a_configHash c) (RegistryV1.a_signature c)
          (RegistryV1.a_signerFingerprint c)) =
        by_name (arg_v1 c) (method RegistryABI "publish").1) ∧
  (∀ s id, map Some (RegistryV1.getLatest s id) =
     by_name (member_v1 (RegistryV1.read s id)) (method RegistryABI "getLatest").2) ∧
  (∀ out, is_ok (decode_attestation out) = true ↔
     well_typed (method RegistryABI "getLatest").2 out).
Proof. split_and!; [done..|exact decodable_v1]. Qed.
