(* ===== verification/Validate.v ===== *)
(** * Start-up validation of the chain (internal/chain/validate.go, registry_v2_runtime.go)

    Everything [Validate] establishes before the operator publishes: a strict
    address, the chain id, and that the code at the address is the registry compiled
    for the publisher it reports.  The runtime template is the pinned one. *)

From S2P Require Import Prelude Bytes GoText Registry Client.
From Stdlib Require Import Strings.Ascii.

Open Scope Z_scope.

(** ** registry_v2_runtime.go *)

Record ImmutableRef := { Start : Z; Length : Z }.

Definition RegistryV2PublisherImmutables : list ImmutableRef :=
  [{| Start := 122; Length := 32 |}; {| Start := 468; Length := 32 |}].

Definition RegistryV2SolcVersion : string := "0.8.24+commit.e11b9ed9".

Definition RegistryV2DeployedTemplate : string := String.concat EmptyString
  [
   "608060405234801561001057600080fd5b50600436106100415760003560e01c806328a667021461";
   "00465780638c72c54e14610075578063f3889782146100b4575b600080fd5b610059610054366004";
   "6103c1565b6100c9565b60405161006c97969594939291906103da565b60405180910390f35b6100";
   "9c7f000000000000000000000000000000000000000000000000000000000000000081565b604051";
   "6001600160a01b03909116815260200161006c565b6100c76100c236600461046e565b6101c9565b";
   "005b6000818152602081905260408120805460018201546002830154600484015460038501805460";
   "609688968796879687968796949593949367ffffffffffffffff821691600160401b810461ffff16";
   "91600160501b90910460ff1690869061012f90610521565b80601f01602080910402602001604051";
   "9081016040528092919081815260200182805461015b90610521565b80156101a85780601f106101";
   "7d576101008083540402835291602001916101a8565b820191906000526020600020905b81548152";
   "906001019060200180831161018b57829003601f168201915b505050505095509750975097509750";
   "97509750975050919395979092949650565b336001600160a01b037f000000000000000000000000";
   "0000000000000000000000000000000000000000161461021257604051633664441d60e11b815260";
   "040160405180910390fd5b8561ffff16600003610237576040516305f3193f60e51b815260040160";
   "405180910390fd5b60008290036102595760405163ac241e1160e01b815260040160405180910390";
   "fd5b60004290506040518060e0016040528087815260200183815260200186815260200185858080";
   "601f0160208091040260200160405190810160405280939291908181526020018383808284376000";
   "92018290525093855250505067ffffffffffffffff841660208084019190915261ffff8b16604080";
   "850191909152600160609485018190528d8452838352928190208551815591850151928201929092";
   "5590830151600282015590820151600382019061031490826105c2565b5060808201516004919091";
   "01805460a084015160c09094015167ffffffffffffffff90931669ffffffffffffffffffff199091";
   "1617600160401b61ffff948516021760ff60501b1916600160501b92151592909202919091179055";
   "6040519088169089907f9a434bccf0a4bd47bedbcfedc441f2f1eed2daa2e0dfac2d1d824b96da68";
   "5bbd906103af908a908a9088908b908b908a90610682565b60405180910390a35050505050505050";
   "565b6000602082840312156103d357600080fd5b5035919050565b8781526000602060e060208401";
   "5288518060e085015260005b81811015610410578a8101830151858201610100015282016103f356";
   "5b506101009150600082828601015281601f19601f83011685010192505050866040830152856060";
   "830152610450608083018667ffffffffffffffff169052565b61ffff841660a083015282151560c0";
   "83015298975050505050505050565b600080600080600080600060c0888a03121561048957600080";
   "fd5b87359650602088013561ffff811681146104a257600080fd5b95506040880135945060608801";
   "359350608088013567ffffffffffffffff808211156104cd57600080fd5b818a0191508a601f8301";
   "126104e157600080fd5b8135818111156104f057600080fd5b8b6020828501011115610502576000";
   "80fd5b60208301955080945050505060a0880135905092959891949750929550565b600181811c90";
   "82168061053557607f821691505b60208210810361055557634e487b7160e01b6000526022600452";
   "60246000fd5b50919050565b634e487b7160e01b600052604160045260246000fd5b601f82111561";
   "05bd576000816000526020600020601f850160051c8101602086101561059a5750805b601f850160";
   "051c820191505b818110156105b9578281556001016105a6565b5050505b505050565b815167ffff";
   "ffffffffffff8111156105dc576105dc61055b565b6105f0816105ea8454610521565b8461057156";
   "5b602080601f831160018114610625576000841561060d5750858301515b600019600386901b1c19";
   "16600185901b1785556105b9565b600085815260208120601f198616915b82811015610654578886";
   "01518255948401946001909101908401610635565b50858210156106725787850151600019600388";
   "901b60f8161c191681555b5050505050600190811b01905550565b86815285602082015284604082";
   "015260a060608201528260a0820152828460c0830137600060c08483010152600060c0601f19601f";
   "860116830101905067ffffffffffffffff8316608083015297965050505050505056fea264697066";
   "735822122067ba413c09e33e478adf0e7b8bf199910a9df34a5c80f0a1d006c92d7964cb0a64736f";
   "6c63430008180033"
  ]%string.

(** ** validate.go *)

Record Config := {
  RPCURL : string;
  ContractAddress : string;
  ChainID : Z;
  PrivateKeyHex : string
}.

Record ValidationReport := {
  rep_ChainID : Z;
  rep_Contract : bytes;
  rep_Publisher : bytes;
  rep_Signer : bytes
}.

Definition ErrConfigInvalid : error := errors_New "chain: invalid configuration".
Definition ErrChainUnreachable : error := errors_New "chain: RPC unreachable".
Definition ErrChainIDMismatch : error :=
  errors_New "chain: RPC reports a different chain id than configured".
Definition ErrNoContractCode : error :=
  errors_New "chain: no contract code at the configured address".
Definition ErrCodeMismatch : error :=
  errors_New "chain: deployed code is not the expected registry".
Definition ErrPublisherMismatch : error :=
  errors_New "chain: contract publisher is not the configured account".

Definition AddressLength : Z := 20.

Definition is_hex (c : ascii) : bool := match hex_value c with Some _ => true | None => false end.

(** [^0x[0-9a-fA-F]{40}$] *)
Definition hexAddress (s : string) : bool :=
  match String.list_ascii_of_string s with
  | z :: x :: ds =>
      bool_decide (z = "0"%char) && bool_decide (x = "x"%char) &&
      (length ds =? 40)%nat && forallb is_hex ds
  | _ => false
  end.

(** A parsed URL, as far as the code looks. *)
Record URL := { u_Scheme : string; u_Host : string }.

(** net/url and go-ethereum, as far as the code uses them. *)
Class ChainLib := {
  url_Parse : string → result URL;
  lib_HexToAddress : string → bytes;
  lib_PrivateKey : Type;
  lib_HexToECDSA : string → result lib_PrivateKey;
  PubkeyToAddress : lib_PrivateKey → bytes
}.

Section Validate.
Context `{ChainLib}.

Definition ParseAddress (s : string) : result bytes :=
  if negb (hexAddress s) then
    Err (fmt_Errorf "%w: address %q is not 0x followed by 40 hex digits" [ArgS s]
           (Some ErrConfigInvalid))
  else
    let addr := lib_HexToAddress s in
    if bool_decide (addr = zero_address) then
      Err (fmt_Errorf "%w: address is the zero address" [] (Some ErrConfigInvalid))
    else Ok addr.

Definition zero_report : ValidationReport :=
  {| rep_ChainID := 0; rep_Contract := zero_address; rep_Publisher := zero_address;
     rep_Signer := zero_address |}.

Definition supported_scheme (s : string) : bool :=
  bool_decide (s ∈ ["http"; "https"; "ws"; "wss"]%string).

(** The report is returned with every error, filled in as far as validation got. *)
Definition ValidateConfig (cfg : Config) : ValidationReport * option error :=
  let rep := zero_report in
  if bool_decide (RPCURL cfg = EmptyString) then
    (rep, Some (fmt_Errorf "%w: RPC URL is empty" [] (Some ErrConfigInvalid)))
  else
    let bad_url := fmt_Errorf "%w: RPC URL %q is not a valid absolute URL" [ArgS (RPCURL cfg)]
                     (Some ErrConfigInvalid) in
    match url_Parse (RPCURL cfg) with
    | Err _ => (rep, Some bad_url)
    | Ok u =>
        if bool_decide (u_Scheme u = EmptyString) || bool_decide (u_Host u = EmptyString)
        then (rep, Some bad_url)
        else if negb (supported_scheme (u_Scheme u)) then
          (rep, Some (fmt_Errorf "%w: RPC URL scheme %q is not supported" [ArgS (u_Scheme u)]
                        (Some ErrConfigInvalid)))
        else
          match ParseAddress (ContractAddress cfg) with
          | Err err => (rep, Some err)
          | Ok addr =>
              let rep := {| rep_ChainID := 0; rep_Contract := addr;
                            rep_Publisher := zero_address; rep_Signer := zero_address |} in
              if ChainID cfg <=? 0 then
                (rep, Some (fmt_Errorf "%w: chain id must be positive, got %d"
                              [ArgZ (ChainID cfg)] (Some ErrConfigInvalid)))
              else
                let rep := {| rep_ChainID := ChainID cfg; rep_Contract := addr;
                              rep_Publisher := zero_address; rep_Signer := zero_address |} in
                if bool_decide (PrivateKeyHex cfg = EmptyString) then (rep, None)
                else
                  match lib_HexToECDSA (trim_0x (PrivateKeyHex cfg)) with
                  | Err _ =>
                      (rep, Some (fmt_Errorf "%w: private key is not a valid secp256k1 key" []
                                    (Some ErrConfigInvalid)))
                  | Ok key =>
                      ({| rep_ChainID := ChainID cfg; rep_Contract := addr;
                          rep_Publisher := zero_address; rep_Signer := PubkeyToAddress key |},
                       None)
                  end
          end
    end.

(** One immutable slot: zeroes, with the address in the low 20 bytes. *)
Definition splice_slot (out : bytes) (ref : ImmutableRef) (publisher : bytes) : bytes :=
  take (Z.to_nat (Start ref)) out ++
  replicate (Z.to_nat (Length ref - AddressLength)) Byte.x00 ++ publisher ++
  drop (Z.to_nat (Start ref + Length ref)) out.

Fixpoint splice_refs (refs : list ImmutableRef) (publisher : bytes) (out : bytes) :
    result bytes :=
  match refs with
  | [] => Ok out
  | ref :: refs =>
      if (Start ref <? 0) || (Length ref <=? 0) ||
         (Z.of_nat (length out) <? Start ref + Length ref) then
        Err (fmt_Errorf "chain: immutable reference %+v is outside the runtime"
               [ArgZ (Start ref); ArgZ (Length ref)] None)
      else if Length ref <? AddressLength then
        Err (fmt_Errorf "chain: immutable slot of %d bytes cannot hold an address"
               [ArgZ (Length ref)] None)
      else splice_refs refs publisher (splice_slot out ref publisher)
  end.

Definition ExpectedRuntime (publisher : bytes) : result bytes :=
  match hex_decode (trim_0x RegistryV2DeployedTemplate) with
  | None => Err (fmt_Errorf "chain: pinned runtime template is not hex: %w" []
                   (Some (errors_New "encoding/hex: invalid byte")))
  | Some tmpl => splice_refs RegistryV2PublisherImmutables publisher tmpl
  end.

(** What the RPC endpoint answers during one validation. *)
Record Endpoint := {
  ep_dial : result unit;
  ep_ChainID : result Z;
  ep_CodeAt : bytes → result bytes;
  ep_publisher : bytes → result (list abi_value)
}.

Definition readPublisher (ec : Endpoint) (addr : bytes) : result bytes :=
  out <-? ep_publisher ec addr;;
  match out with
  | [AAddress addrOut] => Ok addrOut
  | [v] => Err (fmt_Errorf "publisher() returned %T, want an address" [ArgS (go_type v)] None)
  | _ => Err (fmt_Errorf "publisher() returned %d values, want 1"
                [ArgZ (Z.of_nat (length out))] None)
  end.

Definition set_publisher (rep : ValidationReport) (p : bytes) : ValidationReport :=
  {| rep_ChainID := rep_ChainID rep; rep_Contract := rep_Contract rep; rep_Publisher := p;
     rep_Signer := rep_Signer rep |}.

Definition check_code (cfg : Config) (requireSigner : bool) (ec : Endpoint)
    (rep : ValidationReport) (code : bytes) : ValidationReport * option error :=
  match readPublisher ec (rep_Contract rep) with
  | Err err =>
      (rep, Some (fmt_Errorf "%w: contract does not answer publisher(): %v" [ArgE err]
                    (Some ErrCodeMismatch)))
  | Ok publisher =>
      let rep := set_publisher rep publisher in
      match ExpectedRuntime publisher with
      | Err err => (rep, Some err)
      | Ok expected =>
          if negb (bool_decide (code = expected)) then
            (rep, Some (fmt_Errorf "%w: %s runs %d bytes that do not match the registry compiled by solc %s (expected %d bytes)"
               [ArgB (rep_Contract rep); ArgZ (Z.of_nat (length code));
                ArgS RegistryV2SolcVersion; ArgZ (Z.of_nat (length expected))]
               (Some ErrCodeMismatch)))
          else if requireSigner && negb (bool_decide (publisher = rep_Signer rep)) then
            (rep, Some (fmt_Errorf "%w: contract publisher is %s, this operator signs as %s"
               [ArgB publisher; ArgB (rep_Signer rep)] (Some ErrPublisherMismatch)))
          else (rep, None)
      end
  end.

Definition ValidateChain (cfg : Config) (requireSigner : bool) (ec : Endpoint) :
    ValidationReport * option error :=
  let '(rep, err) := ValidateConfig cfg in
  match err with
  | Some err => (rep, Some err)
  | None =>
      if requireSigner && bool_decide (PrivateKeyHex cfg = EmptyString) then
        (rep, Some (fmt_Errorf "%w: a signing key is required to publish" []
                      (Some ErrConfigInvalid)))
      else
        match ep_dial ec with
        | Err err => (rep, Some (fmt_Errorf "%w: %v" [ArgE err] (Some ErrChainUnreachable)))
        | Ok _ =>
            match ep_ChainID ec with
            | Err err => (rep, Some (fmt_Errorf "%w: %v" [ArgE err] (Some ErrChainUnreachable)))
            | Ok observed =>
                if negb (observed =? ChainID cfg) then
                  (rep, Some (fmt_Errorf "%w: configured %d, RPC reports %s"
                     [ArgZ (ChainID cfg); ArgZ observed] (Some ErrChainIDMismatch)))
                else
                  match ep_CodeAt ec (rep_Contract rep) with
                  | Err err =>
                      (rep, Some (fmt_Errorf "%w: reading code: %v" [ArgE err]
                                    (Some ErrChainUnreachable)))
                  | Ok code =>
                      if is_nil code then
                        (rep, Some (fmt_Errorf "%w: %s holds no code (an account, or the wrong address)"
                           [ArgB (rep_Contract rep)] (Some ErrNoContractCode)))
                      else check_code cfg requireSigner ec rep code
                  end
            end
        end
  end.
End Validate.

(** ** The expected runtime *)

Definition template : bytes := Eval vm_compute in
  default [] (hex_decode (trim_0x RegistryV2DeployedTemplate)).

(** An address as a 32-byte word. *)
Definition address_word (p : bytes) : bytes := replicate 12 Byte.x00 ++ p.

Definition runtime_of (p : bytes) : bytes :=
  take 122 template ++ address_word p ++ take 314 (drop 154 template) ++ address_word p ++
  drop 500 template.

Lemma template_decoded : hex_decode (trim_0x RegistryV2DeployedTemplate) = Some template.
Proof. vm_compute. reflexivity. Qed.

Lemma ExpectedRuntime_layout p : length p = 20%nat → ExpectedRuntime p = Ok (runtime_of p).
Proof.
  intros Hp. unfold ExpectedRuntime. rewrite template_decoded.
  do 21 (destruct p as [|? p]; [try discriminate Hp|]); [|discriminate Hp].
  vm_compute. reflexivity.
Qed.

(** C23: for every publisher address the expected code exists and is the pinned
    template with that address, as a zero-padded word, at both immutable offsets and
    unchanged everywhere else; so two registries built for different publishers never
    have the same expected code, and a code match pins the account that may write. *)
Theorem ExpectedRuntime_exact p p' :
  length p = 20%nat → length p' = 20%nat →
  ExpectedRuntime p = Ok (runtime_of p) ∧ length (runtime_of p) = length template ∧
  (ExpectedRuntime p = ExpectedRuntime p' → p = p').
Proof.
  intros Hp Hp'. rewrite !ExpectedRuntime_layout by done. split_and!; [done| |].
  - unfold runtime_of, address_word. rewrite !length_app, !length_replicate, Hp.
    vm_compute. reflexivity.
  - intros E%(inj Ok). unfold runtime_of, address_word in E. apply app_inv_head in E.
    rewrite <- !app_assoc in E. apply app_inv_head in E.
    apply app_eq_length in E as [E _]; [done|congruence].
Qed.

#[global] Opaque ExpectedRuntime.

(** ** What validation establishes *)

Section ValidateFacts.
Context `{ChainLib}.

(** The configuration alone. *)
Definition config_ok (cfg : Config) (rep : ValidationReport) : Prop :=
  (∃ u, url_Parse (RPCURL cfg) = Ok u ∧ u_Host u ≠ EmptyString ∧
        supported_scheme (u_Scheme u) = true) ∧
  RPCURL cfg ≠ EmptyString ∧
  hexAddress (ContractAddress cfg) = true ∧
  rep_Contract rep = lib_HexToAddress (ContractAddress cfg) ∧
  rep_Contract rep ≠ zero_address ∧
  0 < ChainID cfg ∧ rep_ChainID rep = ChainID cfg ∧
  (PrivateKeyHex cfg = EmptyString ∧ rep_Signer rep = zero_address ∨
   ∃ key, PrivateKeyHex cfg ≠ EmptyString ∧
     lib_HexToECDSA (trim_0x (PrivateKeyHex cfg)) = Ok key ∧
     rep_Signer rep = PubkeyToAddress key).

Lemma ParseAddress_Ok s a :
  ParseAddress s = Ok a ↔
  hexAddress s = true ∧ a = lib_HexToAddress s ∧ a ≠ zero_address.
Proof.
  unfold ParseAddress. destruct (hexAddress s); simpl; [|naive_solver].
  case_bool_decide; naive_solver.
Qed.

(** A branch that returns an error satisfies no report. *)
Local Ltac rejected :=
  split; [done|];
  intros [((u' & Hu' & Hh' & Hs') & Hr' & Ha' & Hc' & Hz' & Hn' & Hi' & Hk') Hp'];
  simplify_eq; try congruence; try lia.

Lemma ValidateConfig_ok cfg rep :
  ValidateConfig cfg = (rep, None) ↔ config_ok cfg rep ∧ rep_Publisher rep = zero_address.
Proof.
  unfold ValidateConfig, config_ok. case_bool_decide as Hr; [rejected|].
  destruct (url_Parse (RPCURL cfg)) as [u|] eqn:Hu; [|rejected].
  destruct (decide (u_Scheme u = EmptyString)) as [Es|Es].
  { rewrite (bool_decide_true _ Es). simpl. rejected. by rewrite Es in Hs'. }
  rewrite (bool_decide_false _ Es). simpl. case_bool_decide as Eh; [rejected|].
  destruct (supported_scheme (u_Scheme u)) eqn:Hs; simpl; [|rejected].
  destruct (ParseAddress (ContractAddress cfg)) as [a|] eqn:Ea.
  2: { rejected. assert (Hok : ParseAddress (ContractAddress cfg) = Ok (rep_Contract rep))
         by (by apply ParseAddress_Ok). congruence. }
  apply ParseAddress_Ok in Ea as (Hh & Ha & Hz).
  destruct (Z.leb_spec (ChainID cfg) 0) as [Hn|Hn]; [rejected|].
  case_bool_decide as Hk; [|destruct (lib_HexToECDSA _) as [key|] eqn:Ek].
  - split; [intros [= <-]; simpl; eauto 20|]. destruct rep. simpl.
    intros [(_ & _ & _ & -> & _ & _ & -> & [[_ ->]|(k' & ? & _)]) ->]; [by subst|done].
  - split; [intros [= <-]; simpl; split_and!; eauto 20|]. destruct rep. simpl.
    intros [(_ & _ & _ & -> & _ & _ & -> & [[? _]|(k' & _ & [= <-] & ->)]) ->]; [done|by subst].
  - rejected. destruct Hk' as [[? _]|(k' & _ & ? & _)]; done.
Qed.

(** The chain, given a valid configuration. *)
Definition chain_ok (cfg : Config) (requireSigner : bool) (ec : Endpoint)
    (rep : ValidationReport) : Prop :=
  ep_dial ec = Ok tt ∧ ep_ChainID ec = Ok (ChainID cfg) ∧
  (∃ code, ep_CodeAt ec (rep_Contract rep) = Ok code ∧ code ≠ [] ∧
           ExpectedRuntime (rep_Publisher rep) = Ok code) ∧
  readPublisher ec (rep_Contract rep) = Ok (rep_Publisher rep) ∧
  (requireSigner = true → PrivateKeyHex cfg ≠ EmptyString ∧ rep_Publisher rep = rep_Signer rep).

Lemma check_code_ok cfg rs ec rep code rep' :
  check_code cfg rs ec rep code = (rep', None) ↔
  ∃ p, readPublisher ec (rep_Contract rep) = Ok p ∧ ExpectedRuntime p = Ok code ∧
    rep' = set_publisher rep p ∧ (rs = true → p = rep_Signer rep).
Proof.
  unfold check_code. destruct (readPublisher _ _) as [p|]; [|by split; [|intros (p & ? & _)]].
  destruct (ExpectedRuntime p) as [b|] eqn:Eb.
  2: { split; [done|]. intros (p' & [= <-] & ? & _). congruence. }
  case_bool_decide as Hc; simpl.
  2: { split; [done|]. intros (p' & [= <-] & ? & _). congruence. }
  subst b. destruct rs; simpl; [case_bool_decide as Hs; simpl|].
  - split; [intros [= <-]; eauto 10|by intros (p' & [= <-] & _ & -> & _)].
  - split; [done|]. intros (p' & [= <-] & _ & _ & Hp). by destruct Hs; apply Hp.
  - split; [intros [= <-]; exists p; split_and!; try done; congruence|].
    by intros (p' & [= <-] & _ & -> & _).
Qed.

(** C24: start-up validation succeeds exactly when the configuration is well formed (an
    absolute http(s)/ws(s) URL, a strict non-zero address, a positive chain id, a
    parseable key if there is one), the endpoint is on the configured chain, the code
    at the address is byte for byte the registry compiled for the publisher the
    contract reports, and, for a writer, that publisher is the operator's account. *)
Theorem Validate_chain_exact cfg requireSigner ec rep :
  ValidateChain cfg requireSigner ec = (rep, None) ↔
  config_ok cfg rep ∧ chain_ok cfg requireSigner ec rep.
Proof.
  unfold ValidateChain, chain_ok. destruct (ValidateConfig cfg) as [rep0 err] eqn:E0. split.
  - intros E. destruct err; [done|]. apply ValidateConfig_ok in E0 as [Hc Hp].
    destruct (requireSigner && _) eqn:Er; [done|].
    destruct (ep_dial ec) as [[]|]; [|done]. destruct (ep_ChainID ec) as [obs|]; [|done].
    destruct (Z.eqb_spec obs (ChainID cfg)) as [Eobs|]; [|done]. simpl in E.
    destruct (ep_CodeAt ec _) as [code|] eqn:Ec; [|done].
    destruct (is_nil_spec code) as [|Hn]; [done|].
    apply check_code_ok in E as (p & Hr & Hx & -> & Hs). simpl. rewrite Eobs. split_and!; [done..| | |].
    + exists code. auto.
    + exact Hr.
    + intros ->. simpl in Er. split; [by apply bool_decide_eq_false_1 in Er|by apply Hs].
  - intros (Hc & Hd & Hi & (code & Ec & Hn & Hx) & Hr & Hs).
    assert (E1 : ValidateConfig cfg = (set_publisher rep zero_address, None)).
    { apply ValidateConfig_ok. by split. }
    rewrite E0 in E1. injection E1 as -> ->. simpl.
    assert (Er : requireSigner && bool_decide (PrivateKeyHex cfg = EmptyString) = false).
    { destruct requireSigner; [|done]. apply bool_decide_eq_false_2, Hs. done. }
    rewrite Er, Hd, Hi, Z.eqb_refl. simpl. rewrite Ec. destruct (is_nil_spec code) as [El|_]; [by destruct (Hn El)|].
    apply check_code_ok. exists (rep_Publisher rep). simpl.
    split_and!; [exact Hr|exact Hx|by destruct rep|]. intros Hrs. by apply Hs.
Qed.

(** Configuration errors reveal nothing of the key: two configurations that
    differ only in the private key fail with the same error whenever both fail. *)
Theorem ValidateConfig_key_free cfg cfg' rep rep' e e' :
  RPCURL cfg = RPCURL cfg' → ContractAddress cfg = ContractAddress cfg' →
  ChainID cfg = ChainID cfg' →
  ValidateConfig cfg = (rep, Some e) → ValidateConfig cfg' = (rep', Some e') →
  e = e' ∧ rep = rep'.
Proof.
  unfold ValidateConfig. intros -> -> ->. case_bool_decide; [naive_solver|].
  destruct (url_Parse _); [|naive_solver]. destruct (_ || _); [naive_solver|].
  destruct (supported_scheme _); simpl; [|naive_solver].
  destruct (ParseAddress _); [|naive_solver]. destruct (_ <=? 0); [naive_solver|].
  case_bool_decide; [done|]. case_bool_decide; [done|].
  destruct (lib_HexToECDSA (trim_0x (PrivateKeyHex cfg))); [done|].
  destruct (lib_HexToECDSA _); [done|]. intros [= <- <-] [= <- <-]. done.
Qed.
End ValidateFacts.

Module ValidateWitness.

(** A library that reads addresses by their digits and keys by their text. *)
#[local] Instance toy_lib : ChainLib := {|
  url_Parse s := Ok {| u_Scheme := "https"; u_Host := s |};
  lib_HexToAddress s := default zero_address (hex_decode (trim_0x s));
  lib_PrivateKey := string;
  lib_HexToECDSA s := if bool_decide (s = "bad"%string) then Err (errors_New "invalid") else Ok s;
  PubkeyToAddress _ := replicate 20 Byte.x11
|}.

Definition cfg (key : string) : Config :=
  {| RPCURL := "https://rpc.example"; ContractAddress := "0x2222222222222222222222222222222222222222";
     ChainID := 11155111; PrivateKeyHex := key |}.

Definition operator : bytes := replicate 20 Byte.x11.

Definition good_endpoint : Endpoint :=
  {| ep_dial := Ok tt; ep_ChainID := Ok 11155111;
     ep_CodeAt _ := Ok (runtime_of operator);
     ep_publisher _ := Ok [AAddress operator] |}.

Definition good_report : ValidationReport :=
  {| rep_ChainID := 11155111; rep_Contract := replicate 20 Byte.x22;
     rep_Publisher := operator; rep_Signer := operator |}.

Lemma ExpectedRuntime_exact_witness : ExpectedRuntime operator = Ok (runtime_of operator).
Proof. apply (ExpectedRuntime_exact operator operator); reflexivity. Defined.

Lemma Validate_chain_exact_witness : chain_ok (cfg "k") true good_endpoint good_report.
Proof.
  apply (proj1 (Validate_chain_exact (cfg "k") true good_endpoint good_report)).
  vm_compute. reflexivity.
Defined.

Lemma ValidateConfig_key_free_witness : ∃ e rep, ValidateConfig (cfg "bad") = (rep, Some e) ∧ e = e.
Proof.
  destruct (ValidateConfig (cfg "bad")) as [rep [e|]] eqn:E; [|exfalso; revert E; vm_compute; discriminate].
  exists e, rep. split; [done|].
  apply (ValidateConfig_key_free (cfg "bad") (cfg "bad") rep rep e e); done.
Defined.

(** The same code built for another account is refused. *)
Example other_publisher_refused :
  (ValidateChain (cfg "k") false
     {| ep_dial := Ok tt; ep_ChainID := Ok 11155111;
        ep_CodeAt _ := Ok (runtime_of (replicate 20 Byte.x33));
        ep_publisher _ := Ok [AAddress operator] |}).2 ≠ None.
Proof. vm_compute. discriminate. Qed.
End ValidateWitness.
