(* ===== verification/WorkQueue.v ===== *)
(** * The rate-limiting work queue (k8s.io/client-go/util/workqueue)

    What the publishers rely on: which items are still to be handed out, at once or
    after a back-off, and that [Get] hands out something as long as anything is left.  An
    item may be both ready and waiting out a back-off, and is then handed out twice; a
    queue holds at most these two entries of an item.  Once it is shut down a queue takes
    nothing more and hands out what is ready. *)

From S2P Require Import Prelude.

(** The calls the publishers make. *)
Class QueueOps (I Q : Type) := {
  q_Add : I → Q → Q;
  q_AddRateLimited : I → Q → Q;
  q_Forget : I → Q → Q;
  q_Done : I → Q → Q;
  q_Get : Q → option (I * Q)
}.

(** A queue that is open. *)
Class WorkQueue (I Q : Type) `{Countable I} := {
  wq_ops :: QueueOps I Q;
  todo : Q → gset I;
  todo_Add i q : todo (q_Add i q) = {[i]} ∪ todo q;
  todo_AddRateLimited i q : todo (q_AddRateLimited i q) = {[i]} ∪ todo q;
  todo_Forget i q : todo (q_Forget i q) = todo q;
  todo_Done i q : todo (q_Done i q) = todo q;
  (** Other entries of the item may be left. *)
  todo_Get q i q' : q_Get q = Some (i, q') → todo q = {[i]} ∪ todo q';
  todo_Get_None q : q_Get q = None → todo q = ∅;
  (** The number of entries, ready and waiting. *)
  load : Q → nat;
  load_Add i q : (load (q_Add i q) ≤ S (load q))%nat;
  load_AddRateLimited i q : (load (q_AddRateLimited i q) ≤ S (load q))%nat;
  load_Forget i q : load (q_Forget i q) = load q;
  load_Done i q : load (q_Done i q) = load q;
  load_Get q i q' : q_Get q = Some (i, q') → (load q' < load q)%nat;
  load_todo q : (load q ≤ 2 * size (todo q))%nat
}.

(** A queue that is shut down: adding does nothing, and nothing it no longer holds ever
    comes back. *)
Class ClosedQueue (I D : Type) `{Countable I} := {
  cq_ops :: QueueOps I D;
  left : D → gset I;
  left_Add i q : left (q_Add i q) = left q;
  left_AddRateLimited i q : left (q_AddRateLimited i q) = left q;
  left_Forget i q : left (q_Forget i q) = left q;
  left_Done i q : left (q_Done i q) = left q;
  left_Get q i q' : q_Get q = Some (i, q') → i ∈ left q ∧ left q' = left q ∖ {[i]}
}.

(** Shutting down an open queue: what waits out a back-off is dropped. *)
Class ShutDown (I Q D : Type) `{WorkQueue I Q, !ClosedQueue I D} := {
  q_ShutDown : Q → D;
  left_ShutDown q : left (q_ShutDown q) ⊆ todo q
}.

Lemma size_remove {I} `{Countable I} (i : I) (X : gset I) :
  i ∈ X → size X = S (size (X ∖ {[i]})).
Proof.
  intros Hin. rewrite size_difference by set_solver. rewrite size_singleton.
  enough (size X ≠ 0%nat) by lia. intros E%size_empty_inv. set_solver.
Qed.

(** Handing an item out leaves one less. *)
Lemma size_left_Get {I D} `{ClosedQueue I D} q i q' :
  q_Get q = Some (i, q') → size (left q) = S (size (left q')).
Proof. intros [Hin ->]%left_Get. by apply size_remove. Qed.

(** Adding one adds at most one. *)
Lemma size_insert_le {I} `{Countable I} (i : I) (X : gset I) :
  (size ({[i]} ∪ X) ≤ S (size X))%nat.
Proof.
  rewrite size_union_alt, size_singleton.
  assert (size (X ∖ {[i]}) ≤ size X)%nat by (apply subseteq_size; set_solver). lia.
Qed.

(** ** A list as a queue *)
Module ListQueue.
Section ListQueue.
Context {I : Type} `{Countable I}.

Definition q_dedup (i : I) (q : list I) : list I :=
  if bool_decide (i ∈ q) then q else q ++ [i].

Lemma q_dedup_todo i q : list_to_set (C := gset I) (q_dedup i q) = {[i]} ∪ list_to_set q.
Proof. unfold q_dedup. case_bool_decide; set_solver. Qed.

Definition q_next (q : list I) : option (I * list I) :=
  match q with [] => None | i :: q => Some (i, filter (λ j, j ≠ i) q) end.

Lemma q_next_todo q i q' :
  q_next q = Some (i, q') →
  i ∈ list_to_set (C := gset I) q ∧
  list_to_set (C := gset I) q' = list_to_set q ∖ {[i]}.
Proof.
  destruct q as [|j q]; intros [= <- <-]. split; [set_solver|]. apply set_eq. intros x.
  rewrite elem_of_difference, !elem_of_list_to_set, list_elem_of_filter, elem_of_cons.
  rewrite elem_of_singleton. destruct (decide (x = j)); tauto.
Qed.

Definition list_ops : QueueOps I (list I) := {|
  q_Add := q_dedup;
  q_AddRateLimited := q_dedup;
  q_Forget _ q := q;
  q_Done _ q := q;
  q_Get := q_next
|}.

(** The distinct items of a list. *)
Definition q_size (q : list I) : nat := size (list_to_set (C := gset I) q).

Lemma q_dedup_size i q : (q_size (q_dedup i q) ≤ S (q_size q))%nat.
Proof. unfold q_size. rewrite q_dedup_todo. apply size_insert_le. Qed.

Lemma q_next_size q i q' : q_next q = Some (i, q') → q_size q = S (q_size q').
Proof. unfold q_size. intros [Hin ->]%q_next_todo. by apply size_remove. Qed.

Lemma q_next_union q i q' :
  q_next q = Some (i, q') →
  list_to_set (C := gset I) q = {[i]} ∪ list_to_set q'.
Proof.
  intros [Hin ->]%q_next_todo. apply set_eq. intros x. destruct (decide (x = i)); set_solver.
Qed.

#[export, refine] Instance list_queue : WorkQueue I (list I) := {|
  wq_ops := list_ops;
  todo q := list_to_set q;
  load := q_size
|}.
Proof.
  - apply q_dedup_todo.
  - apply q_dedup_todo.
  - done.
  - done.
  - apply q_next_union.
  - by intros [|j q].
  - apply q_dedup_size.
  - apply q_dedup_size.
  - done.
  - done.
  - intros q i q' ->%q_next_size. lia.
  - intros q. unfold q_size. lia.
Defined.

(** Shut down. *)
Record drained := { dr_items : list I }.

Definition drain_ops : QueueOps I drained := {|
  q_Add _ q := q;
  q_AddRateLimited _ q := q;
  q_Forget _ q := q;
  q_Done _ q := q;
  q_Get q := '(i, l) ← q_next (dr_items q); Some (i, {| dr_items := l |})
|}.

#[export, refine] Instance drained_queue : ClosedQueue I drained := {|
  cq_ops := drain_ops;
  left q := list_to_set (dr_items q)
|}.
Proof.
  1-4: done.
  intros [q] i q'. simpl. destruct (q_next q) as [[j l]|] eqn:E; [|done].
  intros [= <- <-]. by apply q_next_todo in E.
Defined.

(** *** With a back-off

    What is ready, and what waits out a back-off and comes after it; shut down, only the
    former is left. *)
Record backoff := { bo_ready : list I; bo_waiting : list I }.

Definition backoff_ops : QueueOps I backoff := {|
  q_Add i q := {| bo_ready := q_dedup i (bo_ready q); bo_waiting := bo_waiting q |};
  q_AddRateLimited i q := {| bo_ready := bo_ready q; bo_waiting := q_dedup i (bo_waiting q) |};
  q_Forget _ q := q;
  q_Done _ q := q;
  q_Get q :=
    match q_next (bo_ready q) with
    | Some (i, l) => Some (i, {| bo_ready := l; bo_waiting := bo_waiting q |})
    | None => '(i, l) ← q_next (bo_waiting q); Some (i, {| bo_ready := []; bo_waiting := l |})
    end
|}.

Lemma backoff_Get q i q' :
  @q_Get _ _ backoff_ops q = Some (i, q') →
  (q_next (bo_ready q) = Some (i, bo_ready q') ∧ bo_waiting q' = bo_waiting q) ∨
  (bo_ready q = [] ∧ bo_ready q' = [] ∧ q_next (bo_waiting q) = Some (i, bo_waiting q')).
Proof.
  destruct q as [[|j r] w]; simpl.
  - destruct (q_next w) as [[j l]|]; intros [= <- <-]. by right.
  - intros [= <- <-]. by left.
Qed.

#[refine] Instance backoff_queue : WorkQueue I backoff := {|
  wq_ops := backoff_ops;
  todo q := list_to_set (bo_ready q) ∪ list_to_set (bo_waiting q);
  load q := (q_size (bo_ready q) + q_size (bo_waiting q))%nat
|}.
Proof.
  - intros i q. simpl. rewrite q_dedup_todo. set_solver.
  - intros i q. simpl. rewrite q_dedup_todo. set_solver.
  - done.
  - done.
  - intros q i q' [[Hn%q_next_union ->]|(Hr & Hr' & Hn%q_next_union)]%backoff_Get.
    + rewrite Hn. set_solver.
    + rewrite Hr, Hr', Hn. set_solver.
  - intros [[|j r] [|j' w]]; done.
  - intros i q. simpl. pose proof (q_dedup_size i (bo_ready q)). lia.
  - intros i q. simpl. pose proof (q_dedup_size i (bo_waiting q)). lia.
  - done.
  - done.
  - intros q i q' [[->%q_next_size ->]|(-> & -> & ->%q_next_size)]%backoff_Get; lia.
  - intros q. unfold q_size.
    pose proof (subseteq_size (list_to_set (C := gset I) (bo_ready q))
      (list_to_set (bo_ready q) ∪ list_to_set (bo_waiting q)) ltac:(set_solver)).
    pose proof (subseteq_size (list_to_set (C := gset I) (bo_waiting q))
      (list_to_set (bo_ready q) ∪ list_to_set (bo_waiting q)) ltac:(set_solver)). lia.
Defined.

#[refine] Instance backoff_shutdown : @ShutDown I backoff drained _ _ backoff_queue _ := {|
  q_ShutDown q := {| dr_items := bo_ready q |}
|}.
Proof. intros q. simpl. set_solver. Defined.

#[export, refine] Instance list_shutdown : ShutDown I (list I) drained := {|
  q_ShutDown q := {| dr_items := q |}
|}.
Proof. done. Defined.
End ListQueue.

(** A retry waits while the same item is asked for again: it is handed out twice. *)
Example handed_out_twice :
  let q := @q_Add _ _ backoff_ops 7%nat (@q_AddRateLimited _ _ backoff_ops 7%nat
             {| bo_ready := []; bo_waiting := [] |}) in
  ∃ q1 q2, @q_Get _ _ backoff_ops q = Some (7%nat, q1) ∧
    @q_Get _ _ backoff_ops q1 = Some (7%nat, q2) ∧ @q_Get _ _ backoff_ops q2 = None.
Proof. simpl. by eexists _, _. Qed.
End ListQueue.
