(* ===== verification/Publisher.v ===== *)
(** * The v1 publisher (internal/publisher/publisher.go)

    Signs and publishes the queued jobs, retrying until the chain takes them.  The
    signer and the chain act on an arbitrary world state; publications are recorded
    in a ghost log. *)

From S2P Require Import Prelude Bytes Sha256 Hash Verify Signer WorkQueue.

Open Scope Z_scope.

Record Job := {
  j_DeploymentID : bytes32;
  j_Version : Version;
  j_ConfigHash : bytes32;
  j_NamespacedName : string
}.

#[export] Instance Job_eq_dec : EqDecision Job.
Proof. solve_decision. Defined.

#[export] Instance Job_countable : Countable Job.
Proof.
  refine (inj_countable' (λ j, (j_DeploymentID j, j_Version j, j_ConfigHash j, j_NamespacedName j))
    (λ '(i, v, h, n), {| j_DeploymentID := i; j_Version := v; j_ConfigHash := h;
                         j_NamespacedName := n |}) _).
  by intros [].
Defined.

(** [ChainWriter] *)
Record ChainWriter (W : Type) := {
  cw_PublishAttestation :
    bytes32 → Z → bytes32 → bytes → bytes32 → W → result string * W
}.
Arguments cw_PublishAttestation {W} _ _ _ _ _ _ _.

(** A publication as handed to the chain, and its outcome. *)
Record publication := {
  pb_DeploymentID : bytes32;
  pb_HashVersion : Z;
  pb_ConfigHash : bytes32;
  pb_Signature : bytes;
  pb_Fingerprint : bytes32;
  pb_ok : bool
}.

Section Publisher.
Context {W Q : Type} `{!QueueOps Job Q}.

Record Publisher := { queue : Q; signer : Signer W; chain : ChainWriter W }.

Context (new_queue : Q).

Definition New (signer : Signer W) (chain : ChainWriter W) : Publisher :=
  {| queue := new_queue; signer := signer; chain := chain |}.

Record PSt := { publ : Publisher; pworld : W; plog : list publication }.

Definition pset_queue (f : Q → Q) (s : PSt) : PSt :=
  {| publ := {| queue := f (queue (publ s)); signer := signer (publ s); chain := chain (publ s) |};
     pworld := pworld s; plog := plog s |}.

Definition Enqueue (job : Job) (s : PSt) : PSt := pset_queue (q_Add job) s.

Definition process (job : Job) (s : PSt) : option error * PSt :=
  let p := publ s in
  let '(r, w) := signer_SignDigest (signer p)
    (SigningDigest (j_Version job) (j_ConfigHash job)) (pworld s) in
  match r with
  | Err err => (Some err, {| publ := p; pworld := w; plog := plog s |})
  | Ok sig =>
      let fingerprint := PublicKeyFingerprintBytes (signer_PublicKeyDER (signer p)) in
      let '(r, w) := cw_PublishAttestation (chain p) (j_DeploymentID job)
        (uint16 (j_Version job)) (j_ConfigHash job) sig fingerprint w in
      let ev := {| pb_DeploymentID := j_DeploymentID job;
                   pb_HashVersion := uint16 (j_Version job);
                   pb_ConfigHash := j_ConfigHash job; pb_Signature := sig;
                   pb_Fingerprint := fingerprint; pb_ok := is_ok r |} in
      let s := {| publ := p; pworld := w; plog := plog s ++ [ev] |} in
      match r with
      | Err err => (Some err, s)
      | Ok _ => (None, s)
      end
  end.

Definition processNext (s : PSt) : option PSt :=
  match q_Get (queue (publ s)) with
  | None => None
  | Some (job, q) =>
      let '(err, s) := process job (pset_queue (λ _, q) s) in
      let s :=
        match err with
        | Some _ => pset_queue (q_AddRateLimited job) s
        | None => pset_queue (q_Forget job) s
        end in
      Some (pset_queue (q_Done job) s)
  end.

Inductive pstep : PSt → PSt → Prop :=
  | pstep_enqueue job s : pstep s (Enqueue job s)
  | pstep_worker s s' : processNext s = Some s' → pstep s s'.

(** [Start]: the worker's loop. *)
Definition Start (fuel : nat) (s : PSt) : PSt := loop processNext fuel s.

End Publisher.

Section Facts.
Context {W Q : Type} `{!WorkQueue Job Q}.

(** ** A job stays until it is published *)

(** The publication a job asks for. *)
Definition publishes (job : Job) (ev : publication) : Prop :=
  pb_DeploymentID ev = j_DeploymentID job ∧ pb_HashVersion ev = uint16 (j_Version job) ∧
  pb_ConfigHash ev = j_ConfigHash job.

Lemma process_log job (s : @PSt W Q) err s' :
  process job s = (err, s') →
  publ s' = publ s ∧ ∃ l, plog s' = plog s ++ l ∧
    (err = None → ∃ ev, ev ∈ l ∧ publishes job ev ∧ pb_ok ev = true).
Proof.
  unfold process. destruct (signer_SignDigest _ _ _) as [[sig|e] w].
  2: { intros [= <- <-]. split; [done|]. exists []. by rewrite app_nil_r. }
  destruct (cw_PublishAttestation _ _ _ _ _ _ _) as [[h|e] w']; intros [= <- <-].
  - split; [done|]. eexists. split; [done|]. intros _. eexists. split; [by left|done].
  - split; [done|]. eexists. split; [done|done].
Qed.

Definition job_safe (job : Job) (s : @PSt W Q) : Prop :=
  job ∈ todo (queue (publ s)) ∨ ∃ ev, ev ∈ plog s ∧ publishes job ev ∧ pb_ok ev = true.

Lemma job_safe_step job (s s' : @PSt W Q) : pstep s s' → job_safe job s → job_safe job s'.
Proof.
  intros Hs Hj. destruct Hs as [j s|s s' Hs].
  - destruct Hj as [Hj|Hj]; [left|by right]. simpl. rewrite todo_Add. set_solver.
  - unfold processNext in Hs. destruct (q_Get _) as [[j q]|] eqn:Eq; [|done].
    apply todo_Get in Eq as Hq.
    destruct (process j (pset_queue (λ _, q) s)) as [err s1] eqn:E.
    destruct (process_log _ _ _ _ E) as (Hp & l & Hl & Hok). simpl in Hl. simplify_eq.
    destruct Hj as [Hj|(ev & Hev & Hj)].
    2: { right. exists ev. split; [|done]. destruct err; simpl; rewrite Hl; set_solver. }
    destruct (decide (j = job)) as [->|Hne].
    + destruct err as [e|].
      * left. simpl. rewrite todo_Done, todo_AddRateLimited. set_solver.
      * right. destruct (Hok eq_refl) as (ev & Hin' & Hp'). exists ev. split; [|done].
        simpl. rewrite Hl. set_solver.
    + left. destruct err; simpl; rewrite todo_Done, ?todo_AddRateLimited, ?todo_Forget, Hp;
        simpl; rewrite Hq in Hj; set_solver.
Qed.

(** An enqueued v1 job is never dropped: after any number of steps it is either
    still to be handed out or the chain accepted a publication of exactly its
    deployment id, version and config hash, whatever failed in between. *)
Theorem v1_job_not_lost job (s s' : @PSt W Q) :
  rtc pstep (Enqueue job s) s' → job_safe job s'.
Proof.
  remember (Enqueue job s) as s0 eqn:E0. intros Hr.
  assert (H0 : job_safe job s0).
  { subst s0. left. simpl. rewrite todo_Add. set_solver. }
  clear E0. induction Hr as [|s1 s2 s3 H1 _ IH]; [done|]. by apply IH, (job_safe_step _ s1).
Qed.

(** ** The worker finishes *)

(** Outages end: each failed call of the signer or the chain uses up some of a budget
    that no call replenishes.  The chain client always refuses version 0. *)
Definition outages_end (budget : W → nat) (p : @Publisher W Q) : Prop :=
  (∀ d w r w', signer_SignDigest (signer p) d w = (r, w') →
     (budget w' + (if is_ok r then 0 else 1) ≤ budget w)%nat) ∧
  (∀ id v h sig fp w r w', v ≠ 0 →
     cw_PublishAttestation (chain p) id v h sig fp w = (r, w') →
     (budget w' + (if is_ok r then 0 else 1) ≤ budget w)%nat).

Definition versioned_jobs (s : @PSt W Q) : Prop :=
  ∀ job, job ∈ todo (queue (publ s)) → uint16 (j_Version job) ≠ 0.

(** What the queue holds, and what may still fail. *)
Definition backlog (budget : W → nat) (s : @PSt W Q) : nat :=
  (load (queue (publ s)) + budget (pworld s))%nat.

Lemma process_budget budget job (s : @PSt W Q) err s' :
  outages_end budget (publ s) → uint16 (j_Version job) ≠ 0 → process job s = (err, s') →
  publ s' = publ s ∧
  (budget (pworld s') + (if err is Some _ then 1 else 0) ≤ budget (pworld s))%nat.
Proof.
  intros [Hs Hc] Hv. unfold process. destruct (signer_SignDigest _ _ _) as [r w] eqn:Es.
  apply Hs in Es. destruct r as [sig|e]; [|by intros [= <- <-]].
  destruct (cw_PublishAttestation _ _ _ _ _ _ _) as [r w'] eqn:Ec. apply Hc in Ec; [|done].
  destruct r; intros [= <- <-]; simpl in *; split; [done|lia|done|lia].
Qed.

Lemma processNext_backlog budget (s s' : @PSt W Q) :
  outages_end budget (publ s) ∧ versioned_jobs s → processNext s = Some s' →
  (outages_end budget (publ s') ∧ versioned_jobs s') ∧ (backlog budget s' < backlog budget s)%nat.
Proof.
  intros [Ho Hv]. unfold processNext, backlog, versioned_jobs in *.
  destruct (q_Get _) as [[j q]|] eqn:Eq; [|done].
  pose proof (load_Get _ _ _ Eq) as Hl. apply todo_Get in Eq as Hq.
  assert (Hin : j ∈ todo (queue (publ s))) by set_solver.
  destruct (process j (pset_queue (λ _, q) s)) as [err s1] eqn:E.
  destruct (process_budget budget j (pset_queue (λ _, q) s) err s1 Ho (Hv j Hin) E) as [Hp Hb].
  simpl in Hb.
  intros [= <-]. destruct err as [e|]; simpl; rewrite todo_Done, load_Done, Hp; simpl;
    (split; [split; [exact Ho|]|]).
  - intros job. rewrite todo_AddRateLimited, <- Hq. apply Hv.
  - pose proof (load_AddRateLimited j q). lia.
  - intros job. rewrite todo_Forget. intros Hj. apply Hv. set_solver.
  - rewrite load_Forget. lia.
Qed.

Lemma Start_steps fuel (s : @PSt W Q) : rtc pstep s (Start fuel s).
Proof.
  unfold Start. revert s. induction fuel as [|fuel IH]; intros s; simpl; [done|].
  destruct (processNext s) eqn:E; [|done]. eapply rtc_l; [by constructor|apply IH].
Qed.

Lemma processNext_signer (s s' : @PSt W Q) :
  processNext s = Some s' → signer (publ s') = signer (publ s).
Proof.
  unfold processNext. destruct (q_Get _) as [[j q]|]; [|done].
  destruct (process j (pset_queue (λ _, q) s)) as [err s1] eqn:E.
  destruct (process_log _ _ _ _ E) as [Hp _]. intros [= <-]. by destruct err; simpl; rewrite Hp.
Qed.

Lemma Start_signer fuel (s : @PSt W Q) : signer (publ (Start fuel s)) = signer (publ s).
Proof.
  unfold Start. revert s. induction fuel as [|fuel IH]; intros s; simpl; [done|].
  destruct (processNext s) eqn:E; [|done]. rewrite IH. by apply processNext_signer.
Qed.

Lemma Start_catches_up budget fuel (s : @PSt W Q) :
  outages_end budget (publ s) → versioned_jobs s → (backlog budget s ≤ fuel)%nat →
  processNext (Start fuel s) = None ∧ todo (queue (publ (Start fuel s))) = ∅ ∧
  (∀ job, job ∈ todo (queue (publ s)) →
     ∃ ev, ev ∈ plog (Start fuel s) ∧ publishes job ev ∧ pb_ok ev = true).
Proof.
  intros Ho Hv Hf.
  destruct (loop_stops processNext (λ s, outages_end budget (publ s) ∧ versioned_jobs s)
    (backlog budget) fuel s)
    as [_ Hn]; [intros; by eapply processNext_backlog|done..|].
  fold (Start fuel s) in Hn.
  assert (He : todo (queue (publ (Start fuel s))) = ∅).
  { unfold processNext in Hn. destruct (q_Get _) as [[j q]|] eqn:Eq; [|by apply todo_Get_None].
    by destruct (process _ _). }
  split_and!; [done..|]. intros job Hj.
  assert (job_safe job (Start fuel s)) as [Hin|Hev]; [|set_solver|done].
  pose proof (Start_steps fuel s) as Hr. assert (H0 : job_safe job s) by (by left).
  clear -Hr H0. induction Hr as [|s1 s2 s3 H1 _ IH]; [done|]. by apply IH, (job_safe_step _ s1).
Qed.

(** C33: the v1 worker catches up: once outages are finite in number and no queued job's
    version truncates to 0, its loop stops within as many turns as the queue holds
    entries (a job has at most two, one ready and one waiting out a back-off) and
    failures remain, with an empty queue, and every job that was queued has been
    accepted by the chain. *)
Theorem v1_Start_catches_up budget fuel (s : @PSt W Q) :
  outages_end budget (publ s) → versioned_jobs s → (backlog budget s ≤ fuel)%nat →
  processNext (Start fuel s) = None ∧ todo (queue (publ (Start fuel s))) = ∅ ∧
  (∀ job, job ∈ todo (queue (publ s)) →
     ∃ ev, ev ∈ plog (Start fuel s) ∧ publishes job ev ∧ pb_ok ev = true).
Proof. apply Start_catches_up. Qed.

(** ** What is published verifies *)

Context `{Crypto}.

Lemma process_verified job (s : @PSt W Q) err s' k :
  AttestSigner (signer (publ s)) →
  ParsePublicKeyDER (signer_PublicKeyDER (signer (publ s))) = Ok k →
  process job s = (err, s') →
  ∃ l, plog s' = plog s ++ l ∧
    Forall (λ ev, publishes job ev ∧ pb_Signature ev ≠ [] ∧
      VerifyConfigHashSignature k (SigningDigest (j_Version job) (pb_ConfigHash ev))
        (pb_Signature ev) = true ∧
      pb_Fingerprint ev =
        PublicKeyFingerprintBytes (signer_PublicKeyDER (signer (publ s)))) l.
Proof.
  intros Ha Hk. unfold process. destruct (signer_SignDigest _ _ _) as [[sig|e] w] eqn:Es.
  2: { intros [= <- <-]. exists []. by rewrite app_nil_r. }
  destruct (signer_verifies k _ _ _ _ Hk Es) as [Hn Hv].
  destruct (cw_PublishAttestation _ _ _ _ _ _ _) as [[h|e] w']; intros [= <- <-];
    eexists; (split; [done|]); constructor; [by split_and!|constructor|by split_and!|constructor].
Qed.

(** Everything the v1 publisher hands to the chain verifies: the signature is valid
    under the signer's advertised key over the digest that binds the version and the
    config hash being published, next to that key's own fingerprint. *)
Theorem v1_publishes_verified job (s : @PSt W Q) err s' k :
  AttestSigner (signer (publ s)) →
  ParsePublicKeyDER (signer_PublicKeyDER (signer (publ s))) = Ok k →
  process job s = (err, s') →
  ∃ l, plog s' = plog s ++ l ∧
    Forall (λ ev, publishes job ev ∧ pb_Signature ev ≠ [] ∧
      VerifyConfigHashSignature k (SigningDigest (j_Version job) (pb_ConfigHash ev))
        (pb_Signature ev) = true ∧
      pb_Fingerprint ev =
        PublicKeyFingerprintBytes (signer_PublicKeyDER (signer (publ s)))) l.
Proof. apply process_verified. Qed.
End Facts.
