(* ===== verification/PublisherSteps.v ===== *)
(** * The v1 publisher, call by call

    The reconciler enqueues from another goroutine at any moment, also while the worker
    is inside KMS or the chain client.  Here the worker's turn is cut at every call it
    makes; an abstract outbox, a set of requests that leave it only when the chain takes
    them, says what the publisher promises, and the worker refines it under every
    interleaving. *)

From S2P Require Import Prelude Bytes Sha256 Hash Verify Signer WorkQueue Publisher.

Open Scope Z_scope.

Section Steps.
Context {W Q : Type} `{!QueueOps Job Q}.

Abbreviation PSt := (@PSt W Q).

(** ** The worker between two calls *)

(** Where [processNext] stands: waiting for an item; with a job taken; with its
    signature; with the result of [process]; and with only the deferred [Done] left. *)
Inductive phase :=
  | Idle
  | Taken (job : Job)
  | Signed (job : Job) (sig : bytes)
  | Returned (job : Job) (err : option error)
  | Finishing (job : Job).

Record Worker := { wk_st : PSt; wk_phase : phase }.

(** The call of [SignDigest] in [process]. *)
Definition sign_call (job : Job) (s : PSt) : Worker :=
  let '(r, w) := signer_SignDigest (signer (publ s))
    (SigningDigest (j_Version job) (j_ConfigHash job)) (pworld s) in
  {| wk_st := {| publ := publ s; pworld := w; plog := plog s |};
     wk_phase := match r with Err err => Returned job (Some err) | Ok sig => Signed job sig end |}.

(** The call of [PublishAttestation] in [process]. *)
Definition publish_call (job : Job) (sig : bytes) (s : PSt) : Worker :=
  let fingerprint := PublicKeyFingerprintBytes (signer_PublicKeyDER (signer (publ s))) in
  let '(r, w) := cw_PublishAttestation (chain (publ s)) (j_DeploymentID job)
    (uint16 (j_Version job)) (j_ConfigHash job) sig fingerprint (pworld s) in
  let ev := {| pb_DeploymentID := j_DeploymentID job; pb_HashVersion := uint16 (j_Version job);
               pb_ConfigHash := j_ConfigHash job; pb_Signature := sig;
               pb_Fingerprint := fingerprint; pb_ok := is_ok r |} in
  {| wk_st := {| publ := publ s; pworld := w; plog := plog s ++ [ev] |};
     wk_phase := Returned job (match r with Err err => Some err | Ok _ => None end) |}.

(** The next call of the worker. *)
Definition advance (k : Worker) : option Worker :=
  let s := wk_st k in
  match wk_phase k with
  | Idle =>
      match q_Get (queue (publ s)) with
      | None => None
      | Some (job, q) => Some {| wk_st := pset_queue (λ _, q) s; wk_phase := Taken job |}
      end
  | Taken job => Some (sign_call job s)
  | Signed job sig => Some (publish_call job sig s)
  | Returned job (Some _) =>
      Some {| wk_st := pset_queue (q_AddRateLimited job) s; wk_phase := Finishing job |}
  | Returned job None =>
      Some {| wk_st := pset_queue (q_Forget job) s; wk_phase := Finishing job |}
  | Finishing job => Some {| wk_st := pset_queue (q_Done job) s; wk_phase := Idle |}
  end.

Definition enqueue (job : Job) (k : Worker) : Worker :=
  {| wk_st := Enqueue job (wk_st k); wk_phase := wk_phase k |}.

Inductive wstep : Worker → Worker → Prop :=
  | wstep_enqueue job k : wstep k (enqueue job k)
  | wstep_worker k k' : advance k = Some k' → wstep k k'.

Definition idle (s : PSt) : Worker := {| wk_st := s; wk_phase := Idle |}.

(** Left alone, the worker makes exactly a turn of [processNext]. *)
Definition alone (k k' : Worker) : Prop := advance k = Some k'.

Lemma turn_of_calls s s' : processNext s = Some s' → rtc alone (idle s) (idle s').
Proof.
  unfold processNext. destruct (q_Get _) as [[job q]|] eqn:Eq; [|done]. intros E.
  eapply rtc_l.
  { unfold alone, advance, idle. cbn [wk_phase wk_st]. rewrite Eq. done. }
  revert E. generalize (pset_queue (λ _, q) s).
  clear s Eq. intros s E. eapply rtc_l; [done|]. unfold sign_call. unfold process in E.
  destruct (signer_SignDigest _ _ _) as [[sig|e] w].
  - eapply rtc_l; [done|]. unfold publish_call. simpl.
    destruct (cw_PublishAttestation _ _ _ _ _ _ _) as [[h|e] w']; injection E as <-;
      (eapply rtc_l; [done|]; by apply rtc_once).
  - injection E as <-. eapply rtc_l; [done|]. by apply rtc_once.
Qed.

End Steps.

Section Refinement.
Context {W Q : Type} `{!WorkQueue Job Q}.

(** ** The outbox *)

Record Outbox := { pending : gset Job; published : list publication }.

Inductive outbox_step : Outbox → Outbox → Prop :=
  | ob_request job o :
      outbox_step o {| pending := {[job]} ∪ pending o; published := published o |}
  | ob_accept job ev o :
      job ∈ pending o → publishes job ev → pb_ok ev = true →
      outbox_step o {| pending := pending o ∖ {[job]}; published := published o ++ [ev] |}
  | ob_refuse job ev o :
      job ∈ pending o → publishes job ev → pb_ok ev = false →
      outbox_step o {| pending := pending o; published := published o ++ [ev] |}.

(** What the outbox promises: a request stays until the chain took it. *)
Definition kept (job : Job) (o : Outbox) : Prop :=
  job ∈ pending o ∨ ∃ ev, ev ∈ published o ∧ publishes job ev ∧ pb_ok ev = true.

Lemma kept_step job o o' : outbox_step o o' → kept job o → kept job o'.
Proof.
  intros Hs [Hj|(ev & Hev & Hp)].
  - destruct Hs as [j o|j ev o Hin Hp Hok|j ev o Hin Hp Hok]; [left; set_solver| |by left].
    destruct (decide (job = j)) as [->|]; [|left; set_solver].
    right. exists ev. split; [set_solver|done].
  - right. exists ev. split; [|done]. destruct Hs; simpl; set_solver.
Qed.

Lemma kept_steps job o o' : rtc outbox_step o o' → kept job o → kept job o'.
Proof. induction 1 as [|o1 o2 o3 Hs _ IH]; [done|]. intros Hk. by apply IH, (kept_step _ o1). Qed.

(** ** The worker implements it *)

(** The job a turn still owes. *)
Definition held (ph : phase) : gset Job :=
  match ph with
  | Taken job | Signed job _ | Returned job (Some _) => {[job]}
  | Idle | Returned _ None | Finishing _ => ∅
  end.

Definition abstraction (k : @Worker W Q) : Outbox :=
  {| pending := todo (queue (publ (wk_st k))) ∪ held (wk_phase k); published := plog (wk_st k) |}.

Lemma outbox_eq o o' : pending o = pending o' → published o = published o' → o = o'.
Proof. destruct o, o'. simpl. congruence. Qed.

(** Accepting a job that was asked for again meanwhile keeps the second request. *)
Lemma accept_steps X job ev l :
  publishes job ev → pb_ok ev = true →
  rtc outbox_step {| pending := X ∪ {[job]}; published := l |}
    {| pending := X; published := l ++ [ev] |}.
Proof.
  intros Hp Hok. set (o := {| pending := X ∪ {[job]}; published := l |}).
  pose proof (ob_accept job ev o ltac:(simpl; set_solver) Hp Hok) as Ha. simpl in Ha.
  eapply rtc_l; [exact Ha|]. destruct (decide (job ∈ X)).
  - replace X with ({[job]} ∪ (X ∪ {[job]}) ∖ {[job]}) at 2.
    + apply rtc_once. exact (ob_request job {| pending := _; published := _ |}).
    + apply set_eq. intros j. destruct (decide (j = job)); set_solver.
  - replace ((X ∪ {[job]}) ∖ {[job]}) with X by set_solver. done.
Qed.

(** Each call is a few steps of the outbox, most are none. *)
Lemma advance_simulates (k k' : @Worker W Q) :
  advance k = Some k' → rtc outbox_step (abstraction k) (abstraction k').
Proof.
  destruct k as [s ph]. unfold advance, abstraction. simpl. destruct ph as [|j|j sig|j [e|]|j].
  - destruct (q_Get _) as [[job q]|] eqn:Eq; [|done]. apply todo_Get in Eq as Hq.
    intros [= <-]. simpl. rewrite Hq. apply reflexive_eq, outbox_eq; [|done]. set_solver.
  - unfold sign_call. destruct (signer_SignDigest _ _ _) as [[sig|e] w]; by intros [= <-].
  - unfold publish_call. destruct (cw_PublishAttestation _ _ _ _ _ _ _) as [[h|e] w];
      intros [= <-]; simpl.
    + rewrite (right_id_L ∅ (∪)). by apply accept_steps.
    + by apply rtc_once, (ob_refuse j); [set_solver|..].
  - intros [= <-]. simpl. rewrite todo_AddRateLimited.
    apply reflexive_eq, outbox_eq; [set_solver|done].
  - intros [= <-]. simpl. by rewrite todo_Forget.
  - intros [= <-]. simpl. by rewrite todo_Done.
Qed.

Lemma wstep_simulates (k k' : @Worker W Q) : wstep k k' → rtc outbox_step (abstraction k) (abstraction k').
Proof.
  intros [job k0|k0 k0' E]; [|by apply advance_simulates]. apply rtc_once.
  unfold abstraction. simpl. rewrite todo_Add, <- (assoc_L (∪)). apply (ob_request job).
Qed.

Lemma wsteps_simulate (k k' : @Worker W Q) : rtc wstep k k' → rtc outbox_step (abstraction k) (abstraction k').
Proof.
  induction 1 as [|k1 k2 k3 Hs _ IH]; [done|]. etrans; [by apply wstep_simulates|exact IH].
Qed.

(** C34: the v1 publisher is an outbox: whatever is enqueued at whatever moment, also
    while a job is being signed, published or put back, every run of the worker is a run
    of a set of requests in which a request is only ever removed by an accepted
    publication of exactly that request; its pending set is the queue and the job in
    hand, and its list of publications is what was handed to the chain, in order. *)
Theorem v1_worker_refines_outbox (s : @PSt W Q) k :
  rtc wstep (idle s) k →
  rtc outbox_step {| pending := todo (queue (publ s)); published := plog s |}
    {| pending := todo (queue (publ (wk_st k))) ∪ held (wk_phase k);
       published := plog (wk_st k) |}.
Proof.
  intros Hr%wsteps_simulate. unfold abstraction in Hr. simpl in Hr.
  by rewrite (right_id_L ∅ (∪)) in Hr.
Qed.

(** No job is dropped, whatever is interleaved. *)
Theorem v1_job_not_lost_interleaved job (k k' : @Worker W Q) :
  rtc wstep (enqueue job k) k' → kept job (abstraction k').
Proof.
  intros Hr%wsteps_simulate. eapply kept_steps; [exact Hr|]. left. simpl.
  rewrite todo_Add. set_solver.
Qed.
End Refinement.

(** ** A job enqueued again while it is being signed *)

Module StepsWitness.
Import ToyCrypto ListQueue.

Definition job : Job :=
  {| j_DeploymentID := zero32; j_Version := CurrentVersion; j_ConfigHash := zero32;
     j_NamespacedName := "payments/api" |}.

(** A chain that refuses the next [n] publications and counts the others. *)
Definition writer : ChainWriter (nat * nat) :=
  {| cw_PublishAttestation _ _ _ _ _ w :=
       match w.1 with
       | S n => (Err (errors_New "down"), (n, w.2))
       | O => (Ok "0x1"%string, (O, S w.2))
       end |}.

Definition toy_signer : Signer (nat * nat) :=
  {| signer_SignDigest d w := (Ok (toy_sign [Byte.x6b] d), w);
     signer_PublicKeyDER := toy_der [Byte.x6b] |}.

Definition start : @PSt (nat * nat) (list Job) :=
  {| publ := New [] toy_signer writer; pworld := (1, 0)%nat; plog := [] |}.

Abbreviation ToyWorker := (@Worker (nat * nat) (list Job)).

(** [None] is a call of the worker, [Some job] an enqueue. *)
Definition act (k : ToyWorker) (a : option Job) : ToyWorker :=
  match a with Some j => enqueue j k | None => default k (advance k) end.

Lemma acts_steps (l : list (option Job)) (k : ToyWorker) :
  rtc wstep k (foldl act k l).
Proof.
  revert k. induction l as [|[j|] l IH]; intros k; [done|..]; simpl.
  - eapply rtc_l; [apply (wstep_enqueue j)|apply IH].
  - destruct (advance k) as [k'|] eqn:E; [|apply IH].
    eapply rtc_l; [by apply wstep_worker|apply IH].
Qed.

(** The first attempt fails; while the second is being signed the job comes again. *)
Definition script : list (option Job) :=
  [Some job; None; None; None; None; None; None; Some job; None; None; None; None].

Definition ended : ToyWorker := foldl act (idle start) script.

(** Two publications, the first refused, and the second request still queued. *)
Example ended_state :
  wk_phase ended = Idle ∧ pworld (wk_st ended) = (0, 1)%nat ∧
  map pb_ok (plog (wk_st ended)) = [false; true] ∧ queue (publ (wk_st ended)) = [job].
Proof. vm_compute. split_and!; reflexivity. Qed.

Lemma v1_worker_refines_outbox_witness :
  rtc outbox_step {| pending := ∅; published := [] |}
    {| pending := todo (queue (publ (wk_st ended))) ∪ held (wk_phase ended);
       published := plog (wk_st ended) |}.
Proof. exact (v1_worker_refines_outbox start ended (acts_steps script (idle start))). Defined.

Lemma v1_job_not_lost_interleaved_witness : kept job (abstraction ended).
Proof.
  exact (v1_job_not_lost_interleaved job (idle start) ended
    (acts_steps (tail script) (enqueue job (idle start)))).
Defined.
End StepsWitness.
