(* ===== verification/Controller.v ===== *)
(** * The reconciler (internal/controller/deployment_controller.go)

    [Reconcile] on every branch: a vanished object, a failed read, an unfinished
    rollout, a hash already enqueued, and a new converged state.  Its dedup memory
    and the jobs it enqueues are its state. *)

From S2P Require Import Prelude Bytes Sha256 GoSort Kube Fixtures Normalize Hash Verify Signer.
From S2P Require Import WorkQueue Publisher.

Open Scope Z_scope.

Section Controller.
Context `{Upstream, Sorter}.

Record Request := { req_Namespace : string; req_Name : string }.

(** [types.NamespacedName.String] *)
Definition NamespacedName_String (r : Request) : string :=
  req_Namespace r +:+ "/" +:+ req_Name r.

(** [apierrors.IsNotFound] *)
Context (IsNotFound : error → bool).

Record DeploymentReconciler := {
  lastAttested : gmap bytes32 bytes32;
  enqueued : list Job
}.

(** The nil map of a fresh reconciler is made before any event arrives. *)
Definition SetupWithManager (attested : option (gmap bytes32 bytes32)) : DeploymentReconciler :=
  {| lastAttested := default ∅ attested; enqueued := [] |}.

Definition alreadyAttested (r : DeploymentReconciler) (id hash : bytes32) : bool :=
  match lastAttested r !! id with
  | Some prev => bool_decide (prev = hash)
  | None => false
  end.

Definition recordAttested (id hash : bytes32) (r : DeploymentReconciler) : DeploymentReconciler :=
  {| lastAttested := <[id := hash]> (lastAttested r); enqueued := enqueued r |}.

Definition forgetAttested (id : bytes32) (r : DeploymentReconciler) : DeploymentReconciler :=
  {| lastAttested := delete id (lastAttested r); enqueued := enqueued r |}.

Definition enqueue_job (job : Job) (r : DeploymentReconciler) : DeploymentReconciler :=
  {| lastAttested := lastAttested r; enqueued := enqueued r ++ [job] |}.

Definition rolloutConverged (d : Deployment) : bool :=
  if s_ObservedGeneration (d_Status d) <? d_Generation d then false
  else
    let desired := match d_Replicas d with Some n => n | None => 1 end in
    let s := d_Status d in
    (s_UpdatedReplicas s =? desired) && (s_ReadyReplicas s =? desired) &&
    (s_AvailableReplicas s =? desired) && (s_Replicas s =? desired).

(** [get] is the answer of the API server to the read. *)
Definition Reconcile (req : Request) (get : result Deployment) (r : DeploymentReconciler) :
    option error * DeploymentReconciler :=
  let id := DeploymentID (req_Namespace req) (req_Name req) in
  match get with
  | Err err =>
      if IsNotFound err then (None, forgetAttested id r) else (Some err, r)
  | Ok dep =>
      if negb (rolloutConverged dep) then (None, r)
      else
        match ConfigHashForVersion CurrentVersion dep with
        | Err _ => (None, r)
        | Ok configHash =>
            if alreadyAttested r id configHash then (None, r)
            else
              let r := recordAttested id configHash r in
              let job := {| j_DeploymentID := id; j_Version := CurrentVersion;
                            j_ConfigHash := configHash;
                            j_NamespacedName := NamespacedName_String req |} in
              (None, enqueue_job job r)
        end
  end.

(** ** Convergence *)

(** The controller has seen the latest spec, and every replica it asks for (one when
    the spec does not say) exists, is of the latest revision, ready and available. *)
Definition rollout_complete (d : Deployment) : Prop :=
  let want := default 1 (d_Replicas d) in
  d_Generation d ≤ s_ObservedGeneration (d_Status d) ∧
  s_UpdatedReplicas (d_Status d) = want ∧ s_ReadyReplicas (d_Status d) = want ∧
  s_AvailableReplicas (d_Status d) = want ∧ s_Replicas (d_Status d) = want.

Lemma rolloutConverged_spec d : rolloutConverged d = true ↔ rollout_complete d.
Proof.
  unfold rolloutConverged, rollout_complete.
  destruct (Z.ltb_spec (s_ObservedGeneration (d_Status d)) (d_Generation d)).
  - split; [done|lia].
  - destruct (d_Replicas d); simpl; rewrite !andb_true_iff, !Z.eqb_eq; tauto.
Qed.

(** A state worth attesting, with its hash. *)
Definition converged_hash (get : result Deployment) (h : bytes32) : Prop :=
  ∃ dep, get = Ok dep ∧ rollout_complete dep ∧
         ConfigHashForVersion CurrentVersion dep = Ok h.

Lemma Reconcile_enqueues req get r h :
  converged_hash get h →
  lastAttested r !! DeploymentID (req_Namespace req) (req_Name req) ≠ Some h →
  Reconcile req get r =
  (None,
   enqueue_job {| j_DeploymentID := DeploymentID (req_Namespace req) (req_Name req);
                  j_Version := CurrentVersion; j_ConfigHash := h;
                  j_NamespacedName := NamespacedName_String req |}
     (recordAttested (DeploymentID (req_Namespace req) (req_Name req)) h r)).
Proof.
  intros (dep & -> & Hc%rolloutConverged_spec & Hh) Hl.
  unfold Reconcile. rewrite Hc, Hh. simpl.
  unfold alreadyAttested. destruct (lastAttested r !! _); [|done].
  rewrite bool_decide_false; [done|]. congruence.
Qed.

(** C25: [Reconcile] on every branch.  An error is returned exactly for a failed read
    that is not a NotFound, and then nothing changes; a NotFound deletes the workload's
    entry of the dedup map, keeps every other entry and enqueues nothing; a job is
    enqueued exactly when the status covers the latest generation, its four
    counts equal the wanted replicas (one if unset) and the hash exists and differs from
    the remembered one, with this workload's id and "namespace/name", the current
    protocol version and that hash, and only that hash is then remembered for it; every
    other observation changes nothing. *)
Theorem Reconcile_exact req get r :
  let id := DeploymentID (req_Namespace req) (req_Name req) in
  let res := Reconcile req get r in
  (∀ e, res.1 = Some e ↔ get = Err e ∧ IsNotFound e = false) ∧
  (∀ e, get = Err e → IsNotFound e = true →
     lastAttested res.2 = delete id (lastAttested r) ∧ enqueued res.2 = enqueued r) ∧
  (∀ h, converged_hash get h → lastAttested r !! id ≠ Some h →
     lastAttested res.2 = <[id := h]> (lastAttested r) ∧
     enqueued res.2 = enqueued r ++
       [{| j_DeploymentID := id; j_Version := CurrentVersion; j_ConfigHash := h;
           j_NamespacedName := req_Namespace req +:+ "/" +:+ req_Name req |}]) ∧
  ((∀ e, get = Err e → IsNotFound e = false) →
   (∀ h, converged_hash get h → lastAttested r !! id = Some h) → res.2 = r).
Proof.
  intros id res. subst id res. split_and!.
  - intros e. unfold Reconcile. destruct get as [dep|e'].
    + split; [|by intros []]. destruct (negb _); [done|].
      destruct (ConfigHashForVersion _ _); [|done]. by destruct (alreadyAttested _ _ _).
    + destruct (IsNotFound e') eqn:En; split; [done|intros [[= <-] ?]; congruence|..].
      * by intros [= <-].
      * by intros [[= <-] _].
  - intros e -> He. unfold Reconcile. by rewrite He.
  - intros h Hh Hl. by rewrite (Reconcile_enqueues req get r h Hh Hl).
  - intros He Hh. unfold Reconcile. destruct get as [dep|e'].
    + destruct (rolloutConverged dep) eqn:Ec; [|done]. cbn [negb].
      destruct (ConfigHashForVersion CurrentVersion dep) as [h|] eqn:Ehash; [|done].
      unfold alreadyAttested.
      rewrite (Hh h) by (exists dep; by rewrite <- rolloutConverged_spec).
      by rewrite bool_decide_true.
    + by rewrite (He e' eq_refl).
Qed.

(** ** Histories *)

Definition observe (r : DeploymentReconciler) (o : Request * result Deployment) :
    DeploymentReconciler := (Reconcile o.1 o.2 r).2.

(** The jobs of one workload, oldest first. *)
Definition jobs_for (id : bytes32) (r : DeploymentReconciler) : list bytes32 :=
  map j_ConfigHash (filter (λ j, j_DeploymentID j = id) (enqueued r)).

Definition for_workload (ns name : string) (o : Request * result Deployment) : Prop :=
  req_Namespace o.1 = ns ∧ req_Name o.1 = name.

(** The hashes of a workload's converged observations in order, without immediate
    repetitions: the states worth attesting. *)
Fixpoint changes (prev : option bytes32) (hs : list bytes32) : list bytes32 :=
  match hs with
  | [] => []
  | h :: hs => if bool_decide (prev = Some h) then changes prev hs else h :: changes (Some h) hs
  end.

Lemma observe_converged ns name o h r :
  for_workload ns name o → converged_hash o.2 h →
  let id := DeploymentID ns name in
  (lastAttested r !! id = Some h → observe r o = r) ∧
  (lastAttested r !! id ≠ Some h →
     lastAttested (observe r o) !! id = Some h ∧
     jobs_for id (observe r o) = jobs_for id r ++ [h]).
Proof.
  intros [<- <-] Hh id. subst id. unfold observe. split; intros Hl.
  - destruct Hh as (dep & Hd & Hc%rolloutConverged_spec & Hx). unfold Reconcile. rewrite Hd, Hc, Hx. simpl.
    unfold alreadyAttested. by rewrite Hl, bool_decide_true.
  - rewrite (Reconcile_enqueues _ _ _ h Hh Hl). simpl. split; [by rewrite lookup_insert_eq|].
    unfold jobs_for. simpl. rewrite filter_app, map_app. f_equal.
    by rewrite filter_cons_True.
Qed.

(** C26: the reconciler enqueues exactly the changes: over any sequence of converged
    observations of a workload, the config hashes enqueued for it are the observed
    hashes with immediate repetitions removed, in order.  No state is missed, none is
    enqueued twice in a row, and a rollback is enqueued again. *)
Theorem Reconcile_enqueues_changes ns name obs hs r :
  Forall2 (λ o h, for_workload ns name o ∧ converged_hash o.2 h) obs hs →
  let id := DeploymentID ns name in
  jobs_for id (foldl observe r obs) = jobs_for id r ++ changes (lastAttested r !! id) hs.
Proof.
  intros Hobs id. revert r. induction Hobs as [|o h obs hs [Hw Hh] _ IH]; intros r; simpl.
  - by rewrite app_nil_r.
  - destruct (observe_converged ns name o h r Hw Hh) as [Hsame Hnew]. fold id in Hsame, Hnew.
    rewrite IH. case_bool_decide as Hl.
    + by rewrite (Hsame Hl).
    + destruct (Hnew Hl) as [Hlast Hjobs]. by rewrite Hlast, Hjobs, <- app_assoc.
Qed.

(** Deletion makes room for the next incarnation: after a NotFound, the same
    configuration recreated under the same name is enqueued again, whatever was
    attested before. *)
Theorem Reconcile_after_deletion req e get r h :
  IsNotFound e = true → converged_hash get h →
  let id := DeploymentID (req_Namespace req) (req_Name req) in
  jobs_for id (observe (observe r (req, Err e)) (req, get)) = jobs_for id r ++ [h].
Proof.
  intros He Hh id.
  assert (Hf : observe r (req, Err e) = forgetAttested id r).
  { unfold observe, Reconcile. simpl. by rewrite He. }
  rewrite Hf.
  destruct (observe_converged (req_Namespace req) (req_Name req) (req, get) h
    (forgetAttested id r)) as [_ Hnew]; [done..|].
  apply Hnew. simpl. fold id. by rewrite lookup_delete_eq.
Qed.
End Controller.

(** ** The controller and the v1 publisher on concrete objects *)

Module ControllerWitness.
Import Concrete Insertion Fixtures ToyCrypto ListQueue.

Definition not_found : error := errors_New "not found".
Definition api_down : error := errors_New "connection refused".
Definition is_not_found (e : error) : bool := errors_Is e "not found".

Definition api : Request := {| req_Namespace := "payments"; req_Name := "api" |}.
Definition api_id : bytes32 := DeploymentID "payments" "api".

(** The baseline scaled to [n] replicas, with the rollout finished. *)
Definition scaled (n : Z) : Deployment :=
  mk_deployment "payments" "api" (d_Labels baseline) (Some n) (d_Selector baseline)
    (d_TemplateLabels baseline) (d_TemplateSpec baseline).

Definition hash_of (n : Z) : bytes32 :=
  match ConfigHashForVersion CurrentVersion (scaled n) with Ok h => h | Err _ => zero32 end.

Definition empty_reconciler : DeploymentReconciler := SetupWithManager None.

Lemma scaled_converged n :
  rolloutConverged (scaled n) = true → is_ok (ConfigHashForVersion CurrentVersion (scaled n)) = true →
  converged_hash (Ok (scaled n)) (hash_of n).
Proof.
  intros Hc Hh. exists (scaled n). split_and!; [done|by apply rolloutConverged_spec|].
  unfold hash_of.
  by destruct (ConfigHashForVersion CurrentVersion (scaled n)).
Defined.

Lemma Reconcile_exact_witness :
  (Reconcile is_not_found api (Err api_down) empty_reconciler).1 = Some api_down ∧
  lastAttested (Reconcile is_not_found api (Err not_found)
    {| lastAttested := <[api_id := zero32]> ∅; enqueued := [] |}).2 = ∅ ∧
  (Reconcile is_not_found api (Ok (scaled 3)) empty_reconciler).2 ≠ empty_reconciler.
Proof.
  split_and!.
  - apply (Reconcile_exact is_not_found api (Err api_down) empty_reconciler). done.
  - destruct (Reconcile_exact is_not_found api (Err not_found)
      {| lastAttested := <[api_id := zero32]> ∅; enqueued := [] |}) as (_ & Hf & _).
    destruct (Hf not_found) as [-> _]; [reflexivity..|]. vm_compute. reflexivity.
  - destruct (Reconcile_exact is_not_found api (Ok (scaled 3)) empty_reconciler) as (_ & _ & Hj & _).
    destruct (Hj (hash_of 3)) as [_ Hq].
    + apply scaled_converged; vm_compute; reflexivity.
    + vm_compute. discriminate.
    + intros E. by rewrite E in Hq.
Defined.

(** Scale to 3, again 3, to 5, and back to 3. *)
Lemma Reconcile_enqueues_changes_witness :
  jobs_for api_id (foldl (observe is_not_found) empty_reconciler
    [(api, Ok (scaled 3)); (api, Ok (scaled 3)); (api, Ok (scaled 5)); (api, Ok (scaled 3))]) =
  [hash_of 3; hash_of 5; hash_of 3].
Proof.
  rewrite (Reconcile_enqueues_changes is_not_found "payments" "api" _
    [hash_of 3; hash_of 3; hash_of 5; hash_of 3]).
  - vm_compute. reflexivity.
  - repeat constructor; apply scaled_converged; vm_compute; reflexivity.
Defined.

Lemma Reconcile_after_deletion_witness :
  jobs_for api_id (observe is_not_found (observe is_not_found
    (observe is_not_found empty_reconciler (api, Ok (scaled 3))) (api, Err not_found))
    (api, Ok (scaled 3))) = [hash_of 3; hash_of 3].
Proof.
  rewrite (Reconcile_after_deletion is_not_found api not_found (Ok (scaled 3)) _ (hash_of 3)).
  - vm_compute. reflexivity.
  - reflexivity.
  - apply scaled_converged; vm_compute; reflexivity.
Defined.

(** A chain that keeps the latest hash per deployment, as the registry does. *)
Definition last_writer : ChainWriter (gmap bytes32 bytes32) :=
  {| cw_PublishAttestation id _ h _ _ w := (Ok "0x1"%string, <[id := h]> w) |}.

Definition v1_signer : Signer (gmap bytes32 bytes32) :=
  {| signer_SignDigest d w := (Ok (toy_sign [Byte.x6b] d), w);
     signer_PublicKeyDER := toy_der [Byte.x6b] |}.

#[local] Instance v1_signer_attests : AttestSigner v1_signer.
Proof.
  split; [done|]. intros k d w sig w' [= <-] [= <- _]. split; [done|].
  unfold VerifyConfigHashSignature. simpl. by apply bool_decide_eq_true_2.
Qed.

Definition v1_start : @PSt (gmap bytes32 bytes32) (list Job) :=
  {| publ := New [] v1_signer last_writer; pworld := ∅; plog := [] |}.

Definition job_of (n : Z) : Job :=
  {| j_DeploymentID := api_id; j_Version := CurrentVersion; j_ConfigHash := hash_of n;
     j_NamespacedName := "payments/api" |}.

Definition work (s : @PSt (gmap bytes32 bytes32) (list Job)) := default s (processNext s).

Lemma work_step s :
  match processNext s with Some _ => true | None => false end = true → pstep s (work s).
Proof. intros E. apply pstep_worker. unfold work. by destruct (processNext s). Qed.

Lemma v1_job_not_lost_witness : job_safe (job_of 3) (work (Enqueue (job_of 3) v1_start)).
Proof.
  apply (v1_job_not_lost (job_of 3) v1_start).
  apply rtc_once, work_step. vm_compute. reflexivity.
Defined.

Lemma v1_publishes_verified_witness :
  ∃ l, plog (process (job_of 3) v1_start).2 = plog v1_start ++ l ∧
    Forall (λ ev, publishes (job_of 3) ev ∧ pb_Signature ev ≠ [] ∧
      VerifyConfigHashSignature ([Byte.x6b] : PublicKey) (SigningDigest CurrentVersion (pb_ConfigHash ev))
        (pb_Signature ev) = true ∧
      pb_Fingerprint ev = PublicKeyFingerprintBytes (toy_der [Byte.x6b])) l.
Proof.
  destruct (process (job_of 3) v1_start) as [err s'] eqn:E.
  exact (v1_publishes_verified (job_of 3) v1_start err s' ([Byte.x6b] : PublicKey)
    v1_signer_attests eq_refl E).
Defined.

(** A chain that is down for a while: it refuses the next [n] publications. *)
Definition flaky_writer : ChainWriter (nat * gmap bytes32 bytes32) :=
  {| cw_PublishAttestation id _ h _ _ w :=
       match w.1 with
       | S n => (Err api_down, (n, w.2))
       | O => (Ok "0x1"%string, (O, <[id := h]> w.2))
       end |}.

Definition flaky_signer : Signer (nat * gmap bytes32 bytes32) :=
  {| signer_SignDigest d w := (Ok (toy_sign [Byte.x6b] d), w);
     signer_PublicKeyDER := toy_der [Byte.x6b] |}.

Definition flaky_start (n : nat) : @PSt (nat * gmap bytes32 bytes32) (list Job) :=
  Enqueue (job_of 5) (Enqueue (job_of 3)
    {| publ := New [] flaky_signer flaky_writer; pworld := (n, ∅); plog := [] |}).

Lemma v1_Start_catches_up_witness :
  ∃ ev, ev ∈ plog (Start 6 (flaky_start 4)) ∧ publishes (job_of 3) ev ∧ pb_ok ev = true.
Proof.
  apply (v1_Start_catches_up fst 6 (flaky_start 4)).
  - split; [by intros d w r w' [= <- <-]; simpl; lia|].
    intros id v h sig fp [[|n] m] r w' _ [= <- <-]; simpl; lia.
  - intros job Hj. assert (Hv : j_Version job = CurrentVersion).
    { unfold flaky_start, Enqueue in Hj. cbn [publ queue pset_queue] in Hj.
      rewrite !todo_Add, !elem_of_union, !elem_of_singleton in Hj.
      by destruct Hj as [->|[->|Hj]]; [..|by apply elem_of_empty in Hj]. }
    by rewrite Hv.
  - vm_compute. reflexivity.
  - vm_compute. tauto.
Defined.


(** A rollback observed before the worker gets to the first job: the third job is the
    first one again, the queue keeps one of the two, and the chain ends on the state
    in the middle while the reconciler remembers the last one as attested. *)
Example v1_rollback_coalesced :
  let r := foldl (observe is_not_found) empty_reconciler
    [(api, Ok (scaled 3)); (api, Ok (scaled 5)); (api, Ok (scaled 3))] in
  let s := work (work (work (foldl (λ s j, Enqueue j s) v1_start (enqueued r)))) in
  lastAttested r !! api_id = Some (hash_of 3) ∧ queue (publ s) = [] ∧
  pworld s !! api_id = Some (hash_of 5) ∧ hash_of 5 ≠ hash_of 3.
Proof. vm_compute. split_and!; [reflexivity..|discriminate]. Qed.
End ControllerWitness.
