(* ===== verification/VerifyCmd.v ===== *)
(** * The verifier (cmd/verify/main.go)

    [runVerify] decides PASS, FAIL or an operational error for a live Deployment.
    The cluster, the chain, the file system and KMS are its environment. *)

From S2P Require Import Prelude Bytes Sha256 GoSort Kube Fixtures Normalize NormalizeV2 Hash.
From S2P Require Import Surface Registry Verify Signer Client.

Open Scope Z_scope.

Record options := {
  o_kubeconfig : string;
  o_kubecontext : string;
  o_namespace : string;
  o_name : string;
  o_rpcURL : string;
  o_contractAddr : string;
  o_publicKeyFile : string;
  o_kmsKeyID : string
}.

(** What a PASS prints. *)
Record pass_report := {
  rp_cluster : string;
  rp_version : Version;
  rp_configHash : bytes32;
  rp_signerFingerprint : bytes32;
  rp_blockTimestamp : Z;
  rp_weak_warning : bool
}.

(** [nil], a [failErr], or any other error. *)
Inductive verdict :=
  | PASS (r : pass_report)
  | FAIL (format : string) (args : list fmt_arg)
  | ERROR (e : error).

Section VerifyCmd.
Context `{Upstream, Sorter, Crypto} {W Tx : Type} `{EthLib W Tx} (RegistryABI : string).

(** client-go's connection settings; only the host is read. *)
Record restConfig := { cfg_Host : string }.

(** A typed client: [AppsV1().Deployments(namespace).Get(name)]. *)
Definition clientset := string → string → result Deployment.

(** The environment of one run: kubeconfig loading (for an explicit path and a context
    override), the API server, the file system, PEM decoding, AWS configuration and the
    state of the remote services. *)
Record Env := {
  env_ClientConfig : string → string → result restConfig;
  env_RawConfig : string → string → result string;
  env_NewForConfig : restConfig → result clientset;
  env_ReadFile : string → result bytes;
  env_pem_Decode : bytes → option bytes;
  env_LoadDefaultConfig : result (kmsAPI W);
  env_world : W
}.

(** The cluster a result names: the context, when there is one, and the host.
    [env_RawConfig] yields the current context. *)
Definition cluster_name (env : Env) (o : options) (cfg : restConfig) : string :=
  match env_RawConfig env (o_kubeconfig o) (o_kubecontext o) with
  | Ok currentContext =>
      let name := if bool_decide (o_kubecontext o = EmptyString) then currentContext
                  else o_kubecontext o in
      if bool_decide (name ≠ EmptyString) then name +:+ " (" +:+ cfg_Host cfg +:+ ")"
      else cfg_Host cfg
  | Err _ => cfg_Host cfg
  end.

Definition getDeployment (env : Env) (o : options) (namespace name : string) :
    result (Deployment * string) :=
  cfg <-? env_ClientConfig env (o_kubeconfig o) (o_kubecontext o);;
  cs <-? env_NewForConfig env cfg;;
  let cluster := cluster_name env o cfg in
  dep <-? cs namespace name;;
  Ok (dep, cluster).

Definition loadPublicKey (env : Env) (o : options) : result bytes :=
  if bool_decide (o_publicKeyFile o ≠ EmptyString) then
    raw <-? env_ReadFile env (o_publicKeyFile o);;
    match env_pem_Decode env raw with
    | Some block => Ok block
    | None => Ok raw
    end
  else if bool_decide (o_kmsKeyID o = EmptyString) then
    Err (fmt_Errorf "provide --public-key or --kms-key-id to obtain the signer key" [] None)
  else
    s <-? (NewKMSSigner (env_LoadDefaultConfig env) (o_kmsKeyID o) (env_world env)).1;;
    Ok (PublicKeyDER s).

(** Steps 3 to 7: from the record to the verdict. *)
Definition check_record (env : Env) (o : options) (dep : Deployment) (cluster : string)
    (att : Attestation) : verdict :=
  let version := HashVersion att in
  if negb (Supported version) then
    ERROR (fmt_Errorf "on-chain record uses %w" [] (Some (ErrUnknownVersion version)))
  else
    match ConfigHashForVersion version dep with
    | Err err => ERROR (fmt_Errorf "hashing deployment: %w" [] (Some err))
    | Ok localHash =>
        if bool_decide (localHash ≠ Client.ConfigHash att) then
          FAIL "config hash mismatch\n  live:    %s\n  onchain: %s\n  the running Deployment differs from the attested state"
            [ArgS (MustHex localHash); ArgS (MustHex (Client.ConfigHash att))]
        else
          match loadPublicKey env o with
          | Err err => ERROR (fmt_Errorf "loading signer public key: %w" [] (Some err))
          | Ok pubDER =>
              let got := PublicKeyFingerprintBytes pubDER in
              if bool_decide (got ≠ SignerFingerprint att) then
                FAIL "signer fingerprint mismatch\n  expected: %s\n  onchain:  %s\n  attestation was signed by an unexpected key"
                  [ArgS (MustHex got); ArgS (MustHex (SignerFingerprint att))]
              else
                match ParsePublicKeyDER pubDER with
                | Err err => ERROR (fmt_Errorf "parsing signer public key: %w" [] (Some err))
                | Ok pub =>
                    if negb (VerifyConfigHashSignature pub (SigningDigest version localHash)
                               (Signature att)) then
                      FAIL "signature verification failed for the attested config hash" []
                    else
                      PASS {| rp_cluster := cluster; rp_version := version;
                              rp_configHash := localHash;
                              rp_signerFingerprint := SignerFingerprint att;
                              rp_blockTimestamp := BlockTimestamp att;
                              rp_weak_warning := IsWeakSurface version |}
                end
          end
    end.

Definition runVerify (env : Env) (o : options) : verdict :=
  if bool_decide (o_rpcURL o = EmptyString) || bool_decide (o_contractAddr o = EmptyString) then
    ERROR (fmt_Errorf "--eth-rpc-url and --contract-address are required" [] None)
  else
    match getDeployment env o (o_namespace o) (o_name o) with
    | Err err => ERROR (fmt_Errorf "reading deployment: %w" [] (Some err))
    | Ok (dep, cluster) =>
        let id := DeploymentID (o_namespace o) (o_name o) in
        match NewReader RegistryABI (o_rpcURL o) (o_contractAddr o) with
        | Err err => ERROR err
        | Ok reader =>
            match (LatestAttestation reader id (env_world env)).1 with
            | Err err => ERROR err
            | Ok att =>
                if negb (Exists att) then
                  FAIL "no attestation found on-chain for %s/%s"
                    [ArgS (o_namespace o); ArgS (o_name o)]
                else check_record env o dep cluster att
            end
        end
    end.

(** [main]: the process's exit status. *)
Definition exit_status (v : verdict) : Z :=
  match v with PASS _ => 0 | FAIL _ _ | ERROR _ => 1 end.

(** The record the run sees. *)
Definition reads_record (env : Env) (o : options) (att : Attestation) : Prop :=
  ∃ reader, NewReader RegistryABI (o_rpcURL o) (o_contractAddr o) = Ok reader ∧
    (LatestAttestation reader (DeploymentID (o_namespace o) (o_name o)) (env_world env)).1 =
    Ok att.

(** The record is an attestation of this Deployment under this key. *)
Definition attests (att : Attestation) (der : bytes) (dep : Deployment) : Prop :=
  Exists att = true ∧ Supported (HashVersion att) = true ∧
  ConfigHashForVersion (HashVersion att) dep = Ok (Client.ConfigHash att) ∧
  SignerFingerprint att = PublicKeyFingerprintBytes der ∧
  ∃ k, ParsePublicKeyDER der = Ok k ∧
    VerifyConfigHashSignature k (SigningDigest (HashVersion att) (Client.ConfigHash att))
      (Signature att) = true.

Lemma check_record_PASS env o dep cluster att r :
  Exists att = true →
  check_record env o dep cluster att = PASS r ↔
  ∃ der, loadPublicKey env o = Ok der ∧ attests att der dep ∧
    r = {| rp_cluster := cluster; rp_version := HashVersion att;
           rp_configHash := Client.ConfigHash att; rp_signerFingerprint := SignerFingerprint att;
           rp_blockTimestamp := BlockTimestamp att;
           rp_weak_warning := IsWeakSurface (HashVersion att) |}.
Proof.
  intros He. unfold check_record, attests. split.
  - destruct (Supported _); [|done]. cbn [negb].
    destruct (ConfigHashForVersion _ dep) as [h|] eqn:Ehash; [|done].
    case_bool_decide as Hh; [done|]. subst h.
    destruct (loadPublicKey env o) as [der|]; [|done].
    case_bool_decide as Hf; [done|].
    destruct (ParsePublicKeyDER der) as [k|] eqn:Hk; [|done].
    destruct (VerifyConfigHashSignature _ _ _) eqn:Hv; [|done]. intros [= <-].
    exists der. split; [done|]. split; [|done]. split_and!; [done..|by exists k].
  - intros (der & Hl & (_ & Hs & Hh & Hf & k & Hk & Hv) & ->).
    rewrite Hs, Hh. cbn [negb]. rewrite bool_decide_false by (intros E; by apply E).
    rewrite Hl, bool_decide_false by (intros E; by apply E). rewrite Hk, Hv. done.
Qed.

(** C14: PASS is exact: the process exits with status 0 exactly on PASS, and it prints
    PASS exactly when it read a Deployment and an
    existing record for its id, the record's version is one this build implements, the
    live Deployment hashes to the recorded value under that version, the recorded
    fingerprint is that of the key it was given, and the recorded signature verifies
    under that key over the version-bound digest; the warning about the weak surface
    is printed exactly for version 1. *)
Theorem runVerify_PASS env o :
  (exit_status (runVerify env o) = 0 ↔ ∃ r, runVerify env o = PASS r) ∧
  ∀ r, runVerify env o = PASS r ↔
  o_rpcURL o ≠ EmptyString ∧ o_contractAddr o ≠ EmptyString ∧
  ∃ dep cluster att der, getDeployment env o (o_namespace o) (o_name o) = Ok (dep, cluster) ∧
    reads_record env o att ∧ loadPublicKey env o = Ok der ∧ attests att der dep ∧
    r = {| rp_cluster := cluster; rp_version := HashVersion att;
           rp_configHash := Client.ConfigHash att; rp_signerFingerprint := SignerFingerprint att;
           rp_blockTimestamp := BlockTimestamp att;
           rp_weak_warning := IsWeakSurface (HashVersion att) |}.
Proof.
  split; [destruct (runVerify env o); naive_solver|].
  intros r. unfold runVerify, reads_record. split.
  - case_bool_decide as H1'; [done|]. case_bool_decide as H2'; [done|]. cbn [orb].
    destruct (getDeployment _ _ _ _) as [[dep cluster]|]; [|done].
    destruct (NewReader _ _ _) as [reader|]; [|done].
    destruct (LatestAttestation _ _ _).1 as [att|] eqn:Ea; [|done].
    destruct (Exists att) eqn:Ex; [|done]. cbn [negb].
    intros (der & Hl & Ha & ->)%check_record_PASS; [|done]. eauto 15.
  - intros (H1' & H2' & dep & cluster & att & der & -> & (reader & -> & Hatt) & Hl & Ha & ->).
    rewrite !bool_decide_false by done. cbn [orb]. rewrite Hatt.
    rewrite (proj1 Ha). cbn [negb]. apply check_record_PASS; [apply Ha|]. eauto.
Qed.

Lemma runVerify_PASS_inv env o r :
  runVerify env o = PASS r →
  ∃ dep cluster att der, getDeployment env o (o_namespace o) (o_name o) = Ok (dep, cluster) ∧
    reads_record env o att ∧ loadPublicKey env o = Ok der ∧ attests att der dep.
Proof.
  unfold runVerify. destruct (_ || _); [done|].
  destruct (getDeployment _ _ _ _) as [[dep cluster]|]; [|done].
  destruct (NewReader _ _ _) as [reader|] eqn:Er; [|done].
  destruct (LatestAttestation _ _ _).1 as [att|] eqn:Ea; [|done].
  destruct (Exists att) eqn:Ex; [|done]. cbn [negb].
  intros (der & Hl & Ha & _)%check_record_PASS; [|done].
  exists dep, cluster, att, der. split_and!; [done| |done|done]. by exists reader.
Qed.

(** C15: a PASS detects tampering: if the verifier passes a live Deployment, then every
    Deployment whose hash is the recorded one agrees with the live one on the whole
    surface of the record's protocol version, or two explicit encodings collide under
    SHA-256.  In particular a v2 PASS covers every field v2 covers. *)
Theorem runVerify_detects_tampering env o r dep cluster att dep0 :
  runVerify env o = PASS r →
  getDeployment env o (o_namespace o) (o_name o) = Ok (dep, cluster) →
  reads_record env o att →
  hashable _ (HashVersion att) dep → hashable _ (HashVersion att) dep0 →
  ConfigHashForVersion (HashVersion att) dep0 = Ok (Client.ConfigHash att) →
  surface_equiv (HashVersion att) dep dep0 ∨
  ∃ b b', canonical_bytes _ (HashVersion att) dep = Ok b ∧
          canonical_bytes _ (HashVersion att) dep0 = Ok b' ∧ collision b b'.
Proof.
  intros (dep' & cl & att' & der & Hg & (rd & Hr & Ha) & _ & _ & _ & Hh & _)%runVerify_PASS_inv
    Hg' (rd' & Hr' & Ha') Hd Hd0 Hh0.
  rewrite Hg in Hg'. injection Hg' as -> ->. rewrite Hr in Hr'. injection Hr' as ->.
  rewrite Ha in Ha'. injection Ha' as ->. by eapply hash_binding.
Qed.

(** No downgrade: a record with a version this build does not implement never
    passes and is never hashed under another version's rules; the run ends in the
    unknown-version error, whatever the record's hash and signature say. *)
Theorem runVerify_no_downgrade env o att dep cluster :
  o_rpcURL o ≠ EmptyString → o_contractAddr o ≠ EmptyString →
  getDeployment env o (o_namespace o) (o_name o) = Ok (dep, cluster) →
  reads_record env o att → Exists att = true → Supported (HashVersion att) = false →
  runVerify env o =
  ERROR (fmt_Errorf "on-chain record uses %w" [] (Some (ErrUnknownVersion (HashVersion att)))).
Proof.
  intros H1' H2' Hg (rd & Hr & Ha) He Hs. unfold runVerify.
  rewrite !bool_decide_false by done. cbn [orb]. rewrite Hg, Hr, Ha, He. cbn [negb].
  unfold check_record. by rewrite Hs.
Qed.

(** The same environment, with another object behind the API server's answers. *)
Definition swap_live (live : Deployment) (env : Env) : Env := {|
  env_ClientConfig := env_ClientConfig env;
  env_RawConfig := env_RawConfig env;
  env_NewForConfig cfg :=
    cs <-? env_NewForConfig env cfg;;
    Ok (λ namespace name, _ <-? cs namespace name;; Ok live);
  env_ReadFile := env_ReadFile env;
  env_pem_Decode := env_pem_Decode env;
  env_LoadDefaultConfig := env_LoadDefaultConfig env;
  env_world := env_world env
|}.

Lemma getDeployment_swap env o namespace name dep cluster live :
  getDeployment env o namespace name = Ok (dep, cluster) →
  getDeployment (swap_live live env) o namespace name = Ok (live, cluster).
Proof.
  unfold getDeployment. simpl. destruct (env_ClientConfig _ _ _) as [cfg|]; [|done]. simpl.
  destruct (env_NewForConfig env cfg) as [cs|]; [|done]. simpl.
  destruct (cs namespace name) as [d|]; [|done]. simpl. by intros [= _ <-].
Qed.

(** C16: the verifier reads the surface and nothing else: two live Deployments that agree
    on the surface of the record's version (under v1 with distinct container names, as
    Kubernetes demands) get the same verdict, with the same report or
    the same message, so a v1 record cannot tell a tampered Deployment from the attested
    one wherever v1 does not look, and no difference off the surface can make a
    verification fail. *)
Theorem runVerify_reads_surface env o dep cluster att live :
  getDeployment env o (o_namespace o) (o_name o) = Ok (dep, cluster) →
  reads_record env o att → sortable (HashVersion att) dep →
  surface_equiv (HashVersion att) dep live →
  runVerify (swap_live live env) o = runVerify env o.
Proof.
  intros Hg (rd & Hr & Ha) Hs He. unfold runVerify.
  rewrite (getDeployment_swap _ _ _ _ _ _ live Hg), Hg, Hr. simpl. rewrite Ha.
  unfold check_record. by rewrite <- (config_hash_setoid _ _ dep live (conj Hs He)).
Qed.
End VerifyCmd.

(** ** The verifier over a concrete registry *)

Module VerifyWitness.
Import Concrete Insertion Fixtures ToyCrypto.

(** A node that answers [getLatest] from a registry's state. *)
Definition registry_backend : Backend RegistryV1.state unit :=
  {| eth_Transact _ _ _ w := (Err (errors_New "read only"), w);
     eth_Call _ args w :=
       match args with
       | [ABytes32 id] => (Ok (RegistryV1.getLatest w id), w)
       | _ => (Err (errors_New "bad arguments"), w)
       end;
     eth_SendTransaction _ w := (Some (errors_New "read only"), w);
     eth_WaitMined _ w := (Err (errors_New "read only"), w);
     eth_Hash _ := "0x"%string |}.

#[export] Instance registry_eth : EthLib RegistryV1.state unit := {|
  DialContext _ := Ok registry_backend;
  abi_JSON _ := Ok ();
  HexToAddress _ := zero_address;
  ecdsa_PrivateKey := unit;
  HexToECDSA _ := Ok ();
  NewKeyedTransactorWithChainID _ _ := Ok ()
|}.

Definition operator : bytes := replicate 20 Byte.x0a.
Definition block (t : Z) : msg := {| msg_sender := operator; block_timestamp := t |}.
Definition key : bytes := [Byte.x6b].

(** The registry after one publication for demo/api. *)
Definition after (v : Z) (h : bytes32) : RegistryV1.state :=
  match RegistryV1.publish (block 1700000000)
    {| RegistryV1.deploymentId := DeploymentID "demo" "api"; RegistryV1.a_hashVersion := v;
       RegistryV1.a_configHash := h; RegistryV1.a_signature := toy_sign key (SigningDigest v h);
       RegistryV1.a_signerFingerprint := PublicKeyFingerprintBytes (toy_der key) |}
    {| RegistryV1.publisher := operator; RegistryV1.latest := ∅ |} with
  | inl s => s
  | inr _ => {| RegistryV1.publisher := operator; RegistryV1.latest := ∅ |}
  end.

Definition attested (v : Version) (dep : Deployment) : RegistryV1.state :=
  match ConfigHashForVersion v dep with Ok h => after v h | Err _ => after v zero32 end.

Definition opts : options :=
  {| o_kubeconfig := EmptyString; o_kubecontext := EmptyString;
     o_namespace := "demo"; o_name := "api";
     o_rpcURL := "http://rpc"; o_contractAddr := "0x1";
     o_publicKeyFile := "key.der"; o_kmsKeyID := EmptyString |}.

Definition env_of (live : Deployment) (reg : RegistryV1.state) : @Env _ RegistryV1.state :=
  {| env_ClientConfig _ _ := Ok {| cfg_Host := "https://cluster" |};
     env_RawConfig _ _ := Ok "prod"%string; env_NewForConfig _ := Ok (λ _ _, Ok live);
     env_ReadFile _ := Ok (toy_der key);
     env_pem_Decode _ := None;
     env_LoadDefaultConfig := Err (errors_New "no AWS"); env_world := reg |}.

(** Whether a run passed, and then whether it warned. *)
Definition is_pass (v : verdict) : option bool :=
  match v with PASS r => Some (rp_weak_warning r) | _ => None end.

(** What the registry then holds. *)
Definition record_of (v : Z) (h : bytes32) : Attestation :=
  {| Client.ConfigHash := h; Signature := toy_sign key (SigningDigest v h);
     SignerFingerprint := PublicKeyFingerprintBytes (toy_der key);
     BlockTimestamp := 1700000000; HashVersion := v; Exists := true |}.

Lemma sees_record live v h :
  v ≠ 0 → reads_record "abi" (env_of live (after v h)) opts (record_of v h).
Proof.
  intros Hv. eexists. split; [reflexivity|].
  change (decode_attestation (RegistryV1.getLatest (after v h) (DeploymentID "demo" "api")) =
          Ok (record_of v h)).
  rewrite decode_v1_record. unfold after, RegistryV1.publish, RegistryV1.read.
  cbn [RegistryV1.a_hashVersion RegistryV1.deploymentId].
  rewrite bool_decide_false by (intros E; by apply E).
  rewrite (proj2 (Z.eqb_neq v 0)) by done. cbn [RegistryV1.latest]. by rewrite lookup_insert_eq.
Qed.

(** The tampered workload of 09 passes against the v1 attestation of 08, with the
    warning. *)
Example v1_misses_tampering :
  is_pass (runVerify "abi" (env_of tampered (attested V1 benign)) opts) = Some true.
Proof. vm_compute. reflexivity. Qed.

(** Against the v2 attestation it fails, and the benign one passes without warning. *)
Example v2_sees_tampering :
  is_pass (runVerify "abi" (env_of benign (attested V2 benign)) opts) = Some false ∧
  is_pass (runVerify "abi" (env_of tampered (attested V2 benign)) opts) = None.
Proof. vm_compute. split; reflexivity. Qed.

Lemma runVerify_detects_tampering_witness :
  surface_equiv V1 tampered benign ∨
  ∃ b b', canonical_bytes _ V1 tampered = Ok b ∧ canonical_bytes _ V1 benign = Ok b' ∧
          collision b b'.
Proof.
  pose proof v1_misses_tampering as E. unfold attested in E.
  destruct (ConfigHashForVersion V1 benign) as [h|] eqn:Eh.
  2: { assert (Hh : is_ok (ConfigHashForVersion V1 benign) = true) by (vm_compute; reflexivity).
       rewrite Eh in Hh. discriminate. }
  destruct (runVerify "abi" (env_of tampered (after V1 h)) opts) as [r| |] eqn:Er;
    [|discriminate..].
  apply (runVerify_detects_tampering "abi" (env_of tampered (after V1 h)) opts r tampered
    "prod (https://cluster)" (record_of V1 h) benign Er eq_refl).
  - apply sees_record. discriminate.
  - apply HashWitness.hashable_v1. vm_compute. reflexivity.
  - apply HashWitness.hashable_v1. vm_compute. reflexivity.
  - exact Eh.
Defined.

Lemma benign_looks_tampered : v1_equiv benign tampered.
Proof.
  apply (v1_canonical_eq insertion_sorter insertion_sorter);
    [vm_compute; reflexivity..| |vm_compute; reflexivity].
  apply HashWitness.distinct_names. vm_compute. reflexivity.
Qed.

(** To v1 the tampered Deployment is the benign one. *)
Lemma runVerify_reads_surface_witness :
  ∃ h, ConfigHashForVersion V1 benign = Ok h ∧
    runVerify "abi" (swap_live tampered (env_of benign (after V1 h))) opts =
    runVerify "abi" (env_of benign (after V1 h)) opts.
Proof.
  destruct (ConfigHashForVersion V1 benign) as [h|] eqn:Eh.
  2: { assert (Hh : is_ok (ConfigHashForVersion V1 benign) = true) by (vm_compute; reflexivity).
       rewrite Eh in Hh. discriminate. }
  exists h. split; [reflexivity|].
  apply (runVerify_reads_surface "abi" (env_of benign (after V1 h)) opts benign
    "prod (https://cluster)" (record_of V1 h)).
  - reflexivity.
  - apply sees_record. discriminate.
  - intros _. apply HashWitness.distinct_names. vm_compute. reflexivity.
  - exact benign_looks_tampered.
Defined.

(** A record of a version 3 that a later operator wrote. *)
Lemma runVerify_no_downgrade_witness :
  runVerify "abi" (env_of benign (after 3 zero32)) opts =
  ERROR (fmt_Errorf "on-chain record uses %w" [] (Some (ErrUnknownVersion 3))).
Proof.
  apply (runVerify_no_downgrade "abi" (env_of benign (after 3 zero32)) opts
    (record_of 3 zero32) benign "prod (https://cluster)"); try discriminate.
  - reflexivity.
  - apply sees_record. discriminate.
  - reflexivity.
  - reflexivity.
Defined.
End VerifyWitness.
