(* ===== verification/EndToEnd.v ===== *)
(** * From the cluster to the verdict

    The composition of the reconciler's hash, the v1 publisher, the v1 registry and
    the verifier: what an honest operator publishes passes, and goes on passing for
    exactly the Deployments that agree with it on the attested surface. *)

From S2P Require Import Prelude Bytes Sha256 GoSort GoJson Decimals Kube Fixtures.
From S2P Require Import Normalize NormalizeV2 Hash Registry Verify Signer Client WorkQueue.
From S2P Require Import Publisher Controller VerifyCmd.

Open Scope Z_scope.

(** The contract call a publication makes. *)
Definition call_of (ev : publication) : RegistryV1.call :=
  {| RegistryV1.deploymentId := pb_DeploymentID ev; RegistryV1.a_hashVersion := pb_HashVersion ev;
     RegistryV1.a_configHash := pb_ConfigHash ev; RegistryV1.a_signature := pb_Signature ev;
     RegistryV1.a_signerFingerprint := pb_Fingerprint ev |}.

Definition job_for (ns name : string) (h : bytes32) : Job :=
  {| j_DeploymentID := DeploymentID ns name; j_Version := CurrentVersion; j_ConfigHash := h;
     j_NamespacedName := ns +:+ "/" +:+ name |}.

Section EndToEnd.
Context `{Upstream} (S1 S2 : Sorter).
Context `{Crypto} {W Tx : Type} `{EthLib W Tx} (RegistryABI : string).
Context {Q : Type} `{!WorkQueue Job Q}.

(** The record after the contract took a publication. *)
Lemma published_record m ev s s' :
  RegistryV1.publish m (call_of ev) s = inl s' →
  decode_attestation (RegistryV1.getLatest s' (pb_DeploymentID ev)) =
  Ok {| Client.ConfigHash := pb_ConfigHash ev; Signature := pb_Signature ev;
        SignerFingerprint := pb_Fingerprint ev;
        BlockTimestamp := uint64 (block_timestamp m); HashVersion := pb_HashVersion ev;
        Exists := true |}.
Proof.
  intros (_ & _ & ->)%RegistryV1Facts.publish_effect. rewrite decode_v1_record.
  unfold RegistryV1.read. simpl. by rewrite lookup_insert_eq.
Qed.

(** The verifier is pointed at this registry state and holds this key. *)
Definition verifier_sees (env : @Env _ W) (o : options) (reg : RegistryV1.state) (der : bytes) :
    Prop :=
  o_rpcURL o ≠ EmptyString ∧ o_contractAddr o ≠ EmptyString ∧
  (∃ reader w', NewReader RegistryABI (o_rpcURL o) (o_contractAddr o) = Ok reader ∧
     eth_Call (contract reader) "getLatest" [ABytes32 (DeploymentID (o_namespace o) (o_name o))]
       (env_world env) =
     (Ok (RegistryV1.getLatest reg (DeploymentID (o_namespace o) (o_name o))), w')) ∧
  loadPublicKey env o = Ok der.

(** A publication that verifies, once the contract took it, makes the verifier pass. *)
Definition verified_by (k : PublicKey) (der : bytes) (ev : publication) : Prop :=
  VerifyConfigHashSignature k (SigningDigest CurrentVersion (pb_ConfigHash ev))
    (pb_Signature ev) = true ∧
  pb_Fingerprint ev = PublicKeyFingerprintBytes der.

Lemma published_passes dep dep' h cluster o env der ev m reg reg' k :
  ParsePublicKeyDER der = Ok k →
  @ConfigHashForVersion _ S1 CurrentVersion dep = Ok h →
  publishes (job_for (o_namespace o) (o_name o) h) ev → verified_by k der ev →
  RegistryV1.publish m (call_of ev) reg = inl reg' →
  verifier_sees env o reg' der →
  getDeployment env o (o_namespace o) (o_name o) = Ok (dep', cluster) →
  hashable S1 CurrentVersion dep → hashable S2 CurrentVersion dep' →
  v1_equiv dep dep' →
  runVerify (H0 := S2) RegistryABI env o =
  PASS {| rp_cluster := cluster; rp_version := V1; rp_configHash := h;
          rp_signerFingerprint := PublicKeyFingerprintBytes der;
          rp_blockTimestamp := uint64 (block_timestamp m); rp_weak_warning := true |}.
Proof.
  intros Hk Hh (Hid & Hver & Hhash) [Hv Hfp] Hpub
    (Hu & Hc & (reader & w' & Hr & Hcall) & Hkey) Hg Hd Hd' Heq.
  apply published_record in Hpub. rewrite Hid in Hpub. cbn [j_DeploymentID job_for] in Hpub.
  assert (Hh' : @ConfigHashForVersion _ S2 CurrentVersion dep' = Ok h)
    by (eapply (hash_complete S1 S2 CurrentVersion dep dep'); done).
  unfold runVerify. rewrite !bool_decide_false by done. cbn [orb]. rewrite Hg, Hr.
  unfold LatestAttestation. rewrite Hcall. cbn [fst]. rewrite Hpub. cbn [Exists negb].
  apply check_record_PASS; [done|]. exists der.
  split; [done|]. rewrite Hver, Hhash, Hfp. split; [|done].
  unfold attests. cbn [Exists HashVersion Client.ConfigHash SignerFingerprint Signature].
  split_and!; [done|done|done|done|]. exists k. split; [done|]. by rewrite Hhash in Hv.
Qed.

(** What the operator publishes, the verifier passes: when the v1 publisher signs and
    hands to the contract the job of a converged Deployment, a verifier that reads that
    registry with the operator's public key prints PASS (with the weak-surface warning)
    for that Deployment, and for every live one that agrees with it on the v1 surface,
    whichever order the sorts of the two programs produce. *)
Theorem publish_then_verify_passes dep dep' h cluster o env ps err ps' ev m reg reg' k :
  let job := job_for (o_namespace o) (o_name o) h in
  let der := signer_PublicKeyDER (signer (publ ps)) in
  AttestSigner (signer (publ ps)) → ParsePublicKeyDER der = Ok k →
  @ConfigHashForVersion _ S1 CurrentVersion dep = Ok h →
  process (W := W) (Q := Q) job ps = (err, ps') → plog ps' = plog ps ++ [ev] →
  RegistryV1.publish m (call_of ev) reg = inl reg' →
  verifier_sees env o reg' der →
  getDeployment env o (o_namespace o) (o_name o) = Ok (dep', cluster) →
  hashable S1 CurrentVersion dep → hashable S2 CurrentVersion dep' →
  v1_equiv dep dep' →
  runVerify (H0 := S2) RegistryABI env o =
  PASS {| rp_cluster := cluster; rp_version := V1; rp_configHash := h;
          rp_signerFingerprint := PublicKeyFingerprintBytes der;
          rp_blockTimestamp := uint64 (block_timestamp m); rp_weak_warning := true |}.
Proof.
  intros job der Ha Hk Hh Hp Hl Hpub Hsee Hg Hd Hd' Heq.
  destruct (process_verified job ps err ps' k Ha Hk Hp) as (l & Hl' & Hev).
  rewrite Hl in Hl'. apply app_inv_head in Hl' as <-.
  apply Forall_singleton in Hev as (Hj & _ & Hv).
  by apply (published_passes dep dep' h cluster o env der ev m reg reg' k).
Qed.
End EndToEnd.

(** ** One publication and one verification, on fixtures 08 and 09 *)

Module EndToEndWitness.
Import Concrete Insertion Fixtures ToyCrypto ListQueue VerifyWitness.

Definition operator_signer : Signer RegistryV1.state :=
  {| signer_SignDigest d w := (Ok (toy_sign key d), w); signer_PublicKeyDER := toy_der key |}.

#[local] Instance operator_signer_attests : AttestSigner operator_signer.
Proof.
  split; [done|]. intros k d w sig w' [= <-] [= <- _]. split; [done|].
  unfold VerifyConfigHashSignature. simpl. by apply bool_decide_eq_true_2.
Qed.

(** A chain that takes the transaction; the contract runs it below. *)
Definition accepting : ChainWriter RegistryV1.state :=
  {| cw_PublishAttestation _ _ _ _ _ w := (Ok "0x1"%string, w) |}.

Definition empty_registry : RegistryV1.state :=
  {| RegistryV1.publisher := operator; RegistryV1.latest := ∅ |}.

Definition start : @PSt RegistryV1.state (list Job) :=
  {| publ := New [] operator_signer accepting; pworld := empty_registry; plog := [] |}.

Definition event (h : bytes32) : publication :=
  {| pb_DeploymentID := DeploymentID "demo" "api"; pb_HashVersion := uint16 CurrentVersion;
     pb_ConfigHash := h; pb_Signature := toy_sign key (SigningDigest CurrentVersion h);
     pb_Fingerprint := PublicKeyFingerprintBytes (toy_der key); pb_ok := true |}.

Lemma publish_then_verify_passes_witness :
  ∃ h reg, ConfigHashForVersion CurrentVersion benign = Ok h ∧
    runVerify "abi" (env_of tampered reg) opts =
    PASS {| rp_cluster := "prod (https://cluster)"; rp_version := V1; rp_configHash := h;
            rp_signerFingerprint := PublicKeyFingerprintBytes (toy_der key);
            rp_blockTimestamp := uint64 1700000000; rp_weak_warning := true |}.
Proof.
  assert (Hh : is_ok (ConfigHashForVersion CurrentVersion benign) = true)
    by (vm_compute; reflexivity).
  destruct (ConfigHashForVersion CurrentVersion benign) as [h|] eqn:Eh; [|discriminate].
  destruct (RegistryV1.publish (block 1700000000) (call_of (event h)) empty_registry)
    as [reg|] eqn:Ep; [|discriminate].
  exists h, reg. split; [done|].
  apply (publish_then_verify_passes insertion_sorter insertion_sorter "abi" benign tampered h
    "prod (https://cluster)" opts (env_of tampered reg) start None
    (process (job_for "demo" "api" h) start).2 (event h) (block 1700000000) empty_registry reg
    (key : @PublicKey toy_crypto)).
  - exact operator_signer_attests.
  - reflexivity.
  - exact Eh.
  - reflexivity.
  - reflexivity.
  - exact Ep.
  - split_and!; [discriminate..| |reflexivity].
    eexists _, _. split; reflexivity.
  - reflexivity.
  - apply HashWitness.hashable_v1. vm_compute. reflexivity.
  - apply HashWitness.hashable_v1. vm_compute. reflexivity.
  - apply (v1_canonical_eq insertion_sorter insertion_sorter);
      [vm_compute; reflexivity..| |vm_compute; reflexivity].
    apply HashWitness.distinct_names. vm_compute. reflexivity.
Defined.
End EndToEndWitness.
