(* ===== verification/System.v ===== *)
(** * The v1 system as a whole

    The reconciler, the publisher's worker call by call, the node that mines what it was
    handed, and every other account, as one transition system.  Two theorems close the loop between
    the cluster and the verifier: a PASS is about something the operator observed, and
    what the operator observes becomes verifiable. *)

From S2P Require Import Prelude Bytes Sha256 GoSort Kube Fixtures Normalize NormalizeV2 Hash.
From S2P Require Import Registry Verify Signer Client WorkQueue Publisher PublisherSteps.
From S2P Require Import Controller VerifyCmd EndToEnd.

Open Scope Z_scope.

Section System.
Context `{Upstream} (S1 S2 : Sorter) `{Crypto} {W Tx : Type} `{EthLib W Tx}.
Context (RegistryABI : string) {Q : Type} `{!WorkQueue Job Q} (IsNotFound : error → bool).

(** The operator's process, the contract, and every read the reconciler ever made. *)
Record Sys := {
  sys_reconciler : DeploymentReconciler;
  sys_publisher : @Worker W Q;
  sys_registry : RegistryV1.state;
  sys_observed : list (Request * result Deployment)
}.

(** ** Steps *)

(** One reconcile: the jobs it enqueues go to the publisher's queue. *)
Definition reconcile (req : Request) (get : result Deployment) (s : Sys) : Sys :=
  let '(_, r) := @Reconcile _ S1 IsNotFound req get
    {| lastAttested := lastAttested (sys_reconciler s); enqueued := [] |} in
  {| sys_reconciler := r;
     sys_publisher := foldl (λ k job, enqueue job k) (sys_publisher s) (enqueued r);
     sys_registry := sys_registry s;
     sys_observed := sys_observed s ++ [(req, get)] |}.

Definition with_publisher (p : @Worker W Q) (s : Sys) : Sys :=
  {| sys_reconciler := sys_reconciler s; sys_publisher := p; sys_registry := sys_registry s;
     sys_observed := sys_observed s |}.

(** A call to the contract; a revert leaves it as it was. *)
Definition contract_call (m : msg) (c : RegistryV1.call) (s : Sys) : Sys :=
  {| sys_reconciler := sys_reconciler s; sys_publisher := sys_publisher s;
     sys_registry := match RegistryV1.publish m c (sys_registry s) with
                     | inl reg => reg | inr _ => sys_registry s end;
     sys_observed := sys_observed s |}.

(** Transactions handed to the node may be mined late, in any order, more than once, or
    never, and whatever error was reported for them. *)
Inductive sys_step (operator : bytes) : Sys → Sys → Prop :=
  | sys_reconcile req get s : sys_step operator s (reconcile req get s)
  | sys_work s k : advance (sys_publisher s) = Some k →
      sys_step operator s (with_publisher k s)
  | sys_mine s ev m : ev ∈ plog (wk_st (sys_publisher s)) → msg_sender m = operator →
      sys_step operator s (contract_call m (call_of ev) s)
  | sys_foreign s m c : msg_sender m ≠ operator → sys_step operator s (contract_call m c s).

Definition sys_initial (operator : bytes) (s : Sys) : Prop :=
  RegistryV1.constructor operator = inl (sys_registry s) ∧
  wk_phase (sys_publisher s) = Idle ∧ todo (queue (publ (wk_st (sys_publisher s)))) = ∅ ∧
  plog (wk_st (sys_publisher s)) = [] ∧ sys_observed s = [].

Definition sys_reachable (operator : bytes) (s : Sys) : Prop :=
  ∃ s0, sys_initial operator s0 ∧ rtc (sys_step operator) s0 s.

(** ** Everything on chain was observed *)

(** The job's hash is that of a converged read of its Deployment. *)
Definition justified (obs : list (Request * result Deployment)) (job : Job) : Prop :=
  ∃ req dep, (req, Ok dep) ∈ obs ∧ rolloutConverged dep = true ∧
    j_DeploymentID job = DeploymentID (req_Namespace req) (req_Name req) ∧
    j_Version job = CurrentVersion ∧
    @ConfigHashForVersion _ S1 CurrentVersion dep = Ok (j_ConfigHash job).

Definition record_of_event (ev : publication) (a : RegistryV1.Attestation) : Prop :=
  RegistryV1.configHash a = pb_ConfigHash ev ∧ RegistryV1.hashVersion a = pb_HashVersion ev.

(** The worker's requests and publications are justified. *)
Record worker_inv (obs : list (Request * result Deployment)) (k : @Worker W Q) : Prop := {
  wi_queue job : job ∈ pending (abstraction k) → justified obs job;
  wi_log ev : ev ∈ plog (wk_st k) → ∃ job, justified obs job ∧ publishes job ev
}.

(** The contract is the operator's, and holds only what was handed to the node. *)
Record registry_inv (operator : bytes) (sent : publication → Prop) (reg : RegistryV1.state) : Prop := {
  ri_owner : RegistryV1.publisher reg = operator;
  ri_chain id a : RegistryV1.latest reg !! id = Some a →
    ∃ ev, sent ev ∧ pb_DeploymentID ev = id ∧ record_of_event ev a
}.

Record sys_inv (operator : bytes) (s : Sys) : Prop := {
  si_worker : worker_inv (sys_observed s) (sys_publisher s);
  si_registry : registry_inv operator (λ ev, ev ∈ plog (wk_st (sys_publisher s))) (sys_registry s)
}.

Lemma justified_mono obs o job : justified obs job → justified (obs ++ [o]) job.
Proof. intros (req & dep & Hin & Hj). exists req, dep. split; [set_solver|done]. Qed.

Lemma Reconcile_jobs req get la job :
  job ∈ enqueued (@Reconcile _ S1 IsNotFound req get {| lastAttested := la; enqueued := [] |}).2 →
  justified [(req, get)] job.
Proof.
  unfold Reconcile. destruct get as [dep|e]; [|destruct (IsNotFound e); set_solver].
  destruct (rolloutConverged dep) eqn:Hc; [|set_solver]. cbn [negb].
  destruct (ConfigHashForVersion CurrentVersion dep) as [h|] eqn:Hh; [|set_solver].
  destruct (alreadyAttested _ _ _); [set_solver|]. cbn [snd enqueued enqueue_job recordAttested].
  intros ->%list_elem_of_singleton. exists req, dep. split_and!; [set_solver|done..].
Qed.

(** What enqueueing changes: the pending requests. *)
Lemma foldl_enqueue (k : @Worker W Q) jobs :
  let k' := foldl (λ k job, enqueue job k) k jobs in
  pending (abstraction k') = list_to_set jobs ∪ pending (abstraction k) ∧
  wk_phase k' = wk_phase k ∧ plog (wk_st k') = plog (wk_st k) ∧
  signer (publ (wk_st k')) = signer (publ (wk_st k)) ∧
  chain (publ (wk_st k')) = chain (publ (wk_st k)).
Proof.
  revert k. induction jobs as [|job jobs IH]; intros k; [split_and!; [set_solver|done..]|].
  destruct (IH (enqueue job k)) as (E1 & E2 & E3 & E4 & E5). cbn [foldl].
  split_and!; [|done..]. rewrite E1. simpl. rewrite todo_Add. set_solver.
Qed.

Lemma no_events (P : publication → Prop) l : ∃ l', l = l ++ l' ∧ Forall P l'.
Proof. exists []. by rewrite app_nil_r. Qed.

(** A call of the worker publishes only what is pending, and adds no request. *)
Lemma advance_events (k k' : @Worker W Q) :
  advance k = Some k' →
  pending (abstraction k') ⊆ pending (abstraction k) ∧
  signer (publ (wk_st k')) = signer (publ (wk_st k)) ∧
  ∃ l, plog (wk_st k') = plog (wk_st k) ++ l ∧
    Forall (λ ev, ∃ job, job ∈ pending (abstraction k) ∧ publishes job ev) l.
Proof.
  clear IsNotFound.
  destruct k as [s ph]. unfold advance, abstraction. simpl. destruct ph as [|j|j sig|j [e|]|j].
  - destruct (q_Get _) as [[job q]|] eqn:Eq; [|done]. apply todo_Get in Eq as Hq.
    intros [= <-]. simpl. rewrite Hq. by split_and!; [set_solver|done|apply no_events].
  - unfold sign_call. destruct (signer_SignDigest _ _ _) as [[sig|e] w]; intros [= <-]; simpl;
      by split_and!; [done..|apply no_events].
  - unfold publish_call. destruct (cw_PublishAttestation _ _ _ _ _ _ _) as [[h|e] w];
      intros [= <-]; simpl; (split_and!; [set_solver|done|]); eexists; (split; [done|]);
      (constructor; [|constructor]); exists j; (split; [set_solver|done]).
  - intros [= <-]. simpl. rewrite todo_AddRateLimited. by split_and!; [set_solver|done|apply no_events].
  - intros [= <-]. simpl. rewrite todo_Forget. by split_and!; [done..|apply no_events].
  - intros [= <-]. simpl. rewrite todo_Done. by split_and!; [done..|apply no_events].
Qed.

Lemma worker_inv_new obs (k : @Worker W Q) :
  wk_phase k = Idle → todo (queue (publ (wk_st k))) = ∅ → plog (wk_st k) = [] →
  worker_inv obs k.
Proof.
  destruct k as [p ph]. simpl. intros -> Ht Hl. split; simpl; [rewrite Ht|rewrite Hl]; set_solver.
Qed.

Lemma worker_inv_mono obs o k : worker_inv obs k → worker_inv (obs ++ [o]) k.
Proof.
  intros [I1 I2]. split; [intros job Hj; by apply justified_mono, I1|].
  intros ev Hev. destruct (I2 ev Hev) as (job & Hj & Hp). exists job.
  split; [by apply justified_mono|done].
Qed.

Lemma worker_inv_reconcile obs req get la (k : @Worker W Q) :
  let r := (@Reconcile _ S1 IsNotFound req get {| lastAttested := la; enqueued := [] |}).2 in
  worker_inv obs k →
  worker_inv (obs ++ [(req, get)]) (foldl (λ k job, enqueue job k) k (enqueued r)).
Proof.
  intros r Hk. apply (worker_inv_mono _ (req, get)) in Hk as [I1 I2].
  destruct (foldl_enqueue k (enqueued r)) as (Ht & _ & Hl & _).
  split; [|by rewrite Hl]. intros job. rewrite Ht, elem_of_union, elem_of_list_to_set.
  intros [Hj|Hj]; [|by apply I1]. apply Reconcile_jobs in Hj.
  destruct Hj as (rq & dep & Hin & Hj). exists rq, dep. split; [set_solver|done].
Qed.

Lemma worker_inv_advance obs (k k' : @Worker W Q) :
  advance k = Some k' → worker_inv obs k →
  worker_inv obs k' ∧ ∀ ev, ev ∈ plog (wk_st k) → ev ∈ plog (wk_st k').
Proof.
  intros (Hsub & _ & l & Hl & Hf)%advance_events [I1 I2]. rewrite Forall_forall in Hf.
  rewrite Hl. split; [|set_solver]. split; [intros j Hj; by apply I1, Hsub|].
  rewrite Hl. intros ev [Hev|Hev]%elem_of_app; [by apply I2|].
  destruct (Hf ev Hev) as (job & Hj & Hp). exists job. split; [by apply I1|done].
Qed.

Lemma registry_inv_mono operator (sent sent' : publication → Prop) reg :
  (∀ ev, sent ev → sent' ev) → registry_inv operator sent reg → registry_inv operator sent' reg.
Proof.
  intros Hs [I1 I2]. split; [done|]. intros id a (ev & Hev & Hr)%I2. exists ev. split; [by apply Hs|done].
Qed.

(** What the contract takes is a publication that was handed to the node. *)
Lemma registry_inv_mine operator sent reg m ev reg' :
  sent ev → RegistryV1.publish m (call_of ev) reg = inl reg' →
  registry_inv operator sent reg → registry_inv operator sent reg'.
Proof.
  intros Hev (_ & _ & ->)%RegistryV1Facts.publish_effect [I1 I2].
  split; [done|]. cbn [RegistryV1.latest].
  intros id a [[<- <-]|[_ Ha]]%lookup_insert_Some; [|by apply I2]. by exists ev.
Qed.

(** Other accounts change nothing. *)
Lemma registry_inv_foreign operator sent reg m c :
  msg_sender m ≠ operator → registry_inv operator sent reg →
  ∃ e, RegistryV1.publish m c reg = inr e.
Proof.
  intros Hm [I1 _]. unfold RegistryV1.publish.
  rewrite bool_decide_true by (by rewrite I1). by eexists.
Qed.

Lemma sys_inv_step operator s s' :
  sys_step operator s s' → sys_inv operator s → sys_inv operator s'.
Proof.
  intros Hs [I1 I2]. destruct Hs as [req get s|s k Hn|s ev m Hev Hm|s m c Hm].
  - unfold reconcile.
    pose proof (worker_inv_reconcile _ req get (lastAttested (sys_reconciler s)) _ I1) as Hw.
    destruct (@Reconcile _ S1 IsNotFound req get _) as [err r].
    destruct (foldl_enqueue (sys_publisher s) (enqueued r)) as (_ & _ & Hl & _).
    split; [exact Hw|]. cbn [sys_registry sys_publisher]. by rewrite Hl.
  - destruct (worker_inv_advance _ _ _ Hn I1) as [Hw Hsub]. split; [exact Hw|].
    eapply registry_inv_mono; [exact Hsub|exact I2].
  - unfold contract_call. split; [done|]. cbn [sys_registry sys_publisher].
    destruct (RegistryV1.publish m (call_of ev) (sys_registry s)) as [reg|] eqn:E; [|done].
    by eapply registry_inv_mine.
  - unfold contract_call. split; [done|]. cbn [sys_registry sys_publisher].
    by destruct (registry_inv_foreign _ _ _ m c Hm I2) as [e ->].
Qed.

Lemma registry_inv_new operator sent reg :
  RegistryV1.constructor operator = inl reg → registry_inv operator sent reg.
Proof. unfold RegistryV1.constructor. case_bool_decide; [done|]. by intros [= <-]. Qed.

Lemma sys_reachable_inv operator s : sys_reachable operator s → sys_inv operator s.
Proof.
  intros (s0 & (Hr & Hph & Ht & Hl & Ho) & Hs).
  assert (H0' : sys_inv operator s0).
  { split; [by apply worker_inv_new|by apply registry_inv_new]. }
  clear -Hs H0'. induction Hs as [|s1 s2 s3 H1' _ IH]; [done|]. by apply IH, (sys_inv_step _ s1).
Qed.

(** Where the verifier reads. *)
Definition reads_registry (env : @Env _ W) (o : options) (reg : RegistryV1.state) : Prop :=
  ∃ reader w', NewReader RegistryABI (o_rpcURL o) (o_contractAddr o) = Ok reader ∧
    eth_Call (contract reader) "getLatest" [ABytes32 (DeploymentID (o_namespace o) (o_name o))]
      (env_world env) =
    (Ok (RegistryV1.getLatest reg (DeploymentID (o_namespace o) (o_name o))), w').

(** A PASS is about a converged read, when what the registry holds was sent and what was
    sent is justified. *)
Lemma pass_justified operator sent reg obs env o r live cluster :
  registry_inv operator sent reg →
  (∀ ev, sent ev → ∃ job, justified obs job ∧ publishes job ev) →
  reads_registry env o reg →
  runVerify (H0 := S2) RegistryABI env o = PASS r →
  getDeployment env o (o_namespace o) (o_name o) = Ok (live, cluster) →
  hashable S2 V1 live → (∀ req dep, (req, Ok dep) ∈ obs → hashable S1 V1 dep) →
  ∃ req dep, (req, Ok dep) ∈ obs ∧ rolloutConverged dep = true ∧
    DeploymentID (req_Namespace req) (req_Name req) =
      DeploymentID (o_namespace o) (o_name o) ∧
    (v1_equiv dep live ∨
     ∃ b b', canonical_bytes S1 V1 dep = Ok b ∧ canonical_bytes S2 V1 live = Ok b' ∧
             collision b b').
Proof.
  intros [_ I4] I3 (rd & w' & Hrd & Hcall) Hv Hg Hl Hobs.
  apply runVerify_PASS_inv in Hv as (dep' & cl & att & der & Hg' & (rd' & Hrd' & Ha) & _ & Hat).
  rewrite Hg in Hg'. injection Hg' as <- <-. rewrite Hrd in Hrd'. injection Hrd' as <-.
  unfold LatestAttestation in Ha. rewrite Hcall in Ha. cbn [fst] in Ha.
  rewrite decode_v1_record in Ha. injection Ha as <-. destruct Hat as (Hex & _ & Hh & _).
  unfold RegistryV1.read in Hex, Hh.
  destruct (RegistryV1.latest _ !! _) as [a|] eqn:Ea; [|done].
  destruct (I4 _ _ Ea) as (ev & Hev & Hid & Hc & Hver).
  destruct (I3 _ Hev) as (job & (req & dep & Hin & Hconv & Hjid & Hjv & Hjh) & Hpid & Hpv & Hph).
  change (@ConfigHashForVersion _ S2 (RegistryV1.hashVersion a) live =
          Ok (RegistryV1.configHash a)) in Hh.
  rewrite Hver, Hpv, Hjv, Hc, Hph in Hh.
  exists req, dep. split_and!; [done|done|congruence|].
  exact (hash_binding S1 S2 V1 dep live _ (Hobs _ _ Hin) Hl Hjh Hh).
Qed.

(** A PASS is about something the operator saw: in every reachable state of the
    system, whatever was mined late, repeatedly or out of order and whatever other
    accounts called, if the verifier reading this registry passes a live Deployment,
    then the reconciler read, under this Deployment's id and converged, one that agrees
    with it on the whole v1 surface; or two explicit encodings collide. *)
Theorem pass_was_observed operator s env o r live cluster :
  sys_reachable operator s → reads_registry env o (sys_registry s) →
  runVerify (H0 := S2) RegistryABI env o = PASS r →
  getDeployment env o (o_namespace o) (o_name o) = Ok (live, cluster) →
  hashable S2 V1 live →
  (∀ req dep, (req, Ok dep) ∈ sys_observed s → hashable S1 V1 dep) →
  ∃ req dep, (req, Ok dep) ∈ sys_observed s ∧ rolloutConverged dep = true ∧
    DeploymentID (req_Namespace req) (req_Name req) =
      DeploymentID (o_namespace o) (o_name o) ∧
    (v1_equiv dep live ∨
     ∃ b b', canonical_bytes S1 V1 dep = Ok b ∧ canonical_bytes S2 V1 live = Ok b' ∧
             collision b b').
Proof.
  intros [[_ Hlog] Hreg]%sys_reachable_inv. by eapply pass_justified.
Qed.

(** ** What is observed becomes verifiable *)

Abbreviation sys_st s := (wk_st (sys_publisher s)).

Lemma sys_signer operator s s' :
  sys_step operator s s' → signer (publ (sys_st s')) = signer (publ (sys_st s)).
Proof.
  intros [req get s0|s0 k Hn| |]; simpl; try done.
  - unfold reconcile. destruct (Reconcile _ _ _ _) as [err r].
    by destruct (foldl_enqueue (sys_publisher s0) (enqueued r)) as (_ & _ & _ & ? & _).
  - by apply advance_events in Hn as (_ & ? & _).
Qed.

Lemma sys_signer_rtc operator s s' :
  rtc (sys_step operator) s s' → signer (publ (sys_st s')) = signer (publ (sys_st s)).
Proof. induction 1 as [|s1 s2 s3 Hab _ IH]; [done|]. by rewrite IH, (sys_signer _ _ _ Hab). Qed.

(** What was handed to the chain verifies, and so does a signature in hand. *)
Definition hand_verified (k : PublicKey) (ph : phase) : Prop :=
  match ph with
  | Signed job sig =>
      VerifyConfigHashSignature k (SigningDigest (j_Version job) (j_ConfigHash job)) sig = true
  | _ => True
  end.

Definition worker_verified (k : PublicKey) (p : @Worker W Q) : Prop :=
  hand_verified k (wk_phase p) ∧
  Forall (verified_by k (signer_PublicKeyDER (signer (publ (wk_st p))))) (plog (wk_st p)).

Lemma advance_verified (p p' : @Worker W Q) k :
  AttestSigner (signer (publ (wk_st p))) →
  ParsePublicKeyDER (signer_PublicKeyDER (signer (publ (wk_st p)))) = Ok k →
  (∀ job, job ∈ pending (abstraction p) → j_Version job = CurrentVersion) →
  advance p = Some p' → worker_verified k p → worker_verified k p'.
Proof.
  destruct p as [s ph]. unfold advance, worker_verified. simpl. intros Ha Hk Hv E [Hh Hl].
  destruct ph as [|j|j sig|j [e|]|j].
  - destruct (q_Get _) as [[job q]|]; [|done]. by injection E as <-.
  - unfold sign_call in E. destruct (signer_SignDigest _ _ _) as [[sig|e] w] eqn:Es;
      injection E as <-; (split; [|done]); [|done]. by eapply signer_verifies.
  - unfold publish_call in E. destruct (cw_PublishAttestation _ _ _ _ _ _ _) as [r w].
    injection E as <-. simpl. split; [done|]. apply Forall_app. split; [done|].
    constructor; [|done]. unfold verified_by. simpl in *.
    rewrite <- (Hv j) by (clear; set_solver). done.
  - by injection E as <-.
  - by injection E as <-.
  - by injection E as <-.
Qed.

Lemma verified_step operator s s' k :
  AttestSigner (signer (publ (sys_st s))) →
  ParsePublicKeyDER (signer_PublicKeyDER (signer (publ (sys_st s)))) = Ok k →
  sys_step operator s s' → sys_inv operator s →
  worker_verified k (sys_publisher s) → worker_verified k (sys_publisher s').
Proof.
  intros Ha Hk Hs HI Hl.
  destruct Hs as [req get s|s p Hn|s ev m Hev Hm|s m c Hm]; [| |done..].
  - unfold reconcile. destruct (Reconcile _ _ _ _) as [err r]. unfold worker_verified. simpl.
    destruct (foldl_enqueue (sys_publisher s) (enqueued r)) as (_ & -> & -> & -> & _). exact Hl.
  - eapply advance_verified; [done..| |exact Hn|exact Hl].
    by intros job (req & dep & _ & _ & _ & ? & _)%(wi_queue _ _ (si_worker _ _ HI)).
Qed.

Lemma sys_verified operator s k :
  sys_reachable operator s → AttestSigner (signer (publ (sys_st s))) →
  ParsePublicKeyDER (signer_PublicKeyDER (signer (publ (sys_st s)))) = Ok k →
  worker_verified k (sys_publisher s).
Proof.
  intros (s0 & Hi & Hs) Ha Hk.
  cut (sys_inv operator s ∧ worker_verified k (sys_publisher s)); [tauto|].
  assert (H0' : sys_inv operator s0) by (apply sys_reachable_inv; by exists s0).
  assert (Hl : worker_verified k (sys_publisher s0)).
  { unfold worker_verified. destruct Hi as (_ & -> & _ & -> & _). by split. }
  clear Hi. induction Hs as [|s1 s2 s3 H1' Hr IH]; [done|].
  pose proof (sys_signer_rtc _ _ _ (rtc_l _ _ _ _ H1' Hr)) as Hsg.
  apply IH; [done|done|by eapply sys_inv_step|].
  eapply verified_step; [by rewrite <- Hsg|by rewrite <- Hsg|done..].
Qed.

(** Calls of the worker are system steps. *)
Lemma sys_alone operator s k :
  rtc alone (sys_publisher s) k → rtc (sys_step operator) s (with_publisher k s).
Proof.
  intros Hs. remember (sys_publisher s) as k0 eqn:E. revert s E.
  induction Hs as [k|k1 k2 k3 Ha _ IH]; intros s ->; [by destruct s|].
  eapply rtc_l; [by apply sys_work|]. by apply (IH (with_publisher k2 s)).
Qed.

(** An idle worker's loop, while nothing else happens. *)
Definition run_worker (fuel : nat) (s : Sys) : Sys :=
  with_publisher (idle (Start fuel (sys_st s))) s.

Lemma start_alone fuel (k : @Worker W Q) :
  wk_phase k = Idle → rtc alone k (idle (Start fuel (wk_st k))).
Proof.
  destruct k as [st ph]. simpl. intros ->. change (rtc alone (idle st) (idle (Start fuel st))).
  unfold Start. revert st. induction fuel as [|fuel IH]; intros st; simpl; [done|].
  destruct (processNext st) as [st'|] eqn:E; [|done]. etrans; [by apply turn_of_calls|apply IH].
Qed.

Lemma sys_run operator fuel s :
  wk_phase (sys_publisher s) = Idle → rtc (sys_step operator) s (run_worker fuel s).
Proof. intros Hp. by apply sys_alone, start_alone. Qed.

(** What a worker publishes by itself verifies. *)
Lemma alone_verified obs pk (k k' : @Worker W Q) :
  AttestSigner (signer (publ (wk_st k))) →
  ParsePublicKeyDER (signer_PublicKeyDER (signer (publ (wk_st k)))) = Ok pk →
  worker_inv obs k → rtc alone k k' → worker_verified pk k → worker_verified pk k'.
Proof.
  intros Ha Hk HI Hr Hv. induction Hr as [|k1 k2 k3 E _ IH]; [done|].
  pose proof E as (_ & Hsg & _)%advance_events.
  apply IH; [by rewrite Hsg|by rewrite Hsg|by eapply worker_inv_advance|].
  eapply advance_verified; [done..| |exact E|exact Hv].
  by intros job (req & dep & _ & _ & _ & ? & _)%(wi_queue _ _ HI).
Qed.

Lemma sys_Start operator fuel s :
  sys_reachable operator s → wk_phase (sys_publisher s) = Idle →
  sys_reachable operator (run_worker fuel s).
Proof.
  intros (s0 & Hi & Hr) Hp. exists s0. split; [done|]. etrans; [exact Hr|by apply sys_run].
Qed.

(** The worker after a reconcile. *)
Definition observes (req : Request) (get : result Deployment) (la : gmap bytes32 bytes32)
    (k : @Worker W Q) : @Worker W Q :=
  foldl (λ k job, enqueue job k) k
    (enqueued (@Reconcile _ S1 IsNotFound req get {| lastAttested := la; enqueued := [] |}).2).

Lemma reconcile_observes req get s :
  sys_publisher (reconcile req get s) =
  observes req get (lastAttested (sys_reconciler s)) (sys_publisher s).
Proof. unfold reconcile, observes. by destruct (Reconcile _ _ _ _) as [err r]. Qed.

(** A new converged state puts its job in the queue, and changes nothing the worker holds. *)
Lemma observes_queues req dep h la k :
  rolloutConverged dep = true → @ConfigHashForVersion _ S1 CurrentVersion dep = Ok h →
  la !! DeploymentID (req_Namespace req) (req_Name req) ≠ Some h →
  job_for (req_Namespace req) (req_Name req) h
    ∈ todo (queue (publ (wk_st (observes req (Ok dep) la k)))).
Proof.
  intros Hc Hh Hl. unfold observes. erewrite Reconcile_enqueues; [|by exists dep; rewrite <- rolloutConverged_spec|done].
  cbn [snd enqueued enqueue_job recordAttested app foldl].
  unfold enqueue, Enqueue. cbn [wk_st publ queue pset_queue]. rewrite todo_Add. set_solver.
Qed.

Lemma observes_frame req get la k :
  let k' := observes req get la k in
  wk_phase k' = wk_phase k ∧ plog (wk_st k') = plog (wk_st k) ∧
  signer (publ (wk_st k')) = signer (publ (wk_st k)) ∧
  chain (publ (wk_st k')) = chain (publ (wk_st k)).
Proof.
  unfold observes. destruct (foldl_enqueue k (enqueued (@Reconcile _ S1 IsNotFound req get
    {| lastAttested := la; enqueued := [] |}).2)) as (_ & H'). exact H'.
Qed.

Lemma observes_verified req get la pk k :
  worker_verified pk k → worker_verified pk (observes req get la k).
Proof.
  unfold worker_verified. by destruct (observes_frame req get la k) as (-> & -> & -> & _).
Qed.

(** An idle worker that reads a new converged state, while outages are finite in number,
    publishes it, and what it publishes passes. *)
Lemma observes_becomes_verifiable obs la (w : @Worker W Q) req dep h budget fuel k :
  let sg := signer (publ (wk_st w)) in
  let w1 := observes req (Ok dep) la w in
  worker_inv obs w → worker_verified k w → wk_phase w = Idle → AttestSigner sg →
  ParsePublicKeyDER (signer_PublicKeyDER sg) = Ok k →
  rolloutConverged dep = true → @ConfigHashForVersion _ S1 CurrentVersion dep = Ok h →
  la !! DeploymentID (req_Namespace req) (req_Name req) ≠ Some h →
  outages_end budget (publ (wk_st w)) → (backlog budget (wk_st w1) ≤ fuel)%nat →
  hashable S1 CurrentVersion dep →
  ∃ ev, ev ∈ plog (Start fuel (wk_st w1)) ∧ pb_ok ev = true ∧
    ∀ m reg reg' env o live cluster,
      o_namespace o = req_Namespace req → o_name o = req_Name req →
      RegistryV1.publish m (call_of ev) reg = inl reg' →
      verifier_sees RegistryABI env o reg' (signer_PublicKeyDER sg) →
      getDeployment env o (o_namespace o) (o_name o) = Ok (live, cluster) →
      hashable S2 CurrentVersion live → v1_equiv dep live →
      ∃ r, runVerify (H0 := S2) RegistryABI env o = PASS r ∧ rp_configHash r = h.
Proof.
  intros sg w1 HI Hw Hi Ha Hk Hc Hh Hl Ho Hf Hd.
  apply (observes_verified req (Ok dep) la) in Hw. fold w1 in Hw.
  apply (worker_inv_reconcile _ req (Ok dep) la) in HI.
  change (worker_inv (obs ++ [(req, Ok dep)]) w1) in HI.
  destruct (observes_frame req (Ok dep) la w) as (Hph & _ & Hsg & Hch). fold w1 in Hph, Hsg, Hch.
  assert (Ho1 : outages_end budget (publ (wk_st w1))) by (unfold outages_end; by rewrite Hsg, Hch).
  assert (Hver1 : versioned_jobs (wk_st w1)).
  { intros job Hj. destruct (wi_queue _ _ HI job) as (_ & _ & _ & _ & _ & -> & _); [|done].
    simpl. set_solver. }
  destruct (Start_catches_up budget fuel _ Ho1 Hver1 Hf) as (_ & _ & Hjobs).
  destruct (Hjobs _ (observes_queues req dep h la w Hc Hh Hl)) as (ev & Hev & Hp & Hok).
  assert (Hrun : rtc alone w1 (idle (Start fuel (wk_st w1)))).
  { apply start_alone. by rewrite Hph. }
  destruct (alone_verified (obs ++ [(req, Ok dep)]) k w1 (idle (Start fuel (wk_st w1)))) as [_ Hver];
    [by rewrite Hsg|by rewrite Hsg|done..|].
  change (wk_st (idle (Start fuel (wk_st w1)))) with (Start fuel (wk_st w1)) in Hver.
  rewrite Start_signer, Hsg, Forall_forall in Hver. exists ev. split_and!; [done|done|].
  intros m reg reg' env o live cluster Hns Hnm Hpub Hsee Hg Hl' Heq.
  eexists. split; [eapply (published_passes S1 S2 RegistryABI dep live h cluster o env _ ev m
    reg reg' k); try done; [by rewrite Hns, Hnm|by apply Hver]|done].
Qed.

(** What the operator observes becomes verifiable: in any reachable state in which
    the worker is not inside a turn, when the reconciler reads a converged Deployment it
    has not just attested, and outages are finite in number, the worker's loop catches up
    and the node holds a publication such that, as soon as the contract takes it, whatever
    it held before, a verifier with the operator's key passes every live Deployment that
    agrees with the observed one on the v1 surface. *)
Theorem observed_becomes_verifiable operator s req dep h budget fuel k :
  let sg := signer (publ (sys_st s)) in
  let s1 := reconcile req (Ok dep) s in
  sys_reachable operator s → wk_phase (sys_publisher s) = Idle → AttestSigner sg →
  ParsePublicKeyDER (signer_PublicKeyDER sg) = Ok k →
  rolloutConverged dep = true → @ConfigHashForVersion _ S1 CurrentVersion dep = Ok h →
  lastAttested (sys_reconciler s) !! DeploymentID (req_Namespace req) (req_Name req) ≠ Some h →
  outages_end budget (publ (sys_st s)) →
  (backlog budget (sys_st s1) ≤ fuel)%nat → hashable S1 CurrentVersion dep →
  ∃ ev, ev ∈ plog (sys_st (run_worker fuel s1)) ∧ pb_ok ev = true ∧
    ∀ m reg reg' env o live cluster,
      o_namespace o = req_Namespace req → o_name o = req_Name req →
      RegistryV1.publish m (call_of ev) reg = inl reg' →
      verifier_sees RegistryABI env o reg' (signer_PublicKeyDER sg) →
      getDeployment env o (o_namespace o) (o_name o) = Ok (live, cluster) →
      hashable S2 CurrentVersion live → v1_equiv dep live →
      ∃ r, runVerify (H0 := S2) RegistryABI env o = PASS r ∧ rp_configHash r = h.
Proof.
  intros sg s1 Hr Hi Ha Hk. pose proof (sys_verified operator s k Hr Ha Hk) as Hw.
  destruct (sys_reachable_inv _ _ Hr) as [HI _]. unfold s1. simpl.
  rewrite (reconcile_observes req (Ok dep) s). by eapply observes_becomes_verifiable.
Qed.
End System.

Module SystemWitness.
Import Concrete Insertion Fixtures ToyCrypto ListQueue VerifyWitness EndToEndWitness.

Definition api : Request := {| req_Namespace := "demo"; req_Name := "api" |}.

Definition sys0 : Sys (W := RegistryV1.state) (Q := list Job) :=
  {| sys_reconciler := SetupWithManager None; sys_publisher := idle start;
     sys_registry := empty_registry; sys_observed := [] |}.

Definition observe : Sys (W := RegistryV1.state) (Q := list Job) → Sys (W := RegistryV1.state) (Q := list Job) :=
  reconcile insertion_sorter (λ _, false) api (Ok benign).

Lemma sys0_reachable : sys_reachable insertion_sorter (λ _, false) operator sys0.
Proof. exists sys0. split; [|done]. by split_and!. Qed.

(** The reconcile queues the observed hash, and the worker's turn publishes it. *)
Lemma observe_publisher h :
  ConfigHashForVersion CurrentVersion benign = Ok h →
  sys_publisher (observe sys0) = idle (Enqueue (job_for "demo" "api" h) start).
Proof.
  intros Eh. unfold observe, reconcile.
  erewrite Reconcile_enqueues; [|exists benign; split_and!; [reflexivity|by apply rolloutConverged_spec|exact Eh]|done].
  reflexivity.
Qed.

Lemma benign_hash : ∃ h, ConfigHashForVersion CurrentVersion benign = Ok h.
Proof.
  assert (Hh : is_ok (ConfigHashForVersion CurrentVersion benign) = true)
    by (vm_compute; reflexivity).
  destruct (ConfigHashForVersion CurrentVersion benign) as [h|]; [by exists h|discriminate].
Qed.

Lemma benign_tampered : v1_equiv benign tampered.
Proof. exact benign_looks_tampered. Qed.

(** Observe 08, let the worker run: a verifier then passes 09, which v1 does not tell
    from it. *)
Lemma observed_becomes_verifiable_witness :
  ∃ h reg r, ConfigHashForVersion CurrentVersion benign = Ok h ∧
    RegistryV1.publish (block 1700000000) (call_of (event h)) empty_registry = inl reg ∧
    runVerify "abi" (env_of tampered reg) opts = PASS r ∧ rp_configHash r = h.
Proof.
  destruct benign_hash as [h Eh].
  destruct (RegistryV1.publish (block 1700000000) (call_of (event h)) empty_registry)
    as [reg|] eqn:Ep; [|discriminate].
  destruct (observed_becomes_verifiable insertion_sorter insertion_sorter "abi" (λ _, false)
    operator sys0 api benign h (λ _, O) 1 (key : @PublicKey toy_crypto)) as (ev & Hev & _ & Hv).
  - exact sys0_reachable.
  - reflexivity.
  - exact operator_signer_attests.
  - reflexivity.
  - reflexivity.
  - exact Eh.
  - done.
  - split; [by intros d w r w' [= <- <-]; simpl; lia|].
    by intros id v h0 sig fp w r w' _ [= <- <-]; simpl; lia.
  - change (reconcile insertion_sorter (λ _, false) api (Ok benign) sys0) with (observe sys0).
    rewrite (observe_publisher h Eh). unfold backlog. rewrite Nat.add_0_r.
    exact (size_insert_le (job_for "demo" "api" h) ∅).
  - apply HashWitness.hashable_v1. vm_compute. reflexivity.
  - change (ev ∈ plog (Start 1 (wk_st (sys_publisher (observe sys0))))) in Hev.
    rewrite (observe_publisher h Eh) in Hev. apply list_elem_of_singleton in Hev as ->.
    destruct (Hv (block 1700000000) empty_registry reg (env_of tampered reg) opts tampered
      "prod (https://cluster)"%string) as (r & Hr & Hh).
    + reflexivity.
    + reflexivity.
    + exact Ep.
    + split_and!; [discriminate..| |reflexivity]. eexists _, _. split; reflexivity.
    + reflexivity.
    + apply HashWitness.hashable_v1. vm_compute. reflexivity.
    + exact benign_tampered.
    + by exists h, reg, r.
Defined.

(** After the publication is mined, the PASS of 09 is traced back to the read of 08. *)
Definition mined (h : bytes32) : Sys (W := RegistryV1.state) (Q := list Job) :=
  contract_call (block 1700000000) (call_of (event h))
    (run_worker 1 (observe sys0)).

Lemma mined_reachable h :
  ConfigHashForVersion CurrentVersion benign = Ok h →
  sys_reachable insertion_sorter (λ _, false) operator (mined h).
Proof.
  intros Eh.
  destruct (sys_Start insertion_sorter (λ _, false) operator 1 (observe sys0))
    as (s0 & Hi & Hs).
  { exists sys0. split; [by split_and!|]. apply rtc_once. constructor. }
  { by rewrite (observe_publisher h Eh). }
  exists s0. split; [done|]. eapply rtc_r; [exact Hs|]. constructor; [|done].
  unfold run_worker. cbn [sys_publisher with_publisher idle wk_st].
  rewrite (observe_publisher h Eh). set_solver.
Qed.

Lemma mined_passes h :
  ConfigHashForVersion CurrentVersion benign = Ok h →
  ∃ r, runVerify "abi" (env_of tampered (sys_registry (mined h))) opts = PASS r.
Proof.
  intros Eh. eexists.
  apply (published_passes insertion_sorter insertion_sorter "abi" benign tampered h
    "prod (https://cluster)" opts (env_of tampered (sys_registry (mined h))) (toy_der key)
    (event h) (block 1700000000) empty_registry (sys_registry (mined h))
    (key : @PublicKey toy_crypto)).
  - reflexivity.
  - exact Eh.
  - by split_and!.
  - split; [|reflexivity]. unfold VerifyConfigHashSignature. simpl.
    by apply bool_decide_eq_true_2.
  - reflexivity.
  - split_and!; [discriminate..| |reflexivity]. eexists _, _. split; reflexivity.
  - reflexivity.
  - apply HashWitness.hashable_v1. vm_compute. reflexivity.
  - apply HashWitness.hashable_v1. vm_compute. reflexivity.
  - exact benign_tampered.
Qed.

Lemma pass_was_observed_witness :
  ∃ h req dep, (req, Ok dep) ∈ sys_observed (mined h) ∧ rolloutConverged dep = true ∧
    DeploymentID (req_Namespace req) (req_Name req) = DeploymentID "demo" "api" ∧
    (v1_equiv dep tampered ∨
     ∃ b b', canonical_bytes insertion_sorter V1 dep = Ok b ∧
             canonical_bytes insertion_sorter V1 tampered = Ok b' ∧ collision b b').
Proof.
  destruct benign_hash as [h Eh].
  destruct (mined_passes h Eh) as [r Er].
  exists h. eapply (pass_was_observed insertion_sorter insertion_sorter "abi" (λ _, false) operator
    (mined h) (env_of tampered (sys_registry (mined h))) opts r tampered).
  - by apply mined_reachable.
  - eexists _, _. split; reflexivity.
  - exact Er.
  - reflexivity.
  - apply HashWitness.hashable_v1. vm_compute. reflexivity.
  - intros req dep Hin. change (sys_observed (mined h)) with (sys_observed (observe sys0)) in Hin.
    unfold observe, reconcile in Hin. 
    erewrite Reconcile_enqueues in Hin;
      [|exists benign; split_and!; [reflexivity|by apply rolloutConverged_spec|exact Eh]|done].
    apply list_elem_of_singleton in Hin. injection Hin as -> ->.
    apply HashWitness.hashable_v1. vm_compute. reflexivity.
Defined.
End SystemWitness.
