(* ===== verification/Cmd.v ===== *)
(** * The operator's entry point (cmd/main.go) and the build stamp
      (internal/buildinfo/buildinfo.go)

    [main] from the parsed flags to the running manager: what is refused before any
    service is called, and what the operator that does start is made of.  The
    manager of controller-runtime is a parameter. *)

From S2P Require Import Prelude Bytes Sha256 GoSort GoJson GoText Decimals Kube Hash Registry.
From S2P Require Import Verify Signer Client WorkQueue Publisher Controller.
From Stdlib Require Import Strings.Ascii.

Open Scope Z_scope.

(** ** strconv.ParseInt(s, 10, 64) *)

Definition int64_min : Z := - 2 ^ 63.
Definition int64_max : Z := 2 ^ 63 - 1.
Definition is_int64 (z : Z) : bool := (int64_min <=? z) && (z <=? int64_max).

Definition split_sign (l : bytes) : bool * bytes :=
  match l with
  | Byte.x2d :: l => (true, l)
  | Byte.x2b :: l => (false, l)
  | _ => (false, l)
  end.

Definition ParseInt (s : string) : option Z :=
  let '(neg, ds) := split_sign (bytes_of s) in
  if is_nil ds then None
  else
    match digits_value ds with
    | None => None
    | Some u => let n := if neg : bool then - u else u in if is_int64 n then Some n else None
    end.

Definition envInt64 (getenv : string → string) (key : string) (def : Z) : Z :=
  let v := getenv key in
  if bool_decide (v ≠ EmptyString) then
    match ParseInt v with Some n => n | None => def end
  else def.

(** ** The build stamp *)

Record build_setting := { bs_Key : string; bs_Value : string }.

(** What [-ldflags] stamped, and what [debug.ReadBuildInfo] reports. *)
Record stamp := {
  st_Version : string;
  st_Commit : string;
  st_Date : string;
  st_ReadBuildInfo : option (list build_setting)
}.

(** One iteration of the loop over the settings: the revision and the dirty flag. *)
Definition scan_setting (acc : string * bool) (s : build_setting) : string * bool :=
  if bool_decide (bs_Key s = "vcs.revision"%string) then (bs_Value s, acc.2)
  else if bool_decide (bs_Key s = "vcs.modified"%string) then
    (acc.1, bool_decide (bs_Value s = "true"%string))
  else acc.

Definition revision (b : stamp) : string :=
  if bool_decide (st_Commit b ≠ EmptyString) then st_Commit b
  else
    match st_ReadBuildInfo b with
    | None => EmptyString
    | Some settings =>
        let '(rev, dirty) := foldl scan_setting (EmptyString, false) settings in
        if bool_decide (rev = EmptyString) then EmptyString
        else
          let rev := if 12 <? len rev then
            String.string_of_list_byte (take 12 (bytes_of rev)) else rev in
          if dirty : bool then rev +:+ "-dirty" else rev
    end.

Definition buildinfo_String (b : stamp) : string :=
  let s := st_Version b in
  let rev := revision b in
  if bool_decide (rev ≠ EmptyString) then
    s +:+ " (" +:+ rev +:+
      (if bool_decide (st_Date b ≠ EmptyString) then ", built " +:+ st_Date b else EmptyString)
      +:+ ")"
  else if bool_decide (st_Date b ≠ EmptyString) then s +:+ " (built " +:+ st_Date b +:+ ")"
  else s.

Definition buildinfo_Print (name : string) (b : stamp) : string :=
  name +:+ " " +:+ buildinfo_String b +:+ String "010"%char EmptyString.

(** ** The operator *)

Record flags := {
  fl_metricsAddr : string;
  fl_probeAddr : string;
  fl_enableLeaderElection : bool;
  fl_kmsKeyID : string;
  fl_ethRPCURL : string;
  fl_contractAddr : string;
  fl_chainID : Z;
  fl_showVersion : bool
}.

Definition default_flags (getenv : string → string) : flags :=
  {| fl_metricsAddr := ":8080"; fl_probeAddr := ":8081"; fl_enableLeaderElection := false;
     fl_kmsKeyID := getenv "KMS_KEY_ID"%string; fl_ethRPCURL := getenv "ETH_RPC_URL"%string;
     fl_contractAddr := getenv "CONTRACT_ADDRESS"%string;
     fl_chainID := envInt64 getenv "CHAIN_ID" 84532; fl_showVersion := false |}.

(** controller-runtime: building the manager, registering with it, and running it. *)
Record ManagerLib (W : Type) := {
  ctrl_NewManager : flags → W → option error * W;
  mgr_Add : option error;
  mgr_Complete : option error;
  mgr_AddHealthzCheck : option error;
  mgr_AddReadyzCheck : option error;
  mgr_Start : W → option error * W
}.
Arguments ctrl_NewManager {W} _ _ _.
Arguments mgr_Add {W} _.
Arguments mgr_Complete {W} _.
Arguments mgr_AddHealthzCheck {W} _.
Arguments mgr_AddReadyzCheck {W} _.
Arguments mgr_Start {W} _ _.

Section Operator.
Context `{Crypto} {W Tx : Type} `{EthLib W Tx} (RegistryABI : string).
Context {Q : Type} `{!WorkQueue Job Q} (new_queue : Q).

(** [chain.Client] as the publisher's [ChainWriter]. *)
Definition client_writer (c : @Client W Tx) : ChainWriter W :=
  {| cw_PublishAttestation := PublishAttestation c |}.

Record operator := {
  op_client : @Client W Tx;
  op_publisher : @Publisher W Q;
  op_reconciler : DeploymentReconciler;
  op_fingerprint : string
}.

(** The version was printed, the process exited with status 1 at a step, or the manager
    ran and came back. *)
Inductive outcome :=
  | Printed (s : string)
  | Exited (msg : string) (err : option error)
  | Ran (op : operator) (err : option error).

(** [if err != nil { setupLog.Error(err, msg); os.Exit(1) }] *)
Definition or_exit (err : option error) (msg : string) (w : W) (k : outcome * W) : outcome * W :=
  match err with Some e => (Exited msg (Some e), w) | None => k end.

(** From a built signer and writer on: registration and the run. *)
Definition run_manager (mgr : ManagerLib W) (kmsSigner : @KMSSigner _ W) (chainWriter : @Client W Tx)
    (w : W) : outcome * W :=
  let pub := New new_queue (kms_signer kmsSigner) (client_writer chainWriter) in
  or_exit (mgr_Add mgr) "unable to register publisher runnable" w (
  let r := SetupWithManager None in
  or_exit (mgr_Complete mgr) "unable to create controller" w (
  or_exit (mgr_AddHealthzCheck mgr) "unable to set up health check" w (
  or_exit (mgr_AddReadyzCheck mgr) "unable to set up ready check" w (
  let op := {| op_client := chainWriter; op_publisher := pub; op_reconciler := r;
               op_fingerprint := PublicKeyFingerprint (PublicKeyDER kmsSigner) |} in
  let '(err, w) := mgr_Start mgr w in
  (Ran op err, w))))).

Definition main (getenv : string → string) (parse : flags → flags) (b : stamp)
    (LoadDefaultConfig : result (kmsAPI W)) (mgr : ManagerLib W) (w : W) : outcome * W :=
  let fl := parse (default_flags getenv) in
  if fl_showVersion fl then (Printed (buildinfo_Print "manager" b), w)
  else if bool_decide (fl_kmsKeyID fl = EmptyString) || bool_decide (fl_ethRPCURL fl = EmptyString)
          || bool_decide (fl_contractAddr fl = EmptyString) then
    (Exited "missing required configuration" None, w)
  else
    let ethPrivateKey := getenv "ETH_PRIVATE_KEY"%string in
    if bool_decide (ethPrivateKey = EmptyString) then
      (Exited "ETH_PRIVATE_KEY (testnet gas key) is required" None, w)
    else
      let '(err, w) := ctrl_NewManager mgr fl w in
      or_exit err "unable to start manager" w (
      let '(r, w) := NewKMSSigner LoadDefaultConfig (fl_kmsKeyID fl) w in
      match r with
      | Err err => (Exited "unable to initialize KMS signer" (Some err), w)
      | Ok kmsSigner =>
          match NewWriter RegistryABI (fl_ethRPCURL fl) (fl_contractAddr fl) ethPrivateKey
                  (fl_chainID fl) with
          | Err err => (Exited "unable to initialize chain writer" (Some err), w)
          | Ok chainWriter => run_manager mgr kmsSigner chainWriter w
          end
      end).
End Operator.

(** ** Parsing integers *)

Lemma is_int64_spec z : is_int64 z = true ↔ int64_min ≤ z ≤ int64_max.
Proof. unfold is_int64. rewrite andb_true_iff, !Z.leb_le. done. Qed.

Lemma split_sign_itoa z :
  split_sign (bytes_of (itoa z)) = (z <? 0, bytes_of (itoa (Z.abs z))).
Proof.
  pose proof (itoa_digits z) as Hd. destruct z as [|p|p]; [done| |done].
  change (Z.pos p <? 0) with false. change (Z.abs (Z.pos p)) with (Z.pos p) in *.
  destruct (bytes_of (itoa (Z.pos p))) as [|b l]; [done|].
  apply Forall_cons in Hd as [Hb _]. by destruct b.
Qed.

Lemma itoa_not_nil z : bytes_of (itoa z) ≠ [].
Proof.
  destruct z as [|p|p]; [done| |done]. intros E.
  pose proof (digits_value_itoa (Z.pos p)) as Hv. change (Z.abs (Z.pos p)) with (Z.pos p) in Hv.
  rewrite E in Hv. change (Some 0 = Some (Z.pos p)) in Hv. discriminate.
Qed.

(** Decimal notation parses back, within 64 bits. *)
Lemma ParseInt_itoa z : ParseInt (itoa z) = if is_int64 z then Some z else None.
Proof.
  unfold ParseInt. rewrite split_sign_itoa.
  destruct (is_nil_spec (bytes_of (itoa (Z.abs z)))) as [E|_]; [by apply itoa_not_nil in E|].
  rewrite digits_value_itoa. destruct (Z.ltb_spec z 0).
  - by rewrite Z.abs_neq, Z.opp_involutive by lia.
  - by rewrite Z.abs_eq by lia.
Qed.

Lemma ParseInt_range s z : ParseInt s = Some z → is_int64 z = true.
Proof.
  unfold ParseInt. destruct (split_sign _) as [neg ds]. destruct (is_nil ds); [done|].
  destruct (digits_value ds) as [u|]; [|done].
  destruct (is_int64 (if neg then - u else u)) eqn:E; [|done]. by intros [= <-].
Qed.

(** C40: a numeric environment variable is read at its width: every decimal numeral of
    an int64 is read back exactly, one outside the range (or an unset or malformed
    value) gives the default, and the result never leaves the range of int64. *)
Theorem envInt64_exact getenv key def :
  int64_min ≤ def ≤ int64_max →
  (∀ z, getenv key = itoa z → envInt64 getenv key def = if is_int64 z then z else def) ∧
  (ParseInt (getenv key) = None → envInt64 getenv key def = def) ∧
  int64_min ≤ envInt64 getenv key def ≤ int64_max.
Proof.
  intros Hd. unfold envInt64. split_and!.
  - intros z Hz. rewrite Hz, ParseInt_itoa, bool_decide_true; [by destruct (is_int64 z)|].
    intros E%bytes_of_nil. by apply itoa_not_nil in E.
  - intros ->. by case_bool_decide.
  - case_bool_decide; [|lia]. destruct (ParseInt _) as [z|] eqn:E; [|lia].
    apply ParseInt_range, is_int64_spec in E. lia.
  - case_bool_decide; [|lia]. destruct (ParseInt _) as [z|] eqn:E; [|lia].
    apply ParseInt_range, is_int64_spec in E. lia.
Qed.

Lemma envInt64_exact_witness :
  envInt64 (λ _, "80002"%string) "CHAIN_ID" 84532 = 80002 ∧
  envInt64 (λ _, "9223372036854775808"%string) "CHAIN_ID" 84532 = 84532.
Proof.
  split.
  - apply (envInt64_exact (λ _, "80002"%string) "CHAIN_ID" 84532 ltac:(done) ) with (z := 80002).
    reflexivity.
  - apply (envInt64_exact (λ _, "9223372036854775808"%string) "CHAIN_ID" 84532 ltac:(done)).
    reflexivity.
Defined.

(** ** What starts *)

Section OperatorFacts.
Context `{Crypto} {W Tx : Type} `{EthLib W Tx} (RegistryABI : string).
Context {Q : Type} `{!WorkQueue Job Q} (new_queue : Q).

Lemma NewWriter_Ok url addr key id (c : @Client W Tx) :
  NewWriter RegistryABI url addr key id = Ok c →
  auth c = true ∧ address c = HexToAddress addr ∧ DialContext url = Ok (contract c).
Proof.
  unfold NewWriter, NewReader, with_key. destruct (DialContext url) as [ec|]; [|done].
  destruct (abi_JSON RegistryABI); [|done]. destruct (HexToECDSA _) as [k|]; [|done].
  destruct (NewKeyedTransactorWithChainID k id); [|done]. by intros [= <-].
Qed.

Lemma run_manager_Ran mgr s (c : @Client W Tx) w op err w' :
  run_manager new_queue mgr s c w = (Ran op err, w') →
  op = {| op_client := c; op_publisher := New new_queue (kms_signer s) (client_writer c);
          op_reconciler := SetupWithManager None;
          op_fingerprint := PublicKeyFingerprint (PublicKeyDER s) |}.
Proof.
  unfold run_manager, or_exit. destruct (mgr_Add mgr), (mgr_Complete mgr); try done.
  destruct (mgr_AddHealthzCheck mgr), (mgr_AddReadyzCheck mgr); try done.
  destruct (mgr_Start mgr w). by intros [= <- _ _].
Qed.

Lemma main_Ran getenv parse b aws mgr w op err w' :
  main RegistryABI new_queue getenv parse b aws mgr w = (Ran op err, w') →
  let fl := parse (default_flags getenv) in
  (fl_kmsKeyID fl ≠ EmptyString ∧ fl_ethRPCURL fl ≠ EmptyString ∧
   fl_contractAddr fl ≠ EmptyString ∧ getenv "ETH_PRIVATE_KEY"%string ≠ EmptyString) ∧
  ∃ kms s (c : @Client W Tx) w1 w2, aws = Ok kms ∧ newWithClient kms (fl_kmsKeyID fl) w1 = (Ok s, w2) ∧
    NewWriter RegistryABI (fl_ethRPCURL fl) (fl_contractAddr fl) (getenv "ETH_PRIVATE_KEY"%string)
      (fl_chainID fl) = Ok c ∧
    op = {| op_client := c; op_publisher := New new_queue (kms_signer s) (client_writer c);
            op_reconciler := SetupWithManager None;
            op_fingerprint := PublicKeyFingerprint (PublicKeyDER s) |}.
Proof.
  unfold main, or_exit. destruct (fl_showVersion _); [done|].
  case_bool_decide; [done|]. case_bool_decide; [done|]. case_bool_decide; [done|]. cbn [orb].
  case_bool_decide; [done|]. destruct (ctrl_NewManager _ _ _) as [[e|] w1]; [done|].
  destruct aws as [kms|e]; [|done]. unfold NewKMSSigner.
  destruct (newWithClient _ _ _) as [[s|] w2] eqn:Es; [|done].
  destruct (NewWriter _ _ _ _ _) as [c|]; [|done]. intros Hr. apply run_manager_Ran in Hr.
  split; [done|]. by exists kms, s, c, w1, w2.
Qed.

(** An operator that runs was built on checked parts: all configuration was given,
    its writer holds a transaction key for the configured contract, its dedup memory
    is empty, its signer keeps the signer's promise, and every publication any job
    makes it hand to the chain carries a non-empty signature that verifies under the
    one key whose fingerprint was logged at start-up. *)
Theorem operator_runs_checked getenv parse b aws mgr w op err w' :
  main RegistryABI new_queue getenv parse b aws mgr w = (Ran op err, w') →
  let fl := parse (default_flags getenv) in
  let der := signer_PublicKeyDER (signer (op_publisher op)) in
  (fl_kmsKeyID fl ≠ EmptyString ∧ fl_ethRPCURL fl ≠ EmptyString ∧
   fl_contractAddr fl ≠ EmptyString ∧ getenv "ETH_PRIVATE_KEY"%string ≠ EmptyString) ∧
  auth (op_client op) = true ∧ address (op_client op) = HexToAddress (fl_contractAddr fl) ∧
  lastAttested (op_reconciler op) = ∅ ∧
  op_fingerprint op = PublicKeyFingerprint der ∧
  ∃ k, ParsePublicKeyDER der = Ok k ∧
    ∀ job s e s', publ s = op_publisher op → process job s = (e, s') →
      ∃ l, plog s' = plog s ++ l ∧
        Forall (λ ev, publishes job ev ∧ pb_Signature ev ≠ [] ∧
          VerifyConfigHashSignature k (SigningDigest (j_Version job) (pb_ConfigHash ev))
            (pb_Signature ev) = true ∧
          pb_Fingerprint ev = PublicKeyFingerprintBytes der) l.
Proof.
  intros (Hfl & kms & s & c & w1 & w2 & -> & Hs & Hw & ->)%main_Ran fl der.
  apply NewWriter_Ok in Hw as (Ha & Had & _).
  pose proof (kms_signer_attests _ _ _ _ _ Hs) as Hatt.
  split; [done|]. split; [done|]. split; [done|]. split; [done|]. split; [done|].
  destruct (ParsePublicKeyDER der) as [k|] eqn:Hk.
  - exists k. split; [done|]. intros job st e st' Hp Hpr.
    replace der with (signer_PublicKeyDER (signer (publ st))) in * by (by rewrite Hp).
    eapply process_verified; [by rewrite Hp|done|done].
  - pose proof signer_parses as Hok. simpl in Hok. subst der. simpl in Hk. by rewrite Hk in Hok.
Qed.

(** Nothing is called on a bad configuration: [--version] only prints, and a missing
    key id, endpoint, contract address or gas key ends the process with status 1, in
    all these cases without touching KMS, the chain or the cluster. *)
Theorem main_refuses getenv parse b aws mgr w :
  let fl := parse (default_flags getenv) in
  let run := main RegistryABI new_queue getenv parse b aws mgr w in
  (fl_showVersion fl = true → run = (Printed (buildinfo_Print "manager" b), w)) ∧
  (fl_showVersion fl = false →
   fl_kmsKeyID fl = EmptyString ∨ fl_ethRPCURL fl = EmptyString ∨
   fl_contractAddr fl = EmptyString ∨ getenv "ETH_PRIVATE_KEY"%string = EmptyString →
   ∃ msg, run = (Exited msg None, w)).
Proof.
  intros fl run. subst run. unfold main. fold fl. split; [by intros ->|]. intros -> Hm.
  destruct (_ || _ || _) eqn:E; [eauto|].
  apply orb_false_elim in E as [[E1 E2]%orb_false_elim E3].
  apply bool_decide_eq_false in E1, E2, E3. rewrite bool_decide_true by tauto. eauto.
Qed.
End OperatorFacts.

(** ** The build stamp *)

(** The value of the last setting with this key. *)
Definition last_value (key : string) (l : list build_setting) : option string :=
  last (map bs_Value (List.filter (λ s, bool_decide (bs_Key s = key)) l)).

Lemma scan_settings l :
  foldl scan_setting (EmptyString, false) l =
  (default EmptyString (last_value "vcs.revision" l),
   bool_decide (last_value "vcs.modified" l = Some "true"%string)).
Proof.
  unfold last_value. induction l as [|s l IH] using rev_ind; [done|].
  rewrite foldl_snoc, IH, !List.filter_app, !map_app. unfold scan_setting. cbn [List.filter fst snd].
  destruct (decide (bs_Key s = "vcs.revision"%string)) as [->|Hr];
    [|destruct (decide (bs_Key s = "vcs.modified"%string)) as [->|Hm]].
  - simpl. rewrite !app_nil_r, last_snoc. done.
  - simpl. rewrite !app_nil_r, last_snoc. f_equal. apply bool_decide_ext. split; [by intros ->|by intros [= ->]].
  - rewrite !bool_decide_false by done. cbn. by rewrite !app_nil_r.
Qed.

(** An unstamped build names the commit it was built from, cut to twelve bytes, and a
    modified tree never prints as a clean one. *)
Lemma revision_unstamped b l rev :
  st_Commit b = EmptyString → st_ReadBuildInfo b = Some l →
  last_value "vcs.revision" l = Some rev → rev ≠ EmptyString →
  bytes_of (revision b) =
  (take 12 (bytes_of rev) ++
   (if bool_decide (last_value "vcs.modified" l = Some "true"%string)
    then bytes_of "-dirty" else []))%list.
Proof.
  intros Hc Hl Hr Hne. unfold revision. rewrite Hc, Hl, scan_settings, Hr. simpl.
  rewrite bool_decide_false by done. unfold len.
  assert (Ht : ∀ l, bytes_of (String.string_of_list_byte l) = l)
    by apply String.list_byte_of_string_of_list_byte.
  destruct (Z.ltb_spec 12 (Z.of_nat (length (bytes_of rev))));
    case_bool_decide; rewrite ?bytes_of_app, ?app_nil_r, ?Ht; try done;
    by rewrite take_ge by lia.
Qed.

(** ** A start on concrete services *)

Module CmdWitness.
Import ToyCrypto SignerWitness ListQueue.

Definition null_backend : Backend unit unit :=
  {| eth_Transact _ _ _ w := (Ok (), w); eth_Call _ _ w := (Ok [], w);
     eth_SendTransaction _ w := (None, w);
     eth_WaitMined _ w := (Ok {| r_Status := 1; r_BlockNumber := 1; r_GasUsed := 1 |}, w);
     eth_Hash _ := "0x1"%string |}.

#[local] Instance null_eth : EthLib unit unit := {|
  DialContext _ := Ok null_backend; abi_JSON _ := Ok (); HexToAddress s := bytes_of s;
  ecdsa_PrivateKey := unit; HexToECDSA _ := Ok (); NewKeyedTransactorWithChainID _ _ := Ok () |}.

Definition quiet_manager : ManagerLib unit :=
  {| ctrl_NewManager _ w := (None, w); mgr_Add := None; mgr_Complete := None;
     mgr_AddHealthzCheck := None; mgr_AddReadyzCheck := None; mgr_Start w := (None, w) |}.

Definition full_env (key : string) : string := "alias/deploy".
Definition no_env (key : string) : string := EmptyString.

Definition clean : stamp :=
  {| st_Version := "dev"; st_Commit := EmptyString; st_Date := EmptyString;
     st_ReadBuildInfo := None |}.

Definition start_with (getenv : string → string) : outcome * unit :=
  main (Q := list Job) "abi" [] getenv id clean (Ok good_kms) quiet_manager ().

Lemma operator_runs_checked_witness :
  ∃ op, start_with full_env = (Ran op None, ()) ∧ auth (op_client op) = true.
Proof.
  destruct (start_with full_env) as [[s|m e|op e] w'] eqn:E; [discriminate E..|].
  exists op. split; [by injection E as <- <- <-|].
  apply (operator_runs_checked (H := toy_crypto) (H0 := null_eth) (Q := list Job) "abi" []
    full_env id clean (Ok good_kms) quiet_manager () op e w' E).
Defined.

Lemma main_refuses_witness : ∃ msg, start_with no_env = (Exited msg None, ()).
Proof.
  apply (main_refuses (H := toy_crypto) (H0 := null_eth) (Q := list Job) "abi" [] no_env id clean (Ok good_kms) quiet_manager ());
    [reflexivity|left; reflexivity].
Defined.
End CmdWitness.
