(* ===== verification/VerifyMain.v ===== *)
(** * The verifier's command line (cmd/verify/main.go, main)

    [main] from the process's arguments to its output and exit status.  The cobra
    library is a parameter: it parses the arguments against the declared flags and
    either prints a text of its own, refuses the usage, or runs the verify command. *)

From S2P Require Import Prelude Bytes Sha256 GoSort GoJson Kube Fixtures Normalize NormalizeV2 Hash.
From S2P Require Import Registry Verify Signer Client WorkQueue Publisher Controller.
From S2P Require Import VerifyCmd Cmd.
From Stdlib Require Import Strings.Ascii.

Open Scope Z_scope.
Open Scope string_scope.

(** ** Printing *)

Definition nl : string := String "010"%char EmptyString.

(** The bytes of a Go string literal: the only escape the formats use is a newline. *)
Fixpoint unquote (s : string) : string :=
  match s with
  | String "\"%char (String "n"%char s') => String "010"%char (unquote s')
  | String c s' => String c (unquote s')
  | EmptyString => EmptyString
  end.

(** [fmt.Sprintf] with the verbs the reports use, whose arguments fit them. *)
Fixpoint Sprintf (format : string) (args : list fmt_arg) : string :=
  match format with
  | String "%"%char (String "s"%char rest) =>
      match args with
      | ArgS a :: args => a +:+ Sprintf rest args
      | _ => "%!s(MISSING)" +:+ Sprintf rest args
      end
  | String "%"%char (String "d"%char rest) =>
      match args with
      | ArgZ z :: args => itoa z +:+ Sprintf rest args
      | _ => "%!d(MISSING)" +:+ Sprintf rest args
      end
  | String c rest => String c (Sprintf rest args)
  | EmptyString => EmptyString
  end.

Definition Printf (format : string) (args : list fmt_arg) : string :=
  Sprintf (unquote format) args.
Definition Println (s : string) : string := s +:+ nl.

(** The report of a PASS. *)
Definition print_pass (o : options) (r : pass_report) : string :=
  Printf "PASS  %s/%s\n" [ArgS (o_namespace o); ArgS (o_name o)] +:+
  Printf "  cluster:            %s\n" [ArgS (rp_cluster r)] +:+
  Printf "  hash protocol:      %s\n" [ArgS (Version_String (rp_version r))] +:+
  Printf "  config hash:        %s\n" [ArgS (MustHex (rp_configHash r))] +:+
  Printf "  signer fingerprint: %s\n" [ArgS (MustHex (rp_signerFingerprint r))] +:+
  Printf "  block timestamp:    %d\n" [ArgZ (rp_blockTimestamp r)] +:+
  Println "  the live Deployment matches a signature recorded on-chain by the expected key." +:+
  (if rp_weak_warning r then
     Println EmptyString +:+
     Printf "  WARNING: %s hashes a narrow subset of the Deployment. It does NOT cover\n"
       [ArgS (Version_String (rp_version r))] +:+
     Println "  command, args, initContainers, securityContext, volumes, mounts," +:+
     Println "  envFrom/valueFrom, serviceAccountName or host namespaces. A materially" +:+
     Println "  more privileged workload can produce this same PASS." +:+
     Println ("  See README " +:+ String "034"%char "What fields are excluded and why" +:+
              String "034"%char ".")
   else EmptyString).

(** [fail]: what it prints, and the error it returns. *)
Definition fail (format : string) (args : list fmt_arg) : string * error :=
  let msg := Printf format args in (Printf "FAIL  %s\n" [ArgS msg], errors_New msg).

(** ** Flags *)

(** The flags of the verify command with their defaults. *)
Definition default_options (getenv : string → string) : options :=
  {| o_kubeconfig := EmptyString; o_kubecontext := EmptyString; o_namespace := EmptyString;
     o_name := EmptyString; o_rpcURL := getenv "ETH_RPC_URL";
     o_contractAddr := getenv "CONTRACT_ADDRESS"; o_publicKeyFile := EmptyString;
     o_kmsKeyID := getenv "KMS_KEY_ID" |}.

(** The variable behind each flag. *)
Definition flag_table : list (string * (options → string)) :=
  [("kubeconfig", o_kubeconfig); ("context", o_kubecontext); ("namespace", o_namespace);
   ("name", o_name); ("eth-rpc-url", o_rpcURL); ("contract-address", o_contractAddr);
   ("public-key", o_publicKeyFile); ("kms-key-id", o_kmsKeyID)].

(** The flags marked as required. *)
Definition required_flags : list string := ["namespace"; "name"].

(** What [root.Execute] does with the arguments: prints help or the version, returns an
    error, or runs the verify command with the flags that were given. *)
Inductive invocation :=
  | ShowsText (s : string)
  | BadUsage (e : error)
  | RunsVerify (given : list string) (o : options).

(** cobra, for a root command with a version text and one subcommand.  A required flag
    must be given, and a flag that is not given keeps its default. *)
Class Cobra := {
  cobra_parse : string → options → list string → list string → invocation;
  cobra_required version defaults required argv given o flag :
    cobra_parse version defaults required argv = RunsVerify given o →
    flag ∈ required → flag ∈ given;
  cobra_default version defaults required argv given o flag var :
    cobra_parse version defaults required argv = RunsVerify given o →
    (flag, var) ∈ flag_table → flag ∉ given → var o = var defaults
}.

(** ** main *)

Record process := {
  ps_stdout : string;
  ps_stderr : option error;
  ps_exit : Z
}.

Section VerifyMain.
Context `{Upstream, Sorter, Crypto} {W Tx : Type} `{EthLib W Tx} (RegistryABI : string).
Context `{Cobra}.

(** The verify command: its output and the error it returns. *)
Definition run_command (env : @Env _ W) (o : options) : string * option error :=
  match runVerify RegistryABI env o with
  | PASS r => (print_pass o r, None)
  | FAIL format args => let '(out, err) := fail format args in (out, Some err)
  | ERROR err => (EmptyString, Some err)
  end.

Definition verify_main (getenv : string → string) (b : stamp) (argv : list string)
    (env : @Env _ W) : process :=
  let '(out, err) :=
    match cobra_parse (buildinfo_String b) (default_options getenv) required_flags argv with
    | ShowsText s => (s, None)
    | BadUsage err => (EmptyString, Some err)
    | RunsVerify _ o => run_command env o
    end in
  {| ps_stdout := out; ps_stderr := err;
     ps_exit := match err with Some _ => 1 | None => 0 end |}.

Definition starts_with (p s : string) : Prop := ∃ rest, s = p +:+ rest.

Lemma print_pass_prefix o r : starts_with "PASS  " (print_pass o r).
Proof. eexists. reflexivity. Qed.

Lemma fail_prefix format args : starts_with "FAIL  " (fail format args).1.
Proof. eexists. reflexivity. Qed.

(** C37: what the verifier's process tells its caller: it exits with 0 or 1, and with 0
    exactly when cobra showed a text or the verification passed; when the verify command
    runs, namespace and name were given, the endpoint, the contract and the KMS key
    default to the environment, and the exit status, the word PASS at the start of the
    output and the verdict agree, so a caller can rely on either; a FAIL says so on its
    first line and any other error prints nothing there. *)
Theorem verify_main_exact getenv b argv env :
  let inv := cobra_parse (buildinfo_String b) (default_options getenv) required_flags argv in
  let p := verify_main getenv b argv env in
  (ps_exit p = 0 ∨ ps_exit p = 1) ∧
  (ps_exit p = 0 ↔ (∃ s, inv = ShowsText s) ∨
     ∃ given o r, inv = RunsVerify given o ∧ runVerify RegistryABI env o = PASS r) ∧
  ∀ given o, inv = RunsVerify given o →
    "namespace" ∈ given ∧ "name" ∈ given ∧
    ("eth-rpc-url" ∉ given → o_rpcURL o = getenv "ETH_RPC_URL") ∧
    ("contract-address" ∉ given → o_contractAddr o = getenv "CONTRACT_ADDRESS") ∧
    ("kms-key-id" ∉ given → o_kmsKeyID o = getenv "KMS_KEY_ID") ∧
    match runVerify RegistryABI env o with
    | PASS _ => starts_with "PASS  " (ps_stdout p) ∧ ps_exit p = 0 ∧ ps_stderr p = None
    | FAIL _ _ => starts_with "FAIL  " (ps_stdout p) ∧ ps_exit p = 1
    | ERROR e => ps_stdout p = EmptyString ∧ ps_exit p = 1 ∧ ps_stderr p = Some e
    end.
Proof.
  intros inv p. unfold p, verify_main, run_command. fold inv. split_and!.
  - destruct inv as [s|e|given o]; [auto..|]. destruct (runVerify _ _ _); auto.
  - destruct inv as [s|e|given o]; simpl.
    + split; [|done]. intros _. left. by exists s.
    + split; [done|]. by intros [[? ?]|(? & ? & ? & ? & _)].
    + destruct (runVerify _ _ o) as [r|f a|e] eqn:E; simpl.
      * split; [|done]. intros _. right. by exists given, o, r.
      * split; [done|]. intros [[? ?]|(? & ? & ? & [= _ <-] & ?)]; congruence.
      * split; [done|]. intros [[? ?]|(? & ? & ? & [= _ <-] & ?)]; congruence.
  - intros given o Hi. pose proof Hi as Hq. unfold inv in Hq. rewrite Hi. split_and!.
    + eapply cobra_required; eauto; set_solver.
    + eapply cobra_required; eauto; set_solver.
    + intros Hn. apply (cobra_default _ _ _ _ _ _ "eth-rpc-url" o_rpcURL Hq); [set_solver|done].
    + intros Hn. apply (cobra_default _ _ _ _ _ _ "contract-address" o_contractAddr Hq); [set_solver|done].
    + intros Hn. apply (cobra_default _ _ _ _ _ _ "kms-key-id" o_kmsKeyID Hq); [set_solver|done].
    + destruct (runVerify _ _ _) as [r|f a|e]; [..|done].
      * split_and!; [apply print_pass_prefix|done..].
      * split; [apply (fail_prefix f a)|done].
Qed.
End VerifyMain.

(** ** A verification from the command line *)

Module VerifyMainWitness.
Import Concrete Insertion Fixtures ToyCrypto VerifyWitness.

(** A parser of [verify --namespace NS --name NAME ...] in exactly that order; anything
    else is refused, and [--version] prints. *)
Definition parse (version : string) (defaults : options) (required : list string)
    (argv : list string) : invocation :=
  if bool_decide (argv = ["--version"]) then ShowsText version
  else match argv with
  | [a; b; ns; c; name; d; key] =>
      if bool_decide (required = required_flags ∧
                      [a; b; c; d] = ["verify"; "--namespace"; "--name"; "--public-key"]) then
        RunsVerify ["namespace"; "name"; "public-key"]
          {| o_kubeconfig := o_kubeconfig defaults; o_kubecontext := o_kubecontext defaults;
             o_namespace := ns; o_name := name; o_rpcURL := o_rpcURL defaults;
             o_contractAddr := o_contractAddr defaults; o_publicKeyFile := key;
             o_kmsKeyID := o_kmsKeyID defaults |}
      else BadUsage (errors_New "required flag(s) not set")
  | _ => BadUsage (errors_New "unknown command")
  end.

Lemma parse_runs version defaults required argv given o :
  parse version defaults required argv = RunsVerify given o →
  required = required_flags ∧ given = ["namespace"; "name"; "public-key"] ∧
  ∀ flag var, (flag, var) ∈ flag_table → flag ∉ given → var o = var defaults.
Proof.
  unfold parse. case_bool_decide; [done|].
  do 8 (destruct argv as [|? argv]; try done). case_bool_decide as Hr; [|done].
  intros [= <- <-]. split_and!; [apply Hr|done|]. intros flag var Hin Hn.
  repeat (apply elem_of_cons in Hin as [[= -> ->]|Hin]; [done || (by destruct Hn; repeat constructor)|]).
  by apply not_elem_of_nil in Hin.
Qed.

#[export, refine] Instance toy_cobra : Cobra := {| cobra_parse := parse |}.
Proof.
  - intros * (-> & -> & _)%parse_runs Hf. unfold required_flags in Hf. set_solver.
  - intros * (_ & _ & Hd)%parse_runs. apply Hd.
Defined.

Definition shell (name : string) : string :=
  if bool_decide (name = "ETH_RPC_URL") then "http://rpc"
  else if bool_decide (name = "CONTRACT_ADDRESS") then "0x1" else EmptyString.

Definition cmdline : list string :=
  ["verify"; "--namespace"; "demo"; "--name"; "api"; "--public-key"; "key.der"].

Definition dev : stamp :=
  {| st_Version := "dev"; st_Commit := EmptyString; st_Date := EmptyString;
     st_ReadBuildInfo := None |}.

(** Nothing was published: the run fails and says so. *)
Definition unpublished : @Env _ RegistryV1.state :=
  env_of benign {| RegistryV1.publisher := operator; RegistryV1.latest := ∅ |}.

Lemma verify_main_exact_witness :
  starts_with "FAIL  " (ps_stdout (verify_main "abi" shell dev cmdline unpublished)) ∧
  ps_exit (verify_main "abi" shell dev cmdline unpublished) = 1.
Proof.
  destruct (verify_main_exact "abi" shell dev cmdline unpublished) as (_ & _ & Hrun).
  destruct (Hrun ["namespace"; "name"; "public-key"] opts eq_refl) as (_ & _ & _ & _ & _ & Hv).
  assert (E : runVerify "abi" unpublished opts =
    FAIL "no attestation found on-chain for %s/%s" [ArgS "demo"; ArgS "api"]) by reflexivity.
  rewrite E in Hv. exact Hv.
Defined.

Example unpublished_output :
  ps_stdout (verify_main "abi" shell dev cmdline unpublished) =
  "FAIL  no attestation found on-chain for demo/api" +:+ nl.
Proof. reflexivity. Qed.

Example version_output :
  verify_main "abi" shell dev ["--version"] unpublished =
  {| ps_stdout := "dev"; ps_stderr := None; ps_exit := 0 |}.
Proof. reflexivity. Qed.
End VerifyMainWitness.
