(* ===== verification/Deployed.v ===== *)
(** * The two programs together (cmd/main.go and cmd/verify/main.go)

    From the operator's process to the verifier's: an operator that [Cmd.main] started,
    the v1 system it runs in, and the exit status of [VerifyMain.verify_main] against the
    registry it publishes to. *)

From S2P Require Import Prelude Bytes Sha256 GoSort Kube Fixtures Normalize NormalizeV2 Hash.
From S2P Require Import Registry Verify Signer Client WorkQueue Publisher PublisherSteps.
From S2P Require Import Controller VerifyCmd EndToEnd System Cmd VerifyMain.

Open Scope Z_scope.

Section Deployed.
Context `{Upstream} (S1 S2 : Sorter) `{Crypto} {W Tx : Type} `{EthLib W Tx}.
Context (RegistryABI : string) {Q : Type} `{!WorkQueue Job Q} (new_queue : Q).
Context (new_queue_empty : todo new_queue = ∅) (IsNotFound : error → bool) `{Cobra}.

Abbreviation Sys := (System.Sys (W := W) (Q := Q)).

(** The manager starts what [main] built, in the world it finds. *)
Definition booted (op : @Cmd.operator W Tx Q) (w : W) (reg : RegistryV1.state) : Sys :=
  {| sys_reconciler := op_reconciler op;
     sys_publisher := idle {| publ := op_publisher op; pworld := w; plog := [] |};
     sys_registry := reg; sys_observed := [] |}.

(** An operator whose [main] came as far as running it. *)
Definition ran (op : @Cmd.operator W Tx Q) : Prop :=
  ∃ getenv parse b aws mgr w err w',
    Cmd.main RegistryABI new_queue getenv parse b aws mgr w = (Ran op err, w').

(** A state of the system around such an operator, for a fresh contract that accepts
    [account]. *)
Definition deployed (account : bytes) (op : @Cmd.operator W Tx Q) (s : Sys) : Prop :=
  ran op ∧
  ∃ w reg, RegistryV1.constructor account = inl reg ∧
    rtc (sys_step S1 IsNotFound account) (booted op w reg) s.

Lemma ran_op op :
  ran op →
  ∃ (k : @KMSSigner _ W) (c : @Client W Tx),
    AttestSigner (kms_signer k) ∧ op_publisher op = New new_queue (kms_signer k) (client_writer c) ∧
    op_fingerprint op = PublicKeyFingerprint (PublicKeyDER k).
Proof.
  intros (getenv & parse & b & aws & mgr & w & err & w' & Hm).
  apply main_Ran in Hm as (_ & kms & k & c & w1 & w2 & _ & Hk & _ & ->).
  exists k, c. split_and!; [by eapply kms_signer_attests|done|done].
Qed.

Lemma deployed_reachable account op s :
  deployed account op s → sys_reachable S1 IsNotFound account s.
Proof.
  intros Hd. destruct (ran_op _ (proj1 Hd)) as (k & c & _ & Hp & _).
  destruct Hd as [_ (w & reg & Hc & Hs)]. exists (booted op w reg). split; [|done].
  split_and!; [done..|simpl; by rewrite Hp|done|done].
Qed.

Lemma deployed_signer account op s :
  deployed account op s →
  signer (publ (wk_st (sys_publisher s))) = signer (op_publisher op).
Proof. intros [_ (w & reg & _ & Hs)]. by apply sys_signer_rtc in Hs. Qed.

(** The process exits with 0 exactly when the verification it runs passes. *)
Lemma exit_zero getenv b argv env given o :
  cobra_parse (buildinfo_String b) (default_options getenv) required_flags argv =
    RunsVerify given o →
  (ps_exit (verify_main (H0 := S2) RegistryABI getenv b argv env) = 0 ↔
     ∃ r, runVerify (H0 := S2) RegistryABI env o = PASS r) ∧
  (∀ r, runVerify (H0 := S2) RegistryABI env o = PASS r →
     ps_stdout (verify_main (H0 := S2) RegistryABI getenv b argv env) = print_pass o r).
Proof.
  intros Hp. unfold verify_main, run_command. rewrite Hp.
  destruct (runVerify RegistryABI env o) as [r|f a|e]; simpl; split; try done;
    try (split; [done|by intros [? ?]]).
  - split; [eauto|done].
  - by intros r' [= <-].
Qed.

(** Exit status 0 is about something the operator saw: whenever the verifier's process,
    run as [verify], exits with 0 against the registry that a running operator publishes
    to, at any moment of the system and whatever other accounts did, the operator's
    reconciler read a converged Deployment under the very name the caller asked about,
    and the live one agrees with it on the whole v1 surface, or two explicit encodings
    collide. *)
Theorem exit_zero_was_observed account op s getenv b argv given o env live cluster :
  deployed account op s → reads_registry RegistryABI env o (sys_registry s) →
  cobra_parse (buildinfo_String b) (default_options getenv) required_flags argv =
    RunsVerify given o →
  ps_exit (verify_main (H0 := S2) RegistryABI getenv b argv env) = 0 →
  getDeployment env o (o_namespace o) (o_name o) = Ok (live, cluster) →
  hashable S2 V1 live →
  (∀ req dep, (req, Ok dep) ∈ sys_observed s → hashable S1 V1 dep) →
  ∃ req dep, (req, Ok dep) ∈ sys_observed s ∧ rolloutConverged dep = true ∧
    DeploymentID (req_Namespace req) (req_Name req) =
      DeploymentID (o_namespace o) (o_name o) ∧
    (v1_equiv dep live ∨
     ∃ b b', canonical_bytes S1 V1 dep = Ok b ∧ canonical_bytes S2 V1 live = Ok b' ∧
             collision b b').
Proof.
  intros Hd Hr Hp [r Hv]%(proj1 (exit_zero getenv b argv env given o Hp)) Hg Hl Ho.
  eapply pass_was_observed; [by eapply deployed_reachable|done..].
Qed.

(** What a running operator observes ends in exit status 0: from any moment at which
    its worker is not inside a turn, when its reconciler reads a converged Deployment it has
    not just attested and outages are finite in number, the worker's loop hands a
    publication to the node such that, once the contract takes it, every verifier process
    that asks about this Deployment with the key whose fingerprint the operator logged
    exits with 0 and prints PASS, for every live Deployment that agrees with the observed
    one on the v1 surface. *)
Theorem observed_exits_zero account op s req dep h budget fuel :
  let s1 := reconcile S1 IsNotFound req (Ok dep) s in
  let der := signer_PublicKeyDER (signer (op_publisher op)) in
  deployed account op s → wk_phase (sys_publisher s) = Idle →
  rolloutConverged dep = true → @ConfigHashForVersion _ S1 CurrentVersion dep = Ok h →
  lastAttested (sys_reconciler s) !! DeploymentID (req_Namespace req) (req_Name req) ≠ Some h →
  outages_end budget (publ (wk_st (sys_publisher s))) →
  (backlog budget (wk_st (sys_publisher s1)) ≤ fuel)%nat → hashable S1 CurrentVersion dep →
  op_fingerprint op = PublicKeyFingerprint der ∧
  ∃ ev, ev ∈ plog (wk_st (sys_publisher (run_worker fuel s1))) ∧ pb_ok ev = true ∧
    ∀ m reg reg' getenv b argv given env o live cluster,
      cobra_parse (buildinfo_String b) (default_options getenv) required_flags argv =
        RunsVerify given o →
      o_namespace o = req_Namespace req → o_name o = req_Name req →
      RegistryV1.publish m (call_of ev) reg = inl reg' →
      verifier_sees RegistryABI env o reg' der →
      getDeployment env o (o_namespace o) (o_name o) = Ok (live, cluster) →
      hashable S2 CurrentVersion live → v1_equiv dep live →
      let p := verify_main (H0 := S2) RegistryABI getenv b argv env in
      ps_exit p = 0 ∧ starts_with "PASS  " (ps_stdout p).
Proof.
  intros s1 der Hd Hi Hc Hh Hl Ho Hf Hdep. pose proof (deployed_signer _ _ _ Hd) as Hsg.
  destruct (ran_op _ (proj1 Hd)) as (ks & c & Hatt & Hop & Hfp).
  assert (Hder : der = PublicKeyDER ks) by (unfold der; by rewrite Hop).
  split; [by rewrite Hder|].
  assert (Hs : signer (publ (wk_st (sys_publisher s))) = kms_signer ks) by (by rewrite Hsg, Hop).
  destruct (ParsePublicKeyDER der) as [k|e] eqn:Hk.
  2: { pose proof signer_parses as Hok. simpl in Hok. by rewrite <- Hder, Hk in Hok. }
  destruct (observed_becomes_verifiable S1 S2 RegistryABI IsNotFound account s req dep h budget fuel k)
    as (ev & Hev & Hok & Hv); try done; [by eapply deployed_reachable|by rewrite Hs| |].
  - rewrite Hs. simpl. by rewrite <- Hder.
  - exists ev. split_and!; [done..|]. intros m reg reg' getenv b argv given env o live cluster Hp
      Hns Hnm Hpub Hsee Hg Hl' Heq.
    destruct (Hv m reg reg' env o live cluster Hns Hnm Hpub) as (r & Hr & _); try done.
    { rewrite Hs. simpl. by rewrite <- Hder. }
    destruct (exit_zero getenv b argv env given o Hp) as [Hx Hout].
    split; [apply Hx; eauto|]. rewrite (Hout r Hr). apply print_pass_prefix.
Qed.
End Deployed.

(** ** From one process to the other, on fixtures 08 and 09 *)

Module DeployedWitness.
Import Concrete Insertion Fixtures ToyCrypto ListQueue.
Import VerifyWitness(operator, block, key, opts, env_of).
Import EndToEndWitness(empty_registry, event) SystemWitness(api, benign_hash, benign_tampered).
Import VerifyMainWitness(shell, cmdline, dev).

(** A node that takes transactions and answers [getLatest] from a registry's state. *)
Definition node : Backend RegistryV1.state unit :=
  {| eth_Transact _ _ _ w := (Ok (), w);
     eth_Call _ args w :=
       match args with
       | [ABytes32 id] => (Ok (RegistryV1.getLatest w id), w)
       | _ => (Err (errors_New "bad arguments"), w)
       end;
     eth_SendTransaction _ w := (None, w);
     eth_WaitMined _ w := (Ok {| r_Status := 1; r_BlockNumber := 1; r_GasUsed := 1 |}, w);
     eth_Hash _ := "0x1"%string |}.

#[local] Instance node_eth : EthLib RegistryV1.state unit := {|
  DialContext _ := Ok node; abi_JSON _ := Ok (); HexToAddress _ := zero_address;
  ecdsa_PrivateKey := unit; HexToECDSA _ := Ok (); NewKeyedTransactorWithChainID _ _ := Ok () |}.

#[local] Existing Instance VerifyMainWitness.toy_cobra.

Definition kms : kmsAPI RegistryV1.state :=
  {| kms_Sign i w := (Ok (Some (SignerWitness.signature_by key (si_KeyId i) i)), w);
     kms_GetPublicKey _ w := (Ok (Some SignerWitness.good_output), w) |}.

Definition manager : ManagerLib RegistryV1.state :=
  {| ctrl_NewManager _ w := (None, w); mgr_Add := None; mgr_Complete := None;
     mgr_AddHealthzCheck := None; mgr_AddReadyzCheck := None; mgr_Start w := (None, w) |}.

Definition kms_key : @KMSSigner _ RegistryV1.state :=
  {| client := kms; keyID := SignerWitness.arn; configuredKeyID := "alias/deploy";
     pubDER := toy_der key; pub := key |}.

Definition writer : @Client RegistryV1.state unit :=
  {| contract := node; auth := true; address := zero_address; connected := true |}.

Definition op : @Cmd.operator RegistryV1.state unit (list Job) :=
  {| op_client := writer; op_publisher := New [] (kms_signer kms_key) (client_writer writer);
     op_reconciler := SetupWithManager None;
     op_fingerprint := PublicKeyFingerprint (PublicKeyDER kms_key) |}.

Lemma op_started :
  Cmd.main "abi" [] CmdWitness.full_env id CmdWitness.clean (Ok kms) manager empty_registry =
  (Ran op None, empty_registry).
Proof. reflexivity. Qed.

Definition sys0 : Sys (W := RegistryV1.state) (Q := list Job) :=
  booted op empty_registry empty_registry.

Abbreviation observe s := (reconcile insertion_sorter (λ _, false) api (Ok benign) s).

Lemma sys0_deployed : deployed insertion_sorter "abi" [] (λ _, false) operator op sys0.
Proof.
  split; [|by exists empty_registry, empty_registry].
  by exists CmdWitness.full_env, id, CmdWitness.clean, (Ok kms), manager, empty_registry, None,
    empty_registry; apply op_started.
Qed.

(** The toy key service always answers, and the signer accepts it. *)
Lemma kms_signs d (w : RegistryV1.state) : SignDigest kms_key d w = (Ok (toy_sign key d), w).
Proof.
  unfold SignDigest. simpl. unfold check_signature. simpl. unfold VerifyConfigHashSignature. simpl.
  by rewrite bool_decide_true.
Qed.

Lemma observed_queue h :
  ConfigHashForVersion CurrentVersion benign = Ok h →
  sys_publisher (observe sys0) =
  idle (Enqueue (job_for "demo" "api" h)
    {| publ := op_publisher op; pworld := empty_registry; plog := [] |}).
Proof.
  intros Eh. unfold reconcile.
  erewrite Reconcile_enqueues; [|exists benign; split_and!; [reflexivity|by apply rolloutConverged_spec|exact Eh]|done].
  reflexivity.
Qed.

(** The worker's turn hands one publication to the node. *)
Lemma published h :
  ConfigHashForVersion CurrentVersion benign = Ok h →
  plog (wk_st (sys_publisher (run_worker 1 (observe sys0)))) = [event h].
Proof.
  intros Eh. unfold run_worker. rewrite (observed_queue h Eh).
  unfold Start, loop, processNext, Publisher.process, idle, Enqueue, sys_publisher, with_publisher.
  cbn [wk_st publ queue pset_queue q_Get q_Add wq_ops list_queue list_ops signer kms_signer
    signer_SignDigest op op_publisher New pworld plog].
  unfold q_dedup. rewrite bool_decide_false by apply not_elem_of_nil. cbn [app q_next].
  rewrite kms_signs. reflexivity.
Qed.

Lemma no_jobs : todo ([] : list Job) = ∅.
Proof. reflexivity. Qed.

Lemma never_out : outages_end (λ _, O) (publ (wk_st (sys_publisher sys0))).
Proof.
  split.
  - intros d w r w'. change (SignDigest kms_key d w = (r, w') →
      (0 + (if is_ok r then 0 else 1) ≤ 0)%nat).
    rewrite kms_signs. by intros [= <- _].
  - intros id v h sig fp w r w' Hv. simpl. unfold PublishAttestation. simpl.
    rewrite (proj2 (Z.eqb_neq v 0) Hv). by intros [= <- _].
Qed.

(** Observe 08, let the worker run: [verify] then exits with 0 on 09, which v1 does not
    tell from it. *)
Lemma observed_exits_zero_witness :
  ∃ h reg, ConfigHashForVersion CurrentVersion benign = Ok h ∧
    RegistryV1.publish (block 1700000000) (call_of (event h)) empty_registry = inl reg ∧
    ps_exit (verify_main "abi" shell dev cmdline (env_of tampered reg)) = 0.
Proof.
  destruct benign_hash as [h Eh].
  destruct (RegistryV1.publish (block 1700000000) (call_of (event h)) empty_registry)
    as [reg|] eqn:Ep; [|discriminate].
  destruct (observed_exits_zero insertion_sorter insertion_sorter "abi" [] no_jobs (λ _, false)
    operator op sys0 api benign h (λ _, O) 1) as (_ & ev & Hev & _ & Hv).
  - exact sys0_deployed.
  - reflexivity.
  - reflexivity.
  - exact Eh.
  - done.
  - exact never_out.
  - rewrite (observed_queue h Eh). unfold backlog. rewrite Nat.add_0_r.
    exact (size_insert_le (job_for "demo" "api" h) ∅).
  - apply HashWitness.hashable_v1. vm_compute. reflexivity.
  - rewrite (published h Eh) in Hev. apply list_elem_of_singleton in Hev as ->.
    exists h, reg. split; [exact Eh|]. split; [exact Ep|].
    apply (Hv (block 1700000000) empty_registry reg shell dev cmdline
      ["namespace"; "name"; "public-key"]%string (env_of tampered reg) opts tampered
      "prod (https://cluster)"%string).
    + reflexivity.
    + reflexivity.
    + reflexivity.
    + exact Ep.
    + split_and!; [discriminate..| |reflexivity]. eexists _, _. split; reflexivity.
    + reflexivity.
    + apply HashWitness.hashable_v1. vm_compute. reflexivity.
    + exact benign_tampered.
Defined.

(** The verification itself, once the publication is mined. *)
Lemma registry_passes h :
  ConfigHashForVersion CurrentVersion benign = Ok h →
  ∃ r, runVerify "abi" (env_of tampered
    (sys_registry (contract_call (Q := list Job) (block 1700000000) (call_of (event h)) sys0)))
    opts = PASS r.
Proof.
  intros Eh. eexists.
  apply (published_passes insertion_sorter insertion_sorter "abi" benign tampered h
    "prod (https://cluster)" opts _ (toy_der key) (event h) (block 1700000000) empty_registry
    (sys_registry (contract_call (Q := list Job) (block 1700000000) (call_of (event h)) sys0))
    (key : @PublicKey toy_crypto)).
  - reflexivity.
  - exact Eh.
  - by split_and!.
  - split; [|reflexivity]. unfold VerifyConfigHashSignature. simpl.
    by apply bool_decide_eq_true_2.
  - reflexivity.
  - split_and!; [discriminate..| |reflexivity]. eexists _, _. split; reflexivity.
  - reflexivity.
  - apply HashWitness.hashable_v1. vm_compute. reflexivity.
  - apply HashWitness.hashable_v1. vm_compute. reflexivity.
  - exact benign_tampered.
Qed.

(** The state once the publication is mined. *)
Definition mined (h : bytes32) : Sys (W := RegistryV1.state) (Q := list Job) :=
  contract_call (block 1700000000) (call_of (event h)) (run_worker 1 (observe sys0)).

Lemma mined_deployed h :
  ConfigHashForVersion CurrentVersion benign = Ok h →
  deployed insertion_sorter "abi" [] (λ _, false) operator op (mined h).
Proof.
  intros Eh. destruct sys0_deployed as [Hm _]. split; [exact Hm|].
  exists empty_registry, empty_registry. split; [done|].
  eapply rtc_l; [apply (sys_reconcile _ _ _ api (Ok benign))|].
  eapply rtc_r; [apply sys_run; fold sys0; by rewrite (observed_queue h Eh)|].
  constructor; [|done]. rewrite (published h Eh). by left.
Qed.

Lemma exit_zero_was_observed_witness :
  ∃ h req dep, (req, Ok dep) ∈ sys_observed (mined h) ∧ rolloutConverged dep = true ∧
    DeploymentID (req_Namespace req) (req_Name req) = DeploymentID "demo" "api" ∧
    (v1_equiv dep tampered ∨
     ∃ b b', canonical_bytes insertion_sorter V1 dep = Ok b ∧
             canonical_bytes insertion_sorter V1 tampered = Ok b' ∧ collision b b').
Proof.
  destruct benign_hash as [h Eh]. exists h.
  assert (Hx : ps_exit (verify_main "abi" shell dev cmdline
    (env_of tampered (sys_registry (mined h)))) = 0).
  { apply (exit_zero insertion_sorter "abi" shell dev cmdline
      (env_of tampered (sys_registry (mined h))) ["namespace"; "name"; "public-key"]%string opts).
    - reflexivity.
    - exact (registry_passes h Eh). }
  eapply (exit_zero_was_observed insertion_sorter insertion_sorter "abi" [] no_jobs (λ _, false)
    operator op (mined h) shell dev cmdline ["namespace"; "name"; "public-key"]%string opts
    (env_of tampered (sys_registry (mined h))) tampered).
  - by apply mined_deployed.
  - eexists _, _. split; reflexivity.
  - reflexivity.
  - exact Hx.
  - reflexivity.
  - apply HashWitness.hashable_v1. vm_compute. reflexivity.
  - intros req dep Hin.
    change (sys_observed (mined h)) with (sys_observed (observe sys0)) in Hin.
    unfold reconcile in Hin.
    erewrite Reconcile_enqueues in Hin;
      [|exists benign; split_and!; [reflexivity|by apply rolloutConverged_spec|exact Eh]|done].
    apply list_elem_of_singleton in Hin. injection Hin as -> ->.
    apply HashWitness.hashable_v1. vm_compute. reflexivity.
Defined.
End DeployedWitness.
