(* ===== verification/Fleet.v ===== *)
(** * Replicas, crashes and restarts of the v1 operator

    Any number of operator processes, each what [Cmd.main] built, that start, stop and die
    at any moment, between any two calls of their workers, next to the node, the contract
    and other accounts.  Leader election keeps all but one of them idle most of the time;
    the theorems do not need it.  What a process kept in memory dies with it, what it
    handed to the node does not. *)

From S2P Require Import Prelude Bytes Sha256 GoSort Kube Fixtures Normalize NormalizeV2 Hash.
From S2P Require Import Registry Verify Signer Client WorkQueue Publisher PublisherSteps.
From S2P Require Import Controller VerifyCmd EndToEnd System Cmd VerifyMain Deployed.

Open Scope Z_scope.

Section Fleet.
Context `{Upstream} (S1 S2 : Sorter) `{Crypto} {W Tx : Type} `{EthLib W Tx}.
Context (RegistryABI : string) {Q : Type} `{!WorkQueue Job Q} (new_queue : Q).
Context (new_queue_empty : todo new_queue = ∅) (IsNotFound : error → bool) `{Cobra}.

(** ** Processes *)

Record Process := {
  pr_operator : @Cmd.operator W Tx Q;
  pr_reconciler : DeploymentReconciler;
  pr_worker : @Worker W Q
}.

(** What the manager starts. *)
Definition boot (op : @Cmd.operator W Tx Q) (w : W) : Process :=
  {| pr_operator := op; pr_reconciler := op_reconciler op;
     pr_worker := idle {| publ := op_publisher op; pworld := w; plog := [] |} |}.

Definition with_worker (k : @Worker W Q) (p : Process) : Process :=
  {| pr_operator := pr_operator p; pr_reconciler := pr_reconciler p; pr_worker := k |}.

(** One reconcile of this process. *)
Definition process_reconcile (req : Request) (get : result Deployment) (p : Process) : Process :=
  let la := lastAttested (pr_reconciler p) in
  {| pr_operator := pr_operator p;
     pr_reconciler := (@Reconcile _ S1 IsNotFound req get {| lastAttested := la; enqueued := [] |}).2;
     pr_worker := observes S1 IsNotFound req get la (pr_worker p) |}.

(** The others change the world it calls into. *)
Definition with_world (w : W) (k : @Worker W Q) : @Worker W Q :=
  {| wk_st := {| publ := publ (wk_st k); pworld := w; plog := plog (wk_st k) |};
     wk_phase := wk_phase k |}.

(** ** The fleet *)

(** The running processes, what those that are gone handed to the node, the contract,
    and every read any of them ever made. *)
Record Fleet := {
  fl_running : gmap nat Process;
  fl_past : list publication;
  fl_registry : RegistryV1.state;
  fl_observed : list (Request * result Deployment)
}.

Definition fl_sent (F : Fleet) (ev : publication) : Prop :=
  ev ∈ fl_past F ∨ ∃ i p, fl_running F !! i = Some p ∧ ev ∈ plog (wk_st (pr_worker p)).

Definition with_process (i : nat) (p : Process) (F : Fleet) : Fleet :=
  {| fl_running := <[i := p]> (fl_running F); fl_past := fl_past F;
     fl_registry := fl_registry F; fl_observed := fl_observed F |}.

Definition observed (o : Request * result Deployment) (F : Fleet) : Fleet :=
  {| fl_running := fl_running F; fl_past := fl_past F; fl_registry := fl_registry F;
     fl_observed := fl_observed F ++ [o] |}.

Definition stop (i : nat) (p : Process) (F : Fleet) : Fleet :=
  {| fl_running := delete i (fl_running F); fl_past := fl_past F ++ plog (wk_st (pr_worker p));
     fl_registry := fl_registry F; fl_observed := fl_observed F |}.

Definition with_registry (reg : RegistryV1.state) (F : Fleet) : Fleet :=
  {| fl_running := fl_running F; fl_past := fl_past F; fl_registry := reg;
     fl_observed := fl_observed F |}.

(** A reverting call leaves the contract as it was, which is no step. *)
Inductive fleet_step (account : bytes) : Fleet → Fleet → Prop :=
  | fleet_start F i op w :
      fl_running F !! i = None → ran RegistryABI new_queue op →
      fleet_step account F (with_process i (boot op w) F)
  | fleet_stop F i p :
      fl_running F !! i = Some p → fleet_step account F (stop i p F)
  | fleet_reconcile F i p req get :
      fl_running F !! i = Some p →
      fleet_step account F (observed (req, get) (with_process i (process_reconcile req get p) F))
  | fleet_work F i p k :
      fl_running F !! i = Some p → advance (pr_worker p) = Some k →
      fleet_step account F (with_process i (with_worker k p) F)
  | fleet_world F i p w :
      fl_running F !! i = Some p →
      fleet_step account F (with_process i (with_worker (with_world w (pr_worker p)) p) F)
  | fleet_mine F ev m reg :
      fl_sent F ev → RegistryV1.publish m (call_of ev) (fl_registry F) = inl reg →
      fleet_step account F (with_registry reg F)
  | fleet_foreign F m c reg :
      msg_sender m ≠ account → RegistryV1.publish m c (fl_registry F) = inl reg →
      fleet_step account F (with_registry reg F).

Definition fleet_initial (account : bytes) (F : Fleet) : Prop :=
  RegistryV1.constructor account = inl (fl_registry F) ∧
  fl_running F = ∅ ∧ fl_past F = [] ∧ fl_observed F = [].

Definition fleet_reachable (account : bytes) (F : Fleet) : Prop :=
  ∃ F0, fleet_initial account F0 ∧ rtc (fleet_step account) F0 F.

(** ** Every process, and everything it sent *)

Record process_inv (obs : list (Request * result Deployment)) (p : Process) : Prop := {
  pi_ran : ran RegistryABI new_queue (pr_operator p);
  pi_worker : worker_inv S1 obs (pr_worker p);
  pi_signer : signer (publ (wk_st (pr_worker p))) = signer (op_publisher (pr_operator p));
  pi_verified pk :
    ParsePublicKeyDER (signer_PublicKeyDER (signer (op_publisher (pr_operator p)))) = Ok pk →
    worker_verified pk (pr_worker p)
}.

Record fleet_inv (account : bytes) (F : Fleet) : Prop := {
  fi_process i p : fl_running F !! i = Some p → process_inv (fl_observed F) p;
  fi_past ev : ev ∈ fl_past F → ∃ job, justified S1 (fl_observed F) job ∧ publishes job ev;
  fi_registry : registry_inv account (fl_sent F) (fl_registry F)
}.

Lemma process_attests obs p :
  process_inv obs p → AttestSigner (signer (publ (wk_st (pr_worker p)))).
Proof.
  intros HI. rewrite (pi_signer _ _ HI).
  by destruct (ran_op _ _ _ (pi_ran _ _ HI)) as (k & c & Ha & -> & _).
Qed.

Lemma boot_inv obs op w : ran RegistryABI new_queue op → process_inv obs (boot op w).
Proof.
  intros Hr. split; [done| |done|by intros pk _; split].
  apply worker_inv_new; [done| |done]. simpl.
  by destruct (ran_op _ _ _ Hr) as (k & c & _ & -> & _).
Qed.

Lemma process_inv_mono obs o p : process_inv obs p → process_inv (obs ++ [o]) p.
Proof. intros [I1 I2 I3 I4]. split; [done|by apply worker_inv_mono|done..]. Qed.

Lemma process_inv_reconcile obs req get p :
  process_inv obs p → process_inv (obs ++ [(req, get)]) (process_reconcile req get p).
Proof.
  intros [I1 I2 I3 I4].
  destruct (observes_frame S1 IsNotFound req get (lastAttested (pr_reconciler p)) (pr_worker p))
    as (_ & _ & Hsg & _).
  split; [done|by apply worker_inv_reconcile|by etrans; [exact Hsg|]|].
  intros pk Hpk. by apply observes_verified, I4.
Qed.

Lemma process_inv_work obs p k :
  advance (pr_worker p) = Some k → process_inv obs p → process_inv obs (with_worker k p).
Proof.
  intros E HI. pose proof (process_attests _ _ HI) as Ha. destruct HI as [I1 I2 I3 I4].
  pose proof E as (_ & Hsg & _)%advance_events.
  split; [done|by eapply worker_inv_advance|by etrans; [exact Hsg|]|].
  intros pk Hpk. eapply advance_verified; [done|by rewrite I3| |exact E|by apply I4].
  by intros job (req & dep & _ & _ & _ & ? & _)%(wi_queue _ _ _ I2).
Qed.

Lemma process_inv_world obs w p :
  process_inv obs p → process_inv obs (with_worker (with_world w (pr_worker p)) p).
Proof. intros [I1 [I2 I2'] I3 I4]. by split. Qed.

Lemma sent_with_process F i p p' ev :
  fl_running F !! i = Some p →
  (ev ∈ plog (wk_st (pr_worker p)) → ev ∈ plog (wk_st (pr_worker p'))) →
  fl_sent F ev → fl_sent (with_process i p' F) ev.
Proof.
  intros Hp Hl [Hev|(j & q & Hq & Hev)]; [by left|right].
  destruct (decide (i = j)) as [->|Hne].
  - exists j, p'. simpl. rewrite lookup_insert_eq. simplify_eq. auto.
  - exists j, q. simpl. by rewrite lookup_insert_ne.
Qed.

(** Changing one process. *)
Lemma fleet_inv_process account F i p p' :
  fl_running F !! i = Some p → process_inv (fl_observed F) p' →
  (∀ ev, ev ∈ plog (wk_st (pr_worker p)) → ev ∈ plog (wk_st (pr_worker p'))) →
  fleet_inv account F → fleet_inv account (with_process i p' F).
Proof.
  intros Hp Hp' Hl [I1 I2 I3]. split; [|done|].
  - intros j q. simpl. intros [[<- <-]|[_ Hq]]%lookup_insert_Some; [done|by eapply I1].
  - eapply registry_inv_mono; [|exact I3]. intros ev. by eapply sent_with_process; [|apply Hl].
Qed.

Lemma fleet_inv_observed account o F : fleet_inv account F → fleet_inv account (observed o F).
Proof.
  intros [I1 I2 I3]. split; [|..|done].
  - intros i p Hp. by eapply process_inv_mono, I1.
  - intros ev Hev. destruct (I2 ev Hev) as (job & Hj & Hpb). exists job.
    split; [by apply justified_mono|done].
Qed.

Lemma fleet_inv_stop account F i p :
  fl_running F !! i = Some p → fleet_inv account F → fleet_inv account (stop i p F).
Proof.
  intros Hp [I1 I2 I3]. split.
  - intros j q. simpl. intros [_ Hq]%lookup_delete_Some. by eapply I1.
  - simpl. intros ev [Hev|Hev]%elem_of_app; [by apply I2|].
    by apply (wi_log _ _ _ (pi_worker _ _ (I1 i p Hp))).
  - eapply registry_inv_mono; [|exact I3]. unfold fl_sent. simpl.
    intros ev [Hev|(j & q & Hq & Hev)]; [left; set_solver|].
    destruct (decide (i = j)) as [->|Hne]; [left; simplify_eq; set_solver|].
    right. exists j, q. by rewrite lookup_delete_ne.
Qed.

Lemma fleet_inv_step account F F' :
  fleet_step account F F' → fleet_inv account F → fleet_inv account F'.
Proof.
  intros Hs HI. destruct Hs as [F i op w Hi Hr|F i p Hp|F i p req get Hp|F i p k Hp E|F i p w Hp
    |F ev m reg Hev E|F m c reg Hm E].
  - destruct HI as [I1 I2 I3]. split; [|done|].
    + intros j q. simpl. intros [[<- <-]|[_ Hq]]%lookup_insert_Some; [by apply boot_inv|by eapply I1].
    + eapply registry_inv_mono; [|exact I3]. intros ev [Hev|(j & q & Hq & Hev)]; [by left|right].
      exists j, q. simpl. rewrite lookup_insert_ne; [done|]. congruence.
  - by apply fleet_inv_stop.
  - pose proof (process_inv_reconcile _ req get p (fi_process _ _ HI i p Hp)) as Hp'.
    apply (fleet_inv_observed _ (req, get)) in HI.
    apply (fleet_inv_process account (observed (req, get) F) i p); [done|exact Hp'| |exact HI].
    simpl. by destruct (observes_frame S1 IsNotFound req get (lastAttested (pr_reconciler p))
      (pr_worker p)) as (_ & -> & _).
  - pose proof (fi_process _ _ HI i p Hp) as Hp'.
    eapply fleet_inv_process; [done|by apply process_inv_work| |done].
    by apply (worker_inv_advance _ _ _ _ E (pi_worker _ _ Hp')).
  - eapply fleet_inv_process; [done| |done|done].
    by apply process_inv_world, (fi_process _ _ HI i).
  - destruct HI as [I1 I2 I3]. split; [done..|]. by eapply registry_inv_mine.
  - destruct (registry_inv_foreign _ _ _ m c Hm (fi_registry _ _ HI)) as [e Hx].
    rewrite Hx in E. discriminate.
Qed.

Lemma fleet_reachable_inv account F : fleet_reachable account F → fleet_inv account F.
Proof.
  intros (F0 & (Hr & Hn & Hp & Ho) & Hs).
  assert (H0' : fleet_inv account F0).
  { split; [rewrite Hn; by intros i p ?%lookup_empty_Some|rewrite Hp; set_solver|].
    by apply registry_inv_new. }
  clear -Hs H0' new_queue_empty. induction Hs as [|F1 F2 F3 H1' _ IH]; [done|].
  by apply IH, (fleet_inv_step _ F1).
Qed.

(** All that was ever sent is justified. *)
Lemma fleet_justified account F ev :
  fleet_inv account F → fl_sent F ev →
  ∃ job, justified S1 (fl_observed F) job ∧ publishes job ev.
Proof.
  intros HI [Hev|(i & p & Hp & Hev)]; [by apply (fi_past _ _ HI)|].
  by apply (wi_log _ _ _ (pi_worker _ _ (fi_process _ _ HI i p Hp))).
Qed.

(** What was sent stays sent. *)
Lemma fleet_sent_step account F F' ev :
  fleet_step account F F' → fl_sent F ev → fl_sent F' ev.
Proof.
  intros [F0 i op w Hi _|F0 i p Hp|F0 i p req get Hp|F0 i p k Hp E|F0 i p w Hp|F0 ev' m reg _ _
    |F0 m c reg _ _] Hev; [..|exact Hev|exact Hev].
  - destruct Hev as [Hev|(j & q & Hq & Hev)]; [by left|right].
    exists j, q. simpl. rewrite lookup_insert_ne; [done|]. congruence.
  - destruct Hev as [Hev|(j & q & Hq & Hev)]; [left; simpl; set_solver|].
    destruct (decide (i = j)) as [->|Hne]; [left; simplify_eq; simpl; set_solver|].
    right. exists j, q. simpl. by rewrite lookup_delete_ne.
  - apply (sent_with_process F0 i p); [done| |done]. simpl.
    by destruct (observes_frame S1 IsNotFound req get (lastAttested (pr_reconciler p))
      (pr_worker p)) as (_ & -> & _).
  - apply (sent_with_process F0 i p); [done| |done]. simpl.
    apply advance_events in E as (_ & _ & l & -> & _). set_solver.
  - by apply (sent_with_process F0 i p).
Qed.

Lemma fleet_sent_steps account F F' ev :
  rtc (fleet_step account) F F' → fl_sent F ev → fl_sent F' ev.
Proof. induction 1 as [|F1 F2 F3 Hs _ IH]; [done|]. intros Hev. by eapply IH, fleet_sent_step. Qed.

(** One process's worker runs while the others wait. *)
Lemma fleet_alone account F i p k :
  fl_running F !! i = Some p → rtc alone (pr_worker p) k →
  rtc (fleet_step account) F (with_process i (with_worker k p) F).
Proof.
  intros Hp Hr. remember (pr_worker p) as k0 eqn:E0. revert F p Hp E0.
  induction Hr as [k|k1 k2 k3 E _ IH]; intros F p Hp E0.
  - subst k. destruct F as [r pa reg obs], p as [o rc w]. unfold with_process, with_worker.
    simpl in *. by rewrite insert_id.
  - eapply rtc_l; [apply (fleet_work account F i p k2 Hp); by rewrite <- E0|].
    specialize (IH (with_process i (with_worker k2 p) F) (with_worker k2 p)).
    destruct F as [r pa reg obs]. unfold with_process, with_worker in *. simpl in *.
    rewrite insert_insert_eq in IH. apply IH; [by rewrite lookup_insert_eq|done].
Qed.

(** ** The cluster and the verifier *)

(** C3: exit status 0 is about something the operator saw: whenever the verifier's process,
    run as [verify], exits with 0 against the registry that a fleet of operator replicas
    publishes to, at any moment, whichever replicas started, stopped or died wherever in
    their work, and whatever other accounts did, one of the replicas read a Deployment
    with its rollout complete, under the very namespace and name the caller asked about
    (or the two "namespace/name" texts collide), and the live one agrees with it on the
    whole v1 surface (or their two encodings collide).  Assumed: no slash in the
    namespaces asked about and read, and valid UTF-8 text and distinct container names
    in the live object and those read, all of which the API server enforces. *)
Theorem fleet_exit_zero_was_observed account F getenv b argv given o env live cluster :
  fleet_reachable account F → reads_registry RegistryABI env o (fl_registry F) →
  cobra_parse (buildinfo_String b) (default_options getenv) required_flags argv =
    RunsVerify given o →
  ps_exit (verify_main (H0 := S2) RegistryABI getenv b argv env) = 0 →
  getDeployment env o (o_namespace o) (o_name o) = Ok (live, cluster) →
  slash_free (o_namespace o) → hashable S2 V1 live →
  (∀ req dep, (req, Ok dep) ∈ fl_observed F →
     slash_free (req_Namespace req) ∧ hashable S1 V1 dep) →
  ∃ req dep, (req, Ok dep) ∈ fl_observed F ∧ rollout_complete dep ∧
    ((req_Namespace req = o_namespace o ∧ req_Name req = o_name o) ∨
     collision (bytes_of (req_Namespace req +:+ "/" +:+ req_Name req))
       (bytes_of (o_namespace o +:+ "/" +:+ o_name o))) ∧
    (v1_equiv dep live ∨
     ∃ b b', canonical_bytes S1 V1 dep = Ok b ∧ canonical_bytes S2 V1 live = Ok b' ∧
             collision b b').
Proof.
  intros HI%fleet_reachable_inv Hr Hp [r Hv]%(proj1 (exit_zero S2 RegistryABI getenv b argv env
    given o Hp)) Hg Hns Hl Ho.
  destruct (pass_justified S1 S2 RegistryABI account _ _ _ env o r live cluster
    (fi_registry _ _ HI) (λ ev, fleet_justified account F ev HI) Hr Hv Hg Hl)
    as (req & dep & Hin & Hc & Hid & Heq); [intros req dep Hin; exact (proj2 (Ho req dep Hin))|].
  exists req, dep. split_and!; [done|by apply rolloutConverged_spec| |done].
  apply DeploymentID_binding; [exact (proj1 (Ho req dep Hin))|done..].
Qed.

(** C4: what a replica observes ends in exit status 0: at any moment of the fleet, also
    after crashes, when a replica whose worker is not inside a turn reads a converged
    Deployment it has not just attested and its outages are finite in number, its
    worker's loop hands a publication to the node such that, whatever happens to the
    fleet from then on, the replica's own death included, the node may still mine it, and
    once the contract takes it every verifier process that asks about this Deployment
    with the key whose fingerprint the replica logged exits with 0 and prints PASS, for
    every live Deployment that agrees with the observed one on the v1 surface. *)
Theorem fleet_observed_exits_zero account F i p req dep h budget fuel :
  let der := signer_PublicKeyDER (signer (op_publisher (pr_operator p))) in
  let p1 := process_reconcile req (Ok dep) p in
  let p2 := with_worker (idle (Start fuel (wk_st (pr_worker p1)))) p1 in
  let F2 := observed (req, Ok dep) (with_process i p2 F) in
  fleet_reachable account F → fl_running F !! i = Some p → wk_phase (pr_worker p) = Idle →
  rolloutConverged dep = true → @ConfigHashForVersion _ S1 CurrentVersion dep = Ok h →
  lastAttested (pr_reconciler p) !! DeploymentID (req_Namespace req) (req_Name req) ≠ Some h →
  outages_end budget (publ (wk_st (pr_worker p))) →
  (backlog budget (wk_st (pr_worker p1)) ≤ fuel)%nat → hashable S1 CurrentVersion dep →
  op_fingerprint (pr_operator p) = PublicKeyFingerprint der ∧
  rtc (fleet_step account) F F2 ∧
  ∃ ev, fl_sent F2 ev ∧ pb_ok ev = true ∧
    ∀ F3 m reg, rtc (fleet_step account) F2 F3 →
      RegistryV1.publish m (call_of ev) (fl_registry F3) = inl reg →
      fleet_step account F3 (with_registry reg F3) ∧
      ∀ getenv b argv given o env live cluster,
        cobra_parse (buildinfo_String b) (default_options getenv) required_flags argv =
          RunsVerify given o →
        o_namespace o = req_Namespace req → o_name o = req_Name req →
        verifier_sees RegistryABI env o reg der →
        getDeployment env o (o_namespace o) (o_name o) = Ok (live, cluster) →
        hashable S2 CurrentVersion live → v1_equiv dep live →
        let out := verify_main (H0 := S2) RegistryABI getenv b argv env in
        ps_exit out = 0 ∧ starts_with "PASS  " (ps_stdout out).
Proof.
  intros der p1 p2 F2 HR Hp Hi Hc Hh Hl Ho Hf Hdep.
  pose proof (fi_process _ _ (fleet_reachable_inv _ _ HR) i p Hp) as HI.
  destruct (ran_op _ _ _ (pi_ran _ _ HI)) as (ks & c & _ & Hop & Hfp).
  pose proof (pi_signer _ _ HI) as Hsg. pose proof (process_attests _ _ HI) as Ha.
  assert (Hder : der = PublicKeyDER ks) by (unfold der; by rewrite Hop).
  split; [by rewrite Hder|]. split.
  { eapply rtc_l; [by apply (fleet_reconcile account F i p req (Ok dep))|].
    pose proof (fleet_alone account (observed (req, Ok dep) (with_process i p1 F)) i p1
      (idle (Start fuel (wk_st (pr_worker p1))))) as Hal.
    unfold F2, p2, with_process, observed in *. simpl in *.
    rewrite insert_insert_eq in Hal. apply Hal; [by rewrite lookup_insert_eq|].
    apply start_alone. by destruct (observes_frame S1 IsNotFound req (Ok dep)
      (lastAttested (pr_reconciler p)) (pr_worker p)) as (-> & _). }
  destruct (ParsePublicKeyDER der) as [k|e] eqn:Hk.
  2: { pose proof signer_parses as Hok. rewrite Hsg in Hok. fold der in Hok. by rewrite Hk in Hok. }
  destruct (observes_becomes_verifiable S1 S2 RegistryABI IsNotFound _ (lastAttested (pr_reconciler p))
    (pr_worker p) req dep h budget fuel k (pi_worker _ _ HI) (pi_verified _ _ HI k Hk) Hi Ha)
    as (ev & Hev & Hok & Hv); [by rewrite Hsg|done..|].
  assert (Hsent : fl_sent F2 ev).
  { right. exists i, p2. simpl. by rewrite lookup_insert_eq. }
  exists ev. split_and!; [done..|]. intros F3 m reg HF3 Hpub. split.
  { eapply fleet_mine; [by eapply fleet_sent_steps|done]. }
  intros getenv b argv given o env live cluster Hcmd Hns Hnm Hsee Hg Hl' Heq.
  destruct (Hv m (fl_registry F3) reg env o live cluster Hns Hnm Hpub) as (r & Hr & _);
    [by rewrite Hsg|done..|].
  destruct (exit_zero S2 RegistryABI getenv b argv env given o Hcmd) as [Hx Hout].
  split; [apply Hx; eauto|]. rewrite (Hout r Hr). apply print_pass_prefix.
Qed.
End Fleet.

(** ** A replica dies before its publication is mined *)

Module FleetWitness.
Import Concrete Insertion Fixtures ToyCrypto ListQueue.
Import VerifyWitness(operator, block, key, opts, env_of).
Import EndToEndWitness(empty_registry, event) SystemWitness(api, benign_hash, benign_tampered).
Import VerifyMainWitness(shell, cmdline, dev).
Import DeployedWitness(node_eth, kms, manager, kms_key, op, op_started, sys0, published,
  observed_queue, no_jobs, never_out).

#[local] Existing Instance DeployedWitness.node_eth.
#[local] Existing Instance VerifyMainWitness.toy_cobra.

Abbreviation ToyFleet := (Fleet (W := RegistryV1.state) (Tx := unit) (Q := list Job)).
Abbreviation reaches := (fleet_reachable insertion_sorter "abi" [] (λ _, false) operator).
Abbreviation moves := (fleet_step insertion_sorter "abi" [] (λ _, false) operator).

Definition empty : ToyFleet :=
  {| fl_running := ∅; fl_past := []; fl_registry := empty_registry; fl_observed := [] |}.

Lemma op_ran : ran "abi" [] op.
Proof.
  by exists CmdWitness.full_env, id, CmdWitness.clean, (Ok kms), manager, empty_registry, None,
    empty_registry; apply op_started.
Qed.

(** Replica 0 starts. *)
Definition fresh : Process := boot op empty_registry.
Definition one : ToyFleet := with_process 0 fresh empty.

Lemma one_reached : reaches one.
Proof.
  exists empty. split; [by split_and!|]. apply rtc_once. by apply fleet_start, op_ran.
Qed.

(** It reads fixture 08, and its worker runs. *)
Definition read08 : Process :=
  process_reconcile insertion_sorter (λ _, false) api (Ok benign) fresh.
Definition published08 : Process :=
  with_worker (idle (Start 1 (wk_st (pr_worker read08)))) read08.
Definition two : ToyFleet := observed (api, Ok benign) (with_process 0 published08 one).

Lemma read08_worker :
  pr_worker read08 =
  sys_publisher (reconcile insertion_sorter (λ _, false) api (Ok benign) sys0).
Proof. symmetry. apply (reconcile_observes insertion_sorter (λ _, false) api (Ok benign) sys0). Qed.

Lemma published08_log h :
  ConfigHashForVersion CurrentVersion benign = Ok h →
  plog (wk_st (pr_worker published08)) = [event h].
Proof.
  intros Eh. rewrite <- (published h Eh).
  change (plog (Start 1 (wk_st (pr_worker read08))) = plog (Start 1 (wk_st (sys_publisher
    (reconcile insertion_sorter (λ _, false) api (Ok benign) sys0))))).
  by rewrite read08_worker.
Qed.

(** It dies, replica 1 takes over, and the publication is mined. *)
Definition three : ToyFleet := with_process 1 fresh (stop 0 published08 two).

Lemma two_three : rtc moves two three.
Proof.
  eapply rtc_l; [by apply (fleet_stop _ _ _ _ _ _ 0 published08)|].
  apply rtc_once. by apply fleet_start, op_ran.
Qed.

Lemma outages : outages_end (λ _, O) (publ (wk_st (pr_worker fresh))).
Proof. exact never_out. Qed.

Lemma small_backlog h :
  ConfigHashForVersion CurrentVersion benign = Ok h →
  (backlog (λ _, O) (wk_st (pr_worker read08)) ≤ 1)%nat.
Proof.
  intros Eh. rewrite read08_worker, (observed_queue h Eh). unfold backlog. rewrite Nat.add_0_r.
  exact (size_insert_le (job_for "demo" "api" h) ∅).
Qed.

Lemma fleet_observed_exits_zero_witness :
  ∃ h reg, ConfigHashForVersion CurrentVersion benign = Ok h ∧
    RegistryV1.publish (block 1700000000) (call_of (event h)) (fl_registry three) = inl reg ∧
    moves three (with_registry reg three) ∧
    ps_exit (verify_main "abi" shell dev cmdline (env_of tampered reg)) = 0.
Proof.
  destruct benign_hash as [h Eh].
  destruct (RegistryV1.publish (block 1700000000) (call_of (event h)) (fl_registry three))
    as [reg|] eqn:Ep; [|discriminate].
  destruct (fleet_observed_exits_zero insertion_sorter insertion_sorter "abi" [] no_jobs (λ _, false)
    operator one 0 fresh api benign h (λ _, O) 1) as (_ & _ & ev & Hev & _ & Hv).
  - exact one_reached.
  - reflexivity.
  - reflexivity.
  - reflexivity.
  - exact Eh.
  - done.
  - exact outages.
  - exact (small_backlog h Eh).
  - apply HashWitness.hashable_v1. vm_compute. reflexivity.
  - assert (ev = event h) as ->.
    { destruct Hev as [Hev|(i & p & Hp & Hev)]; [by apply not_elem_of_nil in Hev|].
      change (fl_running two !! i = Some p) in Hp. unfold two, one, empty in Hp. simpl in Hp.
      rewrite insert_insert_eq in Hp. apply lookup_singleton_Some in Hp as [<- <-].
      rewrite (published08_log h Eh) in Hev. by apply list_elem_of_singleton in Hev. }
    destruct (Hv three (block 1700000000) reg two_three Ep) as [Hs Hx].
    exists h, reg. split; [exact Eh|]. split; [exact Ep|]. split; [exact Hs|].
    apply (Hx shell dev cmdline ["namespace"; "name"; "public-key"]%string opts
      (env_of tampered reg) tampered "prod (https://cluster)"%string).
    + reflexivity.
    + reflexivity.
    + reflexivity.
    + split_and!; [discriminate..| |reflexivity]. eexists _, _. split; reflexivity.
    + reflexivity.
    + apply HashWitness.hashable_v1. vm_compute. reflexivity.
    + exact benign_tampered.
Defined.

(** The verification after that, in the fleet of replica 1 alone. *)
Lemma survivor_passes h reg :
  ConfigHashForVersion CurrentVersion benign = Ok h →
  RegistryV1.publish (block 1700000000) (call_of (event h)) empty_registry = inl reg →
  ∃ r, runVerify "abi" (env_of tampered reg) opts = PASS r.
Proof.
  intros Eh Ep. eexists.
  apply (published_passes insertion_sorter insertion_sorter "abi" benign tampered h
    "prod (https://cluster)" opts (env_of tampered reg) (toy_der key) (event h)
    (block 1700000000) empty_registry reg (key : @PublicKey toy_crypto)).
  - reflexivity.
  - exact Eh.
  - by split_and!.
  - split; [|reflexivity]. unfold VerifyConfigHashSignature. simpl.
    by apply bool_decide_eq_true_2.
  - exact Ep.
  - split_and!; [discriminate..| |reflexivity]. eexists _, _. split; reflexivity.
  - reflexivity.
  - apply HashWitness.hashable_v1. vm_compute. reflexivity.
  - apply HashWitness.hashable_v1. vm_compute. reflexivity.
  - exact benign_tampered.
Qed.

Lemma mined_reached h reg :
  ConfigHashForVersion CurrentVersion benign = Ok h →
  RegistryV1.publish (block 1700000000) (call_of (event h)) empty_registry = inl reg →
  reaches (with_registry reg three).
Proof.
  intros Eh Ep. destruct one_reached as (F0 & Hi & Hr). exists F0. split; [done|].
  etrans; [exact Hr|]. eapply rtc_l; [by apply (fleet_reconcile _ _ _ _ _ _ 0 fresh api (Ok benign))|].
  etrans.
  { apply (fleet_alone insertion_sorter "abi" [] (λ _, false) operator _ 0 read08
      (idle (Start 1 (wk_st (pr_worker read08))))); [done|].
    apply start_alone. by rewrite read08_worker, (observed_queue h Eh). }
  replace (with_process 0 _ (observed _ _)) with two
    by (unfold two, one, with_process, observed; simpl; by rewrite !insert_insert_eq).
  eapply rtc_r; [exact two_three|]. eapply fleet_mine; [|exact Ep].
  left. change (event h ∈ plog (wk_st (pr_worker published08))).
  rewrite (published08_log h Eh). by left.
Qed.

Lemma fleet_exit_zero_was_observed_witness :
  ∃ reg req dep, (req, Ok dep) ∈ fl_observed (with_registry reg three) ∧
    rollout_complete dep ∧
    ((req_Namespace req = "demo" ∧ req_Name req = "api")%string ∨
     collision (bytes_of (req_Namespace req +:+ "/" +:+ req_Name req))
       (bytes_of "demo/api")) ∧
    (v1_equiv dep tampered ∨
     ∃ b b', canonical_bytes insertion_sorter V1 dep = Ok b ∧
             canonical_bytes insertion_sorter V1 tampered = Ok b' ∧ collision b b').
Proof.
  destruct benign_hash as [h Eh].
  destruct (RegistryV1.publish (block 1700000000) (call_of (event h)) empty_registry)
    as [reg|] eqn:Ep; [|discriminate]. exists reg.
  assert (Hx : ps_exit (verify_main "abi" shell dev cmdline (env_of tampered reg)) = 0).
  { apply (exit_zero insertion_sorter "abi" shell dev cmdline
      (env_of tampered reg) ["namespace"; "name"; "public-key"]%string opts).
    - reflexivity.
    - exact (survivor_passes h reg Eh Ep). }
  eapply (fleet_exit_zero_was_observed insertion_sorter insertion_sorter "abi" [] no_jobs (λ _, false)
    operator (with_registry reg three) shell dev cmdline ["namespace"; "name"; "public-key"]%string
    opts (env_of tampered reg) tampered).
  - by apply (mined_reached h).
  - eexists _, _. split; reflexivity.
  - reflexivity.
  - exact Hx.
  - reflexivity.
  - apply HashWitness.slash_free_check. reflexivity.
  - apply HashWitness.hashable_v1. vm_compute. reflexivity.
  - intros req dep Hin. apply list_elem_of_singleton in Hin. injection Hin as -> ->.
    split; [apply HashWitness.slash_free_check; reflexivity|].
    apply HashWitness.hashable_v1. vm_compute. reflexivity.
Defined.
End FleetWitness.
