(* ===== verification/Recovery.v ===== *)
(** * Recovery of the v1 operator after a restart

    The queue is in memory and dies with its process.  What brings the requests back is
    the informer, which lists every Deployment again when a process starts, and the dedup
    map, which starts empty. *)

From S2P Require Import Prelude Bytes Sha256 GoSort Kube Fixtures Normalize NormalizeV2 Hash.
From S2P Require Import Registry Verify Signer Client WorkQueue Publisher PublisherSteps.
From S2P Require Import Controller VerifyCmd EndToEnd System Cmd VerifyMain Deployed Fleet.

Open Scope Z_scope.

Section Recovery.
Context `{Upstream} (S1 : Sorter) `{Crypto} {W Tx : Type} `{EthLib W Tx}.
Context (RegistryABI : string) {Q : Type} `{!WorkQueue Job Q} (new_queue : Q).
Context (new_queue_empty : todo new_queue = ∅) (IsNotFound : error → bool).

Abbreviation Process := (Fleet.Process (W := W) (Tx := Tx) (Q := Q)).
Abbreviation Fleet := (Fleet.Fleet (W := W) (Tx := Tx) (Q := Q)).

Definition id_of (rd : Request * Deployment) : bytes32 :=
  DeploymentID (req_Namespace rd.1) (req_Name rd.1).

Definition job_of (rd : Request * Deployment) (h : bytes32) : Job :=
  job_for (req_Namespace rd.1) (req_Name rd.1) h.

Definition publisher_of (p : Process) : @Publisher W Q := publ (wk_st (pr_worker p)).

(** The informer's first listing, object by object. *)
Definition relist (reads : list (Request * Deployment)) (p : Process) : Process :=
  foldl (λ p rd, process_reconcile S1 IsNotFound rd.1 (Ok rd.2) p) p reads.

(** ** What a listing queues *)

Lemma Reconcile_other req get r id :
  id ≠ DeploymentID (req_Namespace req) (req_Name req) →
  lastAttested (@Reconcile _ S1 IsNotFound req get r).2 !! id = lastAttested r !! id.
Proof.
  intros Hid. unfold Reconcile. destruct get as [dep|e].
  - destruct (rolloutConverged dep); [|done]. cbn [negb].
    destruct (ConfigHashForVersion CurrentVersion dep) as [h|]; [|done].
    destruct (alreadyAttested _ _ _); [done|]. by apply lookup_insert_ne.
  - destruct (IsNotFound e); [|done]. by apply lookup_delete_ne.
Qed.

Lemma observes_keeps req get la (k : @Worker W Q) job :
  wk_phase k = Idle → job ∈ todo (queue (publ (wk_st k))) →
  job ∈ todo (queue (publ (wk_st (observes S1 IsNotFound req get la k)))).
Proof.
  intros Hi Hj. unfold observes.
  set (jobs := enqueued (@Reconcile _ S1 IsNotFound req get {| lastAttested := la; enqueued := [] |}).2).
  destruct (foldl_enqueue k jobs) as (E & Hp & _). unfold abstraction in E. simpl in E.
  rewrite Hp, Hi in E. simpl in E. set_solver.
Qed.

Lemma reconcile_phase req get (p : Process) :
  wk_phase (pr_worker (process_reconcile S1 IsNotFound req get p)) = wk_phase (pr_worker p).
Proof. apply observes_frame. Qed.

(** A listing changes nothing the worker holds. *)
Lemma relist_frame reads (p : Process) :
  wk_phase (pr_worker (relist reads p)) = wk_phase (pr_worker p) ∧
  signer (publisher_of (relist reads p)) = signer (publisher_of p) ∧
  chain (publisher_of (relist reads p)) = chain (publisher_of p) ∧
  pr_operator (relist reads p) = pr_operator p.
Proof.
  revert p. induction reads as [|rd reads IH]; intros p; [done|].
  destruct (IH (process_reconcile S1 IsNotFound rd.1 (Ok rd.2) p)) as (I1 & I2 & I3 & I4).
  destruct (observes_frame S1 IsNotFound rd.1 (Ok rd.2) (lastAttested (pr_reconciler p)) (pr_worker p))
    as (O1 & _ & O2 & O3).
  split_and!; [by etrans; [exact I1|]|by etrans; [exact I2|]|by etrans; [exact I3|]|done].
Qed.

Lemma relist_keeps reads (p : Process) job :
  wk_phase (pr_worker p) = Idle → job ∈ todo (queue (publisher_of p)) →
  job ∈ todo (queue (publisher_of (relist reads p))).
Proof.
  revert p. induction reads as [|rd reads IH]; intros p Hi Hj; [done|]. apply IH.
  - by rewrite reconcile_phase.
  - by apply observes_keeps.
Qed.

Lemma relist_queues reads (p : Process) :
  wk_phase (pr_worker p) = Idle → NoDup (id_of <$> reads) →
  (∀ rd, rd ∈ reads → lastAttested (pr_reconciler p) !! id_of rd = None) →
  ∀ rd h, rd ∈ reads → rolloutConverged rd.2 = true →
    @ConfigHashForVersion _ S1 CurrentVersion rd.2 = Ok h →
    job_of rd h ∈ todo (queue (publisher_of (relist reads p))).
Proof.
  revert p. induction reads as [|rd0 reads IH]; intros p Hi Hnd Hl rd h Hin Hc Hh;
    [by apply not_elem_of_nil in Hin|].
  rewrite fmap_cons in Hnd. apply NoDup_cons in Hnd as [Hout Hnd].
  set (p1 := process_reconcile S1 IsNotFound rd0.1 (Ok rd0.2) p).
  assert (Hi1 : wk_phase (pr_worker p1) = Idle) by (unfold p1; by rewrite reconcile_phase).
  apply elem_of_cons in Hin as [->|Hin].
  - apply (relist_keeps reads p1); [done|]. apply observes_queues; [done..|].
    change (lastAttested (pr_reconciler p) !! id_of rd0 ≠ Some h). rewrite Hl by (by left). done.
  - apply (IH p1); [done..| |done|done|done]. intros rd' Hin'.
    rewrite <- (Hl rd') by (by right). apply (Reconcile_other rd0.1 (Ok rd0.2)
      {| lastAttested := lastAttested (pr_reconciler p); enqueued := [] |}).
    intros E. apply Hout. apply list_elem_of_fmap. by exists rd'.
Qed.

(** A process starts with an empty dedup map. *)
Lemma ran_reconciler op :
  ran RegistryABI new_queue op → lastAttested (op_reconciler op) = ∅.
Proof.
  intros (getenv & parse & b & aws & mgr & w & err & w' & Hm).
  by apply main_Ran in Hm as (_ & kms & k & c & w1 & w2 & _ & _ & _ & ->).
Qed.

(** ** In the fleet *)

Definition all_observed (reads : list (Request * Deployment)) (F : Fleet) : Fleet :=
  foldl (λ F rd, observed (rd.1, Ok rd.2) F) F reads.

Lemma with_process_all i p reads F :
  with_process i p (all_observed reads F) = all_observed reads (with_process i p F).
Proof. revert F. induction reads as [|rd reads IH]; intros F; [done|]. apply (IH (observed _ F)). Qed.

Lemma relist_steps account F i p reads :
  fl_running F !! i = Some p →
  rtc (fleet_step S1 RegistryABI new_queue IsNotFound account) F
    (all_observed reads (with_process i (relist reads p) F)).
Proof.
  revert F p. induction reads as [|rd reads IH]; intros F p Hp.
  - destruct F as [r pa reg obs]. unfold with_process. simpl in *. by rewrite insert_id.
  - eapply rtc_l; [by apply (fleet_reconcile S1 RegistryABI new_queue IsNotFound account F i p
      rd.1 (Ok rd.2))|].
    set (p1 := process_reconcile S1 IsNotFound rd.1 (Ok rd.2) p).
    specialize (IH (observed (rd.1, Ok rd.2) (with_process i p1 F)) p1).
    destruct F as [r pa reg obs]. unfold with_process, observed in *. simpl in *.
    rewrite insert_insert_eq in IH. apply IH. by rewrite lookup_insert_eq.
Qed.

(** C5: a restart recovers what a crash lost: at any moment of the fleet, whatever queues
    died with their processes, when a new process starts, is shown every Deployment once
    by its informer, and outages are finite in number, its worker's loop hands the node,
    for every Deployment that has converged, an accepted publication of exactly that
    Deployment's id, current version and config hash, with a signature that verifies
    under the new process's key. *)
Theorem restart_recovers account F i op w reads budget fuel :
  let p := relist reads (boot op w) in
  let p' := with_worker (idle (Start fuel (wk_st (pr_worker p)))) p in
  let F' := all_observed reads (with_process i p' F) in
  let der := signer_PublicKeyDER (signer (op_publisher op)) in
  fleet_reachable S1 RegistryABI new_queue IsNotFound account F → fl_running F !! i = None →
  ran RegistryABI new_queue op → NoDup (id_of <$> reads) →
  outages_end budget (op_publisher op) → (backlog budget (wk_st (pr_worker p)) ≤ fuel)%nat →
  rtc (fleet_step S1 RegistryABI new_queue IsNotFound account) F F' ∧
  todo (queue (publisher_of p')) = ∅ ∧
  ∃ k, ParsePublicKeyDER der = Ok k ∧
  ∀ rd h, rd ∈ reads → rolloutConverged rd.2 = true →
    @ConfigHashForVersion _ S1 CurrentVersion rd.2 = Ok h →
    ∃ ev, fl_sent F' ev ∧ pb_ok ev = true ∧ publishes (job_of rd h) ev ∧ verified_by k der ev.
Proof.
  intros p p' F' der HR Hi Hop Hnd Ho Hf.
  destruct (relist_frame reads (boot op w)) as (Hph & Hsg & Hch & _). fold p in Hph, Hsg, Hch.
  set (F1 := all_observed reads (with_process i p F)).
  assert (H1' : rtc (fleet_step S1 RegistryABI new_queue IsNotFound account) F F1).
  { eapply rtc_l; [by apply (fleet_start S1 RegistryABI new_queue IsNotFound account F i op w)|].
    pose proof (relist_steps account (with_process i (boot op w) F) i (boot op w) reads) as Hr.
    unfold F1. destruct F as [r pa reg obs]. unfold with_process in *. simpl in *.
    rewrite insert_insert_eq in Hr. apply Hr. by rewrite lookup_insert_eq. }
  assert (Hp : fl_running F1 !! i = Some p).
  { unfold F1. rewrite <- with_process_all. simpl. by rewrite lookup_insert_eq. }
  pose proof (start_alone fuel (pr_worker p) Hph) as Hal.
  assert (H2' : rtc (fleet_step S1 RegistryABI new_queue IsNotFound account) F1 F').
  { replace F' with (with_process i p' F1); [by apply fleet_alone|].
    unfold F', F1. rewrite with_process_all. f_equal. unfold with_process. simpl.
    by rewrite insert_insert_eq. }
  assert (HR1 : fleet_reachable S1 RegistryABI new_queue IsNotFound account F1).
  { destruct HR as (F0 & Hini & Hs). exists F0. split; [done|by etrans]. }
  pose proof (fi_process _ _ _ _ _ (fleet_reachable_inv _ _ _ new_queue_empty _ _ _ HR1) i p Hp)
    as HI.
  pose proof (process_attests _ _ _ _ _ HI) as Ha. unfold publisher_of in Hsg, Hch.
  change (publ (wk_st (pr_worker (boot op w)))) with (op_publisher op) in Hsg, Hch.
  assert (Hder : ∃ k, ParsePublicKeyDER der = Ok k).
  { pose proof signer_parses as Hok. rewrite Hsg in Hok. fold der in Hok.
    destruct (ParsePublicKeyDER der) as [k|]; [by exists k|done]. }
  destruct Hder as [k Hk].
  assert (Ho1 : outages_end budget (publ (wk_st (pr_worker p)))).
  { unfold outages_end. rewrite Hsg, Hch. exact Ho. }
  assert (Hver1 : versioned_jobs (wk_st (pr_worker p))).
  { intros job Hj. destruct (wi_queue _ _ _ (pi_worker _ _ _ _ _ HI) job)
      as (_ & _ & _ & _ & _ & -> & _); [simpl; set_solver|done]. }
  destruct (Start_catches_up budget fuel _ Ho1 Hver1 Hf) as (_ & Hdone & Hjobs).
  split; [by etrans|]. split; [exact Hdone|]. exists k. split; [exact Hk|].
  assert (Hk' : ParsePublicKeyDER (signer_PublicKeyDER (signer (publ (wk_st (pr_worker p))))) = Ok k)
    by (rewrite Hsg; exact Hk).
  destruct (alone_verified S1 _ k (pr_worker p) (idle (Start fuel (wk_st (pr_worker p)))) Ha Hk'
    (pi_worker _ _ _ _ _ HI) Hal) as [_ Hver].
  { apply (pi_verified _ _ _ _ _ HI). by rewrite <- (pi_signer _ _ _ _ _ HI). }
  change (wk_st (idle (Start fuel (wk_st (pr_worker p))))) with
    (Start fuel (wk_st (pr_worker p))) in Hver.
  rewrite Start_signer, Hsg, Forall_forall in Hver.
  intros rd h Hin Hc Hh. destruct (Hjobs (job_of rd h)) as (ev & Hev & Hpb & Hok).
  { apply relist_queues; [done|done| |done..]. intros rd' _. simpl.
    by rewrite (ran_reconciler op Hop). }
  exists ev. split_and!; [|done|done|by apply Hver].
  right. exists i, p'. unfold F'. rewrite <- with_process_all. simpl.
  by rewrite lookup_insert_eq.
Qed.
End Recovery.

(** ** A queue lost and recovered *)

Module RecoveryWitness.
Import Concrete Insertion Fixtures ToyCrypto ListQueue.
Import VerifyWitness(operator) SystemWitness(api, benign_hash).
Import DeployedWitness(op, no_jobs) FleetWitness.

#[local] Existing Instance DeployedWitness.node_eth.

(** Replica 0 reads fixture 08, and dies before its worker took the job. *)
Definition lost : ToyFleet :=
  stop 0 read08 (observed (api, Ok benign) (with_process 0 read08 one)).

Lemma lost_reached : reaches lost.
Proof.
  destruct one_reached as (F0 & Hi & Hr). exists F0. split; [done|]. etrans; [exact Hr|].
  eapply rtc_l; [by apply (fleet_reconcile _ _ _ _ _ _ 0 fresh api (Ok benign))|].
  apply rtc_once. by apply (fleet_stop _ _ _ _ _ _ 0 read08).
Qed.

Lemma restart_recovers_witness :
  ∃ h F' ev, ConfigHashForVersion CurrentVersion benign = Ok h ∧
    rtc (fleet_step insertion_sorter "abi" [] (λ _, false) operator) lost F' ∧
    fl_sent F' ev ∧ pb_ok ev = true ∧ publishes (job_for "demo" "api" h) ev.
Proof.
  destruct benign_hash as [h Eh].
  destruct (restart_recovers insertion_sorter "abi" [] no_jobs (λ _, false) operator lost 1 op
    EndToEndWitness.empty_registry [(api, benign)] (λ _, O) 1) as (Hr & _ & k & _ & Hall).
  - exact lost_reached.
  - reflexivity.
  - exact op_ran.
  - apply NoDup_singleton.
  - exact outages.
  - exact (small_backlog h Eh).
  - destruct (Hall (api, benign) h) as (ev & H1 & H2 & H3 & _);
      [by left|reflexivity|exact Eh|].
    eexists h, _, ev. split; [exact Eh|]. split; [exact Hr|]. split; [exact H1|]. by split.
Defined.
End RecoveryWitness.
