(* ===== verification/PublisherV2.v ===== *)
(** * The v2 publisher (internal/publisher/publisher_v2.go)

    The state machine that takes a workload from "observed" to "the chain holds it".
    Its collaborators are parameters: the signer and the chain act on an arbitrary
    world state and may answer anything, and while any such call is in flight other
    goroutines may [Enqueue] anything ([concurrent]).  The mutex sections are
    atomic; enqueues are interleaved with the worker at every external call of a turn
    and between turns.  Each external call is also recorded in a ghost log, over which
    the theorems are stated.  A signature that was stored counts as present even if the
    signer answered with an empty one, which [signer.KMSSigner] never does. *)

From S2P Require Import Prelude Bytes Sha256 Hash Identity Verify Signer WorkQueue.

Open Scope Z_scope.

(** ** Data *)

Record Desired := {
  ds_Identity : WorkloadIdentityV2;
  ds_Version : Version;
  ds_ConfigHash : bytes32;
  ds_UID : string;
  ds_Label : string
}.

Record RevisionKey := {
  rk_Version : Z;
  rk_ConfigHash : bytes32;
  rk_Incarnation : bytes32;
  rk_Fingerprint : bytes32
}.

#[export] Instance RevisionKey_eq_dec : EqDecision RevisionKey.
Proof. solve_decision. Defined.

Record OnChain := {
  oc_Exists : bool;
  oc_Key : RevisionKey;
  oc_Signature : bytes
}.

Inductive SendOutcome := SendUnknown | SendAccepted.
Inductive WaitOutcome := WaitUnknown | WaitMinedSuccess | WaitReverted.

#[export] Instance WaitOutcome_eq_dec : EqDecision WaitOutcome.
Proof. solve_decision. Defined.

Record ChainV2 (W Tx : Type) := {
  chain_Latest : bytes32 → W → result OnChain * W;
  chain_Prepare : bytes32 → RevisionKey → bytes → W → result Tx * W;
  chain_Send : Tx → W → result SendOutcome * W;
  chain_Wait : Tx → W → result WaitOutcome * W;
  tx_Hash : Tx → string
}.
Arguments chain_Latest {W Tx} _ _ _.
Arguments chain_Prepare {W Tx} _ _ _ _ _.
Arguments chain_Send {W Tx} _ _ _.
Arguments chain_Wait {W Tx} _ _ _.
Arguments tx_Hash {W Tx} _ _.

Section Publisher.
Context `{Crypto, MapRange}.
Context {W Tx Q : Type} `{!QueueOps bytes32 Q}.

Record workloadState := {
  ws_desired : Desired;
  ws_seq : Z;
  ws_key : RevisionKey;
  ws_signature : slice Byte.byte;
  ws_prepared : option Tx;
  ws_confirmed : option RevisionKey
}.

Record PublisherV2 := {
  p_queue : Q;
  p_signer : Signer W;
  p_chain : ChainV2 W Tx;
  p_fingerprint : bytes32;
  p_pub : PublicKey;
  p_state : gmap bytes32 workloadState;
  p_seq : Z
}.

(** A fresh rate-limiting queue. *)
Context (new_queue : Q).

(** What other goroutines enqueue while a call is in flight. *)
Context (concurrent : W → list Desired * W).

Definition NewV2 (signer : Signer W) (chain : ChainV2 W Tx) : result PublisherV2 :=
  let der := signer_PublicKeyDER signer in
  match ParsePublicKeyDER der with
  | Err err => Err (fmt_Errorf "publisher: signer public key: %w" [] (Some err))
  | Ok pub =>
      Ok {| p_queue := new_queue; p_signer := signer; p_chain := chain;
            p_fingerprint := PublicKeyFingerprintBytes der; p_pub := pub;
            p_state := ∅; p_seq := 0 |}
  end.

Definition envelopeFor (d : Desired) : EnvelopeV2 :=
  {| e_Version := ds_Version d; e_Identity := ds_Identity d; e_UID := ds_UID d;
     e_ConfigHash := ds_ConfigHash d |}.

Definition recordIsOurs (p : PublisherV2) (d : Desired) (sig : bytes) : bool :=
  if is_nil sig then false
  else
    match EnvelopeSigningDigest (envelopeFor d) with
    | Err _ => false
    | Ok digest => VerifyConfigHashSignature (p_pub p) digest sig
    end.

Definition revisionKey (p : PublisherV2) (d : Desired) : RevisionKey :=
  {| rk_Version := uint16 (ds_Version d); rk_ConfigHash := ds_ConfigHash d;
     rk_Incarnation := Incarnation (envelopeFor d); rk_Fingerprint := p_fingerprint p |}.

(** ** The machine state

    The publisher, the world outside it, and the ghost log. *)

Inductive event :=
  | EvEnqueue (d : Desired) (started : option Z)
  | EvLatest (id : bytes32) (r : result OnChain)
  | EvSign (id : bytes32) (digest : bytes32) (r : result bytes)
  | EvPrepare (id : bytes32) (seq : Z) (key : RevisionKey) (sig : bytes) (r : result Tx)
  | EvSend (id : bytes32) (seq : Z) (tx : Tx) (r : result SendOutcome)
  | EvWait (id : bytes32) (seq : Z) (tx : Tx) (r : result WaitOutcome).

Record St := { pub_ : PublisherV2; world : W; log : list event }.

Definition with_pub (f : PublisherV2 → PublisherV2) (s : St) : St :=
  {| pub_ := f (pub_ s); world := world s; log := log s |}.

Definition set_queue (f : Q → Q) (p : PublisherV2) : PublisherV2 :=
  {| p_queue := f (p_queue p); p_signer := p_signer p; p_chain := p_chain p;
     p_fingerprint := p_fingerprint p; p_pub := p_pub p; p_state := p_state p;
     p_seq := p_seq p |}.

Definition set_state (seq : Z) (id : bytes32) (st : workloadState) (p : PublisherV2) :
    PublisherV2 :=
  {| p_queue := p_queue p; p_signer := p_signer p; p_chain := p_chain p;
     p_fingerprint := p_fingerprint p; p_pub := p_pub p; p_state := <[id := st]> (p_state p);
     p_seq := seq |}.

Definition emit (e : event) (s : St) : St :=
  {| pub_ := pub_ s; world := world s; log := log s ++ [e] |}.

(** ** Enqueue *)

(** The critical section: the new state, and whether to queue the workload. *)
Definition enqueue_locked (p : PublisherV2) (workloadID : bytes32) (d : Desired) :
    PublisherV2 * bool :=
  let key := revisionKey p d in
  let st := p_state p !! workloadID in
  let confirmed := st ≫= ws_confirmed in
  let current := st ≫= λ st, if ws_seq st =? 0 then None else Some (ws_key st) in
  if bool_decide (confirmed = Some key) then (p, false)
  else if bool_decide (current = Some key) then (p, true)
  else
    let seq := uint64 (p_seq p + 1) in
    (set_state seq workloadID
       {| ws_desired := d; ws_seq := seq; ws_key := key; ws_signature := None;
          ws_prepared := None; ws_confirmed := confirmed |} p, true).

(** The revision a critical section started, for the log. *)
Definition started_by (p p' : PublisherV2) : option Z :=
  if p_seq p' =? p_seq p then None else Some (p_seq p').

Definition Enqueue (d : Desired) (s : St) : result unit * St :=
  match WorkloadID (ds_Identity d) with
  | Err err => (Err (fmt_Errorf "publisher: %w" [] (Some err)), s)
  | Ok workloadID =>
      let '(p, add) := enqueue_locked (pub_ s) workloadID d in
      let ev := EvEnqueue d (started_by (pub_ s) p) in
      let p := if add then set_queue (q_Add workloadID) p else p in
      (Ok tt, emit ev {| pub_ := p; world := world s; log := log s |})
  end.

Definition enqueue_all (ds : list Desired) (s : St) : St :=
  foldl (λ s d, (Enqueue d s).2) s ds.

(** ** External calls, with the reconciler running meanwhile *)

Definition call {A} (f : W → A * W) (ev : A → event) (s : St) : A * St :=
  let '(a, w) := f (world s) in
  let '(ds, w) := concurrent w in
  (a, enqueue_all ds (emit (ev a) {| pub_ := pub_ s; world := w; log := log s |})).

Definition Latest (id : bytes32) (s : St) : result OnChain * St :=
  call (chain_Latest (p_chain (pub_ s)) id) (EvLatest id) s.

Definition Sign (id digest : bytes32) (s : St) : result bytes * St :=
  call (signer_SignDigest (p_signer (pub_ s)) digest) (EvSign id digest) s.

Definition Prepare (id : bytes32) (seq : Z) (key : RevisionKey) (sig : bytes) (s : St) :
    result Tx * St :=
  call (chain_Prepare (p_chain (pub_ s)) id key sig) (EvPrepare id seq key sig) s.

Definition Send (id : bytes32) (seq : Z) (tx : Tx) (s : St) : result SendOutcome * St :=
  call (chain_Send (p_chain (pub_ s)) tx) (EvSend id seq tx) s.

Definition Wait (id : bytes32) (seq : Z) (tx : Tx) (s : St) : result WaitOutcome * St :=
  call (chain_Wait (p_chain (pub_ s)) tx) (EvWait id seq tx) s.

(** ** The locked helpers *)

Definition snapshot (id : bytes32) (p : PublisherV2) : option workloadState :=
  match p_state p !! id with
  | None => None
  | Some st =>
      if ws_seq st =? 0 then None
      else if bool_decide (ws_confirmed st = Some (ws_key st)) then None
      else Some st
  end.

Definition set_prepared (tx : option Tx) (st : workloadState) : workloadState :=
  {| ws_desired := ws_desired st; ws_seq := ws_seq st; ws_key := ws_key st;
     ws_signature := ws_signature st; ws_prepared := tx; ws_confirmed := ws_confirmed st |}.

Definition set_signature (sig : bytes) (st : workloadState) : workloadState :=
  {| ws_desired := ws_desired st; ws_seq := ws_seq st; ws_key := ws_key st;
     ws_signature := Some sig; ws_prepared := ws_prepared st;
     ws_confirmed := ws_confirmed st |}.

Definition set_confirmed (k : RevisionKey) (st : workloadState) : workloadState :=
  {| ws_desired := ws_desired st; ws_seq := ws_seq st; ws_key := ws_key st;
     ws_signature := ws_signature st; ws_prepared := ws_prepared st;
     ws_confirmed := Some k |}.

Definition store_attempt (id : bytes32) (seq : Z) (sig : bytes) (tx : Tx) (p : PublisherV2) :
    PublisherV2 :=
  match p_state p !! id with
  | Some st =>
      if ws_seq st =? seq
      then set_state (p_seq p) id (set_prepared (Some tx) (set_signature sig st)) p
      else p
  | None => p
  end.

Definition confirm (id : bytes32) (rev : workloadState) (s : St) : bool * St :=
  match p_state (pub_ s) !! id with
  | None => (false, s)
  | Some st =>
      let st := set_confirmed (ws_key rev) st in
      if negb (ws_seq st =? ws_seq rev)
      then (true, with_pub (set_state (p_seq (pub_ s)) id st) s)
      else (false, with_pub (set_state (p_seq (pub_ s)) id (set_prepared None st)) s)
  end.

Definition discardAttempt (id : bytes32) (seq : Z) (s : St) : St :=
  match p_state (pub_ s) !! id with
  | Some st =>
      if ws_seq st =? seq
      then with_pub (set_state (p_seq (pub_ s)) id (set_prepared None st)) s
      else s
  | None => s
  end.

(** ** prepareOnce *)

(** The signature: the stored one, or a new one over the envelope digest. *)
Definition obtain_signature (id : bytes32) (rev : workloadState) (s : St) : result bytes * St :=
  match ws_signature rev with
  | Some sig => (Ok sig, s)
  | None =>
      match EnvelopeSigningDigest (envelopeFor (ws_desired rev)) with
      | Err err => (Err (fmt_Errorf "building signing digest: %w" [] (Some err)), s)
      | Ok digest =>
          let '(r, s) := Sign id digest s in
          match r with
          | Err err => (Err (fmt_Errorf "signing: %w" [] (Some err)), s)
          | Ok sig => (Ok sig, s)
          end
      end
  end.

Definition prepareOnce (id : bytes32) (rev : workloadState) (s : St) : result Tx * St :=
  match ws_prepared rev with
  | Some tx => (Ok tx, s)
  | None =>
      let '(r, s) := obtain_signature id rev s in
      match r with
      | Err err => (Err err, s)
      | Ok sig =>
          let '(r, s) := Prepare id (ws_seq rev) (ws_key rev) sig s in
          match r with
          | Err err => (Err (fmt_Errorf "preparing publish: %w" [] (Some err)), s)
          | Ok prepared => (Ok prepared, with_pub (store_attempt id (ws_seq rev) sig prepared) s)
          end
      end
  end.

(** ** process *)

Definition matches (p : PublisherV2) (rev : workloadState) (oc : OnChain) : bool :=
  oc_Exists oc && bool_decide (oc_Key oc = ws_key rev) &&
  recordIsOurs p (ws_desired rev) (oc_Signature oc).

Definition confirm_ok (id : bytes32) (rev : workloadState) (s : St) : result bool * St :=
  let '(again, s) := confirm id rev s in (Ok again, s).

(** From a prepared transaction to its outcome. *)
Definition send_and_wait (id : bytes32) (rev : workloadState) (prepared : Tx) (s : St) :
    result bool * St :=
  let hash := tx_Hash (p_chain (pub_ s)) prepared in
  let '(sent, s) := Send id (ws_seq rev) prepared s in
  match sent with
  | Err err => (Err (fmt_Errorf "sending publish: %w" [] (Some err)), s)
  | Ok _ =>
      let '(outcome, s) := Wait id (ws_seq rev) prepared s in
      match outcome with
      | Err err => (Err (fmt_Errorf "waiting for publish: %w" [] (Some err)), s)
      | Ok WaitMinedSuccess => confirm_ok id rev s
      | Ok WaitReverted =>
          (Err (fmt_Errorf "publish reverted for %s (tx %s)"
                  [ArgS (ds_Label (ws_desired rev)); ArgS hash] None),
           discardAttempt id (ws_seq rev) s)
      | Ok WaitUnknown =>
          let '(latest, s) := Latest id s in
          match latest with
          | Ok oc =>
              if matches (pub_ s) rev oc then confirm_ok id rev s
              else (Err (fmt_Errorf "publish outcome unknown for %s (tx %s)"
                           [ArgS (ds_Label (ws_desired rev)); ArgS hash] None), s)
          | Err _ =>
              (Err (fmt_Errorf "publish outcome unknown for %s (tx %s)"
                      [ArgS (ds_Label (ws_desired rev)); ArgS hash] None), s)
          end
      end
  end.

Definition process (id : bytes32) (s : St) : result bool * St :=
  match snapshot id (pub_ s) with
  | None => (Ok false, s)
  | Some rev =>
      let '(onchain, s) := Latest id s in
      match onchain with
      | Err err => (Err (fmt_Errorf "reading current attestation: %w" [] (Some err)), s)
      | Ok oc =>
          if matches (pub_ s) rev oc then confirm_ok id rev s
          else
            let '(prepared, s) := prepareOnce id rev s in
            match prepared with
            | Err err => (Err err, s)
            | Ok prepared => send_and_wait id rev prepared s
            end
      end
  end.

(** [None] when the queue was shut down. *)
Definition processNext (s : St) : option St :=
  match q_Get (p_queue (pub_ s)) with
  | None => None
  | Some (id, q) =>
      let '(r, s) := process id (with_pub (set_queue (λ _, q)) s) in
      let s :=
        match r with
        | Err _ => with_pub (set_queue (q_AddRateLimited id)) s
        | Ok true => with_pub (set_queue (q_Add id ∘ q_Forget id)) s
        | Ok false => with_pub (set_queue (q_Forget id)) s
        end in
      Some (with_pub (set_queue (q_Done id)) s)
  end.

(** [Start]: the worker's loop. *)
Definition Start (fuel : nat) (s : St) : St := loop processNext fuel s.

(** A run of the publisher: enqueues by the reconciler and turns of the worker. *)
Inductive step : St → St → Prop :=
  | step_enqueue d s : step s (Enqueue d s).2
  | step_worker s s' : processNext s = Some s' → step s s'.

Definition initial (signer : Signer W) (chain : ChainV2 W Tx) (s : St) : Prop :=
  NewV2 signer chain = Ok (pub_ s) ∧ log s = [].

Definition reachable (signer : Signer W) (chain : ChainV2 W Tx) (s : St) : Prop :=
  ∃ s0, initial signer chain s0 ∧ rtc step s0 s.
End Publisher.
