(* ===== verification/PublisherV2Inv.v ===== *)
(** * Invariants of the v2 publisher

    The inductive invariant of [PublisherV2.step] and the safety theorems it gives,
    for every signer, chain, world and interleaving. *)

From S2P Require Import Prelude Bytes Sha256 Hash Identity Verify Signer WorkQueue PublisherV2.

Open Scope Z_scope.

Section Invariant.
Context `{Crypto, MapRange} {W Tx Q : Type} `{!WorkQueue bytes32 Q}.
Context (new_queue : Q) (concurrent : W → list Desired * W).
Context (signer : Signer W) (chain : ChainV2 W Tx) (pk : PublicKey).

Abbreviation event := (@event Tx).
Abbreviation St := (@St _ W Tx Q).
Abbreviation PublisherV2 := (@PublisherV2 _ W Tx Q).
Abbreviation workloadState := (@workloadState Tx).

(** ** Reading the log *)

Definition count (f : event → bool) (l : list event) : Z := Z.of_nat (length (List.filter f l)).

Definition is_enqueue (e : event) : bool := match e with EvEnqueue _ _ => true | _ => false end.

Definition is_prepared (id : bytes32) (q : Z) (e : event) : bool :=
  match e with EvPrepare i n _ _ (Ok _) => bool_decide (i = id) && (n =? q) | _ => false end.

Definition is_reverted (id : bytes32) (q : Z) (e : event) : bool :=
  match e with
  | EvWait i n _ (Ok WaitReverted) => bool_decide (i = id) && (n =? q)
  | _ => false
  end.

Definition n_enq (l : list event) : Z := count is_enqueue l.
Definition n_prep (l : list event) (id : bytes32) (q : Z) : Z := count (is_prepared id q) l.
Definition n_rev (l : list event) (id : bytes32) (q : Z) : Z := count (is_reverted id q) l.

Lemma count_snoc f l e : count f (l ++ [e]) = count f l + (if f e then 1 else 0).
Proof.
  unfold count. rewrite List.filter_app, length_app. simpl. destruct (f e); simpl; lia.
Qed.

Lemma count_nonneg f l : 0 ≤ count f l.
Proof. unfold count. lia. Qed.

(** The key a revision has under this signer. *)
Definition key_of (d : Desired) : RevisionKey :=
  {| rk_Version := uint16 (ds_Version d); rk_ConfigHash := ds_ConfigHash d;
     rk_Incarnation := Incarnation (envelopeFor d);
     rk_Fingerprint := PublicKeyFingerprintBytes (signer_PublicKeyDER signer) |}.

(** The signature is this signer's, over the whole envelope of the revision. *)
Definition ours (d : Desired) (sig : bytes) : Prop :=
  sig ≠ [] ∧ ∃ digest, EnvelopeSigningDigest (envelopeFor d) = Ok digest ∧
    VerifyConfigHashSignature pk digest sig = true.

(** The request that started a revision, with its on-chain slot and key. *)
Definition started (l : list event) (id : bytes32) (n : Z) (d : Desired) (k : RevisionKey) :
    Prop :=
  EvEnqueue d (Some n) ∈ l ∧ WorkloadID (ds_Identity d) = Ok id ∧ k = key_of d.

(** A revision that was asked for. *)
Definition asked (l : list event) (id : bytes32) (d : Desired) (k : RevisionKey) : Prop :=
  ∃ n, started l id n d k.

Definition started_seq (e : event) : option Z :=
  match e with EvEnqueue _ n => n | _ => None end.

(** A transaction of a revision that may still be mined, or was: none reported reverted. *)
Definition live (l : list event) (id : bytes32) (q : Z) (tx : Tx) : Prop :=
  (∃ k sig, EvPrepare id q k sig (Ok tx) ∈ l) ∧ EvWait id q tx (Ok WaitReverted) ∉ l.

(** There is none but [o]. *)
Definition only (l : list event) (id : bytes32) (q : Z) (o : option Tx) : Prop :=
  ∀ tx, live l id q tx → o = Some tx.

(** Why a revision may be considered confirmed. *)
Definition evidence (l : list event) (id : bytes32) (k : RevisionKey) : Prop :=
  (∃ q sig tx, EvPrepare id q k sig (Ok tx) ∈ l ∧ EvWait id q tx (Ok WaitMinedSuccess) ∈ l) ∨
  (∃ d oc, asked l id d k ∧ EvLatest id (Ok oc) ∈ l ∧ oc_Exists oc = true ∧
           oc_Key oc = k ∧ ours d (oc_Signature oc)).

(** ** The invariant *)

Definition static (p : PublisherV2) : Prop :=
  p_signer p = signer ∧ p_chain p = chain ∧
  p_fingerprint p = PublicKeyFingerprintBytes (signer_PublicKeyDER signer) ∧ p_pub p = pk.

Record log_ok (l : list event) (pseq : Z) : Prop := {
  lo_bound id q : n_prep l id q ≤ n_rev l id q + 1;
  lo_future id q : pseq < q → n_prep l id q = 0;
  lo_once id q : ∃ o, only l id q o;
  lo_started : NoDup (omap started_seq l);
  lo_started_le q : q ∈ omap started_seq l → q ≤ pseq;
  lo_prepare id q k sig r : EvPrepare id q k sig r ∈ l → ∃ d, started l id q d k ∧ ours d sig;
  lo_sign id h r : EvSign id h r ∈ l →
    ∃ d k, asked l id d k ∧ EnvelopeSigningDigest (envelopeFor d) = Ok h;
  lo_send id q tx r : EvSend id q tx r ∈ l → ∃ k sig, EvPrepare id q k sig (Ok tx) ∈ l
}.

Record entry_ok (l : list event) (pseq : Z) (id : bytes32) (st : workloadState) : Prop := {
  eo_seq : 1 ≤ ws_seq st ≤ pseq;
  eo_started : started l id (ws_seq st) (ws_desired st) (ws_key st);
  eo_sig sig : ws_signature st = Some sig → ours (ws_desired st) sig;
  eo_prep tx : ws_prepared st = Some tx →
    ∃ sig, EvPrepare id (ws_seq st) (ws_key st) sig (Ok tx) ∈ l;
  eo_conf k : ws_confirmed st = Some k → evidence l id k
}.

Definition unconfirmed (st : workloadState) : Prop := ws_confirmed st ≠ Some (ws_key st).

(** The stored attempt is all that is outstanding for an unconfirmed revision. *)
Definition settled (l : list event) (id : bytes32) (st : workloadState) (o : option Tx) : Prop :=
  unconfirmed st →
  only l id (ws_seq st) o ∧ (o = None → n_prep l id (ws_seq st) ≤ n_rev l id (ws_seq st)).

(** A revision that replaced the one in flight, so far untouched by the worker. *)
Definition supersedes (l : list event) (id : bytes32) (st cur : workloadState) : Prop :=
  ws_seq cur < ws_seq st ∧ ws_prepared st = None ∧ n_prep l id (ws_seq st) = 0.

(** The worker's revision: its workload, the entry as the worker left it, and the
    transaction that was prepared and is not yet stored. *)
Definition flight : Type := option (bytes32 * workloadState * option Tx).

Definition attempt (cur : workloadState) (b : option Tx) : option Tx :=
  match b with Some tx => Some tx | None => ws_prepared cur end.

Record Inv (exempt : option bytes32) (fl : flight) (s : St) : Prop := {
  inv_static : static (pub_ s);
  inv_seq : 0 ≤ p_seq (pub_ s) ≤ n_enq (log s);
  inv_log : log_ok (log s) (p_seq (pub_ s));
  inv_entry id st : p_state (pub_ s) !! id = Some st →
    entry_ok (log s) (p_seq (pub_ s)) id st;
  inv_settled id st : p_state (pub_ s) !! id = Some st →
    settled (log s) id st (ws_prepared st) ∨
    ∃ cur tx, fl = Some (id, cur, Some tx) ∧ ws_seq st = ws_seq cur;
  inv_todo id st : p_state (pub_ s) !! id = Some st → unconfirmed st →
    id ∈ todo (p_queue (pub_ s)) ∨ exempt = Some id;
  inv_flight id cur b : fl = Some (id, cur, b) →
    entry_ok (log s) (p_seq (pub_ s)) id cur ∧ unconfirmed cur ∧
    settled (log s) id cur (attempt cur b) ∧
    ∃ st, p_state (pub_ s) !! id = Some st ∧ (st = cur ∨ supersedes (log s) id st cur)
}.

(** The uint64 counter of revisions did not wrap. *)
Definition GInv (exempt : option bytes32) (fl : flight) (s : St) : Prop :=
  n_enq (log s) < 2 ^ 64 → Inv exempt fl s.

(** ** Monotonicity *)

Lemma started_mono l e id n d k : started l id n d k → started (l ++ [e]) id n d k.
Proof. unfold started. intros (? & ? & ?). split_and!; [set_solver|done..]. Qed.

Lemma asked_mono l e id d k : asked l id d k → asked (l ++ [e]) id d k.
Proof. intros [n Hn]. exists n. by apply started_mono. Qed.

Lemma evidence_mono l e id k : evidence l id k → evidence (l ++ [e]) id k.
Proof.
  intros [(q & sig & tx & Hp & Hw)|(d & oc & Ha & Hl & Hr)]; [left|right].
  - exists q, sig, tx. set_solver.
  - exists d, oc. split; [by apply asked_mono|]. split; [set_solver|done].
Qed.

Lemma entry_mono l e q q' id st : q ≤ q' → entry_ok l q id st → entry_ok (l ++ [e]) q' id st.
Proof.
  intros Hq [H1' H2' H3' H4' H5']. split; [lia|by apply started_mono|done|..].
  - intros tx [sig Ht]%H4'. exists sig. set_solver.
  - intros k Hk. by apply evidence_mono, H5'.
Qed.

(** ** Enqueue preserves the invariant *)

Lemma uint64_small z : 0 ≤ z < 2 ^ 64 → uint64 z = z.
Proof. intros Hz. unfold uint64. by apply Z.mod_small. Qed.

Lemma revisionKey_static p d : static p → revisionKey p d = key_of d.
Proof. unfold static, revisionKey, key_of. by intros (_ & _ & -> & _). Qed.

(** An event that prepares nothing. *)
Definition neutral (e : event) : Prop := ∀ id q, is_prepared id q e = false.

Lemma n_prep_neutral l e id q : neutral e → n_prep (l ++ [e]) id q = n_prep l id q.
Proof. intros Hn. unfold n_prep. rewrite count_snoc, Hn. lia. Qed.

Lemma n_rev_snoc l e id q : n_rev l id q ≤ n_rev (l ++ [e]) id q.
Proof. unfold n_rev. rewrite count_snoc. destruct (is_reverted id q e); lia. Qed.

Lemma only_neutral l e id q o : neutral e → only l id q o → only (l ++ [e]) id q o.
Proof.
  intros Hn Ho tx [(k & sig & Hin) Hr]. apply Ho. split; [|set_solver].
  apply elem_of_app in Hin as [Hin|<-%list_elem_of_singleton]; [by eauto|].
  specialize (Hn id q). simpl in Hn. by rewrite bool_decide_true, Z.eqb_refl in Hn.
Qed.

Lemma settled_neutral l e id st o :
  neutral e → settled l id st o → settled (l ++ [e]) id st o.
Proof.
  intros Hn Hs Hu. destruct (Hs Hu) as [Ho Hc]. split; [by apply only_neutral|].
  intros E. rewrite n_prep_neutral by done. etrans; [by apply Hc|apply n_rev_snoc].
Qed.

Lemma count_pos f l e : e ∈ l → f e = true → 0 < count f l.
Proof.
  intros Hin Hf. unfold count. assert (In e (List.filter f l)) as Hi.
  { apply filter_In. split; [by apply list_elem_of_In|done]. }
  destruct (List.filter f l); [done|]. simpl. lia.
Qed.

(** Nothing prepared, nothing outstanding. *)
Lemma only_none l id q o : n_prep l id q = 0 → only l id q o.
Proof.
  intros Hz tx [(k & sig & Hin) _].
  pose proof (count_pos (is_prepared id q) _ _ Hin) as Hc. unfold n_prep in Hz. simpl in Hc.
  rewrite bool_decide_true, Z.eqb_refl in Hc by done. specialize (Hc eq_refl). lia.
Qed.

Lemma settled_none l id st o : n_prep l id (ws_seq st) = 0 → settled l id st o.
Proof. intros Hz _. split; [by apply only_none|]. rewrite Hz. intros _. apply count_nonneg. Qed.

Lemma log_ok_neutral l q q' e :
  neutral e → q ≤ q' →
  (∀ d n, e = EvEnqueue d (Some n) → q < n ≤ q') →
  (∀ id n k sig r, e = EvPrepare id n k sig r → ∃ d, started l id n d k ∧ ours d sig) →
  (∀ id h r, e = EvSign id h r →
     ∃ d k, asked l id d k ∧ EnvelopeSigningDigest (envelopeFor d) = Ok h) →
  (∀ id n tx r, e = EvSend id n tx r → ∃ k sig, EvPrepare id n k sig (Ok tx) ∈ l) →
  log_ok l q → log_ok (l ++ [e]) q'.
Proof.
  intros Hn Hq Hen Hp Hs Hsend [L1 L2 L6 L7 L8 L3 L4 L5]. split.
  - intros id n. rewrite n_prep_neutral by done. pose proof (n_rev_snoc l e id n).
    specialize (L1 id n). lia.
  - intros id n Hn'. rewrite n_prep_neutral by done. apply L2. lia.
  - intros id n. destruct (L6 id n) as [o Ho]. exists o. by apply only_neutral.
  - rewrite omap_app. apply NoDup_app. split_and!; [done| |].
    + intros n Hin%L8. simpl. destruct (started_seq e) as [m|] eqn:E; [|set_solver].
      intros ->%list_elem_of_singleton. destruct e; try done. simpl in E. subst.
      specialize (Hen _ _ eq_refl). lia.
    + simpl. destruct (started_seq e); [apply NoDup_singleton|constructor].
  - intros n. rewrite omap_app. simpl. intros [Hin%L8|Hin]%elem_of_app; [lia|].
    destruct (started_seq e) as [m|] eqn:E; [|set_solver].
    apply list_elem_of_singleton in Hin as ->. destruct e; try done. simpl in E. subst.
    specialize (Hen _ _ eq_refl). lia.
  - intros id n k sig r [Hin|Hin%list_elem_of_singleton]%elem_of_app.
    + destruct (L3 _ _ _ _ _ Hin) as (d & Ha & Ho). exists d. split; [by apply started_mono|done].
    + destruct (Hp id n k sig r) as (d & Ha & Ho); [done|]. exists d. split; [by apply started_mono|done].
  - intros id h r [Hin|Hin%list_elem_of_singleton]%elem_of_app.
    + destruct (L4 _ _ _ Hin) as (d & k & Ha & Ho). exists d, k. split; [by apply asked_mono|done].
    + destruct (Hs id h r) as (d & k & Ha & Ho); [done|]. exists d, k. split; [by apply asked_mono|done].
  - intros id n tx r [Hin|Hin%list_elem_of_singleton]%elem_of_app.
    + destruct (L5 _ _ _ _ Hin) as (k & sig & Hk). exists k, sig. set_solver.
    + destruct (Hsend id n tx r) as (k & sig & Hk); [done|]. exists k, sig. set_solver.
Qed.

Lemma enqueue_neutral d n : neutral (EvEnqueue d n).
Proof. done. Qed.

Lemma n_enq_snoc l e : n_enq (l ++ [e]) = n_enq l + if is_enqueue e then 1 else 0.
Proof. apply count_snoc. Qed.

(** The three ways through the critical section of [Enqueue]. *)
Lemma enqueue_locked_cases p id d :
  static p → (∀ st, p_state p !! id = Some st → 1 ≤ ws_seq st) →
  (∃ st, p_state p !! id = Some st ∧ ws_confirmed st = Some (key_of d) ∧
         enqueue_locked p id d = (p, false)) ∨
  (∃ st, p_state p !! id = Some st ∧ ws_key st = key_of d ∧ unconfirmed st ∧
         enqueue_locked p id d = (p, true)) ∨
  (∃ st', (∀ st, p_state p !! id = Some st → ws_key st ≠ key_of d) ∧
     ws_desired st' = d ∧ ws_seq st' = uint64 (p_seq p + 1) ∧ ws_key st' = key_of d ∧
     ws_signature st' = None ∧ ws_prepared st' = None ∧
     ws_confirmed st' = (p_state p !! id ≫= ws_confirmed) ∧ unconfirmed st' ∧
     enqueue_locked p id d = (set_state (uint64 (p_seq p + 1)) id st' p, true)).
Proof.
  intros Hs Hseq. unfold enqueue_locked. rewrite (revisionKey_static _ _ Hs).
  case_bool_decide as Hc.
  { left. destruct (p_state p !! id) as [st|] eqn:Est; [|done]. by exists st. }
  case_bool_decide as Hk.
  - right. left. destruct (p_state p !! id) as [st|] eqn:Est; [|done]. simpl in Hk, Hc.
    destruct (ws_seq st =? 0); simplify_eq. exists st. unfold unconfirmed.
    split_and!; [done|done| |done]. congruence.
  - right. right. eexists. split; [|split_and!; [..|reflexivity]; try reflexivity; exact Hc].
    intros st Est E. specialize (Hseq st Est). rewrite Est in Hk. simpl in Hk.
    destruct (Z.eqb_spec (ws_seq st) 0); [lia|]. congruence.
Qed.

(** Changing only the queue, for more work. *)
Lemma Inv_queue ex fl s f :
  (∀ q, todo q ⊆ todo (f q)) → Inv ex fl s → Inv ex fl (with_pub (set_queue f) s).
Proof.
  intros Hf [I1 I2 I3 I4 I5 I6 I7]. split; simpl; try done.
  intros id st Hst Hu. destruct (I6 id st Hst Hu); [left|by right]. by apply Hf.
Qed.

(** Recording a neutral event. *)
Lemma Inv_emit ex fl s w e :
  neutral e → started_seq e = None →
  (∀ id n k sig r, e = EvPrepare id n k sig r → ∃ d, started (log s) id n d k ∧ ours d sig) →
  (∀ id h r, e = EvSign id h r →
     ∃ d k, asked (log s) id d k ∧ EnvelopeSigningDigest (envelopeFor d) = Ok h) →
  (∀ id n tx r, e = EvSend id n tx r → ∃ k sig, EvPrepare id n k sig (Ok tx) ∈ log s) →
  Inv ex fl s →
  Inv ex fl (emit e {| pub_ := pub_ s; world := w; log := log s |}).
Proof.
  intros Hn Hne Hp Hs Hsend [I1 I2 I3 I4 I5 I6 I7]. split; simpl.
  - done.
  - rewrite n_enq_snoc. destruct (is_enqueue e); lia.
  - eapply log_ok_neutral; [done|reflexivity| |done..|exact I3].
    intros d n ->. done.
  - intros id st Hst. eapply entry_mono; [|by apply I4]. done.
  - intros id st Hst. destruct (I5 id st Hst) as [Hset|]; [left|by right].
    by apply settled_neutral.
  - done.
  - intros id cur b Hfl. destruct (I7 id cur b Hfl) as (He' & Hu & Hset & st & Hst & Hc).
    split_and!; [by eapply entry_mono|done|by apply settled_neutral|].
    exists st. split; [done|].
    destruct Hc as [->|(Hlt & Hpn & Hz)]; [by left|right].
    split_and!; [done..|]. by rewrite n_prep_neutral.
Qed.

Lemma fresh_settled l id st q o : log_ok l q → q < ws_seq st → settled l id st o.
Proof. intros HL Hq. apply settled_none. by apply (lo_future _ _ HL). Qed.

(** The new revision in place. *)
Lemma Inv_supersede ex fl s id d st' :
  Inv ex fl s → n_enq (log s) + 1 < 2 ^ 64 → WorkloadID (ds_Identity d) = Ok id →
  ws_desired st' = d → ws_seq st' = uint64 (p_seq (pub_ s) + 1) → ws_key st' = key_of d →
  ws_signature st' = None → ws_prepared st' = None →
  ws_confirmed st' = (p_state (pub_ s) !! id ≫= ws_confirmed) →
  Inv ex fl (emit (EvEnqueue d (Some (uint64 (p_seq (pub_ s) + 1))))
    {| pub_ := set_queue (q_Add id) (set_state (uint64 (p_seq (pub_ s) + 1)) id st' (pub_ s));
       world := world s; log := log s |}).
Proof.
  intros [I1 I2 I3 I4 I5 I6 I7] Hb Hid Hd Hseq Hkey Hsig Hprep Hconf.
  rewrite uint64_small in * by lia. set (q := p_seq (pub_ s)) in *. split; simpl.
  - done.
  - rewrite n_enq_snoc. simpl. lia.
  - eapply log_ok_neutral; [by apply enqueue_neutral| | |done..|exact I3]; [lia|].
    intros d' n [= <- <-]. lia.
  - intros i st [[<- <-]|[Hne Hst]]%lookup_insert_Some.
    + split.
      * lia.
      * rewrite Hkey, Hd, Hseq. split_and!; [set_solver|done..].
      * by rewrite Hsig.
      * by rewrite Hprep.
      * intros k Hk. rewrite Hconf in Hk. apply bind_Some in Hk as (st & Hst & Hk).
        apply evidence_mono. by apply (eo_conf _ _ _ _ (I4 id st Hst)).
    + eapply entry_mono; [|by apply I4]. lia.
  - intros i st [[<- <-]|[Hne Hst]]%lookup_insert_Some.
    + left. apply settled_neutral; [done|]. eapply fresh_settled; [exact I3|lia].
    + destruct (I5 i st Hst) as [Hset|]; [left|by right].
      by apply settled_neutral.
  - intros i st Hst Hu. rewrite todo_Add. apply lookup_insert_Some in Hst as [[<- <-]|[Hne Hst]].
    + left. set_solver.
    + destruct (I6 i st Hst Hu); [left; set_solver|by right].
  - intros i cur b Hfl. destruct (I7 i cur b Hfl) as (He' & Hu & Hset & st & Hst & Hc).
    split_and!; [eapply entry_mono; [|done]; lia|done|by apply settled_neutral|].
    destruct (decide (i = id)) as [->|Hne].
    + exists st'. rewrite lookup_insert_eq. split; [done|]. right. split_and!; [|done|].
      * pose proof (eo_seq _ _ _ _ He'). lia.
      * rewrite n_prep_neutral by done. apply (lo_future _ _ I3). lia.
    + exists st. rewrite lookup_insert_ne by done. split; [done|].
      destruct Hc as [->|(Hlt & Hpn & Hz)]; [by left|right].
      split_and!; [done..|]. by rewrite n_prep_neutral.
Qed.

Lemma Enqueue_inv ex fl d s : GInv ex fl s → GInv ex fl (Enqueue d s).2.
Proof.
  unfold Enqueue. destruct (WorkloadID (ds_Identity d)) as [id|] eqn:Hid; [|done].
  intros HI. destruct (enqueue_locked (pub_ s) id d) as [p add] eqn:E. simpl.
  intros Hb. simpl in Hb. rewrite n_enq_snoc in Hb. simpl in Hb.
  specialize (HI ltac:(lia)).
  assert (Hs : started_by (pub_ s) (pub_ s) = None) by (unfold started_by; by rewrite Z.eqb_refl).
  destruct (enqueue_locked_cases (pub_ s) id d) as [(st & Hst & Hk & Ec)|[(st & Hst & Hk & Hu & Ec)|(st' & Hne & Hd & Hq & Hk & Hsg & Hp & Hcf & Hu & Ec)]].
  - apply HI.
  - intros st Hst. apply (eo_seq _ _ _ _ (inv_entry _ _ _ HI id st Hst)).
  - rewrite Ec in E. simplify_eq. rewrite Hs. by apply Inv_emit.
  - rewrite Ec in E. simplify_eq. rewrite Hs.
    apply (Inv_emit ex fl (with_pub (set_queue (q_Add id)) s)); [done..|].
    apply Inv_queue; [|done]. intros q. rewrite todo_Add. set_solver.
  - rewrite Ec in E. simplify_eq. unfold started_by. cbn [p_seq set_state].
    pose proof (inv_seq _ _ _ HI) as Hseq.
    rewrite (proj2 (Z.eqb_neq _ _)) by (rewrite uint64_small by lia; lia).
    apply Inv_supersede; [done|lia|done..].
Qed.

Lemma enqueue_all_inv ex fl ds s : GInv ex fl s → GInv ex fl (enqueue_all ds s).
Proof.
  unfold enqueue_all. revert s. induction ds as [|d ds IH]; intros s HI; simpl; [done|].
  apply IH. by apply Enqueue_inv.
Qed.

(** ** External calls *)

Lemma Enqueue_log d (s : St) e : e ∈ log s → e ∈ log (Enqueue d s).2.
Proof.
  unfold Enqueue. destruct (WorkloadID _); [|done]. destruct (enqueue_locked _ _ _). simpl.
  set_solver.
Qed.

Lemma Enqueue_n_enq d (s : St) : n_enq (log s) ≤ n_enq (log (Enqueue d s).2).
Proof.
  unfold Enqueue. destruct (WorkloadID _); [|done]. destruct (enqueue_locked _ _ _). simpl.
  rewrite n_enq_snoc. simpl. lia.
Qed.

Lemma enqueue_all_log ds (s : St) e : e ∈ log s → e ∈ log (enqueue_all ds s).
Proof.
  unfold enqueue_all. revert s. induction ds as [|d ds IH]; intros s He; simpl; [done|].
  by apply IH, Enqueue_log.
Qed.

Lemma enqueue_all_n_enq ds (s : St) : n_enq (log s) ≤ n_enq (log (enqueue_all ds s)).
Proof.
  unfold enqueue_all. revert s. induction ds as [|d ds IH]; intros s; simpl; [done|].
  etrans; [apply (Enqueue_n_enq d)|apply IH].
Qed.

(** What holds of the state right after the call's event holds when it returns. *)
Lemma call_inv {A} ex fl fl' (f : W → A * W) ev s a s' :
  call concurrent f ev s = (a, s') →
  (∀ w, (f (world s)).1 = a → n_enq (log s) < 2 ^ 64 → Inv ex fl s →
        Inv ex fl' (emit (ev a) {| pub_ := pub_ s; world := w; log := log s |})) →
  GInv ex fl s →
  GInv ex fl' s' ∧ ev a ∈ log s' ∧ (∀ e, e ∈ log s → e ∈ log s').
Proof.
  unfold call. destruct (f (world s)) as [a' w] eqn:Ef. destruct (concurrent w) as [ds w'] eqn:Ec.
  intros [= -> <-] Hev HI. split_and!.
  - apply enqueue_all_inv. intros Hb. simpl in Hb. rewrite n_enq_snoc in Hb.
    assert (n_enq (log s) < 2 ^ 64) by (destruct (is_enqueue (ev a)); lia).
    apply Hev; auto.
  - apply enqueue_all_log. simpl. set_solver.
  - intros e He. apply enqueue_all_log. simpl. set_solver.
Qed.

Lemma Latest_inv ex fl id s r s' :
  Latest concurrent id s = (r, s') → GInv ex fl s →
  GInv ex fl s' ∧ EvLatest id r ∈ log s' ∧ (∀ e, e ∈ log s → e ∈ log s').
Proof. intros Hc HI. eapply call_inv; [exact Hc| |exact HI]. intros w _ _. by apply Inv_emit. Qed.

Lemma Send_inv ex fl id q tx s r s' :
  Send concurrent id q tx s = (r, s') →
  (n_enq (log s) < 2 ^ 64 → ∃ k sig, EvPrepare id q k sig (Ok tx) ∈ log s) → GInv ex fl s →
  GInv ex fl s' ∧ EvSend id q tx r ∈ log s' ∧ (∀ e, e ∈ log s → e ∈ log s').
Proof.
  intros Hc Hp HI. eapply call_inv; [exact Hc| |exact HI]. intros w _ Hb HI'.
  apply Inv_emit; [done..| |done]. intros id' n tx' r' [= <- <- <- <-]. auto.
Qed.

Lemma Sign_inv ex fl id h d k s r s' :
  Sign concurrent id h s = (r, s') →
  (Inv ex fl s → asked (log s) id d k ∧ EnvelopeSigningDigest (envelopeFor d) = Ok h) →
  GInv ex fl s →
  GInv ex fl s' ∧ EvSign id h r ∈ log s' ∧ (∀ e, e ∈ log s → e ∈ log s').
Proof.
  intros Hc Ha HI. eapply call_inv; [exact Hc| |exact HI]. intros w _ _ HI'.
  destruct (Ha HI') as [Ha1 Ha2]. apply Inv_emit; [done|done|done|..|done|done].
  intros id' h' r' [= <- <- <-]. eauto.
Qed.

(** *** Prepare *)

Lemma n_prep_other l id q k sig r i n :
  i ≠ id ∨ n ≠ q → n_prep (l ++ [EvPrepare id q k sig r]) i n = n_prep l i n.
Proof.
  intros Hne. unfold n_prep. rewrite count_snoc. simpl. destruct r; [|lia].
  case_bool_decide; [|simpl; lia]. destruct (Z.eqb_spec q n); simpl; [|lia]. naive_solver.
Qed.

Lemma n_prep_same l id q k sig tx :
  n_prep (l ++ [EvPrepare id q k sig (Ok tx)]) id q = n_prep l id q + 1.
Proof.
  unfold n_prep. rewrite count_snoc. simpl. by rewrite bool_decide_true, Z.eqb_refl by done.
Qed.

Lemma n_rev_prepare l id q k sig r i n :
  n_rev (l ++ [EvPrepare id q k sig r]) i n = n_rev l i n.
Proof. unfold n_rev. rewrite count_snoc. simpl. lia. Qed.

Lemma only_other l id q k sig r i n o :
  i ≠ id ∨ n ≠ q → only l i n o → only (l ++ [EvPrepare id q k sig r]) i n o.
Proof.
  intros Hne Ho tx [(k' & sg & Hin) Hr]. apply Ho. split; [|set_solver].
  apply elem_of_app in Hin as [Hin|Hin%list_elem_of_singleton]; [by eauto|naive_solver].
Qed.

Lemma only_prepared l id q k sig tx :
  only l id q None → only (l ++ [EvPrepare id q k sig (Ok tx)]) id q (Some tx).
Proof.
  intros Ho tx' [(k' & sg & [Hin|Hin%list_elem_of_singleton]%elem_of_app) Hr]; [|congruence].
  assert (live l id q tx') as Hl%Ho; [|done]. split; [eauto|set_solver].
Qed.

Lemma settled_other l id q k sig r i st o :
  i ≠ id ∨ ws_seq st ≠ q → settled l i st o →
  settled (l ++ [EvPrepare id q k sig r]) i st o.
Proof.
  intros Hne Hs Hu. destruct (Hs Hu) as [Ho Hc]. split; [by apply only_other|].
  intros E. rewrite n_rev_prepare, n_prep_other by done. auto.
Qed.

(** A transaction exists: until it is stored, the attempt is outstanding. *)
Lemma Inv_prepared ex s id cur sig tx w :
  Inv ex (Some (id, cur, None)) s → ws_prepared cur = None → ours (ws_desired cur) sig →
  Inv ex (Some (id, cur, Some tx))
    (emit (EvPrepare id (ws_seq cur) (ws_key cur) sig (Ok tx))
       {| pub_ := pub_ s; world := w; log := log s |}).
Proof.
  intros [I1 I2 I3 I4 I5 I6 I7] Hp Ho.
  destruct (I7 id cur None) as (He & Hu & Hset & st0 & Hst0 & Hc0); [done|].
  destruct (Hset Hu) as [Honly Hcnt]. unfold attempt in Honly, Hcnt. rewrite Hp in Honly, Hcnt.
  specialize (Hcnt eq_refl). destruct I3 as [L1 L2 L6 L7 L8 L3 L4 L5].
  pose proof (eo_seq _ _ _ _ He) as Hq. split; simpl.
  - done.
  - rewrite n_enq_snoc. simpl. lia.
  - split.
    + intros i n. rewrite n_rev_prepare.
      destruct (decide (i = id ∧ n = ws_seq cur)) as [[-> ->]|Hne].
      * rewrite n_prep_same. lia.
      * rewrite n_prep_other by (destruct (decide (i = id)); tauto). apply L1.
    + intros i n Hn. rewrite n_prep_other by (right; lia). by apply L2.
    + intros i n. destruct (decide (i = id ∧ n = ws_seq cur)) as [[-> ->]|Hne].
      * exists (Some tx). by apply only_prepared.
      * destruct (L6 i n) as [o Ho']. exists o. apply only_other; [|done].
        destruct (decide (i = id)); tauto.
    + by rewrite omap_app, app_nil_r.
    + intros n. rewrite omap_app, app_nil_r. apply L8.
    + intros i n k sg r [Hin|[= -> -> -> -> ->]%list_elem_of_singleton]%elem_of_app.
      * destruct (L3 _ _ _ _ _ Hin) as (d & Ha & Hd). exists d. split; [by apply started_mono|done].
      * exists (ws_desired cur). split; [apply started_mono, He|done].
    + intros i h r [Hin|[=]%list_elem_of_singleton]%elem_of_app.
      destruct (L4 _ _ _ Hin) as (d & k & Ha & Hd). exists d, k. split; [by apply asked_mono|done].
    + intros i n t r [Hin|[=]%list_elem_of_singleton]%elem_of_app.
      destruct (L5 _ _ _ _ Hin) as (k & sg & Hk). exists k, sg. set_solver.
  - intros i st Hst. eapply entry_mono; [|by apply I4]. done.
  - intros i st Hst. destruct (decide (i = id ∧ ws_seq st = ws_seq cur)) as [[-> E]|Hne].
    + right. by exists cur, tx.
    + left. apply settled_other; [destruct (decide (i = id)); tauto|].
      by destruct (I5 i st Hst) as [|(? & ? & ? & _)].
  - done.
  - intros i c b [= <- <- <-]. split_and!; [by eapply entry_mono|done| |].
    + intros _. split; [by apply only_prepared|done].
    + exists st0. split; [done|]. destruct Hc0 as [->|(Hlt & Hpn & Hz)]; [by left|right].
      split_and!; [done..|]. rewrite n_prep_other by (right; lia). done.
Qed.

Lemma Prepare_inv ex id cur sig s r s' :
  Prepare concurrent id (ws_seq cur) (ws_key cur) sig s = (r, s') →
  ws_prepared cur = None → (n_enq (log s) < 2 ^ 64 → ours (ws_desired cur) sig) →
  GInv ex (Some (id, cur, None)) s →
  GInv ex (Some (id, cur, match r with Ok tx => Some tx | Err _ => None end)) s' ∧
  EvPrepare id (ws_seq cur) (ws_key cur) sig r ∈ log s' ∧ (∀ e, e ∈ log s → e ∈ log s').
Proof.
  intros Hc Hp Ho HI. eapply call_inv; [exact Hc| |exact HI]. intros w _ Hb HI'.
  destruct r as [tx|e]; simpl; [by apply Inv_prepared; auto|].
  apply Inv_emit; [done|done|..|done|done|done].
  intros i n k sg r [= <- <- <- <- <-]. exists (ws_desired cur). split; [|auto].
  apply (inv_flight _ _ _ HI' id cur None eq_refl).
Qed.

(** *** Wait *)

Lemma enqueue_all_counts ds (s : St) f :
  (∀ d n, f (EvEnqueue d n) = false) → count f (log (enqueue_all ds s)) = count f (log s).
Proof.
  intros Hf. unfold enqueue_all. revert s. induction ds as [|d ds IH]; intros s; simpl; [done|].
  rewrite IH. unfold Enqueue. destruct (WorkloadID _); [|done].
  destruct (enqueue_locked _ _ _). simpl. rewrite count_snoc, Hf. lia.
Qed.

Lemma Wait_inv ex fl id q tx s r s' :
  Wait concurrent id q tx s = (r, s') → GInv ex fl s →
  GInv ex fl s' ∧ EvWait id q tx r ∈ log s' ∧ (∀ e, e ∈ log s → e ∈ log s').
Proof. intros Hc HI. eapply call_inv; [exact Hc| |exact HI]. intros w _ _. by apply Inv_emit. Qed.

Lemma enqueue_all_only ds (s : St) id q o :
  only (log s) id q o → only (log (enqueue_all ds s)) id q o.
Proof.
  unfold enqueue_all. revert s. induction ds as [|d ds IH]; intros s Ho; simpl; [done|].
  apply IH. unfold Enqueue. destruct (WorkloadID _); [|done].
  destruct (enqueue_locked _ _ _). by apply only_neutral.
Qed.

Lemma only_reverted l id q tx :
  only l id q (Some tx) → only (l ++ [EvWait id q tx (Ok WaitReverted)]) id q None.
Proof.
  intros Ho tx' [(k & sg & [Hin|Hin%list_elem_of_singleton]%elem_of_app) Hr]; [|done].
  assert (live l id q tx') as [= ->]%Ho by (split; [eauto|set_solver]).
  destruct Hr. apply elem_of_app. right. by left.
Qed.

(** A revert pays for the attempt. *)
Lemma Wait_reverted ex id cur tx s s' :
  Wait concurrent id (ws_seq cur) tx s = (Ok WaitReverted, s') →
  ws_prepared cur = Some tx → GInv ex (Some (id, cur, None)) s → n_enq (log s') < 2 ^ 64 →
  settled (log s') id (set_prepared None cur) None.
Proof.
  unfold Wait, call. destruct (chain_Wait _ _ _) as [a w]. destruct (concurrent w) as [ds w'].
  intros [= -> <-] Htx HI Hb Hu. pose proof (enqueue_all_n_enq ds
    (emit (EvWait id (ws_seq cur) tx (Ok WaitReverted))
       {| pub_ := pub_ s; world := w'; log := log s |})) as Hm. simpl in Hm. rewrite n_enq_snoc in Hm.
  simpl in Hm. specialize (HI ltac:(lia)).
  destruct (inv_flight _ _ _ HI id cur None eq_refl) as (_ & _ & Hset & _).
  unfold attempt in Hset. rewrite Htx in Hset. destruct (Hset Hu) as [Ho _]. split.
  - apply enqueue_all_only. by apply only_reverted.
  - intros _. unfold n_prep, n_rev. rewrite !enqueue_all_counts by done. simpl.
    rewrite !count_snoc. simpl. rewrite bool_decide_true, Z.eqb_refl by done. simpl.
    pose proof (lo_bound _ _ (inv_log _ _ _ HI) id (ws_seq cur)) as Hl.
    unfold n_prep, n_rev in Hl. lia.
Qed.

(** ** The locked helpers *)

(** Replacing the entry of one workload by one that is as good. *)
Lemma Inv_update ex fl fl' s id st st' :
  Inv ex fl s → p_state (pub_ s) !! id = Some st →
  entry_ok (log s) (p_seq (pub_ s)) id st' → settled (log s) id st' (ws_prepared st') →
  (unconfirmed st' → id ∈ todo (p_queue (pub_ s)) ∨ ex = Some id) →
  (∀ i c b, fl = Some (i, c, b) → i = id) →
  (fl' = None ∨ fl' = Some (id, st', None) ∧ unconfirmed st') →
  Inv ex fl' (with_pub (set_state (p_seq (pub_ s)) id st') s).
Proof.
  intros [I1 I2 I3 I4 I5 I6 I7] Hst He Hset Htodo Hfl Hfl'. split; simpl; try done.
  - intros i st1 [[<- <-]|[Hne Hst1]]%lookup_insert_Some; [done|by apply I4].
  - intros i st1 [[<- <-]|[Hne Hst1]]%lookup_insert_Some; [by left|].
    destruct (I5 i st1 Hst1) as [?|(c & t & E & _)]; [by left|]. by destruct Hne; rewrite (Hfl _ _ _ E).
  - intros i st1 [[<- <-]|[Hne Hst1]]%lookup_insert_Some; [by apply Htodo|by apply I6].
  - intros i c b E. destruct Hfl' as [->|[-> Hu]]; [done|]. simplify_eq.
    split_and!; [done..|]. exists c. rewrite lookup_insert_eq. split; [done|by left].
Qed.

(** The worker is done with its revision. *)
Lemma Inv_land ex s id cur : Inv ex (Some (id, cur, None)) s → Inv ex None s.
Proof.
  intros [I1 I2 I3 I4 I5 I6 I7]. split; try done.
  intros i st Hst. destruct (I5 i st Hst) as [|(? & ? & ? & _)]; [by left|done].
Qed.

Lemma Inv_takeoff ex s id cur :
  Inv ex None s → p_state (pub_ s) !! id = Some cur → unconfirmed cur →
  Inv ex (Some (id, cur, None)) s.
Proof.
  intros [I1 I2 I3 I4 I5 I6 I7] Hst Hu. split; try done.
  - intros i st Hi. destruct (I5 i st Hi) as [|(? & ? & ? & _)]; [by left|done].
  - intros i c b [= <- <- <-]. split_and!; [by apply I4|done| |by exists cur; auto].
    by destruct (I5 id cur Hst) as [|(? & ? & ? & _)].
Qed.

Definition attempted (sig : bytes) (tx : Tx) (cur : workloadState) : workloadState :=
  set_prepared (Some tx) (set_signature sig cur).

Lemma entry_attempted l q id cur sig tx :
  entry_ok l q id cur → ours (ws_desired cur) sig →
  EvPrepare id (ws_seq cur) (ws_key cur) sig (Ok tx) ∈ l →
  entry_ok l q id (attempted sig tx cur).
Proof.
  intros [E1 E2 E3 E4 E5] Ho Hp. split; simpl; try done.
  - by intros sg [= <-].
  - intros t [= <-]. by exists sig.
Qed.

Lemma store_attempt_inv ex id cur sig tx s :
  GInv ex (Some (id, cur, Some tx)) s →
  EvPrepare id (ws_seq cur) (ws_key cur) sig (Ok tx) ∈ log s →
  (n_enq (log s) < 2 ^ 64 → ours (ws_desired cur) sig) →
  GInv ex (Some (id, attempted sig tx cur, None))
    (with_pub (store_attempt id (ws_seq cur) sig tx) s).
Proof.
  intros HI Hp Ho Hb. change (log (with_pub _ s)) with (log s) in Hb.
  specialize (HI Hb). specialize (Ho Hb).
  destruct (inv_flight _ _ _ HI id cur (Some tx) eq_refl) as (He & Hu & Hset & st & Hst & Hc).
  pose proof (entry_attempted _ _ _ _ _ _ He Ho Hp) as He'.
  unfold with_pub, store_attempt. rewrite Hst. destruct Hc as [->|(Hlt & Hpn & Hz)].
  - rewrite Z.eqb_refl. eapply (Inv_update ex _ _ s id cur); try done.
    + intros _. by apply (inv_todo _ _ _ HI id cur).
    + by intros i c b [= <- <- <-].
    + by right.
  - rewrite (proj2 (Z.eqb_neq _ _)) by lia. destruct HI as [I1 I2 I3 I4 I5 I6 I7]. split; try done.
    + intros i st1 Hst1. destruct (I5 i st1 Hst1) as [|(c & t & [= <- <- <-] & E)]; [by left|].
      simpl in Hst1. rewrite Hst in Hst1. simplify_eq. lia.
    + intros i c b [= <- <- <-]. split_and!; [done..|]. exists st. split; [done|]. by right.
Qed.

Lemma confirm_inv id cur rev s again s' :
  confirm id rev s = (again, s') →
  ws_key rev = ws_key cur → ws_seq rev = ws_seq cur →
  GInv (Some id) (Some (id, cur, None)) s →
  (n_enq (log s) < 2 ^ 64 → evidence (log s) id (ws_key cur)) →
  GInv (Some id) None s' ∧ log s' = log s ∧
  (again = false → n_enq (log s) < 2 ^ 64 →
     ∀ st, p_state (pub_ s') !! id = Some st → ¬ unconfirmed st).
Proof.
  unfold confirm. intros E Hk Hq HI Hev.
  assert (Hlog : log s' = log s).
  { destruct (p_state _ !! id) as [st|]; simplify_eq; [|done].
    by destruct (negb _); simplify_eq. }
  assert (Hgoal : n_enq (log s) < 2 ^ 64 → Inv (Some id) None s' ∧
    (again = false → ∀ st, p_state (pub_ s') !! id = Some st → ¬ unconfirmed st)).
  2: { split_and!; [intros Hb; rewrite Hlog in Hb; by apply Hgoal|done|].
       intros Ha Hb. by apply Hgoal. }
  intros Hb. specialize (HI Hb). specialize (Hev Hb).
  destruct (inv_flight _ _ _ HI id cur None eq_refl) as (He & Hu & Hset & st & Hst & Hc).
  rewrite Hst in E. simpl in E. rewrite Hk, Hq in E.
  assert (Hconf : ∀ st1, entry_ok (log s) (p_seq (pub_ s)) id st1 →
    entry_ok (log s) (p_seq (pub_ s)) id (set_confirmed (ws_key cur) st1)).
  { intros st1 [E1 E2 E3 E4 E5]. split; simpl; try done. by intros k [= <-]. }
  destruct Hc as [->|(Hlt & Hpn & Hz)].
  - rewrite Z.eqb_refl in E. simplify_eq/=. split.
    + apply (Inv_update (Some id) (Some (id, cur, None)) None s id cur); [done|done|..].
      * destruct (Hconf cur He). split; done.
      * intros []. done.
      * intros []. done.
      * by intros i c b [= <- <- <-].
      * by left.
    + intros _ st. rewrite lookup_insert_eq. intros [= <-] []. done.
  - rewrite (proj2 (Z.eqb_neq _ _)) in E by lia. simplify_eq/=. split; [|done].
    apply (Inv_update (Some id) (Some (id, cur, None)) None s id st); [done|done|..].
    + apply Hconf, (inv_entry _ _ _ HI id st Hst).
    + by apply settled_none.
    + by right.
    + by intros i c b [= <- <- <-].
    + by left.
Qed.

Lemma discardAttempt_inv ex id cur s :
  GInv ex (Some (id, cur, None)) s →
  (n_enq (log s) < 2 ^ 64 → settled (log s) id (set_prepared None cur) None) →
  GInv ex None (discardAttempt id (ws_seq cur) s).
Proof.
  intros HI Hcnt Hb.
  assert (Hl : log (discardAttempt id (ws_seq cur) s) = log s).
  { unfold discardAttempt. destruct (p_state _ !! id); [|done]. by destruct (_ =? _). }
  rewrite Hl in Hb. specialize (HI Hb). specialize (Hcnt Hb).
  destruct (inv_flight _ _ _ HI id cur None eq_refl) as (He & Hu & Hset & st & Hst & Hc).
  unfold discardAttempt. rewrite Hst. destruct Hc as [->|(Hlt & _)].
  - rewrite Z.eqb_refl. apply (Inv_update ex (Some (id, cur, None)) None s id cur); [done|done|..].
    + destruct He. split; done.
    + exact Hcnt.
    + by apply (inv_todo _ _ _ HI id cur).
    + by intros i c b [= <- <- <-].
    + by left.
  - rewrite (proj2 (Z.eqb_neq _ _)) by lia. by eapply Inv_land.
Qed.

Lemma recordIsOurs_spec p d sig : static p → recordIsOurs p d sig = true ↔ ours d sig.
Proof.
  intros (_ & _ & _ & Hpk). unfold recordIsOurs, ours.
  destruct (is_nil_spec sig) as [->|Hn]; [split; [done|tauto]|]. rewrite Hpk.
  destruct (EnvelopeSigningDigest _) as [h|]; split; try done.
  - intros Hv. split; [done|]. by exists h.
  - by intros (_ & h' & [= <-] & Hv).
  - by intros (_ & h' & ? & _).
Qed.

(** A matching record is evidence. *)
Lemma matches_evidence ex id cur rev oc s b :
  Inv ex (Some (id, cur, b)) s → ws_key rev = ws_key cur → ws_desired rev = ws_desired cur →
  EvLatest id (Ok oc) ∈ log s → matches (pub_ s) rev oc = true →
  evidence (log s) id (ws_key cur).
Proof.
  intros HI Hk Hd Hl Hm. unfold matches in Hm. rewrite Hk, Hd in Hm.
  apply andb_prop in Hm as [[Hex Hkey%bool_decide_eq_true_1]%andb_prop Ho].
  apply recordIsOurs_spec in Ho; [|apply HI]. right.
  exists (ws_desired cur), oc. split_and!; try done. exists (ws_seq cur).
  apply (inv_flight _ _ _ HI id cur b eq_refl).
Qed.

(** ** The worker *)

Context `{!AttestSigner signer} (Hpk : ParsePublicKeyDER (signer_PublicKeyDER signer) = Ok pk).

Lemma call_n_enq {A} (f : W → A * W) ev (s s' : St) a :
  call concurrent f ev s = (a, s') → n_enq (log s) ≤ n_enq (log s').
Proof.
  unfold call. destruct (f (world s)) as [a' w]. destruct (concurrent w) as [ds w'].
  intros [= -> <-]. etrans; [|apply enqueue_all_n_enq]. simpl. rewrite n_enq_snoc.
  destruct (is_enqueue _); lia.
Qed.

Lemma obtain_signature_inv ex id rev s r s' :
  obtain_signature concurrent id rev s = (r, s') → GInv ex (Some (id, rev, None)) s →
  GInv ex (Some (id, rev, None)) s' ∧
  (∀ sig, r = Ok sig → n_enq (log s') < 2 ^ 64 → ours (ws_desired rev) sig).
Proof.
  unfold obtain_signature. intros E HI. destruct (ws_signature rev) as [sg|] eqn:Es.
  { simplify_eq. split; [done|]. intros sig [= <-] Hb.
    by apply (inv_flight _ _ _ (HI Hb) id rev None eq_refl). }
  destruct (EnvelopeSigningDigest _) as [h|] eqn:Eh; [|by simplify_eq].
  destruct (Sign concurrent id h s) as [r1 s1] eqn:E1.
  destruct (Sign_inv ex (Some (id, rev, None)) id h (ws_desired rev) (ws_key rev) s r1 s1 E1)
    as (HI1 & _ & _); [|done|].
  { intros HI'. split; [|done]. exists (ws_seq rev). apply (inv_flight _ _ _ HI' id rev None eq_refl). }
  destruct r1 as [sg|]; simplify_eq; split; try done. intros sig [= <-] Hb.
  pose proof (call_n_enq _ _ _ _ _ E1) as Hm. destruct (HI ltac:(lia)) as [(Hsg & _) _ _ _ _ _ _].
  unfold Sign, call in E1. rewrite Hsg in E1.
  destruct (signer_SignDigest signer h (world s)) as [r2 w2] eqn:E2.
  destruct (concurrent w2). simplify_eq.
  destruct (signer_verifies pk h (world s) sg w2) as [Hn Hv]; [done..|].
  split; [done|]. by exists h.
Qed.

(** After [prepareOnce] the worker holds a transaction that was prepared for exactly
    this revision. *)
Lemma prepareOnce_inv ex id rev s r s' :
  prepareOnce concurrent id rev s = (r, s') → GInv ex (Some (id, rev, None)) s →
  match r with
  | Err _ => GInv ex (Some (id, rev, None)) s'
  | Ok tx => ∃ cur, ws_seq cur = ws_seq rev ∧ ws_key cur = ws_key rev ∧
      ws_desired cur = ws_desired rev ∧ ws_prepared cur = Some tx ∧
      GInv ex (Some (id, cur, None)) s' ∧
      (n_enq (log s') < 2 ^ 64 →
       ∃ sig, EvPrepare id (ws_seq rev) (ws_key rev) sig (Ok tx) ∈ log s')
  end.
Proof.
  unfold prepareOnce. intros E HI. destruct (ws_prepared rev) as [tx|] eqn:Ep.
  { simplify_eq. exists rev. split_and!; [done..|]. intros Hb.
    apply (inv_flight _ _ _ (HI Hb) id rev None eq_refl); done. }
  destruct (obtain_signature concurrent id rev s) as [r1 s1] eqn:E1.
  destruct (obtain_signature_inv _ _ _ _ _ _ E1 HI) as [HI1 Hs1].
  destruct r1 as [sig|]; [|by simplify_eq].
  destruct (Prepare concurrent id (ws_seq rev) (ws_key rev) sig s1) as [r2 s2] eqn:E2.
  destruct (Prepare_inv _ _ _ _ _ _ _ E2 Ep (Hs1 _ eq_refl) HI1) as (HI2 & Hin & _).
  pose proof (call_n_enq _ _ _ _ _ E2) as Hm.
  destruct r2 as [tx|]; simplify_eq; [|done].
  exists (attempted sig tx rev). split_and!; [done..| |].
  - apply store_attempt_inv; [done..|]. intros Hb. apply (Hs1 sig eq_refl). lia.
  - intros _. by exists sig.
Qed.

(** What a turn of the worker leaves behind. *)
Definition turn_post (id : bytes32) (r : result bool) (s : St) : Prop :=
  GInv (Some id) None s ∧
  (r = Ok false → n_enq (log s) < 2 ^ 64 →
     ∀ st, p_state (pub_ s) !! id = Some st → ¬ unconfirmed st).

Lemma confirm_ok_post id cur rev s r s' :
  confirm_ok id rev s = (r, s') → ws_key rev = ws_key cur → ws_seq rev = ws_seq cur →
  GInv (Some id) (Some (id, cur, None)) s →
  (n_enq (log s) < 2 ^ 64 → evidence (log s) id (ws_key cur)) → turn_post id r s'.
Proof.
  unfold confirm_ok. intros E Hk Hq HI Hev. destruct (confirm id rev s) as [b s1] eqn:E1.
  simplify_eq. destruct (confirm_inv _ _ _ _ _ _ E1 Hk Hq HI Hev) as (HI1 & Hl & Hf).
  split; [done|]. intros [= ->] Hb. apply Hf; [done|]. by rewrite <- Hl.
Qed.

Lemma err_post id cur e s :
  GInv (Some id) (Some (id, cur, None)) s → turn_post id (Err e) s.
Proof. intros HI. split; [|done]. intros Hb. by eapply Inv_land, HI. Qed.

Lemma send_and_wait_post id cur rev tx s r s' :
  send_and_wait concurrent id rev tx s = (r, s') →
  ws_seq cur = ws_seq rev → ws_key cur = ws_key rev → ws_desired cur = ws_desired rev →
  ws_prepared cur = Some tx →
  GInv (Some id) (Some (id, cur, None)) s →
  (n_enq (log s) < 2 ^ 64 →
   ∃ sig, EvPrepare id (ws_seq rev) (ws_key rev) sig (Ok tx) ∈ log s) →
  turn_post id r s'.
Proof.
  unfold send_and_wait. intros E Hq Hk Hd Htx HI Hp.
  destruct (Send concurrent id (ws_seq rev) tx s) as [r1 s1] eqn:E1.
  destruct (Send_inv (Some id) (Some (id, cur, None)) _ _ _ _ _ _ E1) as (HI1 & _ & Hm1);
    [intros Hb; destruct (Hp Hb) as [sig Hs]; eauto|done|].
  destruct r1 as [o1|]; [|simplify_eq; by eapply err_post].
  destruct (Wait concurrent id (ws_seq rev) tx s1) as [r2 s2] eqn:E2.
  destruct (Wait_inv _ _ _ _ _ _ _ _ E2 HI1) as (HI2 & Hw2 & Hm2).
  destruct r2 as [o2|]; [|simplify_eq; by eapply err_post]. destruct o2.
  - destruct (Latest concurrent id s2) as [r3 s3] eqn:E3.
    destruct (Latest_inv _ _ _ _ _ _ E3 HI2) as (HI3 & Hl3 & Hm3).
    destruct r3 as [oc|]; [|simplify_eq; by eapply err_post].
    destruct (matches (pub_ s3) rev oc) eqn:Em; [|simplify_eq; by eapply err_post].
    eapply (confirm_ok_post id cur); [done..|]. intros Hb.
    eapply (matches_evidence _ id cur rev oc); [by apply HI3|done..].
  - eapply (confirm_ok_post id cur); [done..|]. intros Hb. left.
    pose proof (call_n_enq _ _ _ _ _ E1). pose proof (call_n_enq _ _ _ _ _ E2).
    destruct (Hp ltac:(lia)) as [sig Hs]. exists (ws_seq rev), sig, tx. rewrite Hk. auto.
  - simplify_eq. split; [|done]. rewrite <- Hq. apply discardAttempt_inv; [done|]. intros Hb.
    rewrite <- Hq in E2. by eapply Wait_reverted.
Qed.

Lemma process_post id s r s' :
  process concurrent id s = (r, s') → GInv (Some id) None s → turn_post id r s'.
Proof.
  unfold process, snapshot. intros E HI.
  destruct (p_state (pub_ s) !! id) as [rev|] eqn:Est; [|simplify_eq; split; [done|by rewrite Est]].
  destruct (Z.eqb_spec (ws_seq rev) 0) as [Hz|Hz].
  { simplify_eq. split; [done|]. intros _ Hb st Hst. rewrite Est in Hst. simplify_eq.
    pose proof (eo_seq _ _ _ _ (inv_entry _ _ _ (HI Hb) id st Est)). lia. }
  case_bool_decide as Hc.
  { simplify_eq. split; [done|]. intros _ Hb st Hst Hu. rewrite Est in Hst. by simplify_eq. }
  assert (HI0 : GInv (Some id) (Some (id, rev, None)) s).
  { intros Hb. by apply Inv_takeoff; auto. }
  destruct (Latest concurrent id s) as [r1 s1] eqn:E1.
  destruct (Latest_inv _ _ _ _ _ _ E1 HI0) as (HI1 & Hl1 & _).
  destruct r1 as [oc|]; [|simplify_eq; by eapply err_post].
  destruct (matches (pub_ s1) rev oc) eqn:Em.
  { eapply (confirm_ok_post id rev); [done..|]. intros Hb.
    eapply (matches_evidence _ id rev rev oc); [by apply HI1|done..]. }
  destruct (prepareOnce concurrent id rev s1) as [r2 s2] eqn:E2.
  pose proof (prepareOnce_inv _ _ _ _ _ _ E2 HI1) as Hprep.
  destruct r2 as [tx|]; [|simplify_eq; by eapply err_post].
  destruct Hprep as (cur & Hq & Hk & Hd & Htx & HI2 & Hp).
  by eapply (send_and_wait_post id cur).
Qed.

(** ** Every reachable state *)

Lemma Inv_unexempt id s f :
  (∀ q, todo q ⊆ todo (f q)) →
  (∀ st, p_state (pub_ s) !! id = Some st → unconfirmed st →
     id ∈ todo (f (p_queue (pub_ s)))) →
  Inv (Some id) None s → Inv None None (with_pub (set_queue f) s).
Proof.
  intros Hf Hid [I1 I2 I3 I4 I5 I6 I7]. split; simpl; try done.
  intros i st Hst Hu. left. destruct (I6 i st Hst Hu) as [Hin|[= <-]]; [by apply Hf|].
  by apply (Hid st).
Qed.

Lemma processNext_inv s s' :
  processNext concurrent s = Some s' → GInv None None s → GInv None None s'.
Proof.
  unfold processNext. destruct (q_Get _) as [[id q]|] eqn:Eq; [|done].
  apply todo_Get in Eq as Hq.
  destruct (process concurrent id (with_pub (set_queue (λ _, q)) s)) as [r s1] eqn:E.
  intros [= <-] HI.
  assert (HI0 : GInv (Some id) None (with_pub (set_queue (λ _, q)) s)).
  { intros Hb. destruct (HI Hb) as [I1 I2 I3 I4 I5 I6 I7]. split; simpl; try done.
    intros i st Hst Hu. destruct (I6 i st Hst Hu) as [Hi|]; [|done]. rewrite Hq in Hi.
    destruct (decide (i = id)); [right; congruence|left; set_solver]. }
  destruct (process_post _ _ _ _ E HI0) as [HI1 Hdone].
  intros Hb. apply (Inv_queue None None _ (q_Done id)); [intros; by rewrite todo_Done|].
  destruct r as [[]|]; simpl in Hb; apply Inv_unexempt with id; try (by apply HI1).
  - intros q1. simpl. rewrite todo_Add, todo_Forget. set_solver.
  - intros st _ _. simpl. rewrite todo_Add. set_solver.
  - intros q1. by rewrite todo_Forget.
  - intros st Hst Hu. by destruct (Hdone eq_refl Hb st Hst).
  - intros q1. rewrite todo_AddRateLimited. set_solver.
  - intros st _ _. rewrite todo_AddRateLimited. set_solver.
Qed.

Lemma initial_inv s : initial new_queue signer chain s → GInv None None s.
Proof.
  unfold initial, NewV2. rewrite Hpk. destruct s as [p w l]. simpl. intros [[= <-] ->] _.
  split; simpl.
  - done.
  - split; [done|apply count_nonneg].
  - split; [done|done| |constructor|..]; try by intros * ?%not_elem_of_nil.
    exists None. by apply only_none.
  - done.
  - done.
  - done.
  - done.
Qed.

Lemma reachable_inv s :
  reachable new_queue concurrent signer chain s → GInv None None s.
Proof.
  intros (s0 & H0' & Hr). apply initial_inv in H0'.
  induction Hr as [s|s1 s2 s3 Hs _ IH]; [done|]. apply IH.
  destruct Hs as [d s|s s' Hs]; [by apply Enqueue_inv|by eapply processNext_inv].
Qed.

(** ** The safety theorems *)

(** At most one live transaction per revision: in every reachable state, for every
    signer, chain and interleaving, the transactions prepared for a revision are at
    most one more than its reverted ones.  A retry, a timeout, a lost receipt or a
    superseding Enqueue never allocates a second nonce, so a revision is not
    published twice. *)
Theorem publisher_prepares_once s id q :
  reachable new_queue concurrent signer chain s → n_enq (log s) < 2 ^ 64 →
  n_prep (log s) id q ≤ n_rev (log s) id q + 1.
Proof. intros Hr Hb. apply (inv_log _ _ _ (reachable_inv s Hr Hb)). Qed.

(** C10: a revision counts as confirmed only on evidence: either a transaction prepared
    for exactly this workload and revision key was mined successfully, or the chain
    returned a record for it whose four key fields match and whose signature verifies
    under this signer's key over the rebuilt envelope. *)
Theorem publisher_confirms_on_evidence s id st k :
  reachable new_queue concurrent signer chain s → n_enq (log s) < 2 ^ 64 →
  p_state (pub_ s) !! id = Some st → ws_confirmed st = Some k →
  evidence (log s) id k.
Proof.
  intros Hr Hb Hst. apply (inv_entry _ _ _ (reachable_inv s Hr Hb) id st Hst).
Qed.

(** C13: everything handed to the chain verifies: each prepared transaction is for a
    revision the reconciler asked for, under that workload's own id and complete
    revision key, with a signature that verifies over its envelope; and only prepared
    transactions are ever sent. *)
Theorem publisher_publishes_only_verified s :
  reachable new_queue concurrent signer chain s → n_enq (log s) < 2 ^ 64 →
  (∀ id q k sig r, EvPrepare id q k sig r ∈ log s →
     ∃ d, asked (log s) id d k ∧ ours d sig) ∧
  (∀ id q tx r, EvSend id q tx r ∈ log s →
     ∃ k sig, EvPrepare id q k sig (Ok tx) ∈ log s) ∧
  (∀ id h r, EvSign id h r ∈ log s →
     ∃ d k, asked (log s) id d k ∧ EnvelopeSigningDigest (envelopeFor d) = Ok h).
Proof.
  intros Hr Hb. destruct (inv_log _ _ _ (reachable_inv s Hr Hb)) as [_ _ _ _ _ L3 L4 L5].
  split_and!; [|auto..]. intros id q k sig r Hin.
  destruct (L3 _ _ _ _ _ Hin) as (d & Hs & Ho). exists d. split; [by exists q|done].
Qed.

(** C12: no revision is lost: whenever the worker is between turns, a workload whose
    desired revision is not confirmed is in the work queue, so it will be tried
    again, whatever failed. *)
Theorem publisher_loses_no_revision s id st :
  reachable new_queue concurrent signer chain s → n_enq (log s) < 2 ^ 64 →
  p_state (pub_ s) !! id = Some st → ws_confirmed st ≠ Some (ws_key st) →
  id ∈ todo (p_queue (pub_ s)).
Proof.
  intros Hr Hb Hst Hu. by destruct (inv_todo _ _ _ (reachable_inv s Hr Hb) id st Hst Hu).
Qed.
End Invariant.
