(* ===== verification/PublisherV2Turn.v ===== *)
(** * One turn of the v2 publisher

    What [Enqueue] and a turn of the worker do in the situations the design is about:
    an unreadable chain, a restart over a published record, a retry with a prepared
    transaction, a rollback; and the theorems of [PublisherV2Inv] at concrete runs. *)

From S2P Require Import Prelude Bytes Sha256 Hash Identity Verify Signer WorkQueue PublisherV2 PublisherV2Inv.

Open Scope Z_scope.

Section Turn.
Context `{Crypto, MapRange} {W Tx Q : Type} `{!WorkQueue bytes32 Q}.
Context (concurrent : W → list Desired * W).

Abbreviation event := (@event Tx).
Abbreviation St := (@St _ W Tx Q).

(** ** What concurrent Enqueues leave alone *)

Lemma Enqueue_pub d (s : St) : p_pub (pub_ (Enqueue d s).2) = p_pub (pub_ s).
Proof.
  unfold Enqueue. destruct (WorkloadID _); [|done]. unfold enqueue_locked.
  case_bool_decide; [done|]. case_bool_decide; done.
Qed.

Lemma Enqueue_present d (s : St) id :
  is_Some (p_state (pub_ s) !! id) → is_Some (p_state (pub_ (Enqueue d s).2) !! id).
Proof.
  unfold Enqueue. destruct (WorkloadID _) as [i|]; [|done]. unfold enqueue_locked.
  case_bool_decide; [done|]. case_bool_decide; [done|]. simpl. intros Hs.
  destruct (decide (i = id)) as [->|]; [by rewrite lookup_insert_eq|by rewrite lookup_insert_ne].
Qed.

Lemma Enqueue_event d (s : St) :
  log (Enqueue d s).2 = log s ∨ ∃ n, log (Enqueue d s).2 = log s ++ [EvEnqueue d n].
Proof.
  unfold Enqueue. destruct (WorkloadID _); [|by left]. destruct (enqueue_locked _ _ _).
  right. by eexists.
Qed.

Lemma enqueue_all_frame ds (s : St) :
  p_pub (pub_ (enqueue_all ds s)) = p_pub (pub_ s) ∧
  (∀ id, is_Some (p_state (pub_ s) !! id) → is_Some (p_state (pub_ (enqueue_all ds s)) !! id)) ∧
  ∃ ds', log (enqueue_all ds s) = log s ++ map (uncurry EvEnqueue) ds'.
Proof.
  unfold enqueue_all. revert s. induction ds as [|d ds IH]; intros s; simpl.
  - split_and!; [done..|]. exists []. by rewrite app_nil_r.
  - destruct (IH (Enqueue d s).2) as (Hp & Hs & ds' & Hl). split_and!.
    + by rewrite Hp, Enqueue_pub.
    + intros id Hid. by apply Hs, Enqueue_present.
    + rewrite Hl. destruct (Enqueue_event d s) as [->|[n ->]]; [by exists ds'|].
      exists ((d, n) :: ds'). by rewrite <- app_assoc.
Qed.

Lemma call_frame {A} (f : W → A * W) ev (s s' : St) a :
  call concurrent f ev s = (a, s') →
  a = (f (world s)).1 ∧ p_pub (pub_ s') = p_pub (pub_ s) ∧
  (∀ id, is_Some (p_state (pub_ s) !! id) → is_Some (p_state (pub_ s') !! id)) ∧
  ∃ ds, log s' = log s ++ ev a :: map (uncurry EvEnqueue) ds.
Proof.
  unfold call. destruct (f (world s)) as [a' w]. destruct (concurrent w) as [ds w'].
  intros [= -> <-]. destruct (enqueue_all_frame ds
    (emit (ev a) {| pub_ := pub_ s; world := w'; log := log s |})) as (Hp & Hs & ds' & Hl).
  split_and!; [done|done|done|]. exists ds'. rewrite Hl. simpl. by rewrite <- app_assoc.
Qed.

Lemma matches_pub (p p' : @PublisherV2 _ W Tx Q) rev oc :
  p_pub p = p_pub p' → matches p rev oc = matches p' rev oc.
Proof. intros E. unfold matches, recordIsOurs. by rewrite E. Qed.

(** ** Turns *)

(** While the chain cannot be read nothing is signed, prepared or sent: the turn
    fails, the only call made is the read itself, and so a publication is never
    attempted without knowing the current record. *)
Theorem turn_unreadable_chain id rev (s : St) e :
  snapshot id (pub_ s) = Some rev →
  (chain_Latest (p_chain (pub_ s)) id (world s)).1 = Err e →
  (process concurrent id s).1 =
    Err (fmt_Errorf "reading current attestation: %w" [] (Some e)) ∧
  ∃ ds, log (process concurrent id s).2 = log s ++ EvLatest id (Err e) :: map (uncurry EvEnqueue) ds.
Proof.
  intros Hs He. unfold process. rewrite Hs.
  destruct (Latest concurrent id s) as [r s1] eqn:E1.
  apply call_frame in E1 as (Hr & _ & _ & ds & Hl). rewrite He in Hr. subst r. eauto.
Qed.

(** A restart does not republish: when the chain already holds the desired
    revision with a signature that verifies, the turn confirms it, and the read is
    the only call: no KMS signature, no transaction. *)
Theorem turn_restart id rev (s : St) oc :
  snapshot id (pub_ s) = Some rev →
  (chain_Latest (p_chain (pub_ s)) id (world s)).1 = Ok oc →
  matches (pub_ s) rev oc = true →
  ∃ again ds st, (process concurrent id s).1 = Ok again ∧
    log (process concurrent id s).2 = log s ++ EvLatest id (Ok oc) :: map (uncurry EvEnqueue) ds ∧
    p_state (pub_ (process concurrent id s).2) !! id = Some st ∧
    ws_confirmed st = Some (ws_key rev).
Proof.
  intros Hs Ho Hm. unfold process. rewrite Hs.
  destruct (Latest concurrent id s) as [r s1] eqn:E1.
  apply call_frame in E1 as (Hr & Hp & Hst & ds & Hl). rewrite Ho in Hr. subst r.
  rewrite (matches_pub (pub_ s1) (pub_ s)), Hm by done.
  unfold snapshot in Hs. destruct (p_state (pub_ s) !! id) as [st0|] eqn:E0; [|done].
  destruct (Hst id) as [st Est]; [by eauto|].
  unfold confirm_ok, confirm. rewrite Est. destruct (negb _); simpl.
  - eexists _, ds, _. split_and!; [done..| |]; [by rewrite lookup_insert_eq|done].
  - eexists _, ds, _. split_and!; [done..| |]; [by rewrite lookup_insert_eq|done].
Qed.

(** The calls a turn may make when it holds a transaction already. *)
Definition resend_only (tx : Tx) (e : event) : Prop :=
  match e with
  | EvSign _ _ _ | EvPrepare _ _ _ _ _ => False
  | EvSend _ _ tx' _ | EvWait _ _ tx' _ => tx' = tx
  | _ => True
  end.

Definition extends (P : event → Prop) (s s' : St) : Prop :=
  ∃ l, log s' = log s ++ l ∧ Forall P l.

Lemma extends_refl P s : extends P s s.
Proof. exists []. by rewrite app_nil_r. Qed.

Lemma extends_trans P s1 s2 s3 : extends P s1 s2 → extends P s2 s3 → extends P s1 s3.
Proof.
  intros (l & Hl & Hf) (l' & Hl' & Hf'). exists (l ++ l'). rewrite Hl', Hl, app_assoc.
  split; [done|]. by apply Forall_app.
Qed.

Lemma extends_log P (s s' : St) : log s' = log s → extends P s s'.
Proof. intros E. exists []. by rewrite app_nil_r. Qed.

Lemma extends_call {A} tx (f : W → A * W) ev (s s' : St) a :
  call concurrent f ev s = (a, s') → resend_only tx (ev a) → extends (resend_only tx) s s'.
Proof.
  intros (_ & _ & _ & ds & Hl)%call_frame He. eexists. split; [exact Hl|].
  constructor; [done|]. apply Forall_map, Forall_true. by intros [].
Qed.

Lemma confirm_ok_log id rev (s s' : St) r : confirm_ok id rev s = (r, s') → log s' = log s.
Proof.
  unfold confirm_ok, confirm. destruct (p_state _ !! id); [|by intros [= _ <-]].
  by destruct (negb _); intros [= _ <-].
Qed.

Lemma discardAttempt_log id q (s : St) : log (discardAttempt id q s) = log s.
Proof. unfold discardAttempt. destruct (p_state _ !! id); [|done]. by destruct (_ =? _). Qed.

Lemma send_and_wait_resends id rev tx (s s' : St) r :
  send_and_wait concurrent id rev tx s = (r, s') → extends (resend_only tx) s s'.
Proof.
  unfold send_and_wait. destruct (Send _ _ _ _ s) as [r1 s1] eqn:E1.
  pose proof (extends_call tx _ _ _ _ _ E1 eq_refl) as X1.
  destruct r1; [|by intros [= _ <-]].
  destruct (Wait _ _ _ _ s1) as [r2 s2] eqn:E2.
  pose proof (extends_trans _ _ _ _ X1 (extends_call tx _ _ _ _ _ E2 eq_refl)) as X2.
  destruct r2 as [[]|]; [..|by intros [= _ <-]].
  - destruct (Latest _ _ s2) as [r3 s3] eqn:E3.
    pose proof (extends_trans _ _ _ _ X2 (extends_call tx _ _ _ _ _ E3 I)) as X3.
    destruct r3; [|by intros [= _ <-]].
    destruct (matches _ _ _); [|by intros [= _ <-]].
    intros E4%confirm_ok_log. eapply extends_trans; [exact X3|by apply extends_log].
  - intros E4%confirm_ok_log. eapply extends_trans; [exact X2|by apply extends_log].
  - intros [= _ <-]. eapply extends_trans; [exact X2|]. apply extends_log, discardAttempt_log.
Qed.

(** A retry resends the same bytes: a turn that starts with a prepared transaction
    makes no signing call and prepares nothing; the only transaction it sends or
    waits for is the one it holds. *)
Theorem turn_retry_resends id rev tx (s : St) :
  snapshot id (pub_ s) = Some rev → ws_prepared rev = Some tx →
  extends (resend_only tx) s (process concurrent id s).2.
Proof.
  intros Hs Hp. unfold process. rewrite Hs.
  destruct (Latest concurrent id s) as [r1 s1] eqn:E1.
  pose proof (extends_call tx _ _ _ _ _ E1 I) as X1. destruct r1 as [oc|]; [|done].
  destruct (matches _ _ _).
  - destruct (confirm_ok id rev s1) as [r2 s2] eqn:E2. apply confirm_ok_log in E2.
    eapply extends_trans; [exact X1|by apply extends_log].
  - unfold prepareOnce. rewrite Hp. destruct (send_and_wait _ _ _ _ s1) as [r2 s2] eqn:E2.
    eapply extends_trans; [exact X1|]. by eapply send_and_wait_resends.
Qed.

(** ** Enqueue *)

(** [Enqueue] rejects an invalid identity without touching anything, and otherwise
    leaves the workload either unchanged with this very revision confirmed already,
    or with this revision desired, unconfirmed and queued: as it was if it was
    desired before, and with no signature and no transaction if it is new.  Other
    workloads are not affected. *)
Theorem Enqueue_effect d (s : St) :
  match WorkloadID (ds_Identity d) with
  | Err e => Enqueue d s = (Err (fmt_Errorf "publisher: %w" [] (Some e)), s)
  | Ok id =>
      let k := revisionKey (pub_ s) d in
      let p' := pub_ (Enqueue d s).2 in
      (∀ st, p_state (pub_ s) !! id = Some st → ws_seq st ≠ 0) →
      (Enqueue d s).1 = Ok tt ∧
      (∀ id', id' ≠ id → p_state p' !! id' = p_state (pub_ s) !! id') ∧
      ∃ st, p_state p' !! id = Some st ∧
        ((p' = pub_ s ∧ ws_confirmed st = Some k) ∨
         (ws_key st = k ∧ ws_confirmed st ≠ Some k ∧ id ∈ todo (p_queue p') ∧
          (p_state (pub_ s) !! id = Some st ∨
           ws_desired st = d ∧ ws_signature st = None ∧ ws_prepared st = None)))
  end.
Proof.
  unfold Enqueue. destruct (WorkloadID (ds_Identity d)) as [id|e] eqn:Hid; [|done].
  cbv zeta. intros Hseq. unfold enqueue_locked.
  case_bool_decide as Hc; [|case_bool_decide as Hk]; simpl.
  - apply bind_Some in Hc as (st & Hst & Hc). split_and!; [done..|]. exists st. auto.
  - apply bind_Some in Hk as (st & Hst & Hk). rewrite Hst in Hc. simpl in Hc.
    destruct (ws_seq st =? 0); [done|]. injection Hk as Hk. split_and!; [done..|].
    exists st. split; [done|]. right. rewrite todo_Add.
    split_and!; [done|done|set_solver|by left].
  - split_and!; [done| |].
    + intros id' Hne. by rewrite lookup_insert_ne.
    + eexists. rewrite lookup_insert_eq. split; [done|]. right. simpl. rewrite todo_Add.
      split_and!; [done|done|set_solver|by right].
Qed.

(** C32: a rollback to the confirmed revision is dropped while another revision is on
    its way: [Enqueue] returns success and changes nothing, so the worker goes on to
    publish the revision the cluster no longer runs. *)
Theorem Enqueue_drops_rollback d (s : St) id st :
  WorkloadID (ds_Identity d) = Ok id → p_state (pub_ s) !! id = Some st →
  ws_seq st ≠ 0 → ws_confirmed st = Some (revisionKey (pub_ s) d) →
  ws_key st ≠ revisionKey (pub_ s) d →
  (Enqueue d s).1 = Ok tt ∧ pub_ (Enqueue d s).2 = pub_ s ∧
  snapshot id (pub_ (Enqueue d s).2) = Some st.
Proof.
  intros Hid Hst Hq Hc Hk. unfold Enqueue. rewrite Hid. unfold enqueue_locked.
  rewrite Hst. simpl. rewrite bool_decide_true by done. simpl. split_and!; [done..|].
  unfold snapshot. rewrite Hst, (proj2 (Z.eqb_neq _ _)) by done.
  rewrite bool_decide_false; [done|]. rewrite Hc. congruence.
Qed.
End Turn.

(** ** A concrete environment

    A chain that mines what it is sent, and a script of what
    the reconciler enqueues during each call. *)
Module PublisherToy.
Import ToyCrypto MapOrder ListQueue.

Definition revision (h : Byte.byte) : Desired :=
  {| ds_Identity := {| ClusterID := "c"; APIVersion := "apps/v1"; Kind := "Deployment";
                       Namespace := "payments"; Name := "api" |};
     ds_Version := 2; ds_ConfigHash := mk32 (replicate 32 h); ds_UID := "u";
     ds_Label := "payments/api" |}.

(** The script names revisions by their hash byte. *)
Record toy_world := {
  tw_chain : gmap bytes32 OnChain;
  tw_script : list (list Byte.byte);
  tw_waits : list WaitOutcome
}.

Definition toy_tx : Type := bytes32 * RevisionKey * bytes.

Definition no_record : OnChain :=
  {| oc_Exists := false;
     oc_Key := {| rk_Version := 0; rk_ConfigHash := zero32; rk_Incarnation := zero32;
                  rk_Fingerprint := zero32 |};
     oc_Signature := [] |}.

(** What is sent is mined; the receipt is whatever the script says. *)
Definition toy_chain : ChainV2 toy_world toy_tx := {|
  chain_Latest id w := (Ok (default no_record (tw_chain w !! id)), w);
  chain_Prepare id k sig w := (Ok (id, k, sig), w);
  chain_Send tx w :=
    (Ok SendAccepted,
     {| tw_chain := <[tx.1.1 := {| oc_Exists := true; oc_Key := tx.1.2;
                                   oc_Signature := tx.2 |}]> (tw_chain w);
        tw_script := tw_script w; tw_waits := tw_waits w |});
  chain_Wait tx w :=
    match tw_waits w with
    | [] => (Ok WaitMinedSuccess, w)
    | o :: os => (Ok o, {| tw_chain := tw_chain w; tw_script := tw_script w; tw_waits := os |})
    end;
  tx_Hash _ := "0x0"
|}.

Definition toy_concurrent (w : toy_world) : list Desired * toy_world :=
  match tw_script w with
  | [] => ([], w)
  | ds :: rest => (revision <$> ds,
      {| tw_chain := tw_chain w; tw_script := rest; tw_waits := tw_waits w |})
  end.

Definition toy_k : bytes := bytes_of "k".

Definition toy_signer : Signer toy_world :=
  {| signer_SignDigest d w := (Ok (toy_sign toy_k d), w);
     signer_PublicKeyDER := toy_der toy_k |}.

#[export] Instance toy_signer_attests : AttestSigner toy_signer.
Proof.
  split; [done|]. intros k d w sig w' [= <-] [= <- _]. split; [done|].
  unfold VerifyConfigHashSignature. simpl. by apply bool_decide_eq_true_2.
Qed.

Definition slot : bytes32 :=
  match WorkloadID (ds_Identity (revision Byte.xaa)) with Ok i => i | Err _ => zero32 end.

Definition start (script : list (list Byte.byte)) (waits : list WaitOutcome) :
    @St _ toy_world toy_tx (list bytes32) :=
  {| pub_ := {| p_queue := []; p_signer := toy_signer; p_chain := toy_chain;
                p_fingerprint := PublicKeyFingerprintBytes (toy_der toy_k);
                p_pub := toy_k; p_state := ∅; p_seq := 0 |};
     world := {| tw_chain := ∅; tw_script := script; tw_waits := waits |};
     log := [] |}.

Definition enqueue (d : Desired) (s : @St _ toy_world toy_tx (list bytes32)) := (Enqueue d s).2.

Definition turn (s : @St _ toy_world toy_tx (list bytes32)) :=
  default s (processNext toy_concurrent s).

Abbreviation toy_reachable := (reachable [] toy_concurrent toy_signer toy_chain).

Lemma start_reachable script waits : toy_reachable (start script waits).
Proof. exists (start script waits). split; [done|]. constructor. Qed.

Lemma enqueue_reachable d s : toy_reachable s → toy_reachable (enqueue d s).
Proof. intros (s0 & Hi & Hr). exists s0. split; [done|]. eapply rtc_r; [done|constructor]. Qed.

Lemma turn_reachable s : toy_reachable s → toy_reachable (turn s).
Proof.
  intros (s0 & Hi & Hr). exists s0. split; [done|]. unfold turn.
  destruct (processNext _ s) eqn:E; [|done]. eapply rtc_r; [done|]. by constructor.
Qed.

(** The hash the chain holds for the workload. *)
Definition published (s : @St _ toy_world toy_tx (list bytes32)) : option bytes32 :=
  (λ oc, rk_ConfigHash (oc_Key oc)) <$> tw_chain (world s) !! slot.
End PublisherToy.

Module PublisherWitness.
Import ToyCrypto MapOrder ListQueue PublisherToy.

Definition A : Desired := revision Byte.xaa.
Definition B : Desired := revision Byte.xbb.

(** A published and confirmed. *)
Definition run_A := turn (enqueue A (start [] [])).

Lemma run_A_reachable : toy_reachable run_A.
Proof. apply turn_reachable, enqueue_reachable, start_reachable. Qed.

Definition entry (s : @St _ toy_world toy_tx (list bytes32)) : @workloadState toy_tx :=
  default {| ws_desired := A; ws_seq := 0; ws_key := revisionKey (pub_ s) A;
             ws_signature := None; ws_prepared := None; ws_confirmed := None |}
    (p_state (pub_ s) !! slot).

Lemma entry_present s :
  bool_decide (is_Some (p_state (pub_ s) !! slot)) = true →
  p_state (pub_ s) !! slot = Some (entry s).
Proof. intros [st Hst]%bool_decide_eq_true_1. unfold entry. by rewrite Hst. Defined.

Lemma publisher_prepares_once_witness :
  n_prep (log run_A) slot 1 ≤ n_rev (log run_A) slot 1 + 1.
Proof.
  apply (publisher_prepares_once (H := toy_crypto) [] toy_concurrent toy_signer toy_chain toy_k eq_refl).
  - exact run_A_reachable.
  - vm_compute. reflexivity.
Defined.

Lemma publisher_confirms_on_evidence_witness :
  evidence (H := toy_crypto) toy_signer toy_k (log run_A) slot (revisionKey (pub_ run_A) A).
Proof.
  apply (publisher_confirms_on_evidence (H := toy_crypto) [] toy_concurrent toy_signer toy_chain toy_k eq_refl
    run_A slot (entry run_A)).
  - exact run_A_reachable.
  - vm_compute. reflexivity.
  - apply entry_present. vm_compute. reflexivity.
  - vm_compute. reflexivity.
Defined.

Lemma publisher_publishes_only_verified_witness :
  Forall (λ ev, match ev with
                | EvSend id q tx _ => ∃ k sig, EvPrepare id q k sig (Ok tx) ∈ log run_A
                | _ => True
                end) (log run_A).
Proof.
  destruct (publisher_publishes_only_verified (H := toy_crypto) [] toy_concurrent toy_signer
    toy_chain toy_k eq_refl run_A) as (_ & Hsend & _).
  - exact run_A_reachable.
  - vm_compute. reflexivity.
  - apply Forall_forall. intros ev Hev. destruct ev as [| | | |id q tx r|]; try exact I.
    exact (Hsend id q tx r Hev).
Defined.

(** B was asked for after A: it waits in the queue. *)
Lemma publisher_loses_no_revision_witness : slot ∈ todo (p_queue (pub_ (enqueue B run_A))).
Proof.
  apply (publisher_loses_no_revision (H := toy_crypto) [] toy_concurrent toy_signer toy_chain toy_k eq_refl
    (enqueue B run_A) slot (entry (enqueue B run_A))).
  - apply enqueue_reachable, run_A_reachable.
  - vm_compute. reflexivity.
  - apply entry_present. vm_compute. reflexivity.
  - vm_compute. discriminate.
Defined.

(** The chain of [turn_unreadable_chain]. *)
Definition down : error := errors_New "rpc down".

Definition dead_chain : ChainV2 toy_world toy_tx := {|
  chain_Latest _ w := (Err down, w);
  chain_Prepare := chain_Prepare toy_chain;
  chain_Send := chain_Send toy_chain;
  chain_Wait := chain_Wait toy_chain;
  tx_Hash := tx_Hash toy_chain
|}.

Definition cut_off : @St _ toy_world toy_tx (list bytes32) :=
  let s := enqueue A (start [] []) in
  with_pub (λ p, {| p_queue := p_queue p; p_signer := p_signer p; p_chain := dead_chain;
                    p_fingerprint := p_fingerprint p; p_pub := p_pub p;
                    p_state := p_state p; p_seq := p_seq p |}) s.

Lemma turn_unreadable_chain_witness :
  (process toy_concurrent slot cut_off).1 =
  Err (fmt_Errorf "reading current attestation: %w" [] (Some down)).
Proof.
  apply (turn_unreadable_chain toy_concurrent slot (entry cut_off) cut_off down).
  - vm_compute. reflexivity.
  - vm_compute. reflexivity.
Defined.

(** The process restarts: the chain still holds A, the memory nothing. *)
Definition restarted : @St _ toy_world toy_tx (list bytes32) :=
  enqueue A {| pub_ := pub_ (start [] []); world := world run_A; log := [] |}.

Lemma turn_restart_witness :
  ∃ again ds st, (process toy_concurrent slot restarted).1 = Ok again ∧
    log (process toy_concurrent slot restarted).2 =
      log restarted ++ EvLatest slot (Ok (default no_record (tw_chain (world run_A) !! slot)))
                    :: map (uncurry EvEnqueue) ds ∧
    p_state (pub_ (process toy_concurrent slot restarted).2) !! slot = Some st ∧
    ws_confirmed st = Some (ws_key (entry restarted)).
Proof.
  apply (turn_restart toy_concurrent slot (entry restarted) restarted).
  - vm_compute. reflexivity.
  - vm_compute. reflexivity.
  - vm_compute. reflexivity.
Defined.

(** A send that never reached the chain, so that the attempt is kept. *)
Definition pending : @St _ toy_world toy_tx (list bytes32) :=
  with_pub (set_state 1 slot
    (set_prepared (Some (slot, revisionKey (pub_ (start [] [])) A, toy_k))
       (entry (enqueue A (start [] []))))) (enqueue A (start [] [])).

Lemma turn_retry_resends_witness :
  extends (resend_only (slot, revisionKey (pub_ (start [] [])) A, toy_k)) pending
    (process toy_concurrent slot pending).2.
Proof.
  apply (turn_retry_resends toy_concurrent slot (entry pending)).
  - vm_compute. reflexivity.
  - vm_compute. reflexivity.
Defined.

Lemma Enqueue_effect_witness : (Enqueue A (start [] [])).1 = Ok tt.
Proof.
  pose proof (Enqueue_effect A (start [] [])) as HA.
  destruct (WorkloadID (ds_Identity A)) as [id|e] eqn:E.
  - apply HA. done.
  - exfalso. revert E. vm_compute. discriminate.
Defined.

Lemma Enqueue_drops_rollback_witness :
  snapshot slot (pub_ (enqueue A (enqueue B run_A))) = Some (entry (enqueue B run_A)).
Proof.
  refine (proj2 (proj2 (Enqueue_drops_rollback A (enqueue B run_A) slot
    (entry (enqueue B run_A)) _ _ _ _ _))).
  - vm_compute. reflexivity.
  - apply entry_present. vm_compute. reflexivity.
  - vm_compute. discriminate.
  - vm_compute. reflexivity.
  - vm_compute. discriminate.
Defined.

(** The rollback, end to end: A runs and is confirmed, B is observed, the cluster is
    rolled back to A, and the worker then publishes B. *)
Example rollback_publishes_superseded :
  published (turn (enqueue A (enqueue B run_A))) = Some (ds_ConfigHash B).
Proof. vm_compute. reflexivity. Qed.

(** The transaction of a revision superseded during the first read is still sent. *)
Example superseded_is_sent : published (turn (enqueue A (start [[Byte.xbb]] []))) = Some (ds_ConfigHash A).
Proof. vm_compute. reflexivity. Qed.

(** A chain whose [Prepare] fails, for two turns: the revision is signed twice. *)
Definition no_gas : ChainV2 toy_world toy_tx := {|
  chain_Latest := chain_Latest toy_chain;
  chain_Prepare _ _ _ w := (Err (errors_New "no gas estimate"), w);
  chain_Send := chain_Send toy_chain; chain_Wait := chain_Wait toy_chain;
  tx_Hash := tx_Hash toy_chain
|}.

Definition start_no_gas : @St _ toy_world toy_tx (list bytes32) :=
  {| pub_ := {| p_queue := []; p_signer := toy_signer; p_chain := no_gas;
                p_fingerprint := p_fingerprint (pub_ (start [] [])); p_pub := toy_k;
                p_state := ∅; p_seq := 0 |};
     world := world (start [] []); log := [] |}.

Definition is_sign (e : @event toy_tx) : bool := match e with EvSign _ _ _ => true | _ => false end.

Example failed_prepare_signs_again :
  length (List.filter is_sign (log (turn (turn (enqueue A start_no_gas))))) = 2%nat.
Proof. vm_compute. reflexivity. Qed.
End PublisherWitness.
