(* ===== verification/PublisherV2World.v ===== *)
(** * Invariants of the v2 publisher's world and log

    The worker touches the outside only through its five calls; a property of the world
    and the ghost log that every call and every [Enqueue] of a [good] revision keeps
    holds in every reachable state; within a turn, so does a property of the queue that
    adding to it keeps. *)

From S2P Require Import Prelude Bytes Sha256 Hash Identity Verify Signer WorkQueue PublisherV2.

Open Scope Z_scope.

Section WorldInvariant.
Context `{Crypto, MapRange} {W Tx Q : Type} `{!QueueOps bytes32 Q}.
Context (new_queue : Q) (concurrent : W → list Desired * W).
Context (signer : Signer W) (chain : ChainV2 W Tx).

Abbreviation event := (@event Tx).
Abbreviation St := (@St _ W Tx Q).
Abbreviation PublisherV2 := (@PublisherV2 _ W Tx Q).
Abbreviation workloadState := (@workloadState Tx).

Inductive external : W → event → W → Prop :=
  | ext_latest id w r w' : chain_Latest chain id w = (r, w') → external w (EvLatest id r) w'
  | ext_sign id d w r w' : signer_SignDigest signer d w = (r, w') → external w (EvSign id d r) w'
  | ext_prepare id q k sig w r w' :
      chain_Prepare chain id k sig w = (r, w') → external w (EvPrepare id q k sig r) w'
  | ext_send id q tx w r w' : chain_Send chain tx w = (r, w') → external w (EvSend id q tx r) w'
  | ext_wait id q tx w r w' : chain_Wait chain tx w = (r, w') → external w (EvWait id q tx r) w'.

Context (P : W → list event → Prop).
Context (good : Desired → Prop).
Context (P_enqueue : ∀ d n w l, good d → P w l → P w (l ++ [EvEnqueue d n])).
Context (P_external : ∀ w e w' ds w'' l,
  external w e w' → concurrent w' = (ds, w'') → P w l → Forall good ds ∧ P w'' (l ++ [e])).

Context (R : Q → Prop) (R_Add : ∀ id q, R q → R (q_Add id q)).

Definition wired (p : PublisherV2) : Prop :=
  p_signer p = signer ∧ p_chain p = chain ∧ R (p_queue p).

Definition holds (s : St) : Prop := wired (pub_ s) ∧ P (world s) (log s).

Lemma holds_with_pub f (s : St) :
  (∀ p, wired p → wired (f p)) → holds s → holds (with_pub f s).
Proof. intros Hf [Hw HP]. split; [by apply Hf|done]. Qed.

Lemma Enqueue_holds d (s : St) : good d → holds s → holds (Enqueue d s).2.
Proof.
  unfold Enqueue. intros Hd [Hw HP]. destruct (WorkloadID _) as [id|]; [|done].
  unfold enqueue_locked. destruct Hw as (H1 & H2 & H3).
  repeat case_bool_decide; (split; [|by apply P_enqueue]); split_and!; simpl; auto.
Qed.

Lemma enqueue_all_holds ds (s : St) : Forall good ds → holds s → holds (enqueue_all ds s).
Proof.
  unfold enqueue_all. revert s. induction ds as [|d ds IH]; intros s Hd Hs; [done|].
  apply Forall_cons in Hd as [Hd Hds]. by apply IH, Enqueue_holds.
Qed.

Lemma call_holds {A} (f : W → A * W) ev (s s' : St) a :
  (∀ w a w', f w = (a, w') → external w (ev a) w') →
  call concurrent f ev s = (a, s') → holds s → holds s'.
Proof.
  unfold call. intros Hf. destruct (f (world s)) as [a' w] eqn:E.
  destruct (concurrent w) as [ds w'] eqn:Ec. intros [= -> <-] [Hw HP].
  destruct (P_external _ _ _ _ _ (log s) (Hf _ _ _ E) Ec HP) as [Hd HP'].
  by apply enqueue_all_holds.
Qed.

Lemma Latest_holds id (s s' : St) r : Latest concurrent id s = (r, s') → holds s → holds s'.
Proof. intros E Hs. eapply call_holds; [|exact E|done]. rewrite (proj1 (proj2 (proj1 Hs))). by constructor. Qed.

Lemma Sign_holds id d (s s' : St) r : Sign concurrent id d s = (r, s') → holds s → holds s'.
Proof. intros E Hs. eapply call_holds; [|exact E|done]. rewrite (proj1 (proj1 Hs)). by constructor. Qed.

Lemma Prepare_holds id q k sig (s s' : St) r :
  Prepare concurrent id q k sig s = (r, s') → holds s → holds s'.
Proof. intros E Hs. eapply call_holds; [|exact E|done]. rewrite (proj1 (proj2 (proj1 Hs))). by constructor. Qed.

Lemma Send_holds id q tx (s s' : St) r : Send concurrent id q tx s = (r, s') → holds s → holds s'.
Proof. intros E Hs. eapply call_holds; [|exact E|done]. rewrite (proj1 (proj2 (proj1 Hs))). by constructor. Qed.

Lemma Wait_holds id q tx (s s' : St) r : Wait concurrent id q tx s = (r, s') → holds s → holds s'.
Proof. intros E Hs. eapply call_holds; [|exact E|done]. rewrite (proj1 (proj2 (proj1 Hs))). by constructor. Qed.

Lemma confirm_ok_holds id rev (s s' : St) r :
  confirm_ok id rev s = (r, s') → holds s → holds s'.
Proof.
  unfold confirm_ok, confirm. destruct (p_state _ !! id) as [st|]; [|by intros [= <- <-]].
  destruct (negb _); intros [= <- <-]; by apply holds_with_pub.
Qed.

Lemma prepareOnce_holds id rev (s s' : St) r :
  prepareOnce concurrent id rev s = (r, s') → holds s → holds s'.
Proof.
  unfold prepareOnce, obtain_signature. intros E Hs.
  assert (Hstore : ∀ sig tx s1, holds s1 → holds (with_pub (store_attempt id (ws_seq rev) sig tx) s1)).
  { intros sig tx s1. apply holds_with_pub. intros p Hp. unfold store_attempt.
    destruct (p_state p !! id); [by destruct (_ =? _)|done]. }
  destruct (ws_prepared rev); [by simplify_eq|].
  destruct (ws_signature rev) as [sig|].
  - destruct (Prepare concurrent _ _ _ _ s) as [r1 s1] eqn:E1. apply Prepare_holds in E1; [|done].
    destruct r1; simplify_eq; auto.
  - destruct (EnvelopeSigningDigest _) as [h|]; [|by simplify_eq].
    destruct (Sign concurrent id h s) as [r1 s1] eqn:E1. apply Sign_holds in E1; [|done].
    destruct r1 as [sig|]; [|by simplify_eq].
    destruct (Prepare concurrent _ _ _ _ s1) as [r2 s2] eqn:E2. apply Prepare_holds in E2; [|done].
    destruct r2; simplify_eq; auto.
Qed.

Lemma send_and_wait_holds id rev tx (s s' : St) r :
  send_and_wait concurrent id rev tx s = (r, s') → holds s → holds s'.
Proof.
  unfold send_and_wait. intros E Hs.
  destruct (Send concurrent _ _ tx s) as [r1 s1] eqn:E1. apply Send_holds in E1; [|done].
  destruct r1; [|by simplify_eq].
  destruct (Wait concurrent _ _ tx s1) as [r2 s2] eqn:E2. apply Wait_holds in E2; [|done].
  destruct r2 as [[]|]; [|by eapply confirm_ok_holds| |by simplify_eq].
  - destruct (Latest concurrent id s2) as [r3 s3] eqn:E3. apply Latest_holds in E3; [|done].
    destruct r3 as [oc|]; [|by simplify_eq]. destruct (matches _ _ _); [|by simplify_eq].
    by eapply confirm_ok_holds.
  - simplify_eq. unfold discardAttempt. destruct (p_state _ !! id); [|done].
    destruct (_ =? _); [by apply holds_with_pub|done].
Qed.

Lemma process_holds id (s s' : St) r : process concurrent id s = (r, s') → holds s → holds s'.
Proof.
  unfold process. intros E Hs. destruct (snapshot id (pub_ s)) as [rev|]; [|by simplify_eq].
  destruct (Latest concurrent id s) as [r1 s1] eqn:E1. apply Latest_holds in E1; [|done].
  destruct r1 as [oc|]; [|by simplify_eq].
  destruct (matches _ _ _); [by eapply confirm_ok_holds|].
  destruct (prepareOnce concurrent id rev s1) as [r2 s2] eqn:E2.
  apply prepareOnce_holds in E2; [|done]. destruct r2; [|by simplify_eq].
  by eapply send_and_wait_holds.
Qed.

End WorldInvariant.

Section Reachable.
Context `{Crypto, MapRange} {W Tx Q : Type} `{!QueueOps bytes32 Q}.
Context (new_queue : Q) (concurrent : W → list Desired * W).
Context (signer : Signer W) (chain : ChainV2 W Tx).
Context (P : W → list (@event Tx) → Prop) (good : Desired → Prop).
Context (P_enqueue : ∀ d n w l, good d → P w l → P w (l ++ [EvEnqueue d n])).
Context (P_external : ∀ w e w' ds w'' l,
  external signer chain w e w' → concurrent w' = (ds, w'') → P w l →
  Forall good ds ∧ P w'' (l ++ [e])).

Abbreviation St := (@St _ W Tx Q).
Abbreviation kept := (holds (Q := Q) signer chain P (λ _, True)).

Lemma processNext_holds (s s' : St) : processNext concurrent s = Some s' → kept s → kept s'.
Proof.
  intros E Hs. unfold processNext in E. destruct (q_Get _) as [[id q]|]; [|done].
  destruct (process concurrent id (with_pub (set_queue (λ _, q)) s)) as [r s1] eqn:Ep.
  eapply (process_holds concurrent signer chain P good P_enqueue P_external
    (λ _, True) (λ _ _ _, I)) in Ep; [|by apply holds_with_pub]. injection E as <-.
  apply holds_with_pub; [done|]. destruct r as [[]|]; by apply holds_with_pub.
Qed.

Lemma steps_hold (s0 s : St) :
  (∀ d, good d) → initial new_queue signer chain s0 → P (world s0) [] → rtc (step concurrent) s0 s →
  P (world s) (log s).
Proof.
  intros Hgood [Hn Hl] HP Hr.
  assert (H0' : kept s0).
  { split; [|by rewrite Hl]. unfold NewV2 in Hn. destruct (ParsePublicKeyDER _); [|done].
    by injection Hn as <-. }
  clear Hn Hl HP. cut (kept s); [by intros []|].
  induction Hr as [|s1 s2 s3 Hs _ IH]; [done|]. apply IH.
  destruct Hs; [by eapply Enqueue_holds|by eapply processNext_holds].
Qed.
End Reachable.
