(* ===== verification/Shutdown.v ===== *)
(** * Stopping the publishers

    When the manager cancels the context of [Start], both publishers shut their queue
    down and go on until [Get] reports it.  The worker may be anywhere in a turn at that
    moment, other goroutines may go on enqueueing, and the services may answer anything:
    the loop ends all the same, within a bound that the queue gives. *)

From S2P Require Import Prelude Bytes Sha256 Hash Identity Verify Signer WorkQueue.
From S2P Require Import Publisher PublisherSteps PublisherV2 PublisherV2Turn PublisherV2World.

(** ** v1, call by call *)

Section V1.
Context {W Q D : Type} `{!WorkQueue Job Q, !ClosedQueue Job D, !ShutDown Job Q D}.

Abbreviation Open := (@Worker W Q).
Abbreviation Closing := (@Worker W D).

(** The goroutine of [Start] that waits for the context. *)
Definition shut_down (k : Open) : Closing :=
  let s := wk_st k in
  {| wk_st := {| publ := {| queue := q_ShutDown (queue (publ s)); signer := signer (publ s);
                            chain := chain (publ s) |};
                 pworld := pworld s; plog := plog s |};
     wk_phase := wk_phase k |}.

(** Runs with the number of calls of the worker; enqueues come in between. *)
Inductive calls : nat → Closing → Closing → Prop :=
  | calls_none k : calls 0 k k
  | calls_enqueue n job k k' : calls n (enqueue job k) k' → calls n k k'
  | calls_worker n k k' k'' : advance k = Some k' → calls n k' k'' → calls (S n) k k''.

(** The calls a turn still has to make, and whether one of them publishes. *)
Definition rest (ph : phase) : nat :=
  match ph with
  | Idle => 0 | Taken _ => 4 | Signed _ _ => 3 | Returned _ _ => 2 | Finishing _ => 1
  end.

Definition to_come (ph : phase) : nat :=
  match ph with Taken _ | Signed _ _ => 1 | _ => 0 end.

Lemma rest_le ph : (rest ph ≤ 4)%nat.
Proof. destruct ph; simpl; lia. Qed.

Lemma to_come_le ph : (to_come ph ≤ 1)%nat.
Proof. destruct ph; simpl; lia. Qed.

Definition queued (k : Closing) : gset Job := left (queue (publ (wk_st k))).

Definition owed (k : Closing) : gset Job := queued k ∪ held (wk_phase k).

(** From [k] to [k']: [n] calls, and publications of jobs of [X] only. *)
Record winds_down (n : nat) (X : gset Job) (k k' : Closing) : Prop := {
  wd_owed : owed k' ⊆ owed k;
  wd_calls : (5 * size (queued k') + rest (wk_phase k') + n ≤
              5 * size (queued k) + rest (wk_phase k))%nat;
  wd_log : ∃ l, plog (wk_st k') = plog (wk_st k) ++ l ∧
    (size (queued k') + to_come (wk_phase k') + length l ≤
     size (queued k) + to_come (wk_phase k))%nat ∧
    Forall (λ ev, ∃ job, job ∈ X ∧ publishes job ev) l
}.

Lemma winds_down_quiet n X (k k' : Closing) :
  owed k' ⊆ owed k → plog (wk_st k') = plog (wk_st k) →
  (5 * size (queued k') + rest (wk_phase k') + n ≤ 5 * size (queued k) + rest (wk_phase k))%nat →
  (size (queued k') + to_come (wk_phase k') ≤ size (queued k) + to_come (wk_phase k))%nat →
  winds_down n X k k'.
Proof.
  intros Ho Hl Hc Ht. split; [done..|]. exists []. rewrite app_nil_r. simpl.
  split_and!; [done|lia|constructor].
Qed.

Lemma winds_down_trans n n' X (k k' k'' : Closing) :
  winds_down n X k k' → winds_down n' X k' k'' → winds_down (n + n') X k k''.
Proof.
  intros [O1 C1 (l1 & E1 & T1 & F1)] [O2 C2 (l2 & E2 & T2 & F2)]. split; [by etrans|lia|].
  exists (l1 ++ l2). rewrite E2, E1, app_assoc, length_app.
  split_and!; [done|lia|by apply Forall_app].
Qed.

Lemma advance_winds_down X (k k' : Closing) :
  owed k ⊆ X → advance k = Some k' → winds_down 1 X k k'.
Proof.
  destruct k as [s ph]. unfold advance, owed, queued. simpl. intros HX.
  destruct ph as [|j|j sig|j [e|]|j].
  - destruct (q_Get _) as [[job q]|] eqn:Eq; [|done]. intros [= <-].
    pose proof (size_left_Get _ _ _ Eq) as Hn. apply left_Get in Eq as [Hin Hq].
    apply winds_down_quiet; unfold owed, queued; simpl; [set_solver|done|lia..].
  - unfold sign_call. destruct (signer_SignDigest _ _ _) as [[sig|e] w]; intros [= <-];
      apply winds_down_quiet; unfold owed, queued; simpl; first [done|lia].
  - unfold publish_call. destruct (cw_PublishAttestation _ _ _ _ _ _ _) as [r w]; intros [= <-].
    split; unfold owed, queued; simpl; [destruct r; set_solver|lia|].
    eexists. split_and!; [done|simpl; lia|]. constructor; [|constructor].
    exists j. split; [set_solver|done].
  - intros [= <-]. apply winds_down_quiet; unfold owed, queued; simpl;
      rewrite ?left_AddRateLimited; first [done|lia|set_solver].
  - intros [= <-]. apply winds_down_quiet; unfold owed, queued; simpl;
      rewrite ?left_Forget; first [done|lia|set_solver].
  - intros [= <-]. apply winds_down_quiet; unfold owed, queued; simpl;
      rewrite ?left_Done; first [done|lia|set_solver].
Qed.

Lemma calls_wind_down n X (k k' : Closing) :
  owed k ⊆ X → calls n k k' → winds_down n X k k'.
Proof.
  intros HX Hr. induction Hr as [k|n job k k' _ IH|n k k' k'' E _ IH].
  - by apply winds_down_quiet; [..|lia|lia].
  - assert (Hq : queued (enqueue job k) = queued k) by apply left_Add.
    destruct IH as [O1 C1 L1]; unfold owed in *; rewrite Hq in *; [done|].
    by split.
  - pose proof (advance_winds_down X k k' HX E) as Hw.
    apply (winds_down_trans 1 n X k k' k''); [done|]. apply IH.
    etrans; [apply (wd_owed _ _ _ _ Hw)|done].
Qed.

(** C35: the v1 publisher stops: from the moment its context is cancelled, wherever in a
    turn the worker is, whatever is still enqueued and whatever the signer and the chain
    answer, the worker makes at most five calls per queued job and four more before its
    loop ends between two turns, and what it publishes meanwhile are requests that were
    pending, at most one publication per queued job and one for the job in hand. *)
Theorem v1_shutdown_stops (k : Open) n k' :
  calls n (shut_down k) k' →
  (n ≤ 5 * size (todo (queue (publ (wk_st k)))) + 4)%nat ∧
  (advance k' = None → wk_phase k' = Idle) ∧
  ∃ l, plog (wk_st k') = plog (wk_st k) ++ l ∧
    (length l ≤ size (todo (queue (publ (wk_st k)))) + 1)%nat ∧
    Forall (λ ev, ∃ job, job ∈ pending (abstraction k) ∧ publishes job ev) l.
Proof.
  intros Hc. assert (Hsub : queued (shut_down k) ⊆ todo (queue (publ (wk_st k)))).
  { apply left_ShutDown. }
  pose proof (subseteq_size _ _ Hsub) as Hsize.
  assert (HX : owed (shut_down k) ⊆ pending (abstraction k)).
  { unfold owed, abstraction. simpl. set_solver. }
  destruct (calls_wind_down n (pending (abstraction k)) _ _ HX Hc) as [_ Hn (l & El & Hl & Hf)].
  split_and!.
  - pose proof (rest_le (wk_phase (shut_down k))). lia.
  - unfold advance. destruct (wk_phase k') as [|j|j sig|j [e|]|j]; done.
  - exists l. split_and!; [done| |done].
    pose proof (to_come_le (wk_phase (shut_down k))). lia.
Qed.
End V1.

(** ** v2, turn by turn *)

Section V2.
Context `{Crypto, MapRange} {W Tx Q D : Type}.
Context `{!WorkQueue bytes32 Q, !ClosedQueue bytes32 D, !ShutDown bytes32 Q D}.
Context (concurrent : W → list Desired * W).

Abbreviation Open := (@St _ W Tx Q).
Abbreviation Closing := (@St _ W Tx D).

(** The goroutine of [Start] that waits for the context. *)
Definition shut_down_v2 (s : Open) : Closing :=
  let p := pub_ s in
  {| pub_ := {| p_queue := q_ShutDown (p_queue p); p_signer := p_signer p; p_chain := p_chain p;
                p_fingerprint := p_fingerprint p; p_pub := p_pub p; p_state := p_state p;
                p_seq := p_seq p |};
     world := world s; log := log s |}.

Definition queued_v2 (s : Closing) : gset bytes32 := left (p_queue (pub_ s)).

Lemma turn_drains (s s' : Closing) :
  PublisherV2.processNext concurrent s = Some s' → size (queued_v2 s) = S (size (queued_v2 s')).
Proof.
  unfold PublisherV2.processNext, queued_v2.
  destruct (q_Get _) as [[id q]|] eqn:Eq; [|done].
  rewrite (size_left_Get _ _ _ Eq).
  destruct (PublisherV2.process concurrent id _) as [r s1] eqn:Ep.
  eapply (process_holds concurrent (p_signer (pub_ s)) (p_chain (pub_ s)) (λ _ _, True) (λ _, True))
    with (R := λ q', left q' = left q) in Ep as [(_ & _ & Hq) _].
  - intros [= <-]. simpl. rewrite left_Done, <- Hq.
    destruct r as [[]|]; simpl; by rewrite ?left_Add, ?left_Forget, ?left_AddRateLimited.
  - done.
  - intros. split; [by apply Forall_true|done].
  - intros id' q' Hq'. by rewrite left_Add.
  - by split_and!.
Qed.

(** The v2 publisher stops: once its context is cancelled the worker's loop ends
    after at most one turn per queued workload, whatever is asked for meanwhile and
    whatever the signer and the chain answer. *)
Theorem v2_shutdown_stops (s : Open) fuel :
  (size (todo (p_queue (pub_ s))) ≤ fuel)%nat →
  PublisherV2.processNext concurrent (PublisherV2.Start concurrent fuel (shut_down_v2 s)) = None.
Proof.
  intros Hf. eapply (loop_stops _ (λ _, True) (λ s, size (queued_v2 s))); [|done|].
  - intros a a' _ ->%turn_drains. split; [done|lia].
  - etrans; [|exact Hf]. apply subseteq_size, left_ShutDown.
Qed.
End V2.

(** ** Stopping with work left *)

Module ShutdownWitness.
Import ToyCrypto ListQueue StepsWitness.

Abbreviation Closing := (@Worker (nat * nat) (drained (I := Job))).

(** Cancelled while the job is signed, and has been asked for again. *)
Definition midway : ToyWorker := foldl act (idle start) (take 9 script).

Fixpoint busy (n : nat) (k : Closing) : bool :=
  match n with
  | O => true
  | S n => match advance k with Some k' => busy n k' | None => false end
  end.

Lemma busy_calls n (k : Closing) : busy n k = true → calls n k (loop advance n k).
Proof.
  revert k. induction n as [|n IH]; intros k; simpl; [constructor|].
  destruct (advance k) as [k'|] eqn:E; [|done]. intros Hb%IH. by eapply calls_worker.
Qed.

Definition stopped : Closing := loop advance 8 (enqueue job (shut_down midway)).

Lemma stopping : calls 8 (shut_down midway) stopped.
Proof. apply (calls_enqueue 8 job), busy_calls. vm_compute. reflexivity. Qed.

(** The job in hand and the queued one are published, and the loop is over. *)
Example stopped_state :
  wk_phase midway = Signed job (toy_sign [Byte.x6b] (SigningDigest CurrentVersion zero32)) ∧
  advance stopped = None ∧ map pb_ok (plog (wk_st stopped)) = [false; true; true].
Proof. split_and!; [vm_compute; reflexivity..|]. vm_compute. reflexivity. Qed.

Lemma v1_shutdown_stops_witness :
  (8 ≤ 5 * size (todo (queue (publ (wk_st midway)))) + 4)%nat ∧
  ∃ l, plog (wk_st stopped) = plog (wk_st midway) ++ l ∧
    (length l ≤ size (todo (queue (publ (wk_st midway)))) + 1)%nat.
Proof.
  destruct (v1_shutdown_stops midway 8 stopped stopping) as (Hn & _ & l & Hl & Hs & _).
  split; [exact Hn|]. exists l. split; assumption.
Defined.

End ShutdownWitness.

Module ShutdownV2Witness.
Import ToyCrypto MapOrder ListQueue PublisherToy.

(** B is asked for while A's record is read, and the context is cancelled by then. *)
Definition waiting : @St _ toy_world toy_tx (list bytes32) :=
  PublisherToy.enqueue (revision Byte.xaa) (PublisherToy.start [[Byte.xbb]] []).

Lemma v2_shutdown_stops_witness :
  PublisherV2.processNext toy_concurrent
    (PublisherV2.Start toy_concurrent 2 (shut_down_v2 (D := drained) waiting)) = None.
Proof.
  apply (v2_shutdown_stops toy_concurrent waiting). vm_compute. repeat constructor.
Defined.
End ShutdownV2Witness.
