(* ===== verification/PublisherV2Live.v ===== *)
(** * The v2 publisher settles

    Termination and progress of the worker's loop: when failures and further requests
    are finite in number, the loop stops within a bound that is read off the state, and
    every workload then has its desired revision confirmed, on evidence. *)

From S2P Require Import Prelude Bytes Sha256 Hash Identity Verify Signer WorkQueue.
From S2P Require Import PublisherV2 PublisherV2Inv PublisherV2Turn PublisherV2World.

Open Scope Z_scope.

Section Live.
Context `{Crypto, MapRange} {W Tx Q : Type} `{!WorkQueue bytes32 Q}.
Context (new_queue : Q) (concurrent : W → list Desired * W).
Context (signer : Signer W) (chain : ChainV2 W Tx) (pk : PublicKey).
Context `{!AttestSigner signer} (Hpk : ParsePublicKeyDER (signer_PublicKeyDER signer) = Ok pk).

Abbreviation event := (@event Tx).
Abbreviation St := (@St _ W Tx Q).
Abbreviation workloadState := (@workloadState Tx).

(** ** A budget of trouble

    What the outside world can still inflict: failed calls, lost sends, receipts that are
    not a success, and revisions asked for while a call is in flight.  No call adds to
    it, and only an accepted, valid transaction is owed a receipt.  A transaction whose
    nonce another one took fails for ever, so a finite budget excludes it. *)
Context (budget : W → nat) (valid_tx : Tx → Prop) (handed : Tx → W → Prop).

Definition failed {A} (r : result A) : nat := if is_ok r then 0 else 1.

Definition unsent (r : result SendOutcome) : nat :=
  match r with Ok SendAccepted => 0 | _ => 1 end.

Definition unsuccessful (r : result WaitOutcome) : nat :=
  match r with Ok WaitMinedSuccess => 0 | _ => 1 end.

(** A revision the client does not refuse to publish: [Enqueue] does not check this. *)
Definition versioned (d : Desired) : Prop := uint16 (ds_Version d) ≠ 0.

Record trouble_ends : Prop := {
  te_latest id w r w' : chain_Latest chain id w = (r, w') →
    (budget w' + failed r ≤ budget w)%nat;
  te_sign d w r w' : signer_SignDigest signer d w = (r, w') →
    (budget w' + failed r ≤ budget w)%nat;
  te_prepare id k sig w r w' : rk_Version k ≠ 0 → sig ≠ [] →
    chain_Prepare chain id k sig w = (r, w') →
    (budget w' + failed r ≤ budget w)%nat ∧ ∀ tx, r = Ok tx → valid_tx tx;
  te_send tx w r w' : valid_tx tx → chain_Send chain tx w = (r, w') →
    (budget w' + unsent r ≤ budget w)%nat ∧ (r = Ok SendAccepted → handed tx w');
  te_wait tx w r w' : chain_Wait chain tx w = (r, w') →
    (budget w' ≤ budget w)%nat ∧
    (valid_tx tx → handed tx w → (budget w' + unsuccessful r ≤ budget w)%nat);
  te_concurrent w ds w' : concurrent w = (ds, w') →
    (budget w' + length ds ≤ budget w)%nat ∧ Forall versioned ds ∧
    ∀ tx, handed tx w → handed tx w'
}.

Context (Hte : trouble_ends).

(** Turns that may still be needed: each trouble costs at most two. *)
Definition potential (s : St) : nat :=
  (load (p_queue (pub_ s)) + 2 * budget (world s))%nat.

Definition seq_of (id : bytes32) (s : St) : option Z := ws_seq <$> p_state (pub_ s) !! id.

(** Requests so far and requests to come. *)
Definition demand (s : St) : Z := n_enq (log s) + Z.of_nat (budget (world s)).

(** From [s] to [s'] at least [c] of the potential was spent, and a workload changed its
    desired revision only if some was. *)
Definition spends (id : bytes32) (c : nat) (s s' : St) : Prop :=
  (potential s' + c ≤ potential s)%nat ∧ demand s' ≤ demand s ∧
  (potential s' = potential s → seq_of id s' = seq_of id s) ∧
  p_signer (pub_ s') = p_signer (pub_ s) ∧ p_chain (pub_ s') = p_chain (pub_ s).

Lemma spends_refl id s : spends id 0 s s.
Proof. unfold spends. split_and!; [lia|done..]. Qed.

Lemma spends_trans id c c' s1 s2 s3 :
  spends id c s1 s2 → spends id c' s2 s3 → spends id (c + c') s1 s3.
Proof.
  intros (P1 & D1 & S1 & G1 & C1) (P2 & D2 & S2 & G2 & C2).
  split_and!; [lia|lia| |congruence..]. intros E. rewrite S2, S1 by lia. done.
Qed.

Lemma spends_weaken id c c' s s' : (c' ≤ c)%nat → spends id c s s' → spends id c' s s'.
Proof. intros Hc (P & R). split; [lia|done]. Qed.

(** ** Enqueues *)

Lemma Enqueue_cost d (s : St) :
  (load (p_queue (pub_ (Enqueue d s).2)) ≤ S (load (p_queue (pub_ s))))%nat ∧
  n_enq (log (Enqueue d s).2) ≤ n_enq (log s) + 1 ∧
  world (Enqueue d s).2 = world s ∧
  p_signer (pub_ (Enqueue d s).2) = p_signer (pub_ s) ∧
  p_chain (pub_ (Enqueue d s).2) = p_chain (pub_ s).
Proof.
  unfold Enqueue. destruct (WorkloadID _) as [id|]; [|simpl; split_and!; [lia|lia|done..]].
  unfold enqueue_locked. case_bool_decide; [|case_bool_decide]; simpl;
    rewrite n_enq_snoc; simpl; (split_and!; [first [apply load_Add|lia]|lia|done..]).
Qed.

Lemma enqueue_all_cost ds (s : St) :
  (load (p_queue (pub_ (enqueue_all ds s))) ≤ load (p_queue (pub_ s)) + length ds)%nat ∧
  n_enq (log (enqueue_all ds s)) ≤ n_enq (log s) + Z.of_nat (length ds) ∧
  world (enqueue_all ds s) = world s ∧
  p_signer (pub_ (enqueue_all ds s)) = p_signer (pub_ s) ∧
  p_chain (pub_ (enqueue_all ds s)) = p_chain (pub_ s).
Proof.
  unfold enqueue_all. revert s. induction ds as [|d ds IH]; intros s; simpl.
  - split_and!; [lia|lia|done..].
  - destruct (IH (Enqueue d s).2) as (I1 & I2 & I3 & I4 & I5).
    destruct (Enqueue_cost d s) as (E1 & E2 & E3 & E4 & E5).
    split_and!; [lia|lia|congruence..].
Qed.

(** ** Calls *)

Lemma call_spends {A} (f : W → A * W) (cost : A → nat) ev id (s s' : St) a :
  (∀ w', f (world s) = (a, w') → (budget w' + cost a ≤ budget (world s))%nat) →
  is_enqueue (ev a) = false → call concurrent f ev s = (a, s') →
  spends id (2 * cost a) s s'.
Proof.
  intros Hf Hev. unfold call. destruct (f (world s)) as [a' w] eqn:Ef.
  destruct (concurrent w) as [ds w'] eqn:Ec. intros [= -> <-].
  specialize (Hf w eq_refl). apply (te_concurrent Hte) in Ec.
  set (s1 := emit (ev a) {| pub_ := pub_ s; world := w'; log := log s |}).
  destruct (enqueue_all_cost ds s1) as (I1 & I2 & I3 & I4 & I5).
  unfold spends, potential, demand. rewrite I3. simpl in *. rewrite n_enq_snoc, Hev in I2.
  split_and!; [lia|lia| |done..]. intros E. assert (length ds = 0%nat) as Hl by lia.
  by apply nil_length_inv in Hl as ->.
Qed.

(** ** A turn *)

(** Updating an entry in place spends nothing. *)
Lemma set_state_spends id i st st' (s : St) :
  p_state (pub_ s) !! i = Some st → ws_seq st' = ws_seq st →
  spends id 0 s (with_pub (set_state (p_seq (pub_ s)) i st') s).
Proof.
  intros Hst Hq. unfold spends, potential, demand, seq_of. simpl. split_and!; [lia|done| |done..].
  intros _. destruct (decide (i = id)) as [->|Hne].
  - rewrite lookup_insert_eq, Hst. simpl. by rewrite Hq.
  - by rewrite lookup_insert_ne.
Qed.

Lemma store_attempt_spends id q sig tx (s : St) :
  spends id 0 s (with_pub (store_attempt id q sig tx) s).
Proof.
  unfold with_pub, store_attempt. destruct (p_state (pub_ s) !! id) as [st|] eqn:Est.
  - destruct (ws_seq st =? q); [|by destruct s; apply spends_refl].
    by apply (set_state_spends id id st).
  - by destruct s; apply spends_refl.
Qed.

Lemma discardAttempt_spends id q (s : St) : spends id 0 s (discardAttempt id q s).
Proof.
  unfold discardAttempt. destruct (p_state (pub_ s) !! id) as [st|] eqn:Est; [|apply spends_refl].
  destruct (ws_seq st =? q); [|apply spends_refl]. by apply (set_state_spends id id st).
Qed.

(** What a turn costs: anything but a plain success spends some of the potential. *)
Definition turn_cost (r : result bool) : nat := match r with Ok false => 0 | _ => 1 end.

(** [s0] is the state the turn began in, with [rev] its snapshot. *)
Lemma confirm_ok_spends id rev (s0 s s' : St) r :
  seq_of id s0 = Some (ws_seq rev) → spends id 0 s0 s → confirm_ok id rev s = (r, s') →
  spends id (turn_cost r) s0 s'.
Proof.
  intros H0' Hs. unfold confirm_ok, confirm.
  destruct (p_state (pub_ s) !! id) as [st|] eqn:Est; [|by intros [= <- <-]].
  cbn [ws_seq set_confirmed]. destruct (Z.eqb_spec (ws_seq st) (ws_seq rev)) as [Eq|Eq];
    intros [= <- <-]; simpl turn_cost.
  - eapply (spends_trans id 0 0); [exact Hs|]. by apply (set_state_spends id id st).
  - pose proof (set_state_spends id id st (set_confirmed (ws_key rev) st) s Est eq_refl) as Hu.
    pose proof (spends_trans id 0 0 _ _ _ Hs Hu) as (P & D & S & G & C).
    destruct Hs as (P0 & _ & S0 & _). destruct Hu as (P1 & _).
    split_and!; [|done..|done|done].
    destruct (decide (potential s = potential s0)) as [E|E]; [|lia].
    specialize (S0 E). rewrite H0' in S0. unfold seq_of in S0. rewrite Est in S0. simpl in S0.
    congruence.
Qed.

(** A failed call ends the turn. *)
Lemma failing_turn id c (s0 s s' : St) e :
  spends id 0 s0 s → spends id (2 * S c) s s' → spends id (turn_cost (Err e)) s0 s'.
Proof.
  intros H1' H2'. eapply spends_weaken; [|exact (spends_trans _ _ _ _ _ _ H1' H2')].
  simpl. lia.
Qed.

(** Each external call, from the law of the collaborator behind it. *)
Ltac spend_call cost law :=
  let Hc := fresh in let E := fresh in let Hw := fresh in
  intros Hc E; eapply (call_spends _ cost); [| |exact E]; [|reflexivity];
  intros ? Hw; rewrite Hc in Hw; by eapply law.

Lemma Latest_spends id (s s' : St) r :
  p_chain (pub_ s) = chain → Latest concurrent id s = (r, s') → spends id (2 * failed r) s s'.
Proof. spend_call (@failed OnChain) (te_latest Hte). Qed.

Lemma Sign_spends id d (s s' : St) r :
  p_signer (pub_ s) = signer → Sign concurrent id d s = (r, s') → spends id (2 * failed r) s s'.
Proof. spend_call (@failed bytes) (te_sign Hte). Qed.

Lemma Prepare_spends id q k sig (s s' : St) r :
  rk_Version k ≠ 0 → sig ≠ [] →
  p_chain (pub_ s) = chain → Prepare concurrent id q k sig s = (r, s') →
  spends id (2 * failed r) s s'.
Proof. intros Hk Hs. spend_call (@failed Tx) (te_prepare Hte). Qed.

Lemma Prepare_valid id q k sig (s s' : St) tx :
  rk_Version k ≠ 0 → sig ≠ [] → p_chain (pub_ s) = chain →
  Prepare concurrent id q k sig s = (Ok tx, s') → valid_tx tx.
Proof.
  unfold Prepare, call. intros Hk Hs ->. destruct (chain_Prepare _ _ _ _ _) as [r w] eqn:E.
  destruct (concurrent w). intros [= -> _]. by apply (te_prepare Hte _ _ _ _ _ _ Hk Hs E).
Qed.

Lemma Send_spends id q tx (s s' : St) r :
  valid_tx tx → p_chain (pub_ s) = chain → Send concurrent id q tx s = (r, s') →
  spends id (2 * unsent r) s s'.
Proof. intros Hv. spend_call unsent (te_send Hte). Qed.

Lemma Send_handed id q tx (s s' : St) :
  valid_tx tx → p_chain (pub_ s) = chain →
  Send concurrent id q tx s = (Ok SendAccepted, s') → handed tx (world s').
Proof.
  unfold Send, call. intros Hv ->. destruct (chain_Send chain tx (world s)) as [r w] eqn:E.
  destruct (concurrent w) as [ds w'] eqn:Ec. intros [= -> <-].
  rewrite (proj1 (proj2 (proj2 (enqueue_all_cost ds _)))). simpl.
  apply (te_concurrent Hte) in Ec as (_ & _ & Hk). by apply Hk, (te_send Hte _ _ _ _ Hv E).
Qed.

Lemma Wait_spends id q tx (s s' : St) r :
  p_chain (pub_ s) = chain → Wait concurrent id q tx s = (r, s') → spends id 0 s s'.
Proof.
  intros Hc E. eapply (call_spends _ (λ _, O)); [| |exact E]; [|reflexivity].
  intros w Hw. rewrite Hc in Hw. apply (te_wait Hte) in Hw as [Hw _]. lia.
Qed.

Lemma Wait_handed_spends id q tx (s s' : St) r :
  valid_tx tx → handed tx (world s) →
  p_chain (pub_ s) = chain → Wait concurrent id q tx s = (r, s') →
  spends id (2 * unsuccessful r) s s'.
Proof.
  intros Hv Hh Hc E. eapply (call_spends _ unsuccessful); [| |exact E]; [|reflexivity].
  intros w Hw. rewrite Hc in Hw. by apply (te_wait Hte _ _ _ _ Hw).
Qed.

Lemma spends_chain id c s s' :
  spends id c s s' → p_chain (pub_ s) = chain → p_chain (pub_ s') = chain.
Proof. intros (_ & _ & _ & _ & ->). done. Qed.

Lemma spends_signer id c s s' :
  spends id c s s' → p_signer (pub_ s) = signer → p_signer (pub_ s') = signer.
Proof. intros (_ & _ & _ & -> & _). done. Qed.

(** A send and the wait after it: whatever is not a success was paid for. *)
Lemma attempt_spends id q tx (s s1 s2 : St) o r :
  valid_tx tx → p_chain (pub_ s) = chain →
  Send concurrent id q tx s = (Ok o, s1) → Wait concurrent id q tx s1 = (r, s2) →
  spends id (2 * unsuccessful r) s s2.
Proof.
  intros Hv Hc E1 E2. pose proof (Send_spends _ _ _ _ _ _ Hv Hc E1) as H1'.
  pose proof (spends_chain _ _ _ _ H1' Hc) as Hc1. destruct o.
  - apply (Wait_spends _ _ _ _ _ _ Hc1) in E2.
    eapply spends_weaken; [|exact (spends_trans _ _ _ _ _ _ H1' E2)].
    unfold unsuccessful. simpl. destruct r as [[]|]; lia.
  - apply Send_handed in E1; [|done..]. apply Wait_handed_spends in E2; [|done..].
    exact (spends_trans _ _ _ _ _ _ H1' E2).
Qed.

Lemma Sign_nonempty id d (s s' : St) r :
  p_signer (pub_ s) = signer → Sign concurrent id d s = (r, s') → ∀ sig, r = Ok sig → sig ≠ [].
Proof.
  unfold Sign, call. intros -> E sig ->. destruct (signer_SignDigest _ _ _) as [a w] eqn:Es.
  destruct (concurrent w). injection E as -> _. by eapply signer_verifies.
Qed.

(** What the chain will not refuse. *)
Definition publishable (st : workloadState) : Prop :=
  is_ok (EnvelopeSigningDigest (envelopeFor (ws_desired st))) = true ∧
  rk_Version (ws_key st) ≠ 0 ∧ (∀ sig, ws_signature st = Some sig → sig ≠ []) ∧
  ∀ tx, ws_prepared st = Some tx → valid_tx tx.

Lemma prepareOnce_spends id rev (s s' : St) r :
  p_chain (pub_ s) = chain → p_signer (pub_ s) = signer → publishable rev →
  prepareOnce concurrent id rev s = (r, s') →
  spends id (2 * failed r) s s' ∧ ∀ tx, r = Ok tx → valid_tx tx.
Proof.
  intros Hc Hg (Hd & Hv & Hne & Hok). unfold prepareOnce, obtain_signature.
  destruct (ws_prepared rev) as [tx|].
  { intros [= <- <-]. split; [apply spends_refl|]. intros ? [= <-]. by apply Hok. }
  assert (Hprep : ∀ sig s1, sig ≠ [] → spends id 0 s s1 →
    (let '(r, s2) := Prepare concurrent id (ws_seq rev) (ws_key rev) sig s1 in
     match r with
     | Err err => (Err (fmt_Errorf "preparing publish: %w" [] (Some err)), s2)
     | Ok tx => (Ok tx, with_pub (store_attempt id (ws_seq rev) sig tx) s2)
     end) = (r, s') → spends id (2 * failed r) s s' ∧ ∀ tx, r = Ok tx → valid_tx tx).
  { intros sig s1 Hsig H1'. destruct (Prepare _ _ _ _ _ s1) as [r2 s2] eqn:E2.
    pose proof (spends_chain _ _ _ _ H1' Hc) as Hc1.
    pose proof (Prepare_spends _ _ _ _ _ _ _ Hv Hsig Hc1 E2) as H2'.
    apply (spends_trans _ _ _ _ _ _ H1') in H2'.
    destruct r2 as [tx|e]; intros [= <- <-]; [|by split].
    split; [exact (spends_trans _ _ _ _ _ _ H2' (store_attempt_spends _ _ _ _ _))|].
    intros ? [= <-]. by eapply Prepare_valid. }
  destruct (ws_signature rev) as [sig|]; [apply Hprep; [by apply Hne|apply spends_refl]|].
  destruct (EnvelopeSigningDigest _) as [h|]; [|done].
  destruct (Sign concurrent id h s) as [r1 s1] eqn:E1.
  pose proof (Sign_nonempty _ _ _ _ _ Hg E1) as Hsig. apply Sign_spends in E1; [|done].
  destruct r1 as [sig|e]; [by apply Hprep; [apply Hsig|]|intros [= <- <-]; by split].
Qed.

Lemma send_and_wait_spends id rev tx (s0 s s' : St) r :
  valid_tx tx → p_chain (pub_ s) = chain → seq_of id s0 = Some (ws_seq rev) → spends id 0 s0 s →
  send_and_wait concurrent id rev tx s = (r, s') → spends id (turn_cost r) s0 s'.
Proof.
  intros Hv Hc H0' Hs. unfold send_and_wait.
  destruct (Send concurrent id (ws_seq rev) tx s) as [r1 s1] eqn:E1.
  destruct r1 as [o1|].
  2: { apply Send_spends in E1; [|done..]. intros [= <- <-]. by eapply (failing_turn _ 0). }
  destruct (Wait concurrent id (ws_seq rev) tx s1) as [r2 s2] eqn:E2.
  pose proof (attempt_spends _ _ _ _ _ _ _ _ Hv Hc E1 E2) as H2'.
  destruct r2 as [o2|]; [|intros [= <- <-]; by eapply (failing_turn _ 0)]. destruct o2.
  - pose proof (spends_chain _ _ _ _ H2' Hc) as Hc2.
    destruct (Latest concurrent id s2) as [r3 s3] eqn:E3. apply Latest_spends in E3; [|done].
    pose proof (spends_trans _ _ _ _ _ _ H2' E3) as H3.
    apply (spends_weaken _ _ 2) in H3; [|simpl; lia].
    destruct r3 as [oc|]; [|intros [= <- <-]; by eapply (failing_turn _ 0)].
    destruct (matches (pub_ s3) rev oc); [|intros [= <- <-]; by eapply (failing_turn _ 0)].
    apply confirm_ok_spends; [done|]. eapply spends_weaken; [|by eapply spends_trans]. simpl. lia.
  - apply confirm_ok_spends; [done|]. by apply (spends_trans _ _ _ _ _ _ Hs H2').
  - intros [= <- <-]. eapply (failing_turn _ 0); [exact Hs|].
    exact (spends_trans _ _ _ _ _ _ H2' (discardAttempt_spends _ _ _)).
Qed.

Lemma process_spends id (s s' : St) r :
  p_chain (pub_ s) = chain → p_signer (pub_ s) = signer →
  (∀ st, p_state (pub_ s) !! id = Some st → publishable st) →
  process concurrent id s = (r, s') → spends id (turn_cost r) s s'.
Proof.
  intros Hc Hg Hd. unfold process, snapshot.
  destruct (p_state (pub_ s) !! id) as [rev|] eqn:Est; [|intros [= <- <-]; apply spends_refl].
  destruct (ws_seq rev =? 0); [intros [= <- <-]; apply spends_refl|].
  case_bool_decide; [intros [= <- <-]; apply spends_refl|].
  assert (H0' : seq_of id s = Some (ws_seq rev)) by (unfold seq_of; by rewrite Est).
  destruct (Latest concurrent id s) as [r1 s1] eqn:E1. apply Latest_spends in E1; [|done].
  destruct r1 as [oc|];
    [|intros [= <- <-]; eapply (failing_turn _ 0); [apply spends_refl|exact E1]].
  destruct (matches (pub_ s1) rev oc); [by apply confirm_ok_spends|].
  destruct (prepareOnce concurrent id rev s1) as [r2 s2] eqn:E2.
  apply prepareOnce_spends in E2 as [E2 Hval]; [|by eapply spends_chain|by eapply spends_signer|by apply Hd].
  destruct r2 as [tx|]; [|intros [= <- <-]; by eapply (failing_turn _ 0)].
  pose proof (spends_trans _ _ _ _ _ _ E1 E2) as H2'.
  apply send_and_wait_spends; [by apply Hval| |done..]. by eapply spends_chain.
Qed.

(** ** The loop *)

Lemma asked_digest (l : list event) id d k :
  asked signer l id d k → is_ok (EnvelopeSigningDigest (envelopeFor d)) = true.
Proof.
  intros (_ & _ & Hid & _). unfold WorkloadID in Hid.
  destruct (Encode (ds_Identity d)) as [b|] eqn:Eb; [|done]. apply Encode_Ok in Eb as [Hv _].
  destruct (proj2 (envelope_digest_Ok (envelopeFor d)) Hv) as [h ->]. done.
Qed.

(** Every revision asked for so far can be published, and what was prepared is valid. *)
Definition all_versioned (s : St) : Prop := ∀ d n, EvEnqueue d n ∈ log s → versioned d.

Lemma Enqueue_versioned d (s : St) : versioned d → all_versioned s → all_versioned (Enqueue d s).2.
Proof.
  intros Hd Hs d' n'. unfold Enqueue. destruct (WorkloadID _) as [id|]; [|apply Hs].
  destruct (enqueue_locked _ _ _) as [p b]. simpl.
  intros [?|[= -> _]%list_elem_of_singleton]%elem_of_app; [by eapply Hs|done].
Qed.

Definition prepared_valid (l : list event) : Prop :=
  ∀ id q k sig tx, EvPrepare id q k sig (Ok tx) ∈ l → rk_Version k ≠ 0 → sig ≠ [] → valid_tx tx.

Definition publishable_log (l : list event) : Prop :=
  (∀ d n, EvEnqueue d n ∈ l → versioned d) ∧ prepared_valid l.

Lemma prepared_valid_enqueue l d n : prepared_valid l → prepared_valid (l ++ [EvEnqueue d n]).
Proof. intros Hl id q k sig tx [?|?%list_elem_of_singleton]%elem_of_app; [by eapply Hl|done]. Qed.

Lemma prepared_valid_external w e w' l :
  external signer chain w e w' → prepared_valid l → prepared_valid (l ++ [e]).
Proof.
  intros He Hl id q k sig tx [?|<-%list_elem_of_singleton]%elem_of_app Hk Hs; [by eapply Hl|].
  inversion He; subst. by eapply (te_prepare Hte).
Qed.

Lemma reachable_prepared_valid s :
  reachable new_queue concurrent signer chain s → prepared_valid (log s).
Proof.
  intros (s0 & Hi & Hr).
  apply (steps_hold new_queue concurrent signer chain (λ _, prepared_valid) (λ _, True)) with s0;
    [..|done|done| |done].
  - intros d n w l _. apply prepared_valid_enqueue.
  - intros w e w' ds w'' l He _ Hl. split; [by apply Forall_true|].
    by eapply prepared_valid_external.
  - by intros ? ? ? ? ? ?%not_elem_of_nil.
Qed.

Lemma processNext_publishable (s s' : St) :
  p_signer (pub_ s) = signer → p_chain (pub_ s) = chain →
  processNext concurrent s = Some s' → publishable_log (log s) → publishable_log (log s').
Proof.
  intros Hsg Hch E Hv.
  apply (processNext_holds concurrent signer chain (λ _, publishable_log) versioned)
    in E as [_ E]; [done| | |done].
  - intros d n w l Hd [Hl Hp]. split; [|by apply prepared_valid_enqueue].
    intros d' n' [?|[= -> _]%list_elem_of_singleton]%elem_of_app; [by eapply Hl|done].
  - intros w e w' ds w'' l He Hc [Hl Hp]. split; [by eapply te_concurrent|].
    split; [|by eapply prepared_valid_external].
    intros d n [?|Hd%list_elem_of_singleton]%elem_of_app; [by eapply Hl|]. subst e. inversion He.
Qed.

Lemma entry_publishable l q id (st : workloadState) :
  log_ok signer pk l q → entry_ok signer pk l q id st → publishable_log l → publishable st.
Proof.
  intros Hl [_ Ha Hs Hp _] [Hv Hval].
  assert (Hk : rk_Version (ws_key st) ≠ 0) by (destruct Ha as (Hen & _ & ->); by eapply Hv).
  split_and!; [eapply asked_digest; by exists (ws_seq st)|done|by intros sig [? _]%Hs|].
  intros tx Htx. destruct (Hp tx Htx) as [sig Hin].
  destruct (lo_prepare _ _ _ _ Hl _ _ _ _ _ Hin) as (d & _ & Hne & _). by eapply Hval.
Qed.

Definition live_inv (s : St) : Prop :=
  GInv signer chain pk None None s ∧ demand s < 2 ^ 64 ∧ publishable_log (log s).

Lemma live_bound s : live_inv s → n_enq (log s) < 2 ^ 64.
Proof. intros [_ [Hd _]]. unfold demand in Hd. lia. Qed.

Lemma processNext_potential (s s' : St) :
  live_inv s → processNext concurrent s = Some s' →
  live_inv s' ∧ (potential s' < potential s)%nat.
Proof.
  intros Hl E. pose proof (live_bound s Hl) as Hb. destruct Hl as (HI & Hdm & Hver).
  pose proof (processNext_inv _ _ _ _ Hpk _ _ E HI) as HI'. specialize (HI Hb).
  destruct (inv_static _ _ _ _ _ _ HI) as (Hsg & Hch & _).
  pose proof (processNext_publishable _ _ Hsg Hch E Hver) as Hver'.
  unfold processNext in E. destruct (q_Get _) as [[id q]|] eqn:Eq; [|done].
  pose proof (load_Get _ _ _ Eq) as Hsz.
  destruct (process concurrent id (with_pub (set_queue (λ _, q)) s)) as [r s1] eqn:Ep.
  apply process_spends in Ep as (P & D & _); [|done..|].
  2: { intros st Hst. eapply entry_publishable; [by apply HI|by apply (inv_entry _ _ _ _ _ _ HI)|exact Hver]. }
  injection E as <-. unfold live_inv, demand, potential in *. simpl in *.
  destruct r as [[]|]; simpl in *;
    rewrite load_Done; (split; [split_and!; [done|lia|done]|]).
  - pose proof (load_Add id (q_Forget id (p_queue (pub_ s1)))) as Ha. rewrite load_Forget in Ha. lia.
  - rewrite load_Forget. lia.
  - pose proof (load_AddRateLimited id (p_queue (pub_ s1))). lia.
Qed.

Lemma worker_steps fuel (s : St) : rtc (step concurrent) s (Start concurrent fuel s).
Proof.
  unfold Start. revert s. induction fuel as [|fuel IH]; intros s; simpl; [done|].
  destruct (processNext concurrent s) as [s'|] eqn:E; [|done].
  eapply rtc_l; [by constructor|apply IH].
Qed.

(** The loop stops with everything confirmed. *)
Lemma Start_settles fuel (s : St) :
  reachable new_queue concurrent signer chain s → demand s < 2 ^ 64 →
  all_versioned s → (potential s ≤ fuel)%nat →
  n_enq (log (Start concurrent fuel s)) < 2 ^ 64 ∧
  processNext concurrent (Start concurrent fuel s) = None ∧
  todo (p_queue (pub_ (Start concurrent fuel s))) = ∅ ∧
  ∀ id st, p_state (pub_ (Start concurrent fuel s)) !! id = Some st →
    ws_confirmed st = Some (ws_key st) ∧
    evidence signer pk (log (Start concurrent fuel s)) id (ws_key st).
Proof.
  intros Hr Hd Hv Hf.
  destruct (loop_stops (processNext concurrent) live_inv potential fuel s) as [Hl Hn];
    [apply processNext_potential|split_and!; [by eapply reachable_inv|done|]|done|].
  { split; [done|by apply reachable_prepared_valid]. }
  fold (Start concurrent fuel s) in Hl, Hn. pose proof (live_bound _ Hl) as Hb.
  destruct Hl as [HI _]. specialize (HI Hb).
  assert (He : todo (p_queue (pub_ (Start concurrent fuel s))) = ∅).
  { unfold processNext in Hn. destruct (q_Get _) as [[j q]|] eqn:Eq; [|by apply todo_Get_None].
    by destruct (process _ _ _). }
  split_and!; [done..|]. intros id st Hst.
  assert (Hc : ws_confirmed st = Some (ws_key st)).
  { apply dec_stable. intros Hu. destruct (inv_todo _ _ _ _ _ _ HI id st Hst Hu); [set_solver|done]. }
  split; [done|]. by apply (eo_conf _ _ _ _ _ _ (inv_entry _ _ _ _ _ _ HI id st Hst)).
Qed.

(** C8: the v2 publisher settles: from any reachable state, if failed calls, receipts
    that are not a success and further requests are finite in number and no requested
    version truncates to 0 (which the client refuses for good), the worker's loop
    stops within the number of queue entries (a workload has at most two, one ready and
    one waiting out a back-off) plus twice the remaining trouble, with an empty queue and every workload's desired revision confirmed, each on evidence
    from the chain.  Reverts, lost receipts, outages and revisions superseded in flight
    are all covered. *)
Theorem publisher_settles fuel (s : St) :
  reachable new_queue concurrent signer chain s → demand s < 2 ^ 64 →
  all_versioned s → (potential s ≤ fuel)%nat →
  processNext concurrent (Start concurrent fuel s) = None ∧
  todo (p_queue (pub_ (Start concurrent fuel s))) = ∅ ∧
  ∀ id st, p_state (pub_ (Start concurrent fuel s)) !! id = Some st →
    ws_confirmed st = Some (ws_key st) ∧
    evidence signer pk (log (Start concurrent fuel s)) id (ws_key st).
Proof. intros. by apply Start_settles. Qed.
End Live.

(** ** Through a lost receipt, a revert and a superseding request *)

Module LiveWitness.
Import ToyCrypto MapOrder ListQueue PublisherToy PublisherWitness.

Definition toy_budget (w : toy_world) : nat :=
  (sum_list (map length (tw_script w)) + length (tw_waits w))%nat.

Lemma toy_trouble_ends : trouble_ends toy_concurrent toy_signer toy_chain toy_budget (λ _, True)
  (λ _ _, True).
Proof.
  split; unfold toy_budget, failed, unsent, unsuccessful.
  - intros id w r w' [= <- <-]. simpl. lia.
  - intros d w r w' [= <- <-]. simpl. lia.
  - intros id k sig w r w' _ _ [= <- <-]. simpl. split; [lia|done].
  - intros tx w r w' _ [= <- <-]. simpl. split; [lia|done].
  - intros tx [c sc [|o os]] r w' [= <- <-]; simpl; (split; [lia|]); intros _ _; [lia|].
    destruct o; lia.
  - intros [c [|ds sc] ws] ds' w' [= <- <-];
      (split_and!; [rewrite ?length_fmap; simpl; lia| |done]); [constructor|].
    by apply Forall_fmap, Forall_true.
Qed.

(** A is asked for, the first receipt is lost, the second transaction reverts, and B is
    asked for during the fourth call. *)
Definition rough : @St _ toy_world toy_tx (list bytes32) :=
  enqueue A (start [[]; []; []; [Byte.xbb]] [WaitUnknown; WaitReverted]).

Lemma publisher_settles_witness :
  todo (p_queue (pub_ (Start toy_concurrent 7 rough))) = ∅.
Proof.
  apply (publisher_settles (H := toy_crypto) [] toy_concurrent toy_signer toy_chain toy_k eq_refl toy_budget
    (λ _, True) (λ _ _, True) toy_trouble_ends 7 rough).
  - apply enqueue_reachable, start_reachable.
  - vm_compute. reflexivity.
  - by apply Enqueue_versioned; [|intros ? ? ?%not_elem_of_nil].
  - vm_compute. reflexivity.
Defined.

Example rough_publishes_B : published (Start toy_concurrent 7 rough) = Some (ds_ConfigHash B).
Proof. vm_compute. reflexivity. Qed.
End LiveWitness.
