(* ===== verification/NodeV2.v ===== *)
(** * What the v2 publisher may expect of its chain

    [HonestChain]: the contract of the [ChainV2] interface over a node that runs
    AttestationRegistryV2, as laws on the calls the node has mined; the publisher's
    end-to-end theorems are proved against it.  [HonestNode] is the corresponding
    promise of a go-ethereum backend, and the v2 client over such a backend keeps it. *)

From S2P Require Import Prelude Bytes Sha256 Hash Identity Registry Verify Signer Client.
From S2P Require Import WorkQueue PublisherV2.

Open Scope Z_scope.

(** ** The interface *)

(** The call that publishes a revision. *)
Definition call_for (id : bytes32) (k : RevisionKey) (sig : bytes) : RegistryV2.call :=
  {| RegistryV2.workloadId := id; RegistryV2.a_hashVersion := rk_Version k;
     RegistryV2.a_configHash := rk_ConfigHash k; RegistryV2.a_incarnation := rk_Incarnation k;
     RegistryV2.a_signature := sig; RegistryV2.a_signerFingerprint := rk_Fingerprint k |}.

(** A record as the publisher sees it. *)
Definition view (a : RegistryV2.Attestation) : OnChain :=
  {| oc_Exists := RegistryV2.exists_ a;
     oc_Key := {| rk_Version := RegistryV2.hashVersion a; rk_ConfigHash := RegistryV2.configHash a;
                  rk_Incarnation := RegistryV2.incarnation a;
                  rk_Fingerprint := RegistryV2.signerFingerprint a |};
     oc_Signature := RegistryV2.signature a |}.

Abbreviation history := (list (msg * RegistryV2.call)).

(** The node's side: the account the contract accepts, the calls mined so far, and the
    calls that were handed over for that account, by this operator alone.  [deployed] is
    the contract as its constructor left it. *)
Class Ledger (W : Type) := {
  operator : bytes;
  mined : W → history;
  outbox : W → list RegistryV2.call;
  mined_sent w mc : mc ∈ mined w → msg_sender mc.1 = operator → mc.2 ∈ outbox w
}.

Definition deployed `{Ledger W} : RegistryV2.state :=
  {| RegistryV2.publisher := operator; RegistryV2.latest := ∅ |}.

(** The contract now. *)
Definition registry `{Ledger W} (w : W) : RegistryV2.state :=
  RegistryV2.run deployed (mined w).

(** Blocks may be mined, the operator's transactions among them, and nothing is sent. *)
Definition advances `{Ledger W} (w w' : W) : Prop :=
  mined w `prefix_of` mined w' ∧ outbox w' = outbox w.

(** [Prepare] builds the call it was asked for, [Send] is the only way out, success is a
    mined and accepted call, and [Latest] reads the contract. *)
Class HonestChain `{Ledger W} {Tx : Type} (tx_call : Tx → RegistryV2.call)
    (chain : ChainV2 W Tx) := {
  hc_latest id w r w' : chain_Latest chain id w = (r, w') →
    advances w w' ∧ ∀ oc, r = Ok oc → oc = view (RegistryV2.read (registry w') id);
  hc_prepare id k sig w r w' : chain_Prepare chain id k sig w = (r, w') →
    advances w w' ∧ ∀ tx, r = Ok tx → tx_call tx = call_for id k sig;
  hc_send tx w r w' : chain_Send chain tx w = (r, w') →
    mined w `prefix_of` mined w' ∧
    ∀ call, call ∈ outbox w' → call ∈ outbox w ∨ call = tx_call tx;
  hc_wait tx w r w' : chain_Wait chain tx w = (r, w') →
    advances w w' ∧
    (r = Ok WaitMinedSuccess → ∃ m, (m, tx_call tx) ∈ mined w' ∧
       RegistryV2.accepted operator (m, tx_call tx) = true)
}.

Lemma advances_refl `{Ledger W} (w : W) : advances w w.
Proof. by split. Qed.

Lemma advances_trans `{Ledger W} (w1 w2 w3 : W) :
  advances w1 w2 → advances w2 w3 → advances w1 w3.
Proof. intros [M1 O1] [M2 O2]. split; [by etrans|congruence]. Qed.

(** A record that exists is the last call the contract accepted. *)
Lemma view_mined `{Ledger W} (w : W) id :
  oc_Exists (view (RegistryV2.read (registry w) id)) = true →
  ∃ mc, mc ∈ mined w ∧ RegistryV2.accepted operator mc = true ∧
    mc.2 = call_for id (oc_Key (view (RegistryV2.read (registry w) id)))
             (oc_Signature (view (RegistryV2.read (registry w) id))).
Proof.
  unfold registry. rewrite RegistryV2Facts.read_run. simpl.
  destruct (RegistryV2.last_accepted operator id (mined w)) as [mc|] eqn:E; [|done].
  apply RegistryV2Facts.last_accepted_ok in E as (Ha & Hid & Hin). intros _. exists mc.
  split_and!; [done..|]. destruct mc as [m []]. simpl in *. by subst.
Qed.

(** ** The v2 client over a backend

    The repository has no adapter from [ClientV2] to the publisher's interface yet; this
    is the field-by-field one.  The handles [Prepare] returns are determined by their
    transaction, which stands for them. *)

Section OverClient.
Context {W Tx : Type}.

Definition view_client (a : AttestationV2) : OnChain :=
  {| oc_Exists := Exists2 a;
     oc_Key := {| rk_Version := HashVersion2 a; rk_ConfigHash := ConfigHash2 a;
                  rk_Incarnation := Incarnation2 a; rk_Fingerprint := SignerFingerprint2 a |};
     oc_Signature := Signature2 a |}.

Definition send_outcome (o : SubmitOutcome) : SendOutcome :=
  match o with SubmitUnknown => SendUnknown | SubmitAccepted => SendAccepted end.

Definition wait_outcome (o : PublishOutcome) : WaitOutcome :=
  match o with
  | OutcomeUnknown => WaitUnknown
  | OutcomeMinedSuccess => WaitMinedSuccess
  | OutcomeReverted => WaitReverted
  end.

Definition handle (c : @Client W Tx) (tx : Tx) : PreparedPublish :=
  {| pp_TxHash := eth_Hash (contract c) tx; pp_tx := Some tx |}.

Definition over_client (c : @Client W Tx) : ChainV2 W Tx := {|
  chain_Latest id w := let '(r, w) := LatestAttestationV2 c id w in (a <-? r;; Ok (view_client a), w);
  chain_Prepare id k sig w :=
    let '(r, w) := Client.Prepare c id (rk_Version k) (rk_ConfigHash k) (rk_Incarnation k) sig
      (rk_Fingerprint k) w in
    (p <-? r;; from_option Ok (Err (errors_New "no transaction")) (pp_tx p), w);
  chain_Send tx w :=
    let '(r, w) := Client.Send c (Some (handle c tx)) w in
    (sr <-? r;; Ok (send_outcome (sr_Outcome sr)), w);
  chain_Wait tx w :=
    let '(res, w) := Client.Wait c (Some (handle c tx)) w in
    (Ok (wait_outcome (pr_Outcome res)), w);
  tx_Hash tx := PreparedPublish_Hash (Some (handle c tx))
|}.

(** [Prepare] never returns a handle without its transaction. *)
Lemma Prepare_handle (c : @Client W Tx) id v h inc sig fp w p w' :
  Client.Prepare c id v h inc sig fp w = (Ok p, w') → ∃ tx, p = handle c tx.
Proof. intros (_ & _ & _ & tx & _ & ->)%Prepare_Ok. by exists tx. Qed.
End OverClient.

(** ** A backend that runs the contract *)

Definition publish_args (c : RegistryV2.call) : list abi_value :=
  publish_args_v2 (RegistryV2.workloadId c) (RegistryV2.a_hashVersion c)
    (RegistryV2.a_configHash c) (RegistryV2.a_incarnation c) (RegistryV2.a_signature c)
    (RegistryV2.a_signerFingerprint c).

Lemma publish_args_inj c c' : publish_args c = publish_args c' → c = c'.
Proof. destruct c, c'. by intros [= -> -> -> -> -> ->]. Qed.

Class HonestNode `{Ledger W} {Tx : Type} (tx_call : Tx → RegistryV2.call)
    (b : Backend W Tx) := {
  hn_transact args w r w' : eth_Transact b true "publish" args w = (r, w') →
    advances w w' ∧ ∀ tx, r = Ok tx → publish_args (tx_call tx) = args;
  hn_call id w r w' : eth_Call b "getLatest" [ABytes32 id] w = (r, w') →
    advances w w' ∧ ∀ out, r = Ok out → out = RegistryV2.getLatest (registry w') id;
  hn_send tx w r w' : eth_SendTransaction b tx w = (r, w') →
    mined w `prefix_of` mined w' ∧
    ∀ call, call ∈ outbox w' → call ∈ outbox w ∨ call = tx_call tx;
  hn_wait tx w r w' : eth_WaitMined b tx w = (r, w') →
    advances w w' ∧
    ∀ rc, r = Ok rc → r_Status rc = ReceiptStatusSuccessful →
      ∃ m, (m, tx_call tx) ∈ mined w' ∧
           RegistryV2.accepted operator (m, tx_call tx) = true
}.

(** The v2 client keeps the promise of its backend. *)
Lemma over_client_honest `{HonestNode W Tx tx_call b} (c : @Client W Tx) :
  contract c = b → HonestChain tx_call (over_client c).
Proof.
  intros <-. split; simpl.
  - intros id w r w'. unfold LatestAttestationV2.
    destruct (eth_Call _ _ _ w) as [[out|e] w1] eqn:E; intros [= <- <-];
      apply hn_call in E as [Ha Ho]; (split; [done|]); intros oc; [|done].
    rewrite (Ho out eq_refl), decode_v2_record.
    by intros [= <-].
  - intros id k sig w r w'. destruct (Client.Prepare _ _ _ _ _ _ _ w) as [[p|e] w1] eqn:Ep;
      intros [= <- <-].
    + apply Prepare_Ok in Ep as (_ & _ & _ & tx & Ht & ->). apply hn_transact in Ht as [Ha Ht].
      split; [done|]. intros tx' [= <-]. apply publish_args_inj. by apply (Ht tx).
    + split; [|done]. unfold Client.Prepare in Ep.
      destruct (negb (auth c)); [by injection Ep as _ <-|].
      destruct (_ =? 0); [by injection Ep as _ <-|].
      destruct (is_nil sig); [by injection Ep as _ <-|].
      destruct (eth_Transact _ _ _ _ _) as [[tx|e'] w2] eqn:Et; [done|].
      injection Ep as _ <-. by apply hn_transact in Et as [Ha _].
  - intros tx w r w'. unfold Client.Send. simpl.
    destruct (negb (connected c)); [intros [= <- <-]; by split; [|left]|].
    destruct (eth_SendTransaction _ tx w) as [[e|] w1] eqn:Es; intros [= <- <-];
      by apply hn_send in Es.
  - intros tx w r w'. unfold Client.Wait. simpl.
    destruct (eth_WaitMined _ tx w) as [[rc|e] w1] eqn:Ew; intros [= <- <-];
      apply hn_wait in Ew as [Ha Hw]; (split; [done|]); [|done]. simpl.
    destruct (Z.eqb_spec (r_Status rc) ReceiptStatusSuccessful) as [Hs|]; [|done].
    intros _. by apply (Hw rc).
Qed.

(** C30: the v2 client is what the publisher needs: over any backend that runs the v2
    registry and mines only what it was handed, the client's operations have the
    contract the publisher's end-to-end theorems rest on: a prepared transaction carries
    exactly the call it was asked for, nothing leaves except through Send, a reported
    success is a mined and accepted call, and what Latest returns is the record the
    contract holds, field by field. *)
Theorem client_v2_refines_chain `{HonestNode W Tx tx_call b} (c : @Client W Tx) :
  contract c = b → HonestChain tx_call (over_client c).
Proof. apply over_client_honest. Qed.
