(* ===== verification/LifetimeV2.v ===== *)
(** * The v2 operator's life

    One process after another: a process dies, what it kept in memory is gone, and
    [NewV2] starts the next one over the world the last one left.  A process that dies in
    the middle of a turn is one whose remaining calls return nothing and change nothing. *)

From S2P Require Import Prelude Bytes Sha256 Hash Identity Registry Verify Signer Client.
From S2P Require Import WorkQueue PublisherV2 PublisherV2Inv PublisherV2World NodeV2.

Open Scope Z_scope.

(** ** Processes and their logs *)

Section Lifetime.
Context `{Crypto, MapRange} {W Tx Q : Type} `{!WorkQueue bytes32 Q}.
Context (new_queue : Q) (concurrent : W → list Desired * W).
Context (signer : Signer W) (chain : ChainV2 W Tx).
(** The world before the first process, and what may pass while none runs. *)
Context (unused : W → Prop) (down : W → W → Prop).

Abbreviation event := (@event Tx).
Abbreviation St := (@St _ W Tx Q).

(** The logs of the processes that are gone, and the state of the one that runs. *)
Inductive lifetime : list (list event) → St → Prop :=
  | lifetime_boot s0 s :
      initial new_queue signer chain s0 → unused (world s0) → rtc (step concurrent) s0 s →
      lifetime [] s
  | lifetime_restart past s1 s0 s :
      lifetime past s1 → initial new_queue signer chain s0 → down (world s1) (world s0) →
      rtc (step concurrent) s0 s → lifetime (past ++ [log s1]) s.

(** Every process's log, and all that ever happened. *)
Definition epochs (past : list (list event)) (s : St) : list (list event) := past ++ [log s].

Definition whole (past : list (list event)) (s : St) : list event := concat (epochs past s).

(** No process is asked 2^64 times. *)
Definition in_bounds (past : list (list event)) (s : St) : Prop :=
  Forall (λ l, n_enq l < 2 ^ 64) (epochs past s).

Lemma in_bounds_log past s : in_bounds past s → n_enq (log s) < 2 ^ 64.
Proof. intros [_ [Hb _]%Forall_cons]%Forall_app. exact Hb. Qed.

Lemma epoch_in_whole past s l e : l ∈ epochs past s → e ∈ l → e ∈ whole past s.
Proof. intros Hl He. apply elem_of_concat. by exists l. Qed.

Lemma whole_in_epoch past s e : e ∈ whole past s → ∃ l, l ∈ epochs past s ∧ e ∈ l.
Proof. apply elem_of_concat. Qed.

Lemma lifetime_steps past s s' :
  lifetime past s → rtc (step concurrent) s s' → lifetime past s'.
Proof.
  intros [s0 s1 Hi Hu Hr|past' s1 s0 s2 Hl Hi Hd Hr] Hs;
    [eapply lifetime_boot|eapply lifetime_restart]; try done; by etrans.
Qed.

(** Each process by itself is one the publisher's invariants speak of. *)
Lemma lifetime_reachable past s :
  lifetime past s → reachable new_queue concurrent signer chain s.
Proof. intros [s0 s1 Hi _ Hr|? ? s0 s1 _ Hi _ Hr]; by exists s0. Qed.

Lemma epoch_reachable past s l :
  lifetime past s → l ∈ epochs past s →
  ∃ s', reachable new_queue concurrent signer chain s' ∧ log s' = l.
Proof.
  unfold epochs. intros Hl. pose proof (lifetime_reachable _ _ Hl) as Hs. revert Hs.
  induction Hl as [s0 s Hi Hu Hr|past s1 s0 s Hl IH Hi Hd Hr]; intros Hs
    [Hin|Hin%list_elem_of_singleton]%elem_of_app; [by apply not_elem_of_nil in Hin|by exists s| |by exists s].
  by apply IH; [eapply lifetime_reachable|].
Qed.

(** What every call keeps, and what passes while no process runs keeps, always holds. *)
Lemma lifetime_holds (P : W → list event → Prop) past s :
  (∀ w, unused w → P w []) → (∀ w w' l, down w w' → P w l → P w' l) →
  (∀ d n w l, P w l → P w (l ++ [EvEnqueue d n])) →
  (∀ w e w' ds w'' l, external signer chain w e w' → concurrent w' = (ds, w'') → P w l →
     P w'' (l ++ [e])) →
  lifetime past s → P (world s) (whole past s).
Proof.
  intros Hu Hd He Hx Hl. unfold whole, epochs.
  assert (Hrun : ∀ past s0 s, initial new_queue signer chain s0 → rtc (step concurrent) s0 s →
    P (world s0) (concat past) → P (world s) (concat (past ++ [log s]))).
  { clear past s Hl. intros past s0 s Hi Hr HP. rewrite concat_app. simpl. rewrite app_nil_r.
    apply (steps_hold new_queue concurrent signer chain (λ w l, P w (concat past ++ l)) (λ _, True)) with s0;
      [..|done|done| |done].
    - intros d n w l _. rewrite app_assoc. apply He.
    - intros w e w' ds w'' l H1 H2 HPl. rewrite app_assoc. split; [by apply Forall_true|by eapply Hx].
    - by rewrite app_nil_r. }
  induction Hl as [s0 s Hi H0' Hr|past s1 s0 s Hl IH Hi H0' Hr].
  - apply (Hrun [] s0); [done..|]. by apply Hu.
  - apply (Hrun _ s0); [done..|]. by eapply Hd.
Qed.
End Lifetime.

Lemma lifetime_weaken `{Crypto, MapRange} {W Tx Q} `{!WorkQueue bytes32 Q} new_queue concurrent
    signer chain (unused unused' : W → Prop) (down down' : W → W → Prop)
    (past : list (list (@event Tx))) (s : @St _ W Tx Q) :
  (∀ w, unused w → unused' w) → (∀ w w', down w w' → down' w w') →
  lifetime new_queue concurrent signer chain unused down past s →
  lifetime new_queue concurrent signer chain unused' down' past s.
Proof.
  intros Hu Hd. induction 1; [eapply lifetime_boot|eapply lifetime_restart]; eauto.
Qed.

(** ** Dying in the middle of a turn *)

Section Until.
Context {W Tx : Type} (dead : W → bool).

Definition killed {A} (f : W → result A * W) (w : W) : result A * W :=
  if dead w then (Err (errors_New "killed"), w) else f w.

Definition until (chain : ChainV2 W Tx) : ChainV2 W Tx := {|
  chain_Latest id := killed (chain_Latest chain id);
  chain_Prepare id k sig := killed (chain_Prepare chain id k sig);
  chain_Send tx := killed (chain_Send chain tx);
  chain_Wait tx := killed (chain_Wait chain tx);
  tx_Hash := tx_Hash chain
|}.

Definition signer_until (signer : Signer W) : Signer W := {|
  signer_SignDigest d := killed (signer_SignDigest signer d);
  signer_PublicKeyDER := signer_PublicKeyDER signer
|}.

(** Nobody asks a dead process. *)
Definition silent (concurrent : W → list Desired * W) (w : W) : list Desired * W :=
  if dead w then ([], w) else concurrent w.

Lemma killed_inv {A} (f : W → result A * W) w r w' :
  killed f w = (r, w') → (w' = w ∧ ∃ e, r = Err e) ∨ f w = (r, w').
Proof. unfold killed. destruct (dead w); [|by right]. intros [= <- <-]. left. split; [done|by eexists]. Qed.

(** A chain that keeps its promises keeps them while a process dies. *)
Lemma until_honest `{Ledger W} (tx_call : Tx → RegistryV2.call) chain :
  HonestChain tx_call chain → HonestChain tx_call (until chain).
Proof.
  intros Hc. split.
  - intros id w r w' [[-> [e ->]]|E]%killed_inv; [|by eapply hc_latest].
    split; [apply advances_refl|done].
  - intros id k sig w r w' [[-> [e ->]]|E]%killed_inv; [|by eapply hc_prepare].
    split; [apply advances_refl|done].
  - intros tx w r w' [[-> [e ->]]|E]%killed_inv; [|by eapply hc_send].
    split; [done|by left].
  - intros tx w r w' [[-> [e ->]]|E]%killed_inv; [|by eapply hc_wait].
    split; [apply advances_refl|done].
Qed.
End Until.
