(* ===== verification/SystemV2.v ===== *)
(** * The v2 system as a whole

    The v2 publisher, one process after another, over a chain that keeps [HonestChain]:
    what the contract holds was asked for, what the publisher calls confirmed is on chain,
    and what is asked for gets there. *)

From S2P Require Import Prelude Bytes Sha256 Hash Identity Registry Verify Signer Client.
From S2P Require Import WorkQueue PublisherV2 PublisherV2Inv PublisherV2Turn PublisherV2World.
From S2P Require Import PublisherV2Live NodeV2 LifetimeV2.

Open Scope Z_scope.

(** ** The publisher over an honest chain *)

Section SystemV2.
Context `{Crypto, MapRange} {W Tx Q : Type} `{!WorkQueue bytes32 Q} `{Ledger W}.
Context (tx_call : Tx → RegistryV2.call) (chain : ChainV2 W Tx) `{!HonestChain tx_call chain}.
Context (new_queue : Q) (concurrent : W → list Desired * W) (signer : Signer W).
Context (pk : PublicKey) `{!AttestSigner signer}.
Context (Hpk : ParsePublicKeyDER (signer_PublicKeyDER signer) = Ok pk).

Abbreviation event := (@event Tx).
Abbreviation St := (@St _ W Tx Q).

(** The signer and the reconciler send no transactions; blocks go on meanwhile. *)
Record bystanders : Prop := {
  by_sign d w r w' : signer_SignDigest signer d w = (r, w') → advances w w';
  by_concurrent w ds w' : concurrent w = (ds, w') → advances w w'
}.

Context (Hby : bystanders).

(** The first process starts on a chain that this account has not used yet; between two
    processes blocks may be mined, with what the last one sent or without. *)
Definition lived : list (list event) → St → Prop :=
  lifetime new_queue concurrent signer chain (λ w, outbox w = []) advances.

Definition on_chain (w : W) (call : RegistryV2.call) : Prop :=
  ∃ m, (m, call) ∈ mined w ∧ RegistryV2.accepted operator (m, call) = true.

(** What an answer of the chain means. *)
Definition truthful (w : W) (e : event) : Prop :=
  match e with
  | EvPrepare id _ k sig (Ok tx) => tx_call tx = call_for id k sig
  | EvWait _ _ tx (Ok WaitMinedSuccess) => on_chain w (tx_call tx)
  | EvLatest id (Ok oc) =>
      oc_Exists oc = true → on_chain w (call_for id (oc_Key oc) (oc_Signature oc))
  | _ => True
  end.

Definition truthful_log (w : W) (l : list event) : Prop :=
  Forall (truthful w) l ∧
  ∀ call, call ∈ outbox w → ∃ id q tx r, EvSend id q tx r ∈ l ∧ call = tx_call tx.

Lemma on_chain_mono w w' call :
  mined w `prefix_of` mined w' → on_chain w call → on_chain w' call.
Proof.
  intros [l E] (m & Hin & Ha). exists m. rewrite E. split; [set_solver|done].
Qed.

Lemma truthful_mono w w' e : mined w `prefix_of` mined w' → truthful w e → truthful w' e.
Proof.
  intros Hp. destruct e as [d|id [oc|]|id d r|id q k sig r|id q tx r|id q tx [[]|]]; simpl; try done.
  - intros Ht Hx. by eapply on_chain_mono, Ht.
  - by apply on_chain_mono.
Qed.

Lemma truthful_snoc w w' l e :
  mined w `prefix_of` mined w' → truthful w' e →
  (∀ call, call ∈ outbox w' →
     call ∈ outbox w ∨ ∃ id q tx r, e = EvSend id q tx r ∧ call = tx_call tx) →
  truthful_log w l → truthful_log w' (l ++ [e]).
Proof.
  intros Hp He Ho [Hl Hs]. split.
  - apply Forall_app. split; [|by constructor].
    eapply Forall_impl; [exact Hl|]. intros x. by apply truthful_mono.
  - intros call [Hc|(id & q & tx & r & -> & ->)]%Ho.
    + destruct (Hs call Hc) as (id & q & tx & r & Hin & ->). exists id, q, tx, r. set_solver.
    + exists id, q, tx, r. set_solver.
Qed.

(** Every call leaves a truthful log. *)
Lemma truthful_external w e w' ds w'' l :
  external signer chain w e w' → concurrent w' = (ds, w'') → truthful_log w l →
  truthful_log w'' (l ++ [e]).
Proof.
  intros He Hc. pose proof (by_concurrent Hby _ _ _ Hc) as [Hp2 Ho2].
  destruct He as [id w r w' E|id d w r w' E|id q k sig w r w' E|id q tx w r w' E|id q tx w r w' E].
  - apply hc_latest in E as [[Hp1 Ho1] Hv]. apply truthful_snoc; [by etrans| |rewrite Ho2, Ho1; auto].
    destruct r as [oc|]; [|done]. intros Hx. rewrite (Hv oc eq_refl) in Hx |- *.
    eapply on_chain_mono; [exact Hp2|].
    destruct (view_mined w' id Hx) as ([m c] & Hin & Ha & Hcl). simpl in Hcl. subst c. by exists m.
  - apply (by_sign Hby) in E as [Hp1 Ho1].
    apply truthful_snoc; [by etrans|done|rewrite Ho2, Ho1; auto].
  - apply hc_prepare in E as [[Hp1 Ho1] Ht].
    apply truthful_snoc; [by etrans| |rewrite Ho2, Ho1; auto].
    destruct r as [tx|]; [|done]. by apply Ht.
  - apply hc_send in E as [Hp1 Ho1]. apply truthful_snoc; [by etrans|done|].
    rewrite Ho2. intros call [?| ->]%Ho1; [by left|right]. by exists id, q, tx, r.
  - apply hc_wait in E as [[Hp1 Ho1] Hw].
    apply truthful_snoc; [by etrans| |rewrite Ho2, Ho1; auto].
    destruct r as [[]|]; try done. eapply on_chain_mono; [exact Hp2|]. by apply Hw.
Qed.

Lemma truthful_settled w w' l : advances w w' → truthful_log w l → truthful_log w' l.
Proof.
  intros [Hp Ho] [Hl Hs]. split; [|by rewrite Ho].
  eapply Forall_impl; [exact Hl|]. intros e. by apply truthful_mono.
Qed.

Lemma lived_truthful past s : lived past s → truthful_log (world s) (whole past s).
Proof.
  intros Hl. eapply lifetime_holds; [..|exact Hl].
  - intros w Ho. split; [constructor|]. rewrite Ho. set_solver.
  - apply truthful_settled.
  - intros d n w l [Hf Hs]. split; [apply Forall_app; split; [done|by constructor]|].
    intros call (id & q & tx & r & Hin & ->)%Hs. exists id, q, tx, r. set_solver.
  - intros *. apply truthful_external.
Qed.

(** Each process keeps the publisher's invariant. *)
Lemma epoch_log past s l :
  lived past s → in_bounds past s → l ∈ epochs past s → ∃ n, log_ok signer pk l n.
Proof.
  intros Hl Hb Hin. destruct (epoch_reachable _ _ _ _ _ _ _ _ _ Hl Hin) as (s' & Hr & <-).
  eexists.
  apply (inv_log _ _ _ _ _ _ (reachable_inv _ _ _ _ _ Hpk s' Hr
    (proj1 (Forall_forall _ _) Hb _ Hin))).
Qed.

(** A mined call of the operator's account is one the publisher prepared, for a revision
    that was asked for. *)
Lemma on_chain_requested past s mc :
  lived past s → in_bounds past s →
  mc ∈ mined (world s) → RegistryV2.accepted operator mc = true →
  ∃ id d sig, mc.2 = call_for id (key_of signer d) sig ∧
    asked signer (whole past s) id d (key_of signer d) ∧ ours pk d sig.
Proof.
  intros Hr Hb Hin Ha. destruct (lived_truthful past s Hr) as [Hl Hs].
  apply andb_prop in Ha as [[Hsender%bool_decide_eq_true_1 _]%andb_prop _].
  destruct (Hs _ (mined_sent _ _ Hin Hsender)) as (id & q & tx & r & Hsend & Hcall).
  apply whole_in_epoch in Hsend as (l & Hin' & Hsend).
  destruct (epoch_log past s l Hr Hb Hin') as (n & [_ _ _ _ _ Lp _ Lsend]).
  destruct (Lsend _ _ _ _ Hsend) as (k & sig & Hprep).
  destruct (Lp _ _ _ _ _ Hprep) as (d & (Hen & Hid & ->) & Hours).
  rewrite Forall_forall in Hl. specialize (Hl _ (epoch_in_whole _ _ _ _ Hin' Hprep)). simpl in Hl.
  exists id, d, sig. split_and!; [by rewrite Hcall, Hl| |done].
  exists q. split_and!; [by eapply epoch_in_whole|done..].
Qed.

(** C6: whatever the v2 contract holds was asked for: at every moment of the operator's
    life, also after its process died between any two calls and was started again any
    number of times, if the record of a workload exists, the reconciler asked one of the
    processes for a revision of it with exactly the recorded version, hash and incarnation, and the recorded fingerprint and
    signature are this signer's over that revision's envelope; a verifier who derives
    the slot from another identity, or reads the incarnation as another UID, has an
    explicit collision (or a preimage of the zero digest) in hand. *)
Theorem record_was_requested past s id w uid :
  let a := RegistryV2.read (registry (world s)) id in
  lived past s → in_bounds past s → RegistryV2.exists_ a = true →
  WorkloadID w = Ok id →
  RegistryV2.incarnation a = Incarnation {| e_Version := 0; e_Identity := w; e_UID := uid;
                                            e_ConfigHash := zero32 |} →
  ∃ d n, EvEnqueue d (Some n) ∈ whole past s ∧ uint16 (ds_Version d) = RegistryV2.hashVersion a ∧
    ds_ConfigHash d = RegistryV2.configHash a ∧
    RegistryV2.signerFingerprint a = PublicKeyFingerprintBytes (signer_PublicKeyDER signer) ∧
    ours pk d (RegistryV2.signature a) ∧
    (ds_Identity d = w ∨ ∃ b b', Encode (ds_Identity d) = Ok b ∧ Encode w = Ok b' ∧
       collision b b') ∧
    (ds_UID d = uid ∨
     collision (incarnation_preimage (ds_UID d)) (incarnation_preimage uid) ∨
     ∃ u, u ∈ [ds_UID d; uid] ∧ Sum256 (incarnation_preimage u) = zero32).
Proof.
  intros a Hr Hb Hx Hw Hi. subst a.
  destruct (view_mined (world s) id Hx) as (mc & Hin & Ha & Hcall).
  destruct (on_chain_requested past s mc Hr Hb Hin Ha) as (id' & d & sig & Hc & (n & Hen & Hid & _) & Ho).
  rewrite Hc in Hcall. injection Hcall as -> Hv Hh Hinc Hsig Hfp. subst sig.
  exists d, n. split_and!; [exact Hen|exact Hv|exact Hh|exact (eq_sym Hfp)|exact Ho| |].
  - by apply (WorkloadID_inj _ _ (ds_Identity d) w id).
  - rewrite Hi in Hinc. by apply (Incarnation_binding (envelopeFor d) _ Hinc).
Qed.

(** Confirmed means mined, accepted and signed by this key. *)
Lemma confirmed_on_chain past s id st k :
  lived past s → n_enq (log s) < 2 ^ 64 →
  p_state (pub_ s) !! id = Some st → ws_confirmed st = Some k →
  ∃ d sig, on_chain (world s) (call_for id k sig) ∧ asked signer (log s) id d k ∧ ours pk d sig.
Proof.
  intros Hr Hb Hst Hk. destruct (lived_truthful past s Hr) as [Hl _].
  assert (Hl' : ∀ e, e ∈ log s → truthful (world s) e).
  { rewrite Forall_forall in Hl. intros e He. eapply Hl, epoch_in_whole; [|exact He].
    unfold epochs. set_solver. }
  clear Hl. rename Hl' into Hl.
  pose proof (reachable_inv _ _ _ _ _ Hpk s (lifetime_reachable _ _ _ _ _ _ _ _ Hr) Hb) as HI.
  destruct (eo_conf _ _ _ _ _ _ (inv_entry _ _ _ _ _ _ HI id st Hst) k Hk)
    as [(q & sig & tx & Hp & Hwait)|(d & oc & Hasked & Hlat & Hex & <- & Hours)].
  - destruct (lo_prepare _ _ _ _ (inv_log _ _ _ _ _ _ HI) _ _ _ _ _ Hp) as (d & Hd & Ho).
    exists d, sig. split_and!; [|by exists q|done]. apply Hl in Hp, Hwait. simpl in Hp, Hwait.
    by rewrite <- Hp.
  - exists d, (oc_Signature oc). split_and!; [|done..]. apply Hl in Hlat. by apply Hlat.
Qed.

(** C11: confirmed means on chain: whatever processes ran before it, a revision the v2
    publisher counts as confirmed is in the contract's event log, under the workload's own slot,
    with exactly its version, hash, incarnation and fingerprint and a signature that
    verifies under this signer's key over the envelope of a revision that was asked
    for, so the reconciler never stops publishing something that is not attested. *)
Theorem confirmed_is_attested past s id st k :
  lived past s → n_enq (log s) < 2 ^ 64 →
  p_state (pub_ s) !! id = Some st → ws_confirmed st = Some k →
  ∃ e d, e ∈ RegistryV2.logs deployed (mined (world s)) ∧
    RegistryV2.ev_workloadId e = id ∧ oc_Key (view (RegistryV2.record_from e)) = k ∧
    asked signer (log s) id d k ∧ ours pk d (RegistryV2.ev_signature e).
Proof.
  intros Hr Hb Hst Hk.
  destruct (confirmed_on_chain past s id st k Hr Hb Hst Hk) as (d & sig & (m & Hin & Ha) & Hd & Ho).
  exists (RegistryV2Facts.event_of (m, call_for id k sig)), d.
  split_and!; [|done|by destruct k|done|done].
  rewrite RegistryV2Facts.logs_accepted. apply list_elem_of_fmap. eexists. split; [done|].
  by apply list_elem_of_filter.
Qed.

(** C7: what is asked for gets on chain: from any state of any process, when failures and
    further requests are finite in number and no version truncates to 0, the worker's
    loop stops within the stated bound, and then the contract has accepted, for every
    workload the publisher knows, a call with exactly its desired revision and a
    signature of this key over it. *)
Theorem desired_reaches_chain budget valid_tx handed fuel past s :
  trouble_ends concurrent signer chain budget valid_tx handed →
  lived past s → demand budget s < 2 ^ 64 → all_versioned s →
  (potential budget s ≤ fuel)%nat →
  let s' := Start concurrent fuel s in
  processNext concurrent s' = None ∧
  ∀ id st, p_state (pub_ s') !! id = Some st →
    ∃ d sig, on_chain (world s') (call_for id (ws_key st) sig) ∧
      asked signer (log s') id d (ws_key st) ∧ ours pk d sig.
Proof.
  intros Hte Hr Hd Hv Hf s'. pose proof (lifetime_reachable _ _ _ _ _ _ _ _ Hr) as Hr'.
  destruct (Start_settles _ _ _ _ _ Hpk budget valid_tx handed Hte fuel s Hr' Hd Hv Hf) as (Hb & Hn & _ & Hc).
  split; [done|]. intros id st Hst. destruct (Hc id st Hst) as [Hk _].
  apply (confirmed_on_chain past s' id st); [|done..].
  eapply lifetime_steps; [exact Hr|apply worker_steps].
Qed.
End SystemV2.

(** ** The client over a node that runs the contract *)

Module SystemV2Witness.
Import ToyCrypto MapOrder ListQueue PublisherToy.

(** A chain of the operator's and other accounts' calls; the receipts that get lost. *)
Inductive item := Own (c : RegistryV2.call) | Foreign (m : msg) (c : RegistryV2.call).

Record node_world := { nw_items : list item; nw_lost : nat }.

Definition account : bytes := replicate 20 Byte.x0a.
Definition own_msg : msg := {| msg_sender := account; block_timestamp := 1700000000 |}.

Definition mined_item (i : item) : option (msg * RegistryV2.call) :=
  match i with
  | Own c => Some (own_msg, c)
  | Foreign m c => if bool_decide (msg_sender m = account) then None else Some (m, c)
  end.

Definition own_call (i : item) : option RegistryV2.call :=
  match i with Own c => Some c | Foreign _ _ => None end.

#[local, refine] Instance node_ledger : Ledger node_world := {|
  operator := account;
  mined w := omap mined_item (nw_items w);
  outbox w := omap own_call (nw_items w)
|}.
Proof.
  intros w mc (i & Hin & Hi)%list_elem_of_omap Hs. apply list_elem_of_omap. exists i.
  split; [done|]. destruct i as [c|m c]; simpl in *; [by injection Hi as <-|].
  case_bool_decide; [done|]. injection Hi as <-. done.
Defined.

Definition decode_publish (args : list abi_value) : result RegistryV2.call :=
  match args with
  | [ABytes32 id; AUint16 v; ABytes32 h; ABytes32 inc; ABytes sig; ABytes32 fp] =>
      Ok {| RegistryV2.workloadId := id; RegistryV2.a_hashVersion := v;
            RegistryV2.a_configHash := h; RegistryV2.a_incarnation := inc;
            RegistryV2.a_signature := sig; RegistryV2.a_signerFingerprint := fp |}
  | _ => Err (errors_New "abi: cannot pack")
  end.

Definition receipt_for (c : RegistryV2.call) : Receipt :=
  {| r_Status := if RegistryV2.accepted account (own_msg, c) then 1 else 0;
     r_BlockNumber := 1; r_GasUsed := 21000 |}.

Definition node : Backend node_world RegistryV2.call := {|
  eth_Transact _ _ args w := (decode_publish args, w);
  eth_Call _ args w :=
    match args with
    | [ABytes32 id] => (Ok (RegistryV2.getLatest (registry w) id), w)
    | _ => (Err (errors_New "abi: cannot pack"), w)
    end;
  eth_SendTransaction c w :=
    (None, {| nw_items := nw_items w ++ [Own c]; nw_lost := nw_lost w |});
  eth_WaitMined c w :=
    match nw_lost w with
    | S n => (Err (errors_New "context deadline exceeded"),
              {| nw_items := nw_items w; nw_lost := n |})
    | O => if bool_decide (c ∈ outbox w) then (Ok (receipt_for c), w)
           else (Err (errors_New "not found"), w)
    end;
  eth_Hash _ := "0x1"
|}.

#[local] Instance node_honest : HonestNode (λ c, c) node.
Proof.
  split; simpl.
  - intros args w r w' [= <- <-]. split; [by split|]. intros c Hc.
    unfold decode_publish in Hc. repeat (case_match; try done). by injection Hc as <-.
  - intros id w r w' [= <- <-]. split; [by split|]. by intros out [= <-].
  - intros c w r w' [= _ <-]. simpl. split; [|intros d; rewrite omap_app; set_solver].
    rewrite omap_app. by apply prefix_app_r.
  - intros c w r w'. destruct (nw_lost w); [|by intros [= <- <-]; split; [split|]].
    case_bool_decide as Hin; intros [= <- <-]; (split; [by split|]); [|done].
    intros rc [= <-]. unfold receipt_for. simpl.
    destruct (RegistryV2.accepted _ _) eqn:Ha; [|done]. intros _. exists own_msg.
    split; [|done]. apply list_elem_of_omap in Hin as (i & Hi & Hc).
    apply list_elem_of_omap. exists i. split; [done|]. by destruct i; simplify_eq/=.
Qed.

Definition client : @Client node_world RegistryV2.call :=
  {| contract := node; auth := true; address := []; connected := true |}.

Abbreviation node_chain := (over_client client).

#[local] Instance node_chain_honest : HonestChain (λ c, c) node_chain.
Proof. by apply (over_client_honest client). Qed.

Lemma client_v2_refines_chain_witness : HonestChain (λ c, c) node_chain.
Proof. exact (client_v2_refines_chain client eq_refl). Defined.

Definition no_one (w : node_world) : list Desired * node_world := ([], w).

Definition node_signer : Signer node_world :=
  {| signer_SignDigest d w := (Ok (toy_sign toy_k d), w);
     signer_PublicKeyDER := toy_der toy_k |}.

#[local] Instance node_signer_attests : AttestSigner node_signer.
Proof.
  split; [done|]. intros k d w sig w' [= <-] [= <- _]. split; [done|].
  unfold VerifyConfigHashSignature. simpl. by apply bool_decide_eq_true_2.
Qed.

Lemma node_bystanders : bystanders no_one node_signer.
Proof. split; [intros d w r w' [= _ <-]|intros w ds w' [= _ <-]]; by split. Qed.

(** The chain starts with a call of another account on the workload's slot. *)
Definition foreign : item :=
  Foreign {| msg_sender := RegistryV2Facts.mallory; block_timestamp := 1 |}
    (RegistryV2Facts.sample_call 2 zero32).

Abbreviation NodeSt := (@St _ node_world RegistryV2.call (list bytes32)).

Definition boot (ch : ChainV2 node_world RegistryV2.call) (w : node_world) : NodeSt :=
  {| pub_ := {| p_queue := []; p_signer := node_signer; p_chain := ch;
                p_fingerprint := PublicKeyFingerprintBytes (toy_der toy_k);
                p_pub := toy_k; p_state := ∅; p_seq := 0 |};
     world := w; log := [] |}.

Definition genesis : node_world := {| nw_items := [foreign]; nw_lost := 1 |}.

(** A is asked for, and the worker runs. *)
Definition life (ch : ChainV2 node_world RegistryV2.call) (fuel : nat) (w : node_world) : NodeSt :=
  Start no_one fuel (Enqueue (revision Byte.xaa) (boot ch w)).2.

Lemma life_runs ch fuel w : rtc (step no_one) (boot ch w) (life ch fuel w).
Proof.
  eapply rtc_l; [apply (step_enqueue no_one (revision Byte.xaa))|apply worker_steps].
Qed.

(** Two processes, the second over what the first one left. *)
Lemma two_lives ch fuel fuel' (revive : node_world → node_world) :
  (∀ w, nw_items (revive w) = nw_items w) →
  lived ch [] no_one node_signer [log (life ch fuel genesis)]
    (life ch fuel' (revive (world (life ch fuel genesis)))).
Proof.
  intros Hr. apply (lifetime_restart _ _ _ _ _ _ [] _ (boot ch (revive (world (life ch fuel genesis))))).
  - apply (lifetime_boot _ _ _ _ _ _ (boot ch genesis)); [by split|reflexivity|apply life_runs].
  - by split.
  - unfold advances. simpl. by rewrite !Hr.
  - apply life_runs.
Qed.

(** The first process dies right after its transaction is out, in the middle of its turn. *)
Definition dead (w : node_world) : bool :=
  bool_decide (nw_lost w ≠ O) && negb (bool_decide (outbox w = [])).

Abbreviation dying := (until dead node_chain).

#[local] Instance dying_honest : HonestChain (λ c, c) dying.
Proof. apply until_honest, node_chain_honest. Qed.

Definition revive (w : node_world) : node_world := {| nw_items := nw_items w; nw_lost := 0 |}.

Definition died : NodeSt := life dying 1 genesis.

Definition settled_A : NodeSt := life dying 1 (revive (world died)).

Lemma settled_lived : lived dying [] no_one node_signer [log died] settled_A.
Proof. by apply (two_lives dying 1 1 revive). Qed.

(** A lost receipt is all the trouble there is. *)
Lemma node_trouble_ends :
  trouble_ends no_one node_signer node_chain nw_lost
    (λ c, RegistryV2.accepted account (own_msg, c) = true) (λ c w, c ∈ outbox w).
Proof.
  split; unfold failed, unsent, unsuccessful.
  - intros id w r w'. cbn [over_client chain_Latest]. unfold LatestAttestationV2.
    cbn [contract client node eth_Call]. rewrite decode_v2_record. intros [= <- <-]. simpl. lia.
  - intros d w r w' [= <- <-]. simpl. lia.
  - intros id k sig w r w' Hv Hs. simpl. unfold Client.Prepare. simpl.
    rewrite (proj2 (Z.eqb_neq _ 0)) by done. destruct (is_nil_spec sig); [done|].
    intros [= <- <-]. simpl. split; [lia|]. intros tx [= <-].
    unfold RegistryV2.accepted. simpl. rewrite (proj2 (Z.eqb_neq _ 0)) by done. by destruct sig.
  - intros c w r w' Hv. simpl. unfold Client.Send. simpl. intros [= <- <-]. simpl. split; [lia|].
    intros _. rewrite omap_app. set_solver.
  - intros c w r w'. simpl. unfold Client.Wait. simpl. destruct (nw_lost w) as [|n] eqn:El.
    + case_bool_decide as Hin; intros [= <- <-]; (split; [by rewrite El|]); intros Hv Hh; [|done].
      rewrite El, Hv. simpl. lia.
    + intros [= <- <-]. simpl. split; [lia|]. intros _ _. lia.
  - intros w ds w' [= <- <-]. split_and!; [simpl; lia|constructor|done].
Qed.

(** The second process finds the record of the first: nothing is sent twice. *)
Definition check_settled (past : list (list (@event RegistryV2.call))) (s : NodeSt) : bool :=
  match p_state (pub_ s) !! slot with
  | Some st => bool_decide (ws_confirmed st = Some (ws_key st))
  | None => false
  end && RegistryV2.exists_ (RegistryV2.read (registry (world s)) slot) &&
  bool_decide (RegistryV2.incarnation (RegistryV2.read (registry (world s)) slot) =
               Incarnation (envelopeFor (revision Byte.xaa))) &&
  forallb (λ l, n_enq l <? 2 ^ 64) (epochs past s) && (length (outbox (world s)) =? 1)%nat.

Lemma settled_check : check_settled [log died] settled_A = true.
Proof. vm_compute. reflexivity. Qed.

Lemma check_settled_facts past (s : NodeSt) :
  check_settled past s = true →
  (∃ st, p_state (pub_ s) !! slot = Some st ∧ ws_confirmed st = Some (ws_key st)) ∧
  RegistryV2.exists_ (RegistryV2.read (registry (world s)) slot) = true ∧
  RegistryV2.incarnation (RegistryV2.read (registry (world s)) slot) =
    Incarnation (envelopeFor (revision Byte.xaa)) ∧
  in_bounds past s.
Proof.
  unfold check_settled. rewrite !andb_true_iff.
  intros ((((Hc & Hx) & Hi%bool_decide_eq_true_1) & Hb) & _).
  split_and!; [|assumption..|].
  - destruct (p_state (pub_ s) !! slot) as [st|]; [|discriminate].
    exists st. apply bool_decide_eq_true_1 in Hc. by split.
  - apply Forall_forall. intros l Hl. rewrite forallb_forall in Hb.
    apply Z.ltb_lt, Hb. by apply list_elem_of_In.
Qed.

Lemma slot_of_A : WorkloadID (ds_Identity (revision Byte.xaa)) = Ok slot.
Proof. vm_compute. reflexivity. Qed.

Lemma record_was_requested_witness :
  ∃ d n, EvEnqueue d (Some n) ∈ whole [log died] settled_A ∧
    ds_ConfigHash d = RegistryV2.configHash (RegistryV2.read (registry (world settled_A)) slot) ∧
    ours toy_k d (RegistryV2.signature (RegistryV2.read (registry (world settled_A)) slot)).
Proof.
  destruct (check_settled_facts _ settled_A settled_check) as (_ & Hx & Hi & Hb).
  destruct (record_was_requested (H := toy_crypto) (λ c, c) dying [] no_one node_signer toy_k
    eq_refl node_bystanders [log died] settled_A slot (ds_Identity (revision Byte.xaa)) "u"
    settled_lived Hb Hx slot_of_A Hi) as (d & n & H1 & _ & H2 & _ & H3 & _).
  exists d, n. split_and!; assumption.
Defined.

Lemma confirmed_is_attested_witness :
  ∃ e, e ∈ RegistryV2.logs deployed (mined (world settled_A)) ∧ RegistryV2.ev_workloadId e = slot.
Proof.
  destruct (check_settled_facts _ settled_A settled_check) as ((st & Hst & Hc) & _ & _ & Hb).
  destruct (confirmed_is_attested (H := toy_crypto) (λ c, c) dying [] no_one node_signer toy_k
    eq_refl node_bystanders [log died] settled_A slot st (ws_key st) settled_lived
    (in_bounds_log _ _ Hb) Hst Hc) as (e & d & He & Hid & _).
  exists e. split; assumption.
Defined.

(** The receipt of the first process's transaction is lost, and the process killed; the
    second one has yet to run. *)
Definition unserved : NodeSt := life node_chain 0 (world (life node_chain 1 genesis)).

Lemma unserved_lived :
  lived node_chain [] no_one node_signer [log (life node_chain 1 genesis)] unserved.
Proof. by apply (two_lives node_chain 1 0 id). Qed.

Lemma unserved_versioned : all_versioned unserved.
Proof. by apply Enqueue_versioned; [|intros ? ? ?%not_elem_of_nil]. Qed.

Definition check_served (s : NodeSt) : bool :=
  match p_state (pub_ s) !! slot with Some _ => true | None => false end.

Lemma served_check : check_served (Start no_one 3 unserved) = true.
Proof. vm_compute. reflexivity. Qed.

Lemma desired_reaches_chain_witness :
  let s := Start no_one 3 unserved in
  ∃ st d sig, p_state (pub_ s) !! slot = Some st ∧
    on_chain (world s) (call_for slot (ws_key st) sig) ∧ ours toy_k d sig.
Proof.
  intros s. pose proof served_check as Hs. unfold check_served in Hs. fold s in Hs.
  destruct (p_state (pub_ s) !! slot) as [st|] eqn:Hst; [|discriminate].
  destruct (desired_reaches_chain (H := toy_crypto) (λ c, c) node_chain [] no_one node_signer
    toy_k eq_refl node_bystanders nw_lost _ _ 3 _ unserved node_trouble_ends unserved_lived)
    as [_ Hc].
  - vm_compute. reflexivity.
  - exact unserved_versioned.
  - vm_compute. lia.
  - destruct (Hc slot st Hst) as (d & sig & H1 & _ & H2). exists st, d, sig. split_and!; [reflexivity|assumption..].
Defined.
End SystemV2Witness.
