(* ===== verification/OnceV2.v ===== *)
(** * Each revision is attested once

    What the v2 publisher's discipline buys on chain.  [HonestReceipts] adds to
    [HonestChain] what a chain promises of transactions rather than of calls: each is
    included at most once, with a receipt that says whether it took effect.  Over such a
    chain the contract attests a revision at most once, whatever is lost, retried,
    reverted or superseded.  A node with account nonces keeps both interfaces, and shows
    a transaction that is sent for ever although its nonce is gone. *)

From S2P Require Import Prelude Bytes Sha256 Hash Identity Registry Verify Signer Client.
From S2P Require Import WorkQueue PublisherV2 PublisherV2Inv PublisherV2Turn PublisherV2World.
From S2P Require Import PublisherV2Live NodeV2 LifetimeV2 SystemV2.

Open Scope Z_scope.

(** ** The interface *)

(** The operator's transactions in blocks, with their receipt status, and those it
    handed to the node. *)
Class Receipts {W : Type} `{Ledger W} {Tx : Type} (tx_call : Tx → RegistryV2.call) := {
  included : W → list (Tx * bool);
  handed : W → list Tx;
  included_once w : NoDup (included w).*1;
  included_handed w tx b : (tx, b) ∈ included w → tx ∈ handed w;
  included_accepted w :
    (filter (λ mc, RegistryV2.accepted operator mc = true) (mined w)).*2 =
    tx_call <$> (filter (λ p, p.2 = true) (included w)).*1
}.
Arguments included {W _ Tx} tx_call {_} _.
Arguments handed {W _ Tx} tx_call {_} _.

(** Blocks are only ever added, and nothing is handed over. *)
Definition settles {W} `{Ledger W} {Tx} (tx_call : Tx → RegistryV2.call) `{!Receipts tx_call} (w w' : W) : Prop :=
  included tx_call w `prefix_of` included tx_call w' ∧ handed tx_call w' = handed tx_call w.

Class HonestReceipts {W} `{Ledger W} {Tx} (tx_call : Tx → RegistryV2.call) `{!Receipts tx_call}
    (chain : ChainV2 W Tx) := {
  hr_latest id w r w' : chain_Latest chain id w = (r, w') → settles tx_call w w';
  hr_prepare id k sig w r w' : chain_Prepare chain id k sig w = (r, w') → settles tx_call w w';
  hr_send tx w r w' : chain_Send chain tx w = (r, w') →
    included tx_call w `prefix_of` included tx_call w' ∧
    ∀ t, t ∈ handed tx_call w' → t ∈ handed tx_call w ∨ t = tx;
  hr_wait tx w r w' : chain_Wait chain tx w = (r, w') →
    settles tx_call w w' ∧ (r = Ok WaitReverted → (tx, false) ∈ included tx_call w')
}.

(** The same of a backend; the client passes it on. *)
Class ReceiptNode {W} `{Ledger W} {Tx} (tx_call : Tx → RegistryV2.call) `{!Receipts tx_call}
    (b : Backend W Tx) := {
  rn_transact args w r w' : eth_Transact b true "publish" args w = (r, w') → settles tx_call w w';
  rn_call id w r w' : eth_Call b "getLatest" [ABytes32 id] w = (r, w') → settles tx_call w w';
  rn_send tx w r w' : eth_SendTransaction b tx w = (r, w') →
    included tx_call w `prefix_of` included tx_call w' ∧
    ∀ t, t ∈ handed tx_call w' → t ∈ handed tx_call w ∨ t = tx;
  rn_wait tx w r w' : eth_WaitMined b tx w = (r, w') →
    settles tx_call w w' ∧
    ∀ rc, r = Ok rc → r_Status rc ≠ ReceiptStatusSuccessful → (tx, false) ∈ included tx_call w'
}.

Lemma settles_refl {W} `{Ledger W} {Tx} (tx_call : Tx → RegistryV2.call) `{!Receipts tx_call} (w : W) :
  settles tx_call w w.
Proof. by split. Qed.

Lemma over_client_receipts {W} `{Ledger W} {Tx} (tx_call : Tx → RegistryV2.call) `{!Receipts tx_call}
    b `{!ReceiptNode tx_call b} (c : @Client W Tx) :
  contract c = b → HonestReceipts tx_call (over_client c).
Proof.
  intros <-. split; simpl.
  - intros id w r w'. unfold LatestAttestationV2.
    destruct (eth_Call _ _ _ w) as [[out|e] w1] eqn:E; intros [= _ <-]; by apply rn_call in E.
  - intros id k sig w r w'. unfold Client.Prepare.
    destruct (negb (auth c)); [intros [= _ <-]; apply settles_refl|].
    destruct (_ =? 0); [intros [= _ <-]; apply settles_refl|].
    destruct (is_nil sig); [intros [= _ <-]; apply settles_refl|].
    destruct (eth_Transact _ _ _ _ _) as [[tx|e] w1] eqn:E; intros [= _ <-];
      by apply rn_transact in E.
  - intros tx w r w'. unfold Client.Send. simpl.
    destruct (negb (connected c)); [intros [= _ <-]; by split; [|left]|].
    destruct (eth_SendTransaction _ tx w) as [[e|] w1] eqn:E; intros [= _ <-]; by apply rn_send in E.
  - intros tx w r w'. unfold Client.Wait. simpl.
    destruct (eth_WaitMined _ tx w) as [[rc|e] w1] eqn:E; intros [= <- <-];
      apply rn_wait in E as [Hs Hr]; (split; [done|]); [|done]. simpl.
    destruct (Z.eqb_spec (r_Status rc) ReceiptStatusSuccessful); [done|].
    intros _. by apply (Hr rc).
Qed.

(** ** At most one attestation per revision *)

Section Once.
Context `{Crypto, MapRange} {W Tx Q : Type} `{!WorkQueue bytes32 Q} `{Ledger W}.
Context (tx_call : Tx → RegistryV2.call) `{!Receipts tx_call} (chain : ChainV2 W Tx).
Context `{!HonestChain tx_call chain, !HonestReceipts tx_call chain}.
Context (new_queue : Q) (concurrent : W → list Desired * W) (signer : Signer W).
Context (pk : PublicKey) `{!AttestSigner signer}.
Context (Hpk : ParsePublicKeyDER (signer_PublicKeyDER signer) = Ok pk).

Abbreviation event := (@event Tx).
Abbreviation St := (@St _ W Tx Q).

Record idle_bystanders : Prop := {
  ib_bystanders : bystanders concurrent signer;
  ib_sign d w r w' : signer_SignDigest signer d w = (r, w') → settles tx_call w w';
  ib_concurrent w ds w' : concurrent w = (ds, w') → settles tx_call w w'
}.

Context (Hby : idle_bystanders).

(** The first process starts on a chain that this account has not used yet. *)
Definition launched : list (list event) → St → Prop :=
  lifetime new_queue concurrent signer chain
    (λ w, outbox w = [] ∧ handed tx_call w = [])
    (λ w w', advances w w' ∧ settles tx_call w w').

Lemma launched_lived past s : launched past s → lived chain new_queue concurrent signer past s.
Proof. apply lifetime_weaken; [by intros w []|by intros w w' []]. Qed.

(** What the log says of the chain's transactions. *)
Definition receipts_log (w : W) (l : list event) : Prop :=
  (∀ tx, tx ∈ handed tx_call w → ∃ id q r, EvSend id q tx r ∈ l) ∧
  (∀ id q tx, EvWait id q tx (Ok WaitReverted) ∈ l → (tx, false) ∈ included tx_call w).

Lemma receipts_snoc w w' l e :
  included tx_call w `prefix_of` included tx_call w' →
  (∀ tx, tx ∈ handed tx_call w' →
     tx ∈ handed tx_call w ∨ ∃ id q r, e = EvSend id q tx r) →
  (∀ id q tx, e = EvWait id q tx (Ok WaitReverted) → (tx, false) ∈ included tx_call w') →
  receipts_log w l → receipts_log w' (l ++ [e]).
Proof.
  intros [k Hp] Hh Hw [H1' H2']. split.
  - intros tx [Hin|(id & q & r & ->)]%Hh; [|exists id, q, r; set_solver].
    destruct (H1' tx Hin) as (id & q & r & ?). exists id, q, r. set_solver.
  - intros id q tx [Hin|Hin%list_elem_of_singleton]%elem_of_app; [|by eapply Hw].
    rewrite Hp. apply elem_of_app. left. by eapply H2'.
Qed.

Lemma receipts_external w e w' ds w'' l :
  external signer chain w e w' → concurrent w' = (ds, w'') → receipts_log w l →
  receipts_log w'' (l ++ [e]).
Proof.
  intros He Hc. pose proof (ib_concurrent Hby _ _ _ Hc) as [Hp2 Ho2].
  destruct He as [id w r w' E|id d w r w' E|id q k sig w r w' E|id q tx w r w' E|id q tx w r w' E].
  - apply hr_latest in E as [Hp1 Ho1].
    apply receipts_snoc; [by etrans|rewrite Ho2, Ho1; auto|done].
  - apply (ib_sign Hby) in E as [Hp1 Ho1].
    apply receipts_snoc; [by etrans|rewrite Ho2, Ho1; auto|done].
  - apply hr_prepare in E as [Hp1 Ho1].
    apply receipts_snoc; [by etrans|rewrite Ho2, Ho1; auto|done].
  - apply hr_send in E as [Hp1 Ho1]. apply receipts_snoc; [by etrans| |done].
    rewrite Ho2. intros t [?| ->]%Ho1; [by left|right]. by exists id, q, r.
  - apply hr_wait in E as [[Hp1 Ho1] Hr].
    apply receipts_snoc; [by etrans|rewrite Ho2, Ho1; auto|].
    intros id' q' tx' [= <- <- <- ->]. destruct Hp2 as [k ->]. apply elem_of_app. left. by apply Hr.
Qed.

Lemma receipts_settled w w' l : settles tx_call w w' → receipts_log w l → receipts_log w' l.
Proof.
  intros [[k Hp] Hh] [H1' H2']. split; [by rewrite Hh|].
  intros id q tx Hin%H2'. rewrite Hp. apply elem_of_app. by left.
Qed.

Lemma launched_receipts past s : launched past s → receipts_log (world s) (whole past s).
Proof.
  intros Hl. eapply lifetime_holds; [..|exact Hl].
  - intros w [_ Hh]. split; [rewrite Hh|]; by intros * ?%not_elem_of_nil.
  - intros w w' l [_ Hs]. by apply receipts_settled.
  - intros d n w l. by apply receipts_snoc; [|auto|].
  - intros *. apply receipts_external.
Qed.

(** A transaction that took effect belongs to a revision that one of the processes was
    asked for. *)
Lemma effective_revision past s tx :
  launched past s → in_bounds past s → (tx, true) ∈ included tx_call (world s) →
  ∃ i l id q d sig, epochs past s !! i = Some l ∧ live l id q tx ∧
    started signer l id q d (key_of signer d) ∧ tx_call tx = call_for id (key_of signer d) sig.
Proof.
  intros Hr Hb Hin. destruct (launched_receipts past s Hr) as [Hsent Hrev].
  pose proof (launched_lived past s Hr) as Hf.
  destruct (Hsent tx (included_handed _ _ _ Hin)) as (id & q & r & Hs).
  apply whole_in_epoch in Hs as (l & Hl & Hs).
  destruct (epoch_log chain new_queue concurrent signer pk Hpk past s l Hf Hb Hl) as (n & HL).
  destruct (lo_send _ _ _ _ HL _ _ _ _ Hs) as (k & sig & Hp).
  destruct (lo_prepare _ _ _ _ HL _ _ _ _ _ Hp) as (d & Hd & _).
  pose proof Hd as (_ & _ & ->). apply list_elem_of_lookup in Hl as Hi. destruct Hi as [i Hi].
  exists i, l, id, q, d, sig. split_and!; [done| |done|].
  - split; [by eauto|]. intros Hw. eapply epoch_in_whole, Hrev in Hw; [|done].
    pose proof (included_once (world s)) as Hnd.
    by apply (NoDup_fst_inj _ _ _ _ Hnd Hin) in Hw.
  - destruct (lived_truthful tx_call chain new_queue concurrent signer pk Hpk (ib_bystanders Hby)
      past s Hf)
      as [Ht _].
    rewrite Forall_forall in Ht. apply (Ht _ (epoch_in_whole _ _ _ _ Hl Hp)).
Qed.

(** The requests that started a revision [k] of the workload in slot [id]. *)
Definition starts (id : bytes32) (k : RevisionKey) (e : event) : option Z :=
  match e with
  | EvEnqueue d (Some n) =>
      match WorkloadID (ds_Identity d) with
      | Ok i => if bool_decide (i = id ∧ key_of signer d = k) then Some n else None
      | Err _ => None
      end
  | _ => None
  end.

Definition requests (l : list event) (id : bytes32) (k : RevisionKey) : list Z :=
  omap (starts id k) l.

Lemma started_requests l id q d k :
  started signer l id q d k → q ∈ requests l id k.
Proof.
  intros (Hin & Hid & ->). apply list_elem_of_omap. exists (EvEnqueue d (Some q)).
  split; [done|]. simpl. by rewrite Hid, bool_decide_true.
Qed.

(** The contract's events for that revision. *)
Definition attestations (w : W) (id : bytes32) (k : RevisionKey) :
    list RegistryV2.AttestationPublished :=
  filter (λ e, RegistryV2.ev_workloadId e = id ∧ oc_Key (view (RegistryV2.record_from e)) = k)
    (RegistryV2.logs deployed (mined w)).

Definition names_revision (id : bytes32) (k : RevisionKey) (c : RegistryV2.call) : Prop :=
  c = call_for id k (RegistryV2.a_signature c).

#[local] Instance names_revision_dec id k c : Decision (names_revision id k c).
Proof.
  destruct (decide (RegistryV2.workloadId c = id ∧
    k = {| rk_Version := RegistryV2.a_hashVersion c; rk_ConfigHash := RegistryV2.a_configHash c;
           rk_Incarnation := RegistryV2.a_incarnation c;
           rk_Fingerprint := RegistryV2.a_signerFingerprint c |})) as [[<- ->]|Hn].
  - left. by destruct c.
  - right. intros E. apply Hn. unfold names_revision, call_for in E. destruct c, k.
    simpl in *. by simplify_eq.
Defined.

(** Each is a transaction that took effect. *)
Lemma attestations_effective w id k :
  length (attestations w id k) =
  length (filter (λ tx, names_revision id k (tx_call tx))
    (filter (λ p, p.2 = true) (included tx_call w)).*1).
Proof.
  unfold attestations. rewrite RegistryV2Facts.logs_accepted.
  rewrite <- (length_fmap tx_call), <- filter_fmap, <- (included_accepted w), !filter_fmap.
  rewrite !length_fmap. f_equal. apply list_filter_iff.
  intros [m c]. unfold names_revision. destruct c, k. simpl.
  split; [by intros [-> [= -> -> -> ->]]|by intros [= -> -> -> -> ->]].
Qed.

(** C9: the contract attests a revision at most once: over a chain that includes each
    transaction at most once, the contract's log never holds more events for a workload
    and revision key than there were requests that started that revision, counted over
    all processes the operator ran, whatever sends, receipts and replies were lost,
    whatever reverted, was retried or superseded, in whichever order blocks came, and
    wherever a process died. *)
Theorem attested_once past s id k :
  launched past s → in_bounds past s →
  (length (attestations (world s) id k) ≤ length (requests (whole past s) id k))%nat.
Proof.
  intros Hr Hb. rewrite attestations_effective. unfold requests, whole.
  rewrite omap_concat, <- length_indexed.
  apply (length_le_inj (λ tx iq, ∃ l, epochs past s !! iq.1 = Some l ∧ live l id iq.2 tx)).
  - apply NoDup_filter, NoDup_filter_fst, included_once.
  - intros tx [Hn ([tx' b] & -> & [Hb' Hin]%list_elem_of_filter)%list_elem_of_fmap]%list_elem_of_filter.
    simpl in *. subst b.
    destruct (effective_revision past s tx' Hr Hb Hin) as (i & l & id' & q & d & sig & Hi & Hl & Hs & Hc).
    unfold names_revision in Hn. rewrite Hc in Hn. unfold call_for in Hn. simpl in Hn.
    injection Hn as -> E1 E2 E3 E4. exists (i, q). split; [|by exists l].
    apply (elem_of_indexed _ _ (requests l id k)); [by rewrite list_lookup_fmap, Hi|].
    replace k with (key_of signer d) by (destruct k; unfold key_of; simpl in *; congruence).
    by eapply started_requests.
  - intros tx tx' [i q] (l & Hi & Hl) (l' & Hi' & Hl'). simpl in *. simplify_eq.
    destruct (epoch_log chain new_queue concurrent signer pk Hpk past s l (launched_lived past s Hr) Hb)
      as (n & HL); [by eapply list_elem_of_lookup_2|].
    destruct (lo_once _ _ _ _ HL id q) as [o Ho]. apply Ho in Hl, Hl'. congruence.
Qed.
End Once.

(** ** A node with nonces *)

Module NonceNode.
Import ToyCrypto MapOrder ListQueue PublisherToy.
Import SystemV2Witness.

(** The chain's calls, the operator's in the order of their nonces; how many of the next
    sends do not get through. *)
Record nonce_world := { nn_items : list item; nn_lost : nat }.

Definition own_calls (w : nonce_world) : list RegistryV2.call := omap own_call (nn_items w).

(** A transaction is its nonce and its call. *)
Definition own_txs (w : nonce_world) : list (nat * RegistryV2.call) :=
  zip (seq 0 (length (own_calls w))) (own_calls w).

Definition takes_effect (c : RegistryV2.call) : bool := RegistryV2.accepted account (own_msg, c).

#[export, refine] Instance nonce_ledger : Ledger nonce_world := {|
  operator := account;
  mined w := omap mined_item (nn_items w);
  outbox w := own_calls w
|}.
Proof.
  intros w mc (i & Hin & Hi)%list_elem_of_omap Hs. apply list_elem_of_omap. exists i.
  split; [done|]. destruct i as [c|m c]; simpl in *; [by injection Hi as <-|].
  case_bool_decide; [done|]. injection Hi as <-. done.
Defined.

Lemma own_txs_fst w : (own_txs w).*1 = seq 0 (length (own_calls w)).
Proof. apply fst_zip. by rewrite length_seq. Qed.

Lemma own_txs_snd w : (own_txs w).*2 = own_calls w.
Proof. apply snd_zip. by rewrite length_seq. Qed.

Lemma filter_mined items :
  (filter (λ mc, RegistryV2.accepted account mc = true) (omap mined_item items)).*2 =
  filter (λ c, takes_effect c = true) (omap own_call items).
Proof.
  induction items as [|[c|m c] items IH]; [done|..]; cbn [omap list_omap mined_item own_call] in *.
  - rewrite !filter_cons. unfold takes_effect in *. simpl. destruct (decide _); [|done].
    rewrite fmap_cons. by rewrite IH.
  - case_bool_decide as Hm; [done|]. rewrite filter_cons, decide_False; [done|].
    unfold RegistryV2.accepted. simpl. by rewrite bool_decide_false.
Qed.

#[export, refine] Instance nonce_receipts : Receipts (W := nonce_world) (@snd nat RegistryV2.call) := {|
  included w := (λ tx, (tx, takes_effect tx.2)) <$> own_txs w;
  handed w := own_txs w
|}.
Proof.
  - intros w. rewrite <- list_fmap_compose. apply (NoDup_fmap_1 fst).
    rewrite <- list_fmap_compose. change (NoDup (own_txs w).*1). rewrite own_txs_fst.
    apply NoDup_seq.
  - by intros w tx b (t & [= <- _] & Hin)%list_elem_of_fmap.
  - intros w. cbn [operator mined nonce_ledger]. rewrite filter_mined, filter_fmap.
    change (omap own_call (nn_items w)) with (own_calls w). rewrite <- own_txs_snd at 1.
    by rewrite filter_fmap, <- !list_fmap_compose.
Defined.

Definition no_lost (w : nonce_world) : nonce_world := {| nn_items := nn_items w; nn_lost := pred (nn_lost w) |}.

(** The pending nonce is the next free one; a transaction that does not get through
    takes none, and one that comes too late is refused. *)
Definition node : Backend nonce_world (nat * RegistryV2.call) := {|
  eth_Transact _ _ args w := (c <-? decode_publish args;; Ok (length (own_calls w), c), w);
  eth_Call _ args w :=
    match args with
    | [ABytes32 id] => (Ok (RegistryV2.getLatest (registry w) id), w)
    | _ => (Err (errors_New "abi: cannot pack"), w)
    end;
  eth_SendTransaction tx w :=
    match nn_lost w with
    | S _ => (Some (errors_New "connection refused"), no_lost w)
    | O =>
        if bool_decide (tx.1 = length (own_calls w))
        then (None, {| nn_items := nn_items w ++ [Own tx.2]; nn_lost := 0 |})
        else (Some (errors_New "nonce too low"), w)
    end;
  eth_WaitMined tx w :=
    if bool_decide (tx ∈ own_txs w)
    then (Ok {| r_Status := if takes_effect tx.2 then 1 else 0; r_BlockNumber := 1;
                r_GasUsed := 21000 |}, w)
    else (Err (errors_New "context deadline exceeded"), w);
  eth_Hash _ := "0x1"
|}.

Lemma own_txs_snoc items c n :
  own_txs {| nn_items := items ++ [Own c]; nn_lost := n |} =
  own_txs {| nn_items := items; nn_lost := n |} ++ [(length (omap own_call items), c)].
Proof.
  unfold own_txs, own_calls. simpl. rewrite omap_app, length_app. simpl.
  rewrite Nat.add_1_r, seq_S, zip_with_app by (by rewrite length_seq). done.
Qed.

#[export] Instance node_honest : HonestNode snd node.
Proof.
  split; simpl.
  - intros args w r w' [= <- <-]. split; [by split|]. intros tx Hc.
    destruct (decode_publish args) as [c|] eqn:E; [|done]. injection Hc as <-.
    unfold decode_publish in E. repeat (case_match; try done). by injection E as <-.
  - intros id w r w' [= <- <-]. split; [by split|]. by intros out [= <-].
  - intros tx w r w'. destruct (nn_lost w); [case_bool_decide|]; intros [= _ <-]; simpl;
      [|split; [done|by left]..].
    rewrite omap_app. split; [by apply prefix_app_r|]. unfold own_calls. simpl. intros d.
    rewrite omap_app. set_solver.
  - intros tx w r w'. case_bool_decide as Hin; intros [= <- <-]; (split; [by split|]); [|done].
    intros rc [= <-]. simpl. destruct (takes_effect tx.2) eqn:Ha; [|done]. intros _.
    exists own_msg. split; [|done]. apply (list_elem_of_fmap_2 snd) in Hin as Hin'.
    change (tx.2 ∈ (own_txs w).*2) in Hin'. rewrite own_txs_snd in Hin'.
    apply list_elem_of_omap in Hin' as (i & Hi & Hc). apply list_elem_of_omap. exists i.
    split; [done|]. destruct i; simplify_eq/=. congruence.
Qed.

#[export] Instance node_receipts : ReceiptNode snd node.
Proof.
  split; simpl.
  - by intros args w r w' [= _ <-].
  - by intros id w r w' [= _ <-].
  - intros tx w r w'. destruct w as [items lost]. simpl. destruct lost; [|intros [= _ <-]; by split; [|left]].
    case_bool_decide as Hn; intros [= _ <-]; [|by split; [|left]].
    rewrite own_txs_snoc, fmap_app. split; [by apply prefix_app_r|].
    intros t [?|Ht%list_elem_of_singleton]%elem_of_app; [by left|right].
    destruct tx as [n c]. simpl in Hn. subst n. by rewrite Ht.
  - intros tx w r w'. case_bool_decide as Hin; intros [= <- <-]; (split; [by split|]); [|done].
    intros rc [= <-] Hs. simpl in *. apply list_elem_of_fmap. exists tx. split; [|done].
    by destruct (takes_effect tx.2).
Qed.
End NonceNode.

Module OnceV2Witness.
Import ToyCrypto MapOrder ListQueue PublisherToy NonceNode.
Import SystemV2Witness (account, foreign).

Definition client : @Client nonce_world (nat * RegistryV2.call) :=
  {| contract := node; auth := true; address := []; connected := true |}.

Abbreviation chain := (over_client client).

#[export] Instance chain_honest : HonestChain snd chain.
Proof. by apply (over_client_honest client). Qed.

#[export] Instance chain_receipts : HonestReceipts snd chain.
Proof. by apply (over_client_receipts snd node client). Qed.

Definition quiet (w : nonce_world) : list Desired * nonce_world := ([], w).

Definition own_signer : Signer nonce_world :=
  {| signer_SignDigest d w := (Ok (toy_sign toy_k d), w);
     signer_PublicKeyDER := toy_der toy_k |}.

#[export] Instance own_signer_attests : AttestSigner own_signer.
Proof.
  split; [done|]. intros k d w sig w' [= <-] [= <- _]. split; [done|].
  unfold VerifyConfigHashSignature. simpl. by apply bool_decide_eq_true_2.
Qed.

Lemma all_quiet : idle_bystanders snd quiet own_signer.
Proof. split; [split|..]; [intros d w r w' [= _ <-]|intros w ds w' [= _ <-]|
  intros d w r w' [= _ <-]|intros w ds w' [= _ <-]]; by split. Qed.

Abbreviation NonceSt := (@St _ nonce_world (nat * RegistryV2.call) (list bytes32)).

Definition boot (w : nonce_world) : NonceSt :=
  {| pub_ := {| p_queue := []; p_signer := own_signer; p_chain := chain;
                p_fingerprint := PublicKeyFingerprintBytes (toy_der toy_k);
                p_pub := toy_k; p_state := ∅; p_seq := 0 |};
     world := w; log := [] |}.

Definition genesis (lost : nat) : nonce_world := {| nn_items := [foreign]; nn_lost := lost |}.

(** Requests, then turns of the worker. *)
Definition life (ds : list Desired) (fuel : nat) (w : nonce_world) : NonceSt :=
  Start quiet fuel (enqueue_all ds (boot w)).

Definition run (ds : list Desired) (fuel lost : nat) : NonceSt := life ds fuel (genesis lost).

Lemma nonce_life_runs ds fuel w : rtc (step quiet) (boot w) (life ds fuel w).
Proof.
  etrans; [|apply worker_steps].
  unfold enqueue_all. generalize (boot w). induction ds as [|d ds IH]; intros s; [done|].
  eapply rtc_l; [apply (step_enqueue quiet d)|apply IH].
Qed.

Lemma run_launched ds fuel lost : launched snd chain [] quiet own_signer [] (run ds fuel lost).
Proof.
  apply (lifetime_boot _ _ _ _ _ _ (boot (genesis lost))); [by split|by split|apply nonce_life_runs].
Qed.

Lemma life_launched past s ds fuel :
  launched snd chain [] quiet own_signer past s →
  launched snd chain [] quiet own_signer (past ++ [log s]) (life ds fuel (world s)).
Proof.
  intros Hl. apply (lifetime_restart _ _ _ _ _ _ past s (boot (world s))); [done|by split| |apply nonce_life_runs].
  split; [apply advances_refl|apply settles_refl].
Qed.

(** The first send is lost and the process dies; the next one is asked again, sends what
    is the same transaction, and dies; a third one finds the record. *)
Definition life1 : NonceSt := run [revision Byte.xaa] 1 1.
Definition life2 : NonceSt := life [revision Byte.xaa] 1 (world life1).
Definition life3 : NonceSt := life [revision Byte.xaa] 1 (world life2).

Definition lives : list (list (@event (nat * RegistryV2.call))) := [log life1; log life2].

Lemma lives_launched : launched snd chain [] quiet own_signer lives life3.
Proof.
  apply (life_launched [log life1] life2), (life_launched [] life1), run_launched.
Qed.

Definition key_A : RevisionKey := key_of own_signer (revision Byte.xaa).

Definition attested_check (past : list (list (@event (nat * RegistryV2.call)))) (s : NonceSt) : bool :=
  forallb (λ l, n_enq l <? 2 ^ 64) (epochs past s) &&
  (length (attestations (world s) slot key_A) =? 1)%nat &&
  (length (requests own_signer (whole past s) slot key_A) =? 3)%nat &&
  (length (own_calls (world s)) =? 1)%nat.

Lemma lives_check : attested_check lives life3 = true.
Proof. vm_compute. reflexivity. Qed.

Lemma attested_check_facts past (s : NonceSt) :
  attested_check past s = true →
  in_bounds past s ∧ length (attestations (world s) slot key_A) = 1%nat.
Proof.
  unfold attested_check. rewrite !andb_true_iff. intros (((H1 & H2%Nat.eqb_eq) & _) & _).
  split; [|done]. apply Forall_forall. intros l Hl. rewrite forallb_forall in H1.
  apply Z.ltb_lt, H1. by apply list_elem_of_In.
Qed.

Lemma attested_once_witness :
  length (attestations (world life3) slot key_A) = 1%nat ∧
  (length (attestations (world life3) slot key_A) ≤
   length (requests own_signer (whole lives life3) slot key_A))%nat.
Proof.
  destruct (attested_check_facts _ _ lives_check) as (Hb & H1). split; [exact H1|].
  exact (attested_once (H := toy_crypto) snd chain [] quiet own_signer toy_k eq_refl all_quiet
    lives life3 slot key_A lives_launched Hb).
Defined.
End OnceV2Witness.
