(* ===== verification/NonceV2.v ===== *)
(** * A transaction whose nonce is gone

    [prepareOnce] keeps a prepared transaction until it is mined or reverted.  When
    neither can happen any more, because a send was lost and the account's next
    transaction took its nonce, the worker sends it for ever: the revision is never
    published, and no new attempt is made.  Stated for every chain on which a
    transaction is doomed, and reached on the nonce node of [OnceV2] by losing one send. *)

From S2P Require Import Prelude Bytes Sha256 Hash Identity Registry Verify Signer Client.
From S2P Require Import WorkQueue PublisherV2 PublisherV2Inv PublisherV2Turn PublisherV2World.
From S2P Require Import PublisherV2Live NodeV2 LifetimeV2 SystemV2 OnceV2.

Open Scope Z_scope.

Section Doomed.
Context `{Crypto, MapRange} {W Tx Q : Type} `{!WorkQueue bytes32 Q}.
Context (concurrent : W → list Desired * W) (chain : ChainV2 W Tx).

Abbreviation St := (@St _ W Tx Q).
Abbreviation workloadState := (@workloadState Tx).

(** In a [dead] world the transaction has no receipt, the contract does not hold the
    revision, and asking, sending and waiting change neither; nobody enqueues. *)
Record doomed (id : bytes32) (k : RevisionKey) (tx : Tx) (dead : W → Prop) : Prop := {
  dm_latest w r w' : dead w → chain_Latest chain id w = (r, w') →
    dead w' ∧ ∀ oc, r = Ok oc → oc_Exists oc = false ∨ oc_Key oc ≠ k;
  dm_send w r w' : dead w → chain_Send chain tx w = (r, w') → dead w';
  dm_wait w r w' : dead w → chain_Wait chain tx w = (r, w') →
    dead w' ∧ r ≠ Ok WaitMinedSuccess ∧ r ≠ Ok WaitReverted;
  dm_quiet w ds w' : dead w → concurrent w = (ds, w') → ds = [] ∧ dead w'
}.

Context (id : bytes32) (st : workloadState) (tx : Tx) (dead : W → Prop).
Context (Hdoom : doomed id (ws_key st) tx dead).

(** The workload is stuck on its attempt, and nothing else is to be done. *)
Record stuck (s : St) : Prop := {
  sk_chain : p_chain (pub_ s) = chain;
  sk_entry : p_state (pub_ s) !! id = Some st;
  sk_seq : ws_seq st ≠ 0;
  sk_prepared : ws_prepared st = Some tx;
  sk_unconfirmed : ws_confirmed st ≠ Some (ws_key st);
  sk_others i st' : i ≠ id → p_state (pub_ s) !! i = Some st' → ws_confirmed st' = Some (ws_key st');
  sk_dead : dead (world s)
}.

(** A call that neither helps nor kills. *)
Lemma call_stuck {A} (f : W → A * W) ev (s s' : St) a :
  call concurrent f ev s = (a, s') → (∀ w, f (world s) = (a, w) → dead w) → stuck s →
  stuck s' ∧ pub_ s' = pub_ s ∧ ∃ w, f (world s) = (a, w).
Proof.
  unfold call. destruct (f (world s)) as [a' w] eqn:E. destruct (concurrent w) as [ds w'] eqn:Ec.
  intros [= -> <-] Hd [S1 S2 S3 S4 S5 S6 S7].
  destruct (dm_quiet _ _ _ _ Hdoom _ _ _ (Hd w eq_refl) Ec) as [-> Hd'].
  split_and!; [by split|done|by eexists].
Qed.

Lemma Latest_stuck (s s' : St) r :
  Latest concurrent id s = (r, s') → stuck s →
  stuck s' ∧ pub_ s' = pub_ s ∧ ∀ oc, r = Ok oc → matches (pub_ s') st oc = false.
Proof.
  intros E Hs. unfold Latest in E. rewrite (sk_chain _ Hs) in E.
  apply call_stuck in E as (Hs' & Hp & w & Ew); [|intros w Ew; by eapply dm_latest, Ew; [|apply Hs]|done].
  split_and!; [done..|]. intros oc Hoc.
  destruct (dm_latest _ _ _ _ Hdoom _ _ _ (sk_dead _ Hs) Ew) as [_ Hr].
  unfold matches. destruct (Hr oc Hoc) as [->|Hk]; [done|].
  rewrite (bool_decide_false _ Hk). by rewrite andb_false_r.
Qed.

Lemma process_stuck (s s' : St) r :
  process concurrent id s = (r, s') → stuck s → stuck s' ∧ pub_ s' = pub_ s ∧ is_ok r = false.
Proof.
  unfold process, snapshot. intros E Hs.
  rewrite (sk_entry _ Hs), (proj2 (Z.eqb_neq _ _) (sk_seq _ Hs)) in E.
  rewrite bool_decide_false in E by apply Hs.
  destruct (Latest concurrent id s) as [r1 s1] eqn:E1.
  apply Latest_stuck in E1 as (Hs1 & Hp1 & Hm1); [|done].
  destruct r1 as [oc|]; [rewrite (Hm1 oc eq_refl) in E|by simplify_eq].
  unfold prepareOnce in E. rewrite (sk_prepared _ Hs) in E. unfold send_and_wait in E.
  destruct (Send concurrent id _ tx s1) as [r2 s2] eqn:E2. unfold Send in E2.
  rewrite (sk_chain _ Hs1) in E2.
  apply call_stuck in E2 as (Hs2 & Hp2 & _); [|intros w Ew; by eapply dm_send, Ew; [|apply Hs1]|done].
  destruct r2 as [o2|]; [|simplify_eq; split_and!; [done|congruence|done]].
  destruct (Wait concurrent id _ tx s2) as [r3 s3] eqn:E3. unfold Wait in E3.
  rewrite (sk_chain _ Hs2) in E3.
  apply call_stuck in E3 as (Hs3 & Hp3 & w & Ew);
    [|intros w Ew; by eapply dm_wait, Ew; [|apply Hs2]|done].
  destruct (dm_wait _ _ _ _ Hdoom _ _ _ (sk_dead _ Hs2) Ew) as (_ & Hn1 & Hn2).
  destruct r3 as [o3|]; [|simplify_eq; split_and!; [done|congruence|done]].
  destruct o3; [|done..]. destruct (Latest concurrent id s3) as [r4 s4] eqn:E4.
  apply Latest_stuck in E4 as (Hs4 & Hp4 & Hm4); [|done].
  destruct r4 as [oc'|]; [rewrite (Hm4 oc' eq_refl) in E|];
    simplify_eq; (split_and!; [done|congruence|done]).
Qed.

Lemma stuck_queue f (s : St) : stuck s → stuck (with_pub (set_queue f) s).
Proof. intros [S1 S2 S3 S4 S5 S6 S7]. by split. Qed.

(** Every other workload is done, so its turn does nothing. *)
Lemma process_other i (s : St) :
  i ≠ id → stuck s → process concurrent i s = (Ok false, s).
Proof.
  intros Hi Hs. unfold process, snapshot. destruct (p_state (pub_ s) !! i) as [st'|] eqn:E; [|done].
  destruct (ws_seq st' =? 0); [done|]. by rewrite bool_decide_true by by eapply sk_others.
Qed.

Lemma processNext_stuck (s s' : St) :
  processNext concurrent s = Some s' → stuck s → id ∈ todo (p_queue (pub_ s)) →
  stuck s' ∧ p_state (pub_ s') = p_state (pub_ s) ∧ id ∈ todo (p_queue (pub_ s')).
Proof.
  unfold processNext. destruct (q_Get _) as [[i q]|] eqn:Eq; [|done].
  apply todo_Get in Eq as Hq. intros E Hs Hin.
  pose proof (stuck_queue (λ _, q) s Hs) as Hs0.
  destruct (decide (i = id)) as [->|Hne].
  - destruct (process concurrent id _) as [r s1] eqn:Ep.
    destruct (process_stuck _ _ _ Ep Hs0) as (Hs1 & Hp1 & Hr). destruct r; [done|].
    injection E as <-. split_and!; [by apply stuck_queue, stuck_queue|simpl; by rewrite Hp1|].
    simpl. rewrite todo_Done, todo_AddRateLimited. set_solver.
  - rewrite (process_other i) in E by done. injection E as <-.
    split_and!; [by apply stuck_queue, stuck_queue|done|].
    simpl. rewrite todo_Done, todo_Forget. simpl. rewrite Hq in Hin. set_solver.
Qed.

(** C36: a doomed attempt is kept for ever: when a workload's stored transaction can no
    longer be mined, as after a lost send whose nonce another transaction took, while
    every other workload is confirmed and no new revision is asked for, no number of
    turns changes the state: the revision stays unconfirmed with the same transaction
    stored, and the workload stays in the queue, so the worker never stops trying. *)
Theorem doomed_attempt_starves fuel s :
  stuck s → id ∈ todo (p_queue (pub_ s)) →
  let s' := Start concurrent fuel s in
  p_state (pub_ s') = p_state (pub_ s) ∧ p_state (pub_ s') !! id = Some st ∧
  ws_confirmed st ≠ Some (ws_key st) ∧ id ∈ todo (p_queue (pub_ s')) ∧
  is_Some (processNext concurrent s').
Proof.
  intros Hs Hin s'. subst s'. unfold Start.
  cut (stuck (loop (processNext concurrent) fuel s) ∧
    p_state (pub_ (loop (processNext concurrent) fuel s)) = p_state (pub_ s) ∧
    id ∈ todo (p_queue (pub_ (loop (processNext concurrent) fuel s)))).
  { generalize (loop (processNext concurrent) fuel s). intros s' (Hs' & Hp & Hq).
    split_and!; [done|by apply Hs'|apply Hs|done|]. unfold processNext. destruct (q_Get _) as [[i q]|] eqn:Eq.
    - destruct (process _ _ _). by eexists.
    - apply todo_Get_None in Eq. rewrite Eq in Hq. set_solver. }
  revert s Hs Hin. induction fuel as [|fuel IH]; intros s Hs Hin; simpl; [done|].
  destruct (processNext concurrent s) as [s1|] eqn:E; [|done].
  destruct (processNext_stuck _ _ E Hs Hin) as (Hs1 & <- & Hin1). by apply IH.
Qed.
End Doomed.

(** ** One lost send *)

Module NonceV2Witness.
Import ToyCrypto MapOrder ListQueue PublisherToy NonceNode OnceV2Witness.

(** A is asked for, then another workload; the send of A's transaction is lost. *)
Definition A : Desired := revision Byte.xaa.

Definition other : Desired :=
  {| ds_Identity := {| ClusterID := "c"; APIVersion := "apps/v1"; Kind := "Deployment";
                       Namespace := "payments"; Name := "web" |};
     ds_Version := 2; ds_ConfigHash := mk32 (replicate 32 Byte.xbb); ds_UID := "v";
     ds_Label := "payments/web" |}.

(** After one turn each, the other's transaction has taken A's nonce. *)
Definition taken : NonceSt := run [A; other] 2 1.

Definition entry (s : NonceSt) : @workloadState (nat * RegistryV2.call) :=
  default {| ws_desired := A; ws_seq := 0; ws_key := key_of own_signer A; ws_signature := None;
             ws_prepared := None; ws_confirmed := None |} (p_state (pub_ s) !! slot).

Definition attempt_of (s : NonceSt) : nat * RegistryV2.call :=
  default (O, call_for slot (key_of own_signer A) []) (ws_prepared (entry s)).

(** The nonce was used by another call, the contract has nothing for A, and every send
    arrives from now on. *)
Definition nonce_used (tx : nat * RegistryV2.call) (w : nonce_world) : bool :=
  bool_decide (nn_lost w = O) && (tx.1 <? length (own_calls w))%nat &&
  negb (bool_decide (tx ∈ own_txs w)) && negb (RegistryV2.exists_ (RegistryV2.read (registry w) slot)).

Lemma nonce_used_dooms k tx : doomed quiet chain slot k tx (λ w, nonce_used tx w = true).
Proof.
  split.
  - intros w r w' Hd. cbn [over_client chain_Latest]. unfold LatestAttestationV2.
    cbn [contract client node eth_Call]. rewrite decode_v2_record. intros [= <- <-].
    split; [done|]. intros oc [= <-]. left.
    by apply andb_prop in Hd as [_ Hx%negb_true_iff].
  - intros w r w' Hd. simpl. unfold Client.Send. simpl.
    pose proof Hd as [[[Hl%bool_decide_eq_true_1 Hn%Nat.ltb_lt]%andb_prop _]%andb_prop _]%andb_prop.
    rewrite Hl, bool_decide_false by lia. by intros [= _ <-].
  - intros w r w' Hd. simpl. unfold Client.Wait. simpl.
    pose proof Hd as [[_ Hn%negb_true_iff]%andb_prop _]%andb_prop. rewrite Hn.
    by intros [= <- <-].
  - by intros w ds w' Hd [= <- <-].
Qed.

(** What the run leads to. *)
Definition stuck_check (s : NonceSt) : bool :=
  let st := entry s in
  bool_decide (ws_seq st ≠ 0) && bool_decide (ws_prepared st = Some (attempt_of s)) &&
  bool_decide (ws_confirmed st ≠ Some (ws_key st)) &&
  bool_decide (slot ∈ p_queue (pub_ s)) &&
  match p_state (pub_ s) !! slot with Some _ => true | None => false end &&
  forallb (λ p, bool_decide (p.1 = slot) || bool_decide (ws_confirmed p.2 = Some (ws_key p.2)))
    (map_to_list (p_state (pub_ s))) &&
  nonce_used (attempt_of s) (world s).

Lemma taken_check : stuck_check taken = true.
Proof. vm_compute. reflexivity. Qed.

Lemma stuck_check_facts (s : NonceSt) :
  stuck_check s = true → p_chain (pub_ s) = chain →
  stuck chain slot (entry s) (attempt_of s) (λ w, nonce_used (attempt_of s) w = true) s ∧
  slot ∈ todo (p_queue (pub_ s)).
Proof.
  unfold stuck_check.
  intros [[[[[[H1%bool_decide_eq_true_1 H2%bool_decide_eq_true_1]%andb_prop
    H3%bool_decide_eq_true_1]%andb_prop H4%bool_decide_eq_true_1]%andb_prop H5]%andb_prop
    H6]%andb_prop H7]%andb_prop Hc.
  split; [|by apply elem_of_list_to_set]. split; try done.
  - unfold entry in *. by destruct (p_state (pub_ s) !! slot).
  - intros i st' Hi Hst. rewrite forallb_forall in H6. specialize (H6 (i, st')).
    rewrite <- list_elem_of_In, elem_of_map_to_list in H6. specialize (H6 Hst).
    apply orb_prop in H6 as [H6%bool_decide_eq_true_1|H6%bool_decide_eq_true_1]; done.
Qed.

Lemma taken_bound : (n_enq (log taken) <? 2 ^ 64) = true.
Proof. vm_compute. reflexivity. Qed.

Lemma run_chain ds fuel lost :
  n_enq (log (run ds fuel lost)) < 2 ^ 64 → p_chain (pub_ (run ds fuel lost)) = chain.
Proof.
  intros Hb. pose proof (run_launched ds fuel lost) as Hl.
  apply (inv_static _ _ _ _ _ _ (reachable_inv (H := toy_crypto) [] quiet own_signer chain toy_k eq_refl _
    (lifetime_reachable _ _ _ _ _ _ _ _ Hl) Hb)).
Qed.

Lemma taken_chain : p_chain (pub_ taken) = chain.
Proof. apply run_chain, Z.ltb_lt, taken_bound. Qed.

(** From there on, however long it runs, A is not confirmed and the loop does not stop. *)
Lemma doomed_attempt_starves_witness :
  p_state (pub_ (Start quiet 1000 taken)) !! slot = Some (entry taken) ∧
  ws_confirmed (entry taken) ≠ Some (ws_key (entry taken)).
Proof.
  destruct (stuck_check_facts taken taken_check taken_chain) as [Hs Hin].
  destruct (doomed_attempt_starves quiet chain slot (entry taken) (attempt_of taken)
    (λ w, nonce_used (attempt_of taken) w = true)
    (nonce_used_dooms (ws_key (entry taken)) (attempt_of taken)) 1000 taken Hs Hin)
    as (_ & H1 & H2 & _).
  split; [exact H1|exact H2].
Defined.
End NonceV2Witness.
